(* ===== verification/_CoqProject ===== *)
-Q . S2P
Prelude.v
Bitops.v
Div64.v
Ctype.v
Mem.v
Words.v
ByteOrder.v
X86Bitops.v
Macros.v
Str.v
Bounded.v
Strto.v
Charset.v
Vsprintf.v
Format.v
Rbtree.v
RbShape.v
RbBalance.v
RbWalk.v
RbErase.v
RbMap.v
RbAugment.v
State.v
Samples.v
Chains.v
Port.v
ReadyQueue.v
Sched.v
TaskQueue.v
Task.v
Timer.v
Mutex.v
Semaphore.v
Queue.v
Rendezvous.v
Wait.v
Delete.v
Tasklet.v
Blockpool.v
Event.v
Irq.v
Dispatch.v
Tick.v
Device.v
Logger.v
Boot.v
App.v
System.v
Machine.v
Typing.v
Simulator.v
TestApps.v
