(* ===== verification/Prelude.v ===== *)
(** * RosX: a verification development

    RosX is a real-time kernel with preemptive, priority-based scheduling and its own
    small C library.  This development models it in the configuration of the x86
    simulator (src/arch/x86): 32-bit [int], [long] and pointers, little-endian, with
    [CONFIG_TIME_SLICE], [CONFIG_PRIO_INHERITANCE], [CONFIG_KERNEL_PREEMPT] and
    [CONFIG_PRINT_BUFFER] set; the interrupt dispatcher of the ARM port is modelled
    too.

    ** How the parts of the program fit together

    Tasks (rx_task.c) have a priority, 0 the most urgent, and a state.  The runnable
    ones are in one queue, [__rx_task_ready_head], linked through the field [next] and
    sorted by priority; [rx_sched] (rx_sched.c) runs its head.  Every service moves
    tasks with the same two functions, [__rx_add_to_ready_q] and
    [__rx_remove_from_ready_q].  A task that must wait is taken out of the ready queue
    and, through the same field [next], put into the queue of the object it waits for:
    a mutex, a semaphore, a message queue, a block pool, a wait queue, an event group.
    A wait with a timeout also starts a timer on the stack of the task.  The timer
    interrupt (rx_timer.c) counts [jiffies], notifies the timer thread and ends time
    slices; the timer thread wakes up those whose time has come.  Interrupts
    (rx_irq.c, x86_sim.c) run handlers, which may notify events (rx_event.c: a message
    queue read by the event thread) or schedule tasklets (rx_tasklet.c: a list run by
    the bottom-half thread).  On the way out of an interrupt the running task is
    preempted when a more urgent one has become ready.  Messages of the kernel are
    formatted (lib/vsprintf.c) into a ring buffer that the logger thread writes to a
    device (rx_logger.c, rx_device.c).  [__rx_kernel_enter] (rx_init.c) creates the
    system threads and enters the application.

    ** The semantics

    [proc S A] (this file) is the type of a C function on a state [S]: it returns
    ([Done]), faults ([Crash]: a NULL or wild pointer, an address outside a buffer or a
    table, a division by zero, a loop that does not end), or
    gives up the processor ([Switch], with what the task has left to do as a
    continuation).  C integers are numbers in [Z] with the reductions [u32], [s32],
    [u64] and [s64] written where the code converts or wraps around.

    ** The files and the sources they model

    Kernel (src/kernel, state [kst] of State.v: a record with the global variables
    and one store per kind of object, keyed by address):
    - State.v: the structures of src/kernel/include, [load] and [modify]; Samples.v:
      small states for the examples; Chains.v: lists linked through a store
      ([chain], [dchain]).
    - Port.v: rx_enter_critical, rx_exit_critical (src/arch/x86/osport.c).
    - ReadyQueue.v: the ready queue (rx_task.c) and the class [ReadyQueue], which
      states what the other services may rely on.
    - Sched.v: rx_sched and the switch (rx_sched.c, src/arch/x86/switch.h).
    - TaskQueue.v: the queues of waiting tasks, shared by the services.
    - Task.v: rx_task.c; Timer.v and Tick.v: rx_timer.c, src/arch/x86/x86_sim.c;
      Mutex.v: rx_mutex.c; Semaphore.v: rx_semaphore.c; Queue.v: rx_queue.c; Wait.v:
      rx_wait.c; Tasklet.v: rx_tasklet.c; Blockpool.v: rx_blockpool.c; Event.v:
      rx_event.c; Irq.v: rx_irq.c; Device.v: rx_device.c and
      src/drivers/simulator/x86sim.c; Logger.v: rx_logger.c; Boot.v: rx_init.c and
      rx_terminal.c.
    - Dispatch.v: src/arch/arm/rpi/dispatch.c.
    - Delete.v: the deletion of a semaphore, a mutex and a message queue on which tasks
      wait; the class [Drain] is the loop they share.  Rendezvous.v: a read from a message
      queue and a write to it that have to wait, from the beginning to the end.
    - App.v: the application of src/apps/main.c.
    - System.v: a step relation for tasks that make calls and switch, on top of the
      models of the semaphores, the scheduler and the task calls; Machine.v: the same
      with mutexes and with interrupts that preempt the running task at any point.
    - Typing.v: the types of the kernel's pointers, a rule for each construct of the code,
      and the type of every function of the kernel.
    - Simulator.v: the host's [main] (src/arch/x86/x86_sim.c) and an executable processor
      that runs the tasks of a whole system and delivers its ticks; TestApps.v: the
      applications of src/testapps and src/apps, run on it.

    Library (src/lib, on a byte memory [mem], a finite map from addresses):
    - Mem.v, Str.v and Bounded.v: string.c; Ctype.v: ctype.c; Strto.v: strto.c; Charset.v:
      charset.c; Vsprintf.v: vsprintf.c, and Format.v, what a format stands for;
      Div64.v: div64.c, div64.h, math64.h; Bitops.v and Words.v: bitops.h, log2.h,
      asm-generic/bitops, byteorder/swab.h; ByteOrder.v: byteorder and
      src/arch/x86/byteorder.h; X86Bitops.v: src/arch/x86/bitops.h, with the
      instructions it uses; Macros.v: the macros of include/rosx/kernel.h.
    - Rbtree.v: rbtree.c and rbtree.h on a store of nodes; RbShape.v, RbBalance.v,
      RbWalk.v and RbErase.v: its theory; RbMap.v: the search and the insertion by key
      that the header shows; RbAugment.v: trees with data about the subtrees.

    A definition has the name of the function it models; a loop is a [Fixpoint] of
    its own, named after the function.

    ** What the theorems show

    - Scheduling: the ready queue is a list sorted by priority, first in first out
      among equals; adding and removing are insertion and removal in that list
      (refinement), [rx_sched] runs its head, an interrupt that makes a more urgent
      task ready preempts, a used-up time slice moves the task behind its equals.
    - Services: each operation, on each of its branches, changes the abstract object
      as it should (the mutex with its owner and queue, the queue of messages, the
      list of free blocks, ...), keeps the ready queue's invariant, wakes exactly the
      tasks it has to and changes nothing else.
    - Time: the list of active timers stays sorted and doubly linked; a pass of the
      timer thread takes exactly the expired ones and ends.
    - Library: formatted output writes the text its format stands for and nothing
      outside the buffer, whatever its size; what is printed is read back; UTF-8 and
      UTF-16 convert back and forth; [do_div] is division, also by the reciprocal;
      [memcpy], [memmove] and [strtok] do what they say; insertion into and removal from a
      red-black tree keep it red-black, in order and with all its links right, and
      the walks follow its order; with the search by key it is a finite map; after an
      insertion or a removal the augmented data is right at every node; the search for a
      zero bit finds the first one; the ways to round to a power of two agree.
    - The system: in every state that any sequence of calls, switches and interrupts
      reaches, at most one task is inside a mutex, each task is in the queue its control
      block says and no call faults (by induction on the step relation); System.v and
      Machine.v say which calls the application may make.
    - Types: in every state that any calls with arguments of the declared types, threads,
      interrupts and switches reach, every pointer of every structure is NULL or the
      address of an object of its type, and no function follows any other.
    - Termination: the loops that wake the tasks of a deleted object end for every queue;
      elsewhere it is part of the theorems, which say that the functions return.
    - Composition: printing formats into the ring buffer and stays inside; an event
      goes from its notification to the waiting task, a message from its writer to the
      reader that waits for it, a free place from a reader to the writer that waits; the kernel and the application
      start with their threads in the order of the priorities and run the most urgent;
      the application's timer restarts itself each time it expires.
    - Whole systems: each test application, run from the start of the kernel, gives the
      processor to its tasks in the order it is written to show; with priority inheritance
      a task of middle priority does not delay the most urgent one.
    - Where the code does not do what it means to, a theorem says what it does: a
      message written behind the buffer of its queue, a lost post of a semaphore, the
      fault when the last of several timers is stopped, a cycle in the list of
      tasklets, and others.

    ** Bounds

    A loop over a linked structure gets as fuel a number of rounds given by the size of
    the store it walks through ([task_fuel], [timer_fuel], [wq_fuel], [tasklet_fuel],
    [rb_fuel]) or of the memory it reads ([str_fuel]): a walk that meets no object twice
    ends within it.  The theorems show that the functions return, so the fuel is
    enough.  A loop over the bits or digits of a number has its constant number of
    rounds.  Threads that run for ever are modelled as [n] rounds, for every [n].  The
    runs of TestApps.v take [rounds] of them, which is more than they need: more fuel
    never changes the outcome of a run ([run_more_fuel]).  In these runs the ticks arrive
    while a task is in an endless loop.

    ** What is not modelled

    Registers and stacks as memory: the assembly that saves and restores them
    (switch.h, preempt.S, start.S) is the continuation of [Switch].  The contents of the
    kernel's own messages ([pr_error] and the like leave the print buffer alone; their
    effect on the interrupt mask is modelled).  Stubs ([__enable_irq] of the simulator,
    the rest of the ARM port).  The headers of constants and compiler attributes.  One test
    application, test_timer.c, which calls [rx_create_timer] with the arguments of an
    earlier version.  [%ls] of a NULL pointer in formatted output has no result in the
    model.

    Code of the application (handlers, tasklet functions, drivers' operations, task
    bodies, the callbacks of augmented trees), the host's [exit] and [__irq_handler], which the repository does not contain, are parameters
    of the definitions that call them.

    ** Further work

    Message queues and timeouts in the step relation of Machine.v. *)

From stdpp Require Import base gmap list sorting.
From Stdlib Require Import ZArith Lia.
#[local] Open Scope Z_scope.

(** ** C integers *)

(** Conversion to [unsigned int] (32 bits): reduction modulo 2^32. *)
Definition u32 (x : Z) : Z := x mod 2 ^ 32.

(** Conversion to [int] (32 bits, two's complement). *)
Definition s32 (x : Z) : Z := (x + 2 ^ 31) mod 2 ^ 32 - 2 ^ 31.

(** The 64-bit types. *)
Definition u64 (x : Z) : Z := x mod 2 ^ 64.
Definition s64 (x : Z) : Z := (x + 2 ^ 63) mod 2 ^ 64 - 2 ^ 63.

Lemma u64_small x : 0 <= x < 2 ^ 64 -> u64 x = x.
Proof. apply Z.mod_small. Qed.

Lemma u64_range x : 0 <= u64 x < 2 ^ 64.
Proof. apply Z.mod_pos_bound; lia. Qed.

Lemma u32_range x : 0 <= u32 x < 2 ^ 32.
Proof. apply Z.mod_pos_bound; lia. Qed.

Lemma u32_small x : 0 <= x < 2 ^ 32 -> u32 x = x.
Proof. apply Z.mod_small. Qed.

Lemma s32_range x : - 2 ^ 31 <= s32 x < 2 ^ 31.
Proof. unfold s32. pose proof (Z.mod_pos_bound (x + 2 ^ 31) (2 ^ 32)). lia. Qed.

Lemma s32_small x : - 2 ^ 31 <= x < 2 ^ 31 -> s32 x = x.
Proof. intros. unfold s32. rewrite Z.mod_small; lia. Qed.

(** ** A resumption monad for kernel code

    A C function of the kernel maps a state to an outcome: it returns a value,
    it faults (an access the C standard leaves undefined), or it gives the
    processor away.  [Switch s k] is the last case: the processor runs another
    task from the state [s], and [k] is what is left of this function, to run
    from the state in which the scheduler later switches back to its task. *)

Inductive fault :=
  | NullDeref   (* access through a NULL pointer *)
  | WildPtr     (* access through a pointer to no object *)
  | BadAddr     (* access to raw memory or a table outside its bounds *)
  | DivByZero   (* division by zero *)
  | NoFuel.     (* a loop that ran longer than its bound *)

#[export] Instance fault_eq_dec : EqDecision fault.
Proof. solve_decision. Defined.

Inductive outcome (S A : Type) : Type :=
  | Done (a : A) (s : S)
  | Crash (f : fault)
  | Switch (s : S) (k : S -> outcome S A).
Arguments Done {S A} a s.
Arguments Crash {S A} f.
Arguments Switch {S A} s k.

Definition proc (S A : Type) : Type := S -> outcome S A.

Fixpoint obind {S A B} (o : outcome S A) (f : A -> proc S B) : outcome S B :=
  match o with
  | Done a s => f a s
  | Crash e => Crash e
  | Switch s k => Switch s (fun s' => obind (k s') f)
  end.

Definition ret {S A} (a : A) : proc S A := fun s => Done a s.
Definition bind {S A B} (m : proc S A) (f : A -> proc S B) : proc S B :=
  fun s => obind (m s) f.
#[global] Arguments bind : simpl never.
Definition get {S} : proc S S := fun s => Done s s.
Definition put {S} (s' : S) : proc S unit := fun _ => Done tt s'.
Definition gets {S A} (f : S -> A) : proc S A := fun s => Done (f s) s.
Definition upd {S} (f : S -> S) : proc S unit := fun s => Done tt (f s).
Definition crash {S A} (e : fault) : proc S A := fun _ => Crash e.

(** The equations the execution of a program follows. *)
Section Equations.
  Context {S A B C : Type}.
  Implicit Types (s : S).

Lemma bind_ret (a : A) (k : A -> proc S B) s : bind (ret a) k s = k a s.
Proof. done. Qed.
Lemma bind_get (k : S -> proc S B) s : bind get k s = k s s.
Proof. done. Qed.
Lemma bind_put (s1 : S) (k : unit -> proc S B) s : bind (put s1) k s = k tt s1.
Proof. done. Qed.
Lemma bind_gets (f : S -> A) (k : A -> proc S B) s : bind (gets f) k s = k (f s) s.
Proof. done. Qed.
Lemma bind_upd (f : S -> S) (k : unit -> proc S B) s : bind (upd f) k s = k tt (f s).
Proof. done. Qed.
Lemma bind_bind (m : proc S A) (f : A -> proc S B) (g : B -> proc S C) s :
  bind (bind m f) g s = obind (bind m f s) g.
Proof. done. Qed.
Lemma obind_ret (a : A) (k : A -> proc S B) s : obind (ret a s) k = k a s.
Proof. done. Qed.
Lemma obind_upd (f : S -> S) (k : unit -> proc S B) s : obind (upd f s) k = k tt (f s).
Proof. done. Qed.
Lemma obind_gets (f : S -> A) (k : A -> proc S B) s : obind (gets f s) k = k (f s) s.
Proof. done. Qed.
Lemma bind_run (m : proc S A) (k : A -> proc S B) s a s' :
  m s = Done a s' -> bind m k s = k a s'.
Proof. intros E. unfold bind. by rewrite E. Qed.
Lemma obind_run (m : proc S A) (k : A -> proc S B) s a s' :
  m s = Done a s' -> obind (m s) k = k a s'.
Proof. intros E. by rewrite E. Qed.
Lemma bind_crash (m : proc S A) (k : A -> proc S B) s e :
  m s = Crash e -> bind m k s = Crash e.
Proof. intros E. unfold bind. by rewrite E. Qed.
Lemma bind_switch (m : proc S A) (k : A -> proc S B) s s' c :
  m s = Switch s' c -> bind m k s = Switch s' (fun s2 => obind (c s2) k).
Proof. intros E. unfold bind. by rewrite E. Qed.

End Equations.

Create HintDb rosx.

Declare Scope rosx_scope.
Delimit Scope rosx_scope with rosx.
Notation "'let!' x := m 'in' k" := (bind m (fun x => k))
  (at level 10, x pattern, m at level 100, k at level 200,
   format "'[v' 'let!'  x  :=  m  'in' '//' k ']'") : rosx_scope.
Notation "m ;;; k" := (bind m (fun _ => k))
  (at level 90, right associativity, format "'[v' m ;;; '//' k ']'") : rosx_scope.
Notation "'when' b 'do' m" := (if b then m else ret tt)
  (at level 89, b at level 99, m at level 89) : rosx_scope.

(** ** Lists without duplicates *)

Lemma nodup_mid {A} (l1 l2 : list A) x : NoDup (l1 ++ x :: l2) -> x ∉ l1 ++ l2.
Proof.
  intros (_ & Hd & Hn)%NoDup_app. inversion Hn; subst.
  intros [?|?]%elem_of_app; [|done]. eapply Hd; set_solver.
Qed.
