(* ===== verification/Bitops.v ===== *)
(** * Bit operations and logarithms
      (src/include/rosx/bitops.h, src/include/asm-generic/bitops/, src/include/rosx/log2.h)

    Searches for the first and the last bit set, by halving the word, and the
    base-2 logarithms built on them.  A word is its value; [x <<= k] keeps the low
    32 bits. *)

From stdpp Require Import base list.
From Stdlib Require Import ZArith Lia.
From S2P Require Import Prelude.
#[local] Open Scope Z_scope.

(** One step of a search: [if (!(x & mask)) { x <<= k; r -= k; }]. *)
Definition fls_step (mask k : Z) (xr : Z * Z) : Z * Z :=
  let '(x, r) := xr in
  if decide (Z.land x mask = 0) then (u32 (Z.shiftl x k), r - k) else (x, r).

Definition fls (x : Z) : Z :=
  if decide (x = 0) then 0
  else
    let xr := fls_step 0xffff0000 16 (x, 32) in
    let xr := fls_step 0xff000000 8 xr in
    let xr := fls_step 0xf0000000 4 xr in
    let xr := fls_step 0xc0000000 2 xr in
    let xr := fls_step 0x80000000 1 xr in
    snd xr.

(** The same function in rosx/bitops.h. *)
Definition generic_fls (x : Z) : Z :=
  if decide (x = 0) then 0
  else
    let xr := fls_step 0xffff0000 16 (x, 32) in
    let xr := fls_step 0xff000000 8 xr in
    let xr := fls_step 0xf0000000 4 xr in
    let xr := fls_step 0xc0000000 2 xr in
    let xr := fls_step 0x80000000 1 xr in
    snd xr.

(** [if (!(x & mask)) { x >>= k; r += k; }] on the [int] [x]. *)
Definition ffs_step (mask k : Z) (xr : Z * Z) : Z * Z :=
  let '(x, r) := xr in
  if decide (Z.land x mask = 0) then (Z.shiftr x k, r + k) else (x, r).

Definition generic_ffs (x : Z) : Z :=
  if decide (x = 0) then 0
  else
    let xr := ffs_step 0xffff 16 (x, 1) in
    let xr := ffs_step 0xff 8 xr in
    let xr := ffs_step 0xf 4 xr in
    let xr := ffs_step 3 2 xr in
    let xr := ffs_step 1 1 xr in
    snd xr.

(** [BITS_PER_LONG] is 32. *)
Definition fls64 (x : Z) : Z :=
  let h := u32 (Z.shiftr x 32) in
  if decide (h <> 0) then fls h + 32 else fls (u32 x).

Definition fls_long (l : Z) : Z := fls l.

Definition __ilog2_u32 (n : Z) : Z := fls n - 1.
Definition __ilog2_u64 (n : Z) : Z := fls64 n - 1.

Definition is_power_of_2 (n : Z) : bool :=
  negb (n =? 0) && (Z.land n (n - 1) =? 0).

(** [1UL << k] is defined for [k] below 32; [None] is a shift by more. *)
Definition shl1 (k : Z) : option Z := if decide (0 <= k < 32) then Some (2 ^ k) else None.
Definition __roundup_pow_of_two (n : Z) : option Z := shl1 (fls_long (u32 (n - 1))).
Definition __rounddown_pow_of_two (n : Z) : option Z := shl1 (fls_long n - 1).

(** [ilog2] of a constant: the first of the tests of the bits 63 to 0 that
    succeeds; [None] is [____ilog2_NaN], an error when the program is linked. *)
Definition ilog2 (n : Z) : option Z :=
  if decide (n < 1) then None
  else
    head (filter (fun k => Z.land n (Z.shiftl 1 k) <> 0) (Z.of_nat <$> reverse (seq 0 64))).

(** ** The last bit set *)

Lemma high_mask k : 0 <= k <= 32 -> 2 ^ 32 - 2 ^ k = Z.shiftl (Z.ones (32 - k)) k.
Proof.
  intros Hk. rewrite Z.shiftl_mul_pow2, Z.ones_equiv by lia.
  replace (2 ^ 32) with (2 ^ (32 - k) * 2 ^ k) by (rewrite <-Z.pow_add_r by lia; f_equal; lia). lia.
Qed.

Lemma land_high x k : 0 <= k <= 32 -> 0 <= x < 2 ^ 32 ->
  Z.land x (2 ^ 32 - 2 ^ k) = 0 <-> x < 2 ^ k.
Proof.
  intros Hk Hx.
  rewrite high_mask by done. split.
  - intros H. destruct (Z.lt_ge_cases x (2 ^ k)) as [|Hge]; [done|exfalso].
    assert (H0 : 0 < x) by (pose proof (Z.pow_pos_nonneg 2 k); lia).
    pose proof (proj1 (Z.log2_le_pow2 x k H0) Hge). pose proof (proj1 (Z.log2_lt_pow2 x 32 H0) ltac:(lia)).
    apply (f_equal (fun z => Z.testbit z (Z.log2 x))) in H.
    rewrite Z.land_spec, Z.bit_log2, Z.shiftl_spec, Z.ones_spec_low, Z.bits_0 in H by lia. done.
  - intros H. apply Z.bits_inj'. intros i Hi. rewrite Z.land_spec, Z.bits_0, Z.shiftl_spec by done.
    destruct (Z.lt_ge_cases i k).
    + rewrite (Z.testbit_neg_r _ (i - k)) by lia. apply andb_false_r.
    + destruct (Z.eq_dec x 0) as [->|]; [by rewrite Z.bits_0|].
      rewrite (Z.bits_above_log2 x i); [done|lia|]. pose proof (proj1 (Z.log2_lt_pow2 x k ltac:(lia)) H). lia.
Qed.

(** Each step keeps [x] a shift of [x0] by [32 - r] bits and halves the number of
    leading zero bits it may have. *)
Lemma fls_step_ok x0 x r k mask :
  0 < k <= 16 -> 0 < x0 -> mask = 2 ^ 32 - 2 ^ (32 - k) -> r <= 32 ->
  x = x0 * 2 ^ (32 - r) -> 2 ^ (32 - 2 * k) <= x < 2 ^ 32 ->
  let '(x', r') := fls_step mask k (x, r) in
  r' <= 32 /\ x' = x0 * 2 ^ (32 - r') /\ 2 ^ (32 - k) <= x' < 2 ^ 32.
Proof.
  intros Hk H0 -> Hr Hx Hb. unfold fls_step. case_decide as Hd.
  - apply land_high in Hd; [|lia..]. rewrite Z.shiftl_mul_pow2 by lia.
    assert (x * 2 ^ k < 2 ^ 32).
    { replace (2 ^ 32) with (2 ^ (32 - k) * 2 ^ k) by (rewrite <-Z.pow_add_r by lia; f_equal; lia).
      apply Z.mul_lt_mono_pos_r; [apply Z.pow_pos_nonneg; lia|done]. }
    assert (2 ^ (32 - k) <= x * 2 ^ k).
    { replace (2 ^ (32 - k)) with (2 ^ (32 - 2 * k) * 2 ^ k) by (rewrite <-Z.pow_add_r by lia; f_equal; lia).
      apply Z.mul_le_mono_nonneg_r; [apply Z.pow_nonneg; lia|lia]. }
    rewrite u32_small by lia. split; [lia|]. split; [|lia].
    rewrite Hx, <-Z.mul_assoc, <-Z.pow_add_r by lia. do 2 f_equal. lia.
  - rewrite land_high in Hd by lia. split; [done|]. split; [done|lia].
Qed.

Lemma fls_spec x : 0 < x < 2 ^ 32 -> fls x = Z.log2 x + 1.
Proof.
  intros Hx. unfold fls. rewrite decide_False by lia.
  pose proof (fls_step_ok x x 32 16 0xffff0000) as HF.
  destruct (fls_step 0xffff0000 16 (x, 32)) as [x1 r1]. destruct HF as (? & ? & ?); [lia..|].
  pose proof (fls_step_ok x x1 r1 8 0xff000000) as HF.
  destruct (fls_step 0xff000000 8 (x1, r1)) as [x2 r2]. destruct HF as (? & ? & ?); [lia..|].
  pose proof (fls_step_ok x x2 r2 4 0xf0000000) as HF.
  destruct (fls_step 0xf0000000 4 (x2, r2)) as [x3 r3]. destruct HF as (? & ? & ?); [lia..|].
  pose proof (fls_step_ok x x3 r3 2 0xc0000000) as HF.
  destruct (fls_step 0xc0000000 2 (x3, r3)) as [x4 r4]. destruct HF as (? & ? & ?); [lia..|].
  pose proof (fls_step_ok x x4 r4 1 0x80000000) as HF.
  destruct (fls_step 0x80000000 1 (x4, r4)) as [x5 r5]. destruct HF as (? & E & ?); [lia..|].
  cbn [snd]. assert (HL : Z.log2 x5 = 31) by (apply Z.log2_unique; lia).
  rewrite E, Z.log2_mul_pow2 in HL by lia. lia.
Qed.

Lemma fls_0 : fls 0 = 0.
Proof. done. Qed.

Lemma fls64_spec x : 0 < x < 2 ^ 64 -> fls64 x = Z.log2 x + 1.
Proof.
  intros Hx. unfold fls64. rewrite Z.shiftr_div_pow2 by lia. rewrite (u32_small (x / 2 ^ 32)) by
    (split; [apply Z.div_pos; lia|apply Z.div_lt_upper_bound; lia]).
  case_decide as Hd.
  - rewrite fls_spec by (split; [pose proof (Z.div_pos x (2 ^ 32)); lia|apply Z.div_lt_upper_bound; lia]).
    rewrite <-Z.shiftr_div_pow2, Z.log2_shiftr by lia.
    assert (2 ^ 32 <= x) by (destruct (Z.lt_ge_cases x (2 ^ 32)); [rewrite Z.div_small in Hd; lia|done]).
    pose proof (proj1 (Z.log2_le_pow2 x 32 ltac:(lia)) H). lia.
  - assert (x < 2 ^ 32) by (pose proof (Z.div_mod x (2 ^ 32)); pose proof (Z.mod_pos_bound x (2 ^ 32)); lia).
    rewrite u32_small by lia. apply fls_spec. lia.
Qed.

(** ** Logarithms *)

Lemma ilog2_u32_spec n : 0 < n < 2 ^ 32 -> __ilog2_u32 n = Z.log2 n.
Proof. intros. unfold __ilog2_u32. rewrite fls_spec; lia. Qed.

Lemma ilog2_u64_spec n : 0 < n < 2 ^ 64 -> __ilog2_u64 n = Z.log2 n.
Proof. intros. unfold __ilog2_u64. rewrite fls64_spec; lia. Qed.

(** The smallest power of two that is not below [n], and the largest one that is
    not above it. *)
Lemma roundup_spec n : 1 <= n <= 2 ^ 31 ->
  exists k, __roundup_pow_of_two n = Some (2 ^ k) /\ 0 <= k /\ n <= 2 ^ k /\ (n = 1 \/ 2 ^ (k - 1) < n).
Proof.
  intros Hn. unfold __roundup_pow_of_two, fls_long. rewrite u32_small by lia.
  destruct (Z.eq_dec n 1) as [->|Hn1]; [exists 0; split; [done|split; [lia|split; [done|by left]]]|].
  rewrite fls_spec by lia. pose proof (Z.log2_spec (n - 1) ltac:(lia)).
  pose proof (Z.log2_nonneg (n - 1)). pose proof (Z.log2_lt_pow2 (n - 1) 31 ltac:(lia)).
  exists (Z.log2 (n - 1) + 1). unfold shl1. rewrite decide_True by lia.
  split; [done|]. split; [lia|]. split; [lia|right].
  replace (Z.log2 (n - 1) + 1 - 1) with (Z.log2 (n - 1)) by lia. lia.
Qed.

Lemma rounddown_spec n : 0 < n < 2 ^ 32 ->
  exists k, __rounddown_pow_of_two n = Some (2 ^ k) /\ 0 <= k /\ 2 ^ k <= n < 2 ^ (k + 1).
Proof.
  intros Hn. unfold __rounddown_pow_of_two, fls_long. rewrite fls_spec by lia.
  pose proof (Z.log2_spec n ltac:(lia)). pose proof (Z.log2_nonneg n).
  pose proof (Z.log2_lt_pow2 n 32 ltac:(lia)).
  exists (Z.log2 n). unfold shl1. rewrite decide_True by lia.
  replace (Z.log2 n + 1 - 1) with (Z.log2 n) by lia. split; [done|]. split; [done|]. by rewrite <-Z.add_1_r in *.
Qed.

Lemma is_power_of_2_spec n : 0 <= n -> is_power_of_2 n = true <-> exists k, 0 <= k /\ n = 2 ^ k.
Proof.
  intros Hn. unfold is_power_of_2. rewrite andb_true_iff, negb_true_iff, Z.eqb_neq, Z.eqb_eq. split.
  - intros [H0 Hl]. exists (Z.log2 n). split; [apply Z.log2_nonneg|].
    pose proof (Z.log2_spec n ltac:(lia)) as [H1 H2]. rewrite <-Z.add_1_r in H2.
    destruct (Z.eq_dec n (2 ^ Z.log2 n)) as [|Hne]; [done|exfalso].
    apply (f_equal (fun z => Z.testbit z (Z.log2 n))) in Hl.
    assert (HL : Z.log2 (n - 1) = Z.log2 n) by (apply Z.log2_unique; [apply Z.log2_nonneg|lia]).
    rewrite Z.land_spec, Z.bit_log2, <-HL, Z.bit_log2, Z.bits_0 in Hl by (pose proof (Z.log2_nonneg n); lia).
    done.
  - intros (k & Hk & ->). pose proof (Z.pow_pos_nonneg 2 k). split; [lia|].
    rewrite Z.sub_1_r, <-Z.ones_equiv, Z.land_ones, Z.mod_same by lia. done.
Qed.

(** The constant form agrees with the function. *)
Lemma ilog2_const_spec n : 0 < n < 2 ^ 64 -> ilog2 n = Some (Z.log2 n).
Proof.
  intros Hn. unfold ilog2. rewrite decide_False by lia.
  pose proof (Z.log2_nonneg n). pose proof (proj1 (Z.log2_lt_pow2 n 64 ltac:(lia)) ltac:(lia)) as Hlt.
  assert (Hbit : forall k, 0 <= k -> Z.land n (Z.shiftl 1 k) <> 0 <-> Z.testbit n k = true).
  { intros k Hk. rewrite Z.shiftl_mul_pow2, Z.mul_1_l by done. split.
    - intros H1. destruct (Z.testbit n k) eqn:E; [done|]. destruct H1. apply Z.bits_inj'. intros i Hi.
      rewrite Z.land_spec, Z.bits_0, Z.pow2_bits_eqb by done.
      destruct (Z.eqb_spec k i) as [<-|]; [by rewrite E|apply andb_false_r].
    - intros H1 H2. apply (f_equal (fun z => Z.testbit z k)) in H2.
      by rewrite Z.land_spec, H1, Z.pow2_bits_true, Z.bits_0 in H2 by done. }
  enough (HF : forall m, (m <= 64)%nat -> Z.log2 n < Z.of_nat m ->
    head (filter (fun k => Z.land n (Z.shiftl 1 k) <> 0) (Z.of_nat <$> reverse (seq 0 m))) = Some (Z.log2 n))
    by (apply HF; lia).
  induction m as [|m IH]; intros Hm Hk; [lia|]. rewrite seq_S, reverse_snoc, fmap_cons, filter_cons.
  cbn [plus]. case_decide as Hd.
  - rewrite Hbit in Hd by lia. simpl. f_equal.
    destruct (Z.eq_dec (Z.of_nat m) (Z.log2 n)); [done|]. rewrite Z.bits_above_log2 in Hd by lia. done.
  - apply IH; [lia|]. specialize (Hbit (Z.of_nat m) ltac:(lia)).
    destruct (Z.eq_dec (Z.of_nat m) (Z.log2 n)) as [E|]; [|lia]. exfalso.
    by apply (proj2 Hbit); [rewrite E; apply Z.bit_log2; lia|].
Qed.

(** ** The first bit set *)

(** Each step keeps [x * 2 ^ (r - 1) = x0] and halves the number of trailing zero
    bits [x] may have. *)
Lemma ffs_step_ok x0 x r k mask :
  0 < k -> mask = Z.ones k -> 1 <= r -> x * 2 ^ (r - 1) = x0 -> x mod 2 ^ (2 * k) <> 0 ->
  let '(x', r') := ffs_step mask k (x, r) in
  1 <= r' /\ x' * 2 ^ (r' - 1) = x0 /\ x' mod 2 ^ k <> 0.
Proof.
  intros Hk -> Hr Hx Hm. unfold ffs_step. rewrite Z.land_ones by lia. case_decide as Hd; [|done].
  rewrite Z.shiftr_div_pow2 by lia. pose proof (Z.pow_pos_nonneg 2 k).
  pose proof (Z.div_mod x (2 ^ k) ltac:(lia)) as E. rewrite Hd, Z.add_0_r in E.
  split; [lia|]. split.
  - rewrite <-Hx. rewrite E at 2. replace (r + k - 1) with (k + (r - 1)) by lia.
    rewrite Z.pow_add_r by lia. lia.
  - intros H0. destruct Hm. rewrite E. replace (2 * k) with (k + k) by lia.
    rewrite Z.pow_add_r, Z.mul_mod_distr_l by lia. rewrite H0. lia.
Qed.

(** The result is the place of the lowest bit set, counted from 1. *)
Lemma generic_ffs_lowest x : x mod 2 ^ 32 <> 0 ->
  exists y, x = (2 * y + 1) * 2 ^ (generic_ffs x - 1) /\ 1 <= generic_ffs x.
Proof.
  intros Hm. unfold generic_ffs. rewrite decide_False by (by intros ->).
  pose proof (ffs_step_ok x x 1 16 0xffff) as HF.
  destruct (ffs_step 0xffff 16 (x, 1)) as [x1 r1]. destruct HF as (? & ? & ?); [done || lia..|].
  pose proof (ffs_step_ok x x1 r1 8 0xff) as HF.
  destruct (ffs_step 0xff 8 (x1, r1)) as [x2 r2]. destruct HF as (? & ? & ?); [done || lia..|].
  pose proof (ffs_step_ok x x2 r2 4 0xf) as HF.
  destruct (ffs_step 0xf 4 (x2, r2)) as [x3 r3]. destruct HF as (? & ? & ?); [done || lia..|].
  pose proof (ffs_step_ok x x3 r3 2 3) as HF.
  destruct (ffs_step 3 2 (x3, r3)) as [x4 r4]. destruct HF as (? & ? & ?); [done || lia..|].
  pose proof (ffs_step_ok x x4 r4 1 1) as HF.
  destruct (ffs_step 1 1 (x4, r4)) as [x5 r5]. destruct HF as (? & E & ?); [done || lia..|].
  cbn [snd]. exists (x5 / 2). split; [|done]. rewrite <-E. f_equal.
  pose proof (Z.div_mod x5 2). pose proof (Z.mod_pos_bound x5 2). change (2 ^ 1) with 2 in *. lia.
Qed.

Lemma generic_ffs_spec x : - 2 ^ 31 <= x < 2 ^ 31 -> x <> 0 ->
  exists y, x = (2 * y + 1) * 2 ^ (generic_ffs x - 1) /\ 1 <= generic_ffs x.
Proof.
  intros Hx Hx0. apply generic_ffs_lowest. intros E. pose proof (Z.div_mod x (2 ^ 32)). lia.
Qed.
