(* ===== verification/Div64.v ===== *)
(** * 64-bit division on a 32-bit machine
      (src/lib/div64.c, src/include/div64.h, src/include/rosx/math64.h)

    [do_div] divides a 64-bit number by a 32-bit one: by a constant with a
    multiplication by its reciprocal ([__div64_const32]), by a variable with
    32-bit division when the dividend fits, and with shift and subtract
    ([__div64_32]) otherwise.  The other functions are built on it.  Numbers are
    their values; [None] is a division by zero (or a loop that does not end). *)

From stdpp Require Import base list.
From Stdlib Require Import ZArith Znumtheory Zpow_facts Lia.
From S2P Require Import Prelude Bitops.
#[local] Open Scope Z_scope.

Definition bool_Z (b : bool) : Z := if b then 1 else 0.

(** ** The loop of [__div64_32] *)

(** [while ((int64_t)b > 0 && b < rem) { b = b+b; d = d+d; }]: the top bit of [b]
    is set after 64 rounds. *)
Fixpoint div_grow (n : nat) (rem b d : Z) : option (Z * Z) :=
  match n with
  | O => None
  | S n =>
    if decide (s64 b > 0 /\ b < rem) then div_grow n rem (u64 (b + b)) (u64 (d + d)) else Some (b, d)
  end.

(** [do { if (rem >= b) { rem -= b; res += d; } b >>= 1; d >>= 1; } while (d);]. *)
Fixpoint div_reduce (n : nat) (rem b d res : Z) : option (Z * Z) :=
  match n with
  | O => None
  | S n =>
    let '(rem, res) := if decide (rem >= b) then (u64 (rem - b), u64 (res + d)) else (rem, res) in
    let b := Z.shiftr b 1 in
    let d := Z.shiftr d 1 in
    if decide (d <> 0) then div_reduce n rem b d res else Some (res, rem)
  end.

(** The new [*n] and the remainder. *)
Definition __div64_32 (n base : Z) : option (Z * Z) :=
  let rem := n in
  let b := base in
  let d := 1 in
  let high := u32 (Z.shiftr rem 32) in
  if decide (base = 0) then None
  else
    let '(res, rem) :=
      if decide (high >= base) then
        let high := high / base in
        (u64 (Z.shiftl high 32), u64 (rem - u64 (Z.shiftl (u32 (high * base)) 32)))
      else (0, rem) in
    '(b, d) ← div_grow 65 rem b d;
    '(res, rem) ← div_reduce 65 rem b d res;
    Some (res, u32 rem).

(** ** Division by a constant *)

Definition lo32 (x : Z) : Z := Z.land x 0xffffffff.
Definition hi32 (x : Z) : Z := Z.shiftr x 32.

Definition __arch_xprod_64 (m n : Z) (bias : bool) : Z :=
  let m_lo := u32 m in
  let m_hi := u32 (Z.shiftr m 32) in
  let n_lo := u32 n in
  let n_hi := u32 (Z.shiftr n 32) in
  let top := Z.land m (Z.lor (Z.shiftl 1 63) (Z.shiftl 1 31)) in
  let res :=
    if negb bias then Z.shiftr (u64 (m_lo * n_lo)) 32
    else if decide (top = 0) then Z.shiftr (u64 (m + m_lo * n_lo)) 32
    else
      let res := u64 (m + m_lo * n_lo) in
      let tmp := if decide (res < m) then Z.shiftl 1 32 else 0 in
      u64 (Z.shiftr res 32 + tmp) in
  let res :=
    if decide (top = 0) then
      let res := u64 (res + m_lo * n_hi) in
      let res := u64 (res + m_hi * n_lo) in
      Z.shiftr res 32
    else
      let res := u64 (res + m_lo * n_hi) in
      let tmp := res in
      let res := u64 (res + m_hi * n_lo) in
      let tmp := if decide (res < tmp) then Z.shiftl 1 32 else 0 in
      u64 (Z.shiftr res 32 + tmp) in
  u64 (res + m_hi * n_hi).

Definition max64 : Z := 2 ^ 64 - 1.

(** [m = ((p << 64) + b - 1) / b] and [m = (p << 64) / b]. *)
Definition recip_ceil (b p : Z) : Z :=
  let m := u64 (max64 / b * p) in
  u64 (m + u64 (u64 ((max64 mod b + 1) * p) + b - 1) / b).
Definition recip_floor (b p : Z) : Z :=
  let m := u64 (max64 / b * p) in
  u64 (m + u64 ((max64 mod b + 1) * p) / b).

(** The test of [m]: [m * x / (p << 64)]. *)
Definition recip_prod (m x p : Z) : Z :=
  let res := Z.shiftr (u64 (lo32 m * lo32 x)) 32 in
  let res := u64 (res + lo32 m * hi32 x) in
  let t := res in
  let res := u64 (res + lo32 x * hi32 m) in
  let t := if decide (res < t) then Z.shiftl 1 32 else 0 in
  let res := u64 (Z.shiftr res 32 + t) in
  let res := u64 (res + hi32 m * hi32 x) in
  res / p.

(** The bits by which [m] and [p] can be reduced. *)
Definition recip_bits (m : Z) : Z :=
  let bits := u32 (- Z.land m (u64 (- m))) in
  let bits := Z.lor bits (u32 (Z.shiftr m 32)) in
  u32 (Z.shiftl (u32 (Z.lnot bits)) 1).

(** What the compiler computes for the constant [b]: the divisor of [n] to take
    first, the multiplier [m], the divisor [p] of the product and the bias. *)
Definition const32_params (b : Z) : option (Z * Z * Z * bool) :=
  k ← ilog2 b;
  let p := u32 (Z.shiftl 1 k) in
  let m := recip_ceil b p in
  let x := u64 (max64 / b * b - 1) in
  let res := recip_prod m x p in
  let low := Z.land b (u32 (- b)) in
  if decide (max64 mod (b / low) = 0) then Some (low, max64 / (b / low), 1, true)
  else if decide (res <> x / b) then Some (1, recip_floor b p, p, true)
  else
    let bits := recip_bits m in
    if decide (bits = 0) then
      let m1 := Z.land m (u64 (- m)) in Some (1, m / m1, u32 (p / m1), false)
    else
      k ← ilog2 bits;
      Some (1, Z.shiftr m k, Z.shiftr p k, false).

Definition __div64_const32 (n b : Z) : option Z :=
  '(q, m, p, bias) ← const32_params b;
  if decide (p = 0) then None else Some (__arch_xprod_64 m (n / q) bias / p).

(** ** do_div *)

(** [constant] says whether the base is a constant of the program. *)
Definition do_div (constant : bool) (n base : Z) : option (Z * Z) :=
  if constant && is_power_of_2 base then
    k ← ilog2 base; Some (Z.shiftr n k, u32 (Z.land n (base - 1)))
  else if constant && negb (base =? 0) then
    q ← __div64_const32 n base; Some (q, u32 (u32 n - u32 (u32 q * base)))
  else if decide (Z.shiftr n 32 = 0) then
    if decide (base = 0) then None else Some (u32 n / base, u32 n mod base)
  else __div64_32 n base.

Definition lldiv (dividend divisor : Z) : option Z :=
  '(q, _) ← do_div false dividend divisor; Some q.

Definition div_u64_rem (dividend divisor : Z) : option (Z * Z) := do_div false dividend divisor.

Definition div_u64 (dividend divisor : Z) : option Z :=
  '(q, _) ← div_u64_rem dividend divisor; Some q.

(** [abs] of [rosx/kernel.h]: [long] and [int] have 32 bits. *)
Definition abs (x : Z) : Z := let x := s32 x in if decide (x < 0) then s32 (- x) else x.

Definition div_s64_rem (dividend divisor : Z) : option (Z * Z) :=
  if decide (dividend < 0) then
    '(quotient, remainder) ← div_u64_rem (u64 (- dividend)) (u32 (abs divisor));
    let remainder := s32 (- s32 remainder) in
    let quotient := if decide (divisor > 0) then u64 (- quotient) else quotient in
    Some (s64 quotient, remainder)
  else
    '(quotient, remainder) ← div_u64_rem (u64 dividend) (u32 (abs divisor));
    let remainder := s32 remainder in
    let quotient := if decide (divisor < 0) then u64 (- quotient) else quotient in
    Some (s64 quotient, remainder).

Definition div_s64 (dividend divisor : Z) : option Z :=
  '(q, _) ← div_s64_rem dividend divisor; Some q.

Definition div64_u64_rem (dividend divisor : Z) : option (Z * Z) :=
  let high := u32 (Z.shiftr divisor 32) in
  if decide (high = 0) then div_u64_rem dividend (u32 divisor)
  else
    let n := 1 + fls high in
    quot ← div_u64 (Z.shiftr dividend n) (u32 (Z.shiftr divisor n));
    let quot := if decide (quot <> 0) then quot - 1 else quot in
    let remainder := u64 (dividend - u64 (quot * divisor)) in
    if decide (remainder >= divisor) then Some (u64 (quot + 1), u64 (remainder - divisor))
    else Some (quot, remainder).

Definition div64_u64 (dividend divisor : Z) : option Z :=
  let high := u32 (Z.shiftr divisor 32) in
  if decide (high = 0) then div_u64 dividend (u32 divisor)
  else
    let n := 1 + fls high in
    quot ← div_u64 (Z.shiftr dividend n) (u32 (Z.shiftr divisor n));
    let quot := if decide (quot <> 0) then quot - 1 else quot in
    if decide (u64 (dividend - u64 (quot * divisor)) >= divisor) then Some (u64 (quot + 1))
    else Some quot.

(** [abs] cuts its argument to 32 bits; the call converts its result to [u64]. *)
Definition div64_s64 (dividend divisor : Z) : option Z :=
  quot ← div64_u64 (u64 (abs dividend)) (u64 (abs divisor));
  let quot := s64 quot in
  let t := Z.shiftr (Z.lxor dividend divisor) 63 in
  Some (s64 (Z.lxor quot t - t)).

(** [while (dividend >= divisor) { dividend -= divisor; ret++; }]. *)
Fixpoint iter_div_loop (n : nat) (dividend divisor ret : Z) : option (Z * Z) :=
  match n with
  | O => None
  | S n =>
    if decide (dividend >= divisor) then iter_div_loop n (u64 (dividend - divisor)) divisor (u32 (ret + 1))
    else Some (ret, dividend)
  end.

Definition iter_div_u64_rem (dividend divisor : Z) : option (Z * Z) :=
  iter_div_loop (S (Z.to_nat (dividend / divisor))) dividend divisor 0.

(** ** Products *)

Definition mul_u32_u32 (a b : Z) : Z := u64 (a * b).

Definition mul_u64_u32_shr (a mul shift : Z) : Z :=
  let al := u32 a in
  let ah := u32 (Z.shiftr a 32) in
  let ret := Z.shiftr (mul_u32_u32 al mul) shift in
  if decide (ah <> 0) then u64 (ret + u64 (Z.shiftl (mul_u32_u32 ah mul) (32 - shift))) else ret.

(** A 64-bit number is its two halves, [l.low] and [l.high]. *)
Definition join (low high : Z) : Z := low + 2 ^ 32 * high.

Definition mul_u64_u64_shr (a b shift : Z) : Z :=
  let a_lo := u32 a in let a_hi := hi32 a in
  let b_lo := u32 b in let b_hi := hi32 b in
  let rl := mul_u32_u32 a_lo b_lo in
  let rm := mul_u32_u32 a_lo b_hi in
  let rn := mul_u32_u32 a_hi b_lo in
  let rh := mul_u32_u32 a_hi b_hi in
  let c := u64 (hi32 rl + u32 rm + u32 rn) in
  let rl := join (u32 rl) (u32 c) in
  let c := u64 (Z.shiftr c 32 + hi32 rm + hi32 rn + u32 rh) in
  let rh := join (u32 c) (hi32 rh) in
  let rh := join (u32 rh) (u32 (Z.shiftr c 32 + hi32 rh)) in
  if decide (shift = 0) then rl
  else if decide (shift < 64) then Z.lor (Z.shiftr rl shift) (u64 (Z.shiftl rh (64 - shift)))
  else Z.shiftr rh (Z.land shift 63).

Definition mul_u64_u32_div (a mul divisor : Z) : option Z :=
  let rl := mul_u32_u32 (u32 a) mul in
  let rh := u64 (mul_u32_u32 (hi32 a) mul + hi32 rl) in
  '(rh, rem) ← do_div false rh divisor;
  let rl := join (u32 rl) rem in
  '(rl, _) ← do_div false rl divisor;
  Some (join (u32 rl) (u32 rh)).

(** ** [__div64_32] divides *)

Lemma s64_pos b : 0 <= b < 2 ^ 64 -> s64 b > 0 <-> 0 < b < 2 ^ 63.
Proof.
  intros Hb. unfold s64. destruct (Z.lt_ge_cases b (2 ^ 63)).
  - rewrite Z.mod_small by lia. lia.
  - replace (b + 2 ^ 63) with (b - 2 ^ 63 + 1 * 2 ^ 64) by lia. rewrite Z.mod_add, Z.mod_small by lia. lia.
Qed.

Lemma div_grow_run n rem base k :
  0 < base < 2 ^ 32 -> 0 <= rem < 2 ^ 64 -> 0 <= k < 64 -> base * 2 ^ k < 2 ^ 64 -> 64 - k < Z.of_nat n ->
  exists k', div_grow n rem (base * 2 ^ k) (2 ^ k) = Some (base * 2 ^ k', 2 ^ k') /\
    0 <= k' < 64 /\ base * 2 ^ k' < 2 ^ 64 /\ rem < 2 * (base * 2 ^ k').
Proof.
  intros Hbase Hrem. revert k. induction n as [|n IH]; intros k Hk Hb Hn; [lia|]. cbn [div_grow].
  pose proof (Z.pow_pos_nonneg 2 k ltac:(lia) ltac:(lia)) as Hp.
  case_decide as Hd; rewrite s64_pos in Hd by nia; [|exists k; split; [done|nia]].
  assert (Hk1 : k + 1 < 64).
  { destruct (Z.lt_ge_cases (k + 1) 64); [done|]. replace k with 63 in Hd by lia. lia. }
  assert (E : 2 ^ (k + 1) = 2 * 2 ^ k) by (rewrite Z.pow_add_r by lia; lia).
  rewrite !u64_small by nia.
  replace (base * 2 ^ k + base * 2 ^ k) with (base * 2 ^ (k + 1)) by lia.
  replace (2 ^ k + 2 ^ k) with (2 ^ (k + 1)) by lia. apply IH; lia.
Qed.

Lemma div_reduce_run n N rem base k res :
  0 < base < 2 ^ 32 -> 0 <= k < 64 -> k < Z.of_nat n -> base * 2 ^ k < 2 ^ 64 -> N < 2 ^ 64 ->
  0 <= rem < 2 * (base * 2 ^ k) -> 0 <= res -> res * base + rem = N ->
  exists res' rem', div_reduce n rem (base * 2 ^ k) (2 ^ k) res = Some (res', rem') /\
    res' * base + rem' = N /\ 0 <= res' /\ 0 <= rem' < base.
Proof.
  intros Hbase. revert k rem res. induction n as [|n IH]; intros k rem res Hk Hn Hb HN Hrem Hres E; [lia|].
  cbn [div_reduce]. pose proof (Z.pow_pos_nonneg 2 k ltac:(lia) ltac:(lia)) as Hp.
  set (r := if decide (rem >= _) then _ else _).
  assert (Hr : exists rem1 res1, r = (rem1, res1) /\ 0 <= rem1 < base * 2 ^ k /\ 0 <= res1 /\
    res1 * base + rem1 = N).
  { unfold r. case_decide.
    - rewrite !u64_small by nia. eexists _, _. split; [done|]. split; [lia|]. split; [lia|]. nia.
    - eexists _, _. split; [done|]. split; [lia|]. done. }
  destruct Hr as (rem1 & res1 & -> & Hrem1 & Hres1 & E1).
  rewrite !Z.shiftr_div_pow2 by lia. change (2 ^ 1) with 2.
  destruct (Z.eq_dec k 0) as [->|Hk0].
  - change (2 ^ 0) with 1. change (1 / 2) with 0. rewrite decide_False by (intros []; done).
    exists res1, rem1. split; [done|]. lia.
  - assert (E2 : 2 ^ k = 2 ^ (k - 1) * 2).
    { replace k with (k - 1 + 1) at 1 by lia. by rewrite Z.pow_add_r by lia. }
    pose proof (Z.pow_pos_nonneg 2 (k - 1) ltac:(lia) ltac:(lia)).
    rewrite E2, Z.mul_assoc, !Z.div_mul by lia. rewrite decide_True by lia.
    apply IH; try lia; nia.
Qed.

Lemma div_unique_both n base q r :
  0 < base -> q * base + r = n -> 0 <= r < base -> q = n / base /\ r = n mod base.
Proof.
  intros Hb E Hr. split; [apply (Z.div_unique n base q r)|apply (Z.mod_unique n base q r)]; lia.
Qed.

Lemma div64_32_run n base :
  0 <= n < 2 ^ 64 -> 0 < base < 2 ^ 32 -> __div64_32 n base = Some (n / base, n mod base).
Proof.
  intros Hn Hb. unfold __div64_32. rewrite decide_False by lia.
  rewrite Z.shiftr_div_pow2 by lia.
  assert (Hh : 0 <= n / 2 ^ 32 < 2 ^ 32) by (split; [apply Z.div_pos; lia|apply Z.div_lt_upper_bound; lia]).
  rewrite (u32_small (n / 2 ^ 32)) by done. set (h := n / 2 ^ 32) in *.
  set (r := if decide (h >= base) then _ else _).
  assert (Hr : exists res rem, r = (res, rem) /\ 0 <= res /\ 0 <= rem < 2 ^ 64 /\ res * base + rem = n).
  { unfold r. case_decide.
    - pose proof (Z.div_mod h base ltac:(lia)). pose proof (Z.mod_pos_bound h base ltac:(lia)).
      pose proof (Z.div_pos h base ltac:(lia) ltac:(lia)).
      pose proof (Z.div_mod n (2 ^ 32) ltac:(lia)). pose proof (Z.mod_pos_bound n (2 ^ 32) ltac:(lia)).
      fold h in H2. set (q := h / base) in *. assert (q <= h) by nia.
      assert (Hqb : 0 <= q * base <= h) by nia.
      rewrite (u32_small (q * base)) by lia. rewrite !Z.shiftl_mul_pow2 by lia.
      rewrite (u64_small (q * 2 ^ 32)), (u64_small (q * base * 2 ^ 32)), u64_small by lia.
      eexists _, _. split; [done|]. lia.
    - exists 0, n. split; [done|]. lia. }
  destruct Hr as (res & rem & -> & Hres & Hrem & E).
  destruct (div_grow_run 65 rem base 0) as (k & Hg & Hk & Hkb & Hk2); [done|done|lia|lia|lia|].
  change (2 ^ 0) with 1 in Hg. rewrite Z.mul_1_r in Hg.
  rewrite Hg. cbn [mbind option_bind].
  destruct (div_reduce_run 65 n rem base k res) as (res' & rem' & -> & E' & ? & ?); try done; try lia.
  cbn [mbind option_bind]. rewrite u32_small by lia.
  destruct (div_unique_both n base res' rem') as [-> ->]; [lia..|done].
Qed.

(** ** The cross product *)

Lemma halves x : 0 <= x < 2 ^ 64 ->
  exists l h, u32 x = l /\ u32 (Z.shiftr x 32) = h /\ hi32 x = h /\ lo32 x = l /\
    x = l + 2 ^ 32 * h /\ 0 <= l < 2 ^ 32 /\ 0 <= h < 2 ^ 32.
Proof.
  intros Hx. exists (x mod 2 ^ 32), (x / 2 ^ 32). unfold u32, hi32, lo32.
  change 0xffffffff with (Z.ones 32). rewrite Z.land_ones, Z.shiftr_div_pow2 by lia.
  pose proof (Z.div_mod x (2 ^ 32) ltac:(lia)). pose proof (Z.mod_pos_bound x (2 ^ 32) ltac:(lia)).
  assert (0 <= x / 2 ^ 32 < 2 ^ 32) by (split; [apply Z.div_pos; lia|apply Z.div_lt_upper_bound; lia]).
  rewrite (Z.mod_small (x / 2 ^ 32)) by done. split_and!; lia.
Qed.

(** Adding two middle terms with their carry. *)
Lemma cross_sum c a b d :
  0 <= c -> 0 <= a -> 0 <= b < 2 ^ 64 -> 0 <= d -> c + a < 2 ^ 64 -> (c + a + b) / 2 ^ 32 + d < 2 ^ 64 ->
  let res := u64 (c + a) in
  let res' := u64 (res + b) in
  u64 (u64 (Z.shiftr res' 32 + (if decide (res' < res) then Z.shiftl 1 32 else 0)) + d) =
    (c + a + b) / 2 ^ 32 + d.
Proof.
  intros Hc Ha Hb Hd Hca Ht. cbn zeta. rewrite (u64_small (c + a)) by lia. set (res' := u64 (c + a + b)).
  assert (Hs : 0 <= (c + a + b) / 2 ^ 32) by (apply Z.div_pos; lia).
  rewrite Z.shiftr_div_pow2 by lia. rewrite Z.shiftl_mul_pow2 by lia.
  destruct (Z.lt_ge_cases (c + a + b) (2 ^ 64)).
  - assert (E : res' = c + a + b) by (apply u64_small; lia). rewrite E, decide_False by lia.
    rewrite Z.add_0_r, (u64_small ((c + a + b) / 2 ^ 32)), u64_small by lia. done.
  - assert (E : res' = c + a + b - 2 ^ 64).
    { unfold res', u64. symmetry. apply (Z.mod_unique _ _ 1); lia. }
    rewrite E, decide_True by lia.
    assert (E2 : (c + a + b - 2 ^ 64) / 2 ^ 32 + 1 * 2 ^ 32 = (c + a + b) / 2 ^ 32).
    { rewrite <-Z.div_add by lia. f_equal. lia. }
    rewrite E2, (u64_small ((c + a + b) / 2 ^ 32)), u64_small by lia. done.
Qed.

Lemma mul_bound a b : 0 <= a < 2 ^ 32 -> 0 <= b < 2 ^ 32 -> 0 <= a * b <= (2 ^ 32 - 1) * (2 ^ 32 - 1).
Proof. intros. nia. Qed.

(** [c] is the high part of the product of the low halves. *)
Lemma cross_value ml mh nl nh a :
  0 <= ml < 2 ^ 32 -> 0 <= mh < 2 ^ 32 -> 0 <= nl < 2 ^ 32 -> 0 <= nh < 2 ^ 32 -> 0 <= a ->
  ((a + ml * nl) / 2 ^ 32 + ml * nh + mh * nl) / 2 ^ 32 + mh * nh =
    (a + (ml + 2 ^ 32 * mh) * (nl + 2 ^ 32 * nh)) / 2 ^ 64.
Proof.
  intros. replace (2 ^ 64) with (2 ^ 32 * 2 ^ 32) by lia.
  rewrite <-Z.div_div by lia.
  replace (a + (ml + 2 ^ 32 * mh) * (nl + 2 ^ 32 * nh)) with
    (a + ml * nl + (ml * nh + mh * nl + mh * nh * 2 ^ 32) * 2 ^ 32) by lia.
  rewrite Z.div_add by lia.
  replace ((a + ml * nl) / 2 ^ 32 + (ml * nh + mh * nl + mh * nh * 2 ^ 32)) with
    ((a + ml * nl) / 2 ^ 32 + ml * nh + mh * nl + mh * nh * 2 ^ 32) by lia.
  by rewrite Z.div_add by lia.
Qed.

Lemma top_bits m l h :
  m = l + 2 ^ 32 * h -> 0 <= l < 2 ^ 32 -> 0 <= h < 2 ^ 32 ->
  Z.land m (Z.lor (Z.shiftl 1 63) (Z.shiftl 1 31)) = 0 -> l < 2 ^ 31 /\ h < 2 ^ 31.
Proof.
  intros Hm Hl Hh H.
  assert (H31 : Z.testbit m 31 = false).
  { apply (f_equal (fun z => Z.testbit z 31)) in H. rewrite Z.land_spec, Z.bits_0 in H.
    change (Z.testbit (Z.lor _ _) 31) with true in H. by rewrite andb_true_r in H. }
  assert (H63 : Z.testbit m 63 = false).
  { apply (f_equal (fun z => Z.testbit z 63)) in H. rewrite Z.land_spec, Z.bits_0 in H.
    change (Z.testbit (Z.lor _ _) 63) with true in H. by rewrite andb_true_r in H. }
  apply Z.testbit_false in H31, H63; [|lia..].
  pose proof (Z.div_mod m (2 ^ 31)). pose proof (Z.mod_pos_bound m (2 ^ 31)).
  pose proof (Z.div_mod m (2 ^ 63)). pose proof (Z.mod_pos_bound m (2 ^ 63)).
  pose proof (Z.div_mod (m / 2 ^ 31) 2). pose proof (Z.div_mod (m / 2 ^ 63) 2). lia.
Qed.

(** The semantics its comment gives: [((bias ? m : 0) + m * n) >> 64]. *)
Lemma xprod_spec m n bias :
  0 <= m < 2 ^ 64 -> 0 <= n < 2 ^ 64 ->
  __arch_xprod_64 m n bias = ((if bias then m else 0) + m * n) / 2 ^ 64.
Proof.
  intros Hm Hn. unfold __arch_xprod_64.
  destruct (halves m Hm) as (ml & mh & -> & -> & _ & _ & Em & Hml & Hmh).
  destruct (halves n Hn) as (nl & nh & -> & -> & _ & _ & En & Hnl & Hnh).
  set (a := if bias then m else 0). assert (Ha : 0 <= a <= m) by (unfold a; destruct bias; lia).
  assert (Htot : (a + m * n) / 2 ^ 64 < 2 ^ 64) by (apply Z.div_lt_upper_bound; [lia|nia]).
  rewrite Em, En, <-cross_value in Htot |- * by lia. rewrite <-Em in *.
  pose proof (mul_bound ml nl Hml Hnl). pose proof (mul_bound ml nh Hml Hnh).
  pose proof (mul_bound mh nl Hmh Hnl). pose proof (mul_bound mh nh Hmh Hnh).
  set (top := Z.land m _).
  set (res := if negb bias then _ else _).
  assert (Hres : res = (a + ml * nl) / 2 ^ 32).
  { unfold res, a. destruct bias; cbn [negb].
    - case_decide as Ht; [destruct (top_bits m ml mh Em Hml Hmh Ht)|].
      + rewrite Z.shiftr_div_pow2, u64_small by nia. done.
      + pose proof (cross_sum 0 m (ml * nl) 0) as HC. cbn zeta in HC. rewrite !Z.add_0_l, !Z.add_0_r in HC.
        rewrite (u64_small m) in HC by lia. rewrite <-HC; [|lia..|apply Z.div_lt_upper_bound; lia].
        symmetry. apply u64_small, u64_range.
    - rewrite Z.shiftr_div_pow2, u64_small by lia. done. }
  assert (Hr0 : 0 <= (a + ml * nl) / 2 ^ 32 <= 2 ^ 33 - 2).
  { split; [apply Z.div_pos; lia|]. apply Z.lt_succ_r, Z.div_lt_upper_bound; lia. }
  rewrite Hres. clear res Hres. set (c := (a + ml * nl) / 2 ^ 32) in *.
  case_decide as Ht.
  - destruct (top_bits m ml mh Em Hml Hmh Ht).
    assert (ml * nh <= (2 ^ 31 - 1) * (2 ^ 32 - 1)) by nia.
    assert (mh * nl <= (2 ^ 31 - 1) * (2 ^ 32 - 1)) by nia.
    assert (Hc : c <= 2 ^ 32 - 1).
    { unfold c. assert (ml * nl <= (2 ^ 31 - 1) * (2 ^ 32 - 1)) by nia.
      apply Z.lt_succ_r, Z.div_lt_upper_bound; lia. }
    assert (0 <= (c + ml * nh + mh * nl) / 2 ^ 32) by (apply Z.div_pos; lia).
    rewrite Z.shiftr_div_pow2 by lia. rewrite (u64_small (c + ml * nh)) by lia.
    rewrite (u64_small (c + ml * nh + mh * nl)), u64_small by lia. done.
  - apply cross_sum; lia.
Qed.

(** ** Reciprocals *)

Lemma odd_part b : 0 < b -> exists t y, 0 <= t /\ 0 <= y /\ b = (2 * y + 1) * 2 ^ t.
Proof.
  intros Hb. assert (H0 : 0 <= b) by lia. revert Hb. pattern b. apply Z_lt_induction; [|done].
  clear b H0. intros b IH Hb.
  pose proof (Z.div_mod b 2 ltac:(lia)). pose proof (Z.mod_pos_bound b 2 ltac:(lia)).
  destruct (Z.eq_dec (b mod 2) 0) as [E|E].
  - destruct (IH (b / 2)) as (t & y & Ht & Hy & E2); [lia..|].
    exists (t + 1), y. split; [lia|]. split; [done|]. rewrite Z.pow_add_r by lia. lia.
  - exists 0, (b / 2). lia.
Qed.

Lemma land_opp y t : 0 <= t -> Z.land ((2 * y + 1) * 2 ^ t) (- ((2 * y + 1) * 2 ^ t)) = 2 ^ t.
Proof.
  intros Ht. replace (- ((2 * y + 1) * 2 ^ t)) with ((2 * Z.lnot y + 1) * 2 ^ t) by (unfold Z.lnot; lia).
  rewrite <-!Z.shiftl_mul_pow2, <-Z.shiftl_land by done.
  assert (E : Z.land (2 * y + 1) (2 * Z.lnot y + 1) = 1).
  { apply Z.bits_inj'. intros i Hi. rewrite Z.land_spec. destruct (Z.eq_dec i 0) as [->|Hi0].
    - by rewrite !Z.testbit_odd_0.
    - replace i with (Z.succ (i - 1)) by lia. rewrite !Z.testbit_odd_succ, Z.lnot_spec by lia.
      change 1 with (2 * 0 + 1) at 3. rewrite Z.testbit_odd_succ, Z.bits_0 by lia.
      apply andb_negb_r. }
  rewrite E, Z.shiftl_mul_pow2 by done. lia.
Qed.

(** The lowest bit set of [b]: [b & -b] on [w] bits. *)
Lemma low_bit w b : 0 <= w -> 0 < b < 2 ^ w ->
  exists t y, 0 <= t /\ 0 <= y /\ b = (2 * y + 1) * 2 ^ t /\ Z.land b ((- b) mod 2 ^ w) = 2 ^ t.
Proof.
  intros Hw Hb. destruct (odd_part b) as (t & y & Ht & Hy & E); [lia|]. exists t, y. do 3 (split; [done|]).
  rewrite <-(Z.land_ones (- b)), Z.land_assoc by done. rewrite E at 1 2. rewrite land_opp by done.
  rewrite Z.land_ones by done. apply Z.mod_small. pose proof (Z.pow_pos_nonneg 2 t). nia.
Qed.

(** Rounding up: [m * b = P + f], the quotient is right as long as the error stays
    below what is missing to the next multiple of [b]. *)
Lemma recip_up m b P f n :
  0 < b -> 0 < P -> m * b = P + f -> 0 <= f -> 0 <= n ->
  m * n / P = n / b <-> f * n < (b - n mod b) * P.
Proof.
  intros Hb HP E Hf Hn. pose proof (Z.div_mod n b ltac:(lia)) as En. pose proof (Z.mod_pos_bound n b Hb).
  set (q := n / b) in *. set (r := n mod b) in *.
  assert (E2 : m * n * b = P * q * b + (r * P + f * n)) by (rewrite En at 1; nia).
  assert (0 <= f * n) by nia. split.
  - intros Hq. pose proof (Z.mod_pos_bound (m * n) P HP) as Hm. rewrite Z.mod_eq, Hq in Hm by lia. nia.
  - intros Hlt. symmetry. apply (Z.div_unique_pos (m * n) P q (m * n - P * q)); [|lia].
    split; [|nia]. assert (0 <= (m * n - P * q) * b) by nia. nia.
Qed.

(** Rounding down with a bias: [m * b = P - e]. *)
Lemma recip_down m b P e n :
  0 < b -> 0 < P -> m * b = P - e -> 0 < e -> 0 <= n -> e * (n + 1) <= P -> (m + m * n) / P = n / b.
Proof.
  intros Hb HP E He Hn Hle. pose proof (Z.div_mod n b ltac:(lia)) as En. pose proof (Z.mod_pos_bound n b Hb).
  set (q := n / b) in *. set (r := n mod b) in *.
  symmetry. apply (Z.div_unique_pos (m + m * n) P q (m + m * n - P * q)); [|lia].
  assert (E2 : (m + m * n - P * q) * b = P * (r + 1) - e * (n + 1)) by nia.
  assert (0 < e * (n + 1)) by nia.
  assert (P * (r + 1) <= P * b) by nia. assert (P * 1 <= P * (r + 1)) by nia.
  split; nia.
Qed.

(** The largest dividend with the largest remainder decides for all of them. *)
Lemma recip_test m b P f B :
  0 < b -> b * b <= B -> B <= P -> m * b = P + f -> 0 <= f < b -> (B - 1) mod b < b - 1 ->
  let x := (B - 1) / b * b - 1 in
  m * x / P = x / b -> forall n, 0 <= n < B -> m * n / P = n / b.
Proof.
  intros Hb HB HP E Hf HR x Hx n Hn.
  assert (2 <= b) by (pose proof (Z.mod_pos_bound (B - 1) b Hb); lia).
  assert (Hk : 0 < (B - 1) / b) by (apply Z.div_str_pos; nia).
  set (k := (B - 1) / b) in *. pose proof (Z.div_mod (B - 1) b ltac:(lia)) as EB. fold k in EB.
  assert (Ex : x mod b = b - 1) by (symmetry; apply (Z.mod_unique x b (k - 1)); [lia|unfold x; lia]).
  assert (Hx0 : 0 <= x) by (unfold x; nia).
  apply (recip_up m b P f x) in Hx; [|nia..]. rewrite Ex in Hx.
  pose proof (Z.div_mod n b ltac:(lia)) as En. pose proof (Z.mod_pos_bound n b Hb).
  apply (recip_up m b P f n); [nia..|]. destruct (Z.le_gt_cases n x).
  - assert (f * n <= f * x) by nia. nia.
  - assert (Hq : n / b = k).
    { symmetry. apply (Z.div_unique_pos n b k (n - b * k)); [|lia]. unfold x in *. lia. }
    rewrite Hq in En. set (r := n mod b) in *.
    assert (r <= (B - 1) mod b) by lia.
    assert (f * n = f * x + f * (r + 1)) by (unfold x; nia).
    assert (f * (r + 1) <= b * b) by nia. nia.
Qed.

Lemma recip_prod_spec m x p :
  0 <= m < 2 ^ 64 -> 0 <= x < 2 ^ 64 -> recip_prod m x p = m * x / 2 ^ 64 / p.
Proof.
  intros Hm Hx. unfold recip_prod. f_equal.
  destruct (halves m Hm) as (ml & mh & _ & _ & -> & -> & Em & Hml & Hmh).
  destruct (halves x Hx) as (xl & xh & _ & _ & -> & -> & Ex & Hxl & Hxh).
  assert (Htot : m * x / 2 ^ 64 < 2 ^ 64) by (apply Z.div_lt_upper_bound; [lia|nia]).
  pose proof (cross_value ml mh xl xh 0 Hml Hmh Hxl Hxh ltac:(lia)) as HV. rewrite !Z.add_0_l in HV.
  rewrite Em, Ex, <-HV in Htot |- *.
  pose proof (mul_bound ml xl Hml Hxl). pose proof (mul_bound ml xh Hml Hxh).
  pose proof (mul_bound mh xl Hmh Hxl). pose proof (mul_bound mh xh Hmh Hxh).
  assert (0 <= ml * xl / 2 ^ 32 < 2 ^ 32) by (split; [apply Z.div_pos; lia|apply Z.div_lt_upper_bound; lia]).
  rewrite (u64_small (ml * xl)), (Z.shiftr_div_pow2 (ml * xl)), (Z.mul_comm xl mh) by lia.
  apply cross_sum; lia.
Qed.

Section Constant.
  Context (b L : Z) (HL : 0 <= L < 32) (Hlo : 2 ^ L < b) (Hhi : b < 2 ^ (L + 1)).
  #[local] Abbreviation p := (2 ^ L).
  #[local] Abbreviation P := (2 ^ L * 2 ^ 64).

Lemma const_range : 0 < p <= 2 ^ 31 /\ p < b < 2 * p /\ 2 <= b < 2 ^ 32.
Proof using HL Hlo Hhi.
  pose proof (Z.pow_le_mono_r 2 L 31). pose proof (Z.pow_pos_nonneg 2 L).
  rewrite Z.pow_add_r in Hhi by lia. lia.
Qed.

(** [b] is no power of two, so it divides none. *)
Lemma const_no_divide j : 0 <= j -> 2 ^ j mod b <> 0.
Proof using HL Hlo Hhi.
  intros Hj E. pose proof const_range. apply Z.mod_divide in E; [|lia].
  destruct (Zdivide_power_2 b 2 j) as [i Hi]; [lia|lia|apply prime_2|done|].
  assert (Hi0 : 0 <= i) by (destruct (Z.lt_ge_cases i 0); [rewrite Z.pow_neg_r in Hi; lia|lia]).
  rewrite Hi in Hlo, Hhi. apply Z.pow_lt_mono_r_iff in Hlo, Hhi; lia.
Qed.

Lemma max_split :
  let Q := max64 / b in let R := max64 mod b in
  2 ^ 64 = b * Q + R + 1 /\ 0 <= R < b - 1 /\ 0 <= Q /\ Q * p < 2 ^ 64.
Proof using HL Hlo Hhi.
  pose proof const_range. cbn zeta. pose proof (Z.div_mod max64 b ltac:(lia)) as E.
  pose proof (Z.mod_pos_bound max64 b ltac:(lia)). unfold max64 in *.
  assert (0 <= (2 ^ 64 - 1) / b) by (apply Z.div_pos; lia).
  split; [lia|]. split; [|split; [done|nia]].
  destruct (Z.eq_dec ((2 ^ 64 - 1) mod b) (b - 1)) as [E1|]; [exfalso|lia].
  apply (const_no_divide 64); [lia|]. symmetry. apply (Z.mod_unique _ b ((2 ^ 64 - 1) / b + 1)); lia.
Qed.

Lemma recip_floor_spec : recip_floor b p = P / b.
Proof using HL Hlo Hhi.
  pose proof const_range. destruct max_split as (E & HR & HQ & HQp). unfold recip_floor.
  set (Q := max64 / b) in *. set (R := max64 mod b) in *.
  rewrite (u64_small (Q * p)) by nia. rewrite (u64_small ((R + 1) * p)) by nia.
  assert (EP : P = (R + 1) * p + Q * p * b) by lia. rewrite EP, Z.div_add by lia.
  assert (0 <= (R + 1) * p / b) by (apply Z.div_pos; nia).
  assert ((R + 1) * p / b + Q * p < 2 ^ 64).
  { rewrite <-Z.div_add, <-EP by lia. apply Z.div_lt_upper_bound; nia. }
  rewrite u64_small; lia.
Qed.

(** The upper reciprocal is the lower one plus one. *)
Lemma recip_ceil_spec : recip_ceil b p = P / b + 1 /\ P / b + 1 < 2 ^ 64 /\ 0 < P mod b.
Proof using HL Hlo Hhi.
  pose proof const_range. destruct max_split as (E & HR & HQ & HQp). unfold recip_ceil.
  set (Q := max64 / b) in *. set (R := max64 mod b) in *.
  rewrite (u64_small (Q * p)), (u64_small ((R + 1) * p)), (u64_small ((R + 1) * p + b - 1)) by nia.
  assert (EP : P = (R + 1) * p + Q * p * b) by lia.
  assert (Hm : P mod b <> 0).
  { rewrite <-Z.pow_add_r by lia. apply const_no_divide. lia. }
  pose proof (Z.mod_pos_bound P b ltac:(lia)). pose proof (Z.div_mod P b ltac:(lia)) as EPd.
  assert (E1 : Q * p + ((R + 1) * p + b - 1) / b = P / b + 1).
  { rewrite Z.add_comm, <-Z.div_add by lia.
    symmetry. apply (Z.div_unique_pos _ b (P / b + 1) (P mod b - 1)); [lia|]. lia. }
  assert (P / b + 1 < 2 ^ 64).
  { assert (P / b < 2 ^ 64 - 1); [|lia]. apply Z.div_lt_upper_bound; [lia|]. nia. }
  rewrite E1. rewrite u64_small by (pose proof (Z.div_pos P b); lia). lia.
Qed.

Lemma const_x : u64 (max64 / b * b - 1) = max64 / b * b - 1 /\ 0 <= max64 / b * b - 1.
Proof using HL Hlo Hhi.
  pose proof const_range. destruct max_split as (E & HR & HQ & _).
  assert (0 < max64 / b) by (apply Z.div_str_pos; unfold max64; lia).
  rewrite u64_small by nia. nia.
Qed.

(** [m * b = P + f] for the upper reciprocal. *)
Lemma ceil_mul : exists f, (P / b + 1) * b = P + f /\ 0 < f < b.
Proof using HL Hlo Hhi.
  pose proof const_range. destruct recip_ceil_spec as (_ & _ & Hm).
  pose proof (Z.div_mod P b ltac:(lia)). pose proof (Z.mod_pos_bound P b ltac:(lia)).
  exists (b - P mod b). lia.
Qed.

Lemma prod_div m n : 0 <= m -> 0 <= n -> m * n / 2 ^ 64 / p = m * n / P.
Proof using HL. intros. rewrite Z.div_div, (Z.mul_comm (2 ^ 64)) by lia. done. Qed.

(** The odd part of [b] divides [2 ^ 64 - 1]. *)
Lemma const_special n t c :
  0 <= n < 2 ^ 64 -> 0 <= t -> b = c * 2 ^ t -> 0 < c -> max64 mod c = 0 ->
  __arch_xprod_64 (max64 / c) (n / 2 ^ t) true / 1 = n / b.
Proof using HL Hlo Hhi.
  intros Hn Ht Hb Hc Hm. pose proof (Z.pow_pos_nonneg 2 t ltac:(lia) Ht).
  rewrite Z.div_1_r, Hb, (Z.mul_comm c), <-Z.div_div by lia.
  assert (Hn1 : 0 <= n / 2 ^ t < 2 ^ 64).
  { split; [apply Z.div_pos; lia|]. apply Z.div_lt_upper_bound; nia. }
  pose proof (Z.div_mod max64 c ltac:(lia)) as E. rewrite Hm in E. unfold max64 in *.
  rewrite xprod_spec by nia. apply (recip_down _ _ _ 1); lia.
Qed.

(** The upper reciprocal fails the test: the lower one is close enough. *)
Lemma const_bias n :
  0 <= n < 2 ^ 64 ->
  (let x := max64 / b * b - 1 in (P / b + 1) * x / P <> x / b) ->
  __arch_xprod_64 (recip_floor b p) (n / 1) true / p = n / b.
Proof using HL Hlo Hhi.
  intros Hn Htest. pose proof const_range. cbn zeta in Htest. destruct const_x as [_ Hx0].
  destruct recip_ceil_spec as (_ & Hlt & _). destruct ceil_mul as (f & Hf & Hfb).
  set (x := max64 / b * b - 1) in *.
  assert (Hx : x < 2 ^ 64) by (destruct max_split as (? & ? & ? & _); unfold x; lia).
  rewrite Z.div_1_r, recip_floor_spec. pose proof (Z.div_pos P b ltac:(nia) ltac:(lia)).
  rewrite xprod_spec, Z.div_div, (Z.mul_comm (2 ^ 64)) by lia.
  apply (recip_down _ _ _ (b - f)); [lia|nia|lia|lia|lia|].
  rewrite (recip_up _ _ _ f) in Htest by nia. pose proof (Z.mod_pos_bound x b ltac:(lia)).
  assert (P <= f * x) by nia. assert (p < f) by nia. nia.
Qed.

(** It passes the test. *)
Lemma const_plain n :
  0 <= n < 2 ^ 64 ->
  (let x := max64 / b * b - 1 in (P / b + 1) * x / P = x / b) ->
  (P / b + 1) * n / P = n / b.
Proof using HL Hlo Hhi.
  intros Hn Htest. pose proof const_range. destruct ceil_mul as (f & Hf & Hfb).
  destruct max_split as (_ & HR & _).
  apply (recip_test _ b P f (2 ^ 64)); unfold max64 in *; [nia|nia|nia|done|lia|lia|done|done].
Qed.

(** Reducing [m] and [p] by a common power of two. *)
Lemma const_reduced m n t y k :
  0 <= n < 2 ^ 64 -> 0 < m < 2 ^ 64 -> m = (2 * y + 1) * 2 ^ t -> 0 <= k <= t -> k <= L ->
  __arch_xprod_64 (m / 2 ^ k) n false / (p / 2 ^ k) = m * n / P.
Proof using HL Hlo Hhi.
  intros Hn Hm E Hk HkL. pose proof (Z.pow_pos_nonneg 2 k ltac:(lia) ltac:(lia)).
  assert (Em : m = m / 2 ^ k * 2 ^ k).
  { rewrite E. replace t with (t - k + k) by lia. rewrite Z.pow_add_r, Z.mul_assoc by lia.
    by rewrite Z.div_mul by lia. }
  assert (Ep : p = 2 ^ (L - k) * 2 ^ k) by (rewrite <-Z.pow_add_r by lia; f_equal; lia).
  rewrite Ep at 1. rewrite Z.div_mul by lia. pose proof (Z.pow_pos_nonneg 2 (L - k) ltac:(lia) ltac:(lia)).
  set (m' := m / 2 ^ k) in *. assert (0 < m' < 2 ^ 64) by nia.
  rewrite xprod_spec, Z.add_0_l, Z.div_div by lia. rewrite Ep, Em.
  replace (m' * 2 ^ k * n) with (2 ^ k * (m' * n)) by lia.
  replace (2 ^ (L - k) * 2 ^ k * 2 ^ 64) with (2 ^ k * (2 ^ 64 * 2 ^ (L - k))) by lia.
  by rewrite Z.div_mul_cancel_l by lia.
Qed.

End Constant.

(** A number whose bits from [t] on are clear. *)
Lemma bits_below v t w :
  0 <= t -> 0 <= v < 2 ^ w -> (forall i, t <= i < w -> Z.testbit v i = false) -> v < 2 ^ t.
Proof.
  intros Ht Hv Hbit. destruct (Z.lt_ge_cases v (2 ^ t)) as [|Hge]; [done|exfalso].
  pose proof (Z.pow_pos_nonneg 2 t ltac:(lia) Ht). assert (H0 : 0 < v) by lia.
  pose proof (proj1 (Z.log2_le_pow2 v t H0) Hge). pose proof (proj1 (Z.log2_lt_pow2 v w H0) ltac:(lia)).
  specialize (Hbit (Z.log2 v) ltac:(lia)). by rewrite Z.bit_log2 in Hbit.
Qed.

(** The bits of the reduction are below the trailing zeros of [m]. *)
Lemma recip_bits_log m t :
  Z.land m (u64 (- m)) = 2 ^ t -> 0 <= t < 32 -> recip_bits m <> 0 ->
  0 < recip_bits m < 2 ^ 32 /\ Z.log2 (recip_bits m) <= t.
Proof.
  intros Hl Ht. unfold recip_bits. rewrite Hl. clear Hl.
  pose proof (Z.pow_pos_nonneg 2 t ltac:(lia) ltac:(lia)). pose proof (Z.pow_le_mono_r 2 t 31 ltac:(lia) ltac:(lia)).
  assert (E : u32 (- 2 ^ t) = 2 ^ 32 - 2 ^ t).
  { unfold u32. symmetry. apply (Z.mod_unique _ _ (-1)); lia. }
  rewrite E, high_mask by lia. set (h := u32 (Z.shiftr m 32)).
  assert (Hv : u32 (Z.lnot (Z.lor (Z.shiftl (Z.ones (32 - t)) t) h)) < 2 ^ t).
  { apply (bits_below _ t 32); [lia|apply u32_range|]. intros i Hi. unfold u32.
    rewrite Z.mod_pow2_bits_low, Z.lnot_spec, Z.lor_spec, Z.shiftl_spec, Z.ones_spec_low by lia. done. }
  set (v := u32 (Z.lnot _)) in *. pose proof (u32_range (Z.lnot (Z.lor (Z.shiftl (Z.ones (32 - t)) t) h))) as Hr.
  fold v in Hr. rewrite Z.shiftl_mul_pow2 by lia. rewrite u32_small by lia. intros Hne. split; [lia|].
  apply Z.lt_succ_r, Z.log2_lt_pow2; [lia|]. rewrite Z.pow_succ_r by lia. lia.
Qed.

Lemma div64_const32_run n b :
  0 <= n < 2 ^ 64 -> 0 < b < 2 ^ 32 -> is_power_of_2 b = false -> __div64_const32 n b = Some (n / b).
Proof.
  intros Hn Hb Hpow. unfold __div64_const32, const32_params.
  rewrite ilog2_const_spec by lia. cbn [mbind option_bind].
  set (L := Z.log2 b). pose proof (Z.log2_spec b ltac:(lia)) as [Hlo Hhi]. fold L in Hlo, Hhi.
  assert (HL : 0 <= L < 32) by (split; [apply Z.log2_nonneg|apply Z.log2_lt_pow2; lia]).
  assert (Hlo' : 2 ^ L < b).
  { destruct (Z.eq_dec (2 ^ L) b) as [E|]; [|lia].
    assert (is_power_of_2 b = true) by (apply is_power_of_2_spec; [lia|exists L; lia]). congruence. }
  rewrite <-Z.add_1_r in Hhi. clear Hlo. pose proof (const_range b L HL Hlo' Hhi) as Hrange.
  rewrite Z.shiftl_mul_pow2, Z.mul_1_l, (u32_small (2 ^ L)) by lia.
  destruct (recip_ceil_spec b L HL Hlo' Hhi) as (-> & Hmlt & _).
  destruct (const_x b L HL Hlo' Hhi) as [-> Hx0].
  assert (Hm0 : 0 <= 2 ^ L * 2 ^ 64 / b) by (apply Z.div_pos; nia).
  assert (Hxlt : max64 / b * b - 1 < 2 ^ 64) by (destruct (max_split b L HL Hlo' Hhi) as (? & ? & ? & _); lia).
  rewrite recip_prod_spec by lia. rewrite (prod_div L HL) by lia.
  destruct (low_bit 32 b ltac:(lia) Hb) as (t & y & Ht & Hy & Eb & Hlow).
  change (u32 (- b)) with ((- b) mod 2 ^ 32). rewrite Hlow.
  pose proof (Z.pow_pos_nonneg 2 t ltac:(lia) Ht).
  assert (Ec : b / 2 ^ t = 2 * y + 1) by (rewrite Eb, Z.div_mul; lia). rewrite Ec.
  case_decide as H1; [cbn [mbind option_bind]|].
  { rewrite decide_False by lia. f_equal. apply (const_special b L HL Hlo' Hhi n t (2 * y + 1)); done || lia. }
  case_decide as H2; [cbn [mbind option_bind]|].
  { rewrite decide_False by lia. f_equal. by apply (const_bias b L HL Hlo' Hhi n). }
  set (m := 2 ^ L * 2 ^ 64 / b + 1) in *.
  pose proof (const_plain b L HL Hlo' Hhi n Hn H2) as Hgoal. fold m in Hgoal.
  destruct (low_bit 64 m ltac:(lia) ltac:(lia)) as (tm & ym & Htm & Hym & Em & Hlm).
  change ((- m) mod 2 ^ 64) with (u64 (- m)) in Hlm.
  destruct (ceil_mul b L HL Hlo' Hhi) as (f & Hf & Hfb). fold m in Hf.
  assert (HtL : tm <= L).
  { destruct (Z.le_gt_cases tm L); [done|exfalso].
    assert (E1 : 2 ^ tm = 2 ^ (tm - (L + 1)) * (2 * 2 ^ L)).
    { rewrite <-Z.pow_succ_r, <-Z.pow_add_r by lia. f_equal. lia. }
    assert (E2 : f = (2 * 2 ^ L) * ((2 * ym + 1) * 2 ^ (tm - (L + 1)) * b - 2 ^ 63)).
    { rewrite E1 in Em. replace f with (m * b - 2 ^ L * 2 ^ 64) by lia. rewrite Em. ring. }
    set (g := _ - 2 ^ 63) in E2. clearbody g. clear -E2 Hfb Hrange.
    destruct (Z.le_gt_cases g 0); nia. }
  assert (Hp1 : forall k, 0 <= k <= L -> 2 ^ L / 2 ^ k = 2 ^ (L - k)).
  { intros k Hk. rewrite <-Z.pow_sub_r by lia. done. }
  case_decide as H3; cbn [mbind option_bind].
  - rewrite Hlm. pose proof (Z.pow_le_mono_r 2 (L - tm) 31). pose proof (Z.pow_pos_nonneg 2 (L - tm)).
    rewrite u32_small by (rewrite Hp1; lia). rewrite decide_False by (rewrite Hp1; lia). f_equal.
    rewrite Z.div_1_r, (const_reduced b L HL Hlo' Hhi m n tm ym) by lia. done.
  - destruct (recip_bits_log m tm Hlm ltac:(lia) H3) as [Hbits Hlog].
    rewrite ilog2_const_spec by lia. cbn [mbind option_bind].
    pose proof (Z.log2_nonneg (recip_bits m)). set (k := Z.log2 (recip_bits m)) in *.
    rewrite !Z.shiftr_div_pow2 by lia. pose proof (Z.pow_pos_nonneg 2 (L - k)).
    rewrite decide_False by (rewrite Hp1; lia). f_equal.
    rewrite Z.div_1_r, (const_reduced b L HL Hlo' Hhi m n tm ym) by lia. done.
Qed.

(** ** The division functions *)

Lemma do_div_run constant n base :
  0 <= n < 2 ^ 64 -> 0 < base < 2 ^ 32 -> do_div constant n base = Some (n / base, n mod base).
Proof.
  intros Hn Hb. unfold do_div. destruct (constant && is_power_of_2 base) eqn:E1.
  { apply andb_true_iff in E1 as [_ E1]. apply is_power_of_2_spec in E1 as (k & Hk & ->); [|lia].
    rewrite ilog2_const_spec, Z.log2_pow2 by lia. cbn [mbind option_bind].
    rewrite Z.shiftr_div_pow2, Z.sub_1_r, <-Z.ones_equiv, Z.land_ones by done.
    pose proof (Z.mod_pos_bound n (2 ^ k) ltac:(lia)). by rewrite u32_small by lia. }
  rewrite (proj2 (Z.eqb_neq base 0)) by lia. cbn [negb]. rewrite andb_true_r.
  destruct constant; cbn [andb] in *.
  { rewrite div64_const32_run by done. cbn [mbind option_bind]. do 2 f_equal. unfold u32.
    rewrite Z.mul_mod_idemp_l, <-Zminus_mod, Z.mul_comm by lia.
    rewrite <-Z.mod_eq by lia. pose proof (Z.mod_pos_bound n base). apply Z.mod_small. lia. }
  case_decide as H1; [|by apply div64_32_run].
  rewrite Z.shiftr_div_pow2 in H1 by lia.
  assert (n < 2 ^ 32) by (pose proof (Z.div_mod n (2 ^ 32)); pose proof (Z.mod_pos_bound n (2 ^ 32)); lia).
  by rewrite decide_False, !u32_small by lia.
Qed.

(** C26: [do_div] is exact on every path: for all 64-bit dividends and 32-bit
    divisors, constant or not, it gives the quotient and the remainder; this holds
    for the mask and shift of a power of two, for the multiplication by the
    reciprocal of any other constant, for 32-bit division and for shift and
    subtract. *)
Theorem do_div_exact constant n base :
  0 <= n < 2 ^ 64 -> 0 < base < 2 ^ 32 -> do_div constant n base = Some (n / base, n mod base).
Proof. apply do_div_run. Qed.

Lemma do_div_exact_witness :
  do_div true (2 ^ 63 + 12345) 100000 = Some (92233720368547, 88153) /\
  do_div false (2 ^ 63 + 12345) 100000 = Some (92233720368547, 88153).
Proof.
  split; [apply (do_div_exact true (2 ^ 63 + 12345) 100000)|
    apply (do_div_exact false (2 ^ 63 + 12345) 100000)]; lia.
Defined.

Lemma div_u64_run dividend divisor :
  0 <= dividend < 2 ^ 64 -> 0 < divisor < 2 ^ 32 -> div_u64 dividend divisor = Some (dividend / divisor).
Proof. intros. unfold div_u64, div_u64_rem. by rewrite do_div_run by done. Qed.

(** Dividing by zero faults. *)
Lemma do_div_zero n : 0 <= n < 2 ^ 64 -> do_div false n 0 = None.
Proof. intros Hn. unfold do_div, __div64_32. cbn [andb]. by case_decide. Qed.

Lemma abs_spec x : - 2 ^ 31 <= x < 2 ^ 31 -> u32 (abs x) = Z.abs x.
Proof.
  intros Hx. unfold abs. rewrite s32_small by done. case_decide; [|rewrite u32_small; lia].
  destruct (Z.eq_dec x (- 2 ^ 31)) as [->|]; [done|]. rewrite s32_small, u32_small by lia. lia.
Qed.

Lemma s64_small x : - 2 ^ 63 <= x < 2 ^ 63 -> s64 x = x.
Proof. intros. unfold s64. rewrite Z.mod_small; lia. Qed.

Lemma s64_opp q : 0 <= q <= 2 ^ 63 -> s64 (u64 (- q)) = - q.
Proof.
  intros Hq. unfold s64, u64. rewrite Zplus_mod_idemp_l, Z.mod_small by lia. lia.
Qed.

(** [div_s64_rem] divides like C's [/] and [%] on 64-bit numbers: it truncates
    toward zero, and the remainder has the sign of the dividend. *)
Theorem div_s64_rem_truncates dividend divisor :
  - 2 ^ 63 <= dividend < 2 ^ 63 -> - 2 ^ 31 <= divisor < 2 ^ 31 -> divisor <> 0 ->
  ~ (dividend = - 2 ^ 63 /\ divisor = -1) ->
  div_s64_rem dividend divisor = Some (Z.quot dividend divisor, Z.rem dividend divisor).
Proof.
  intros Hd Hv Hv0 Hov. unfold div_s64_rem, div_u64_rem. rewrite abs_spec by done.
  assert (Ha : 0 < Z.abs divisor < 2 ^ 32) by lia.
  assert (Hq : forall n, 0 <= n <= 2 ^ 63 -> 0 <= n / Z.abs divisor <= n /\
    0 <= n mod Z.abs divisor < 2 ^ 31).
  { intros n Hn. pose proof (Z.mod_pos_bound n (Z.abs divisor)). split; [|lia].
    split; [apply Z.div_pos; lia|]. apply Z.div_le_upper_bound; nia. }
  case_decide as H1.
  - rewrite u64_small by lia. rewrite do_div_run by lia. cbn [mbind option_bind].
    destruct (Hq (- dividend) ltac:(lia)) as [H2 H3].
    rewrite (s32_small (_ mod _)), s32_small by lia.
    assert (Eq : Z.quot dividend divisor = - (Z.sgn divisor * (- dividend / Z.abs divisor))).
    { rewrite Z.quot_div by lia. rewrite (Z.sgn_neg dividend), (Z.abs_neq dividend) by lia. lia. }
    rewrite Eq, Z.rem_mod, (Z.sgn_neg dividend), (Z.abs_neq dividend) by lia.
    do 2 f_equal. case_decide.
    + rewrite s64_opp by lia. rewrite Z.sgn_pos by lia. lia.
    + rewrite Z.sgn_neg by lia. rewrite s64_small; [lia|].
      destruct (Z.eq_dec (- dividend / Z.abs divisor) (2 ^ 63)) as [E|]; [exfalso|lia].
      apply Hov. split; [lia|]. destruct (Z.eq_dec (Z.abs divisor) 1); [lia|].
      assert (- dividend / Z.abs divisor < 2 ^ 63) by (apply Z.div_lt_upper_bound; lia). lia.
  - rewrite u64_small by lia. rewrite do_div_run by lia. cbn [mbind option_bind].
    destruct (Hq dividend ltac:(lia)) as [H2 H3]. rewrite s32_small by lia.
    destruct (Z.eq_dec dividend 0) as [->|Hn0]; [rewrite Zdiv_0_l, Zmod_0_l; by case_decide; destruct divisor|].
    rewrite Z.quot_div, Z.rem_mod, (Z.sgn_pos dividend), (Z.abs_eq dividend) by lia.
    do 2 f_equal; [|lia]. case_decide.
    + rewrite s64_opp by lia. rewrite Z.sgn_neg by lia. lia.
    + rewrite s64_small, Z.sgn_pos by lia. lia.
Qed.

Lemma div_s64_rem_truncates_witness : div_s64_rem (-7000000000007) 1000 = Some (-7000000000, -7).
Proof. apply (div_s64_rem_truncates (-7000000000007) 1000); lia. Defined.

(** *** 64-bit divisors

    The estimate divides the numbers shifted down by [n] bits.  It is the quotient
    or one more, as long as the dividend is below [2 ^ 62]. *)
Lemma estimate x y n :
  0 <= x < 2 ^ 62 -> 2 <= n -> 2 ^ (30 + n) <= y < 2 ^ (31 + n) ->
  let q := (x / 2 ^ n) / (y / 2 ^ n) in x / y <= q <= x / y + 1.
Proof.
  intros Hx Hn Hy. pose proof (Z.pow_pos_nonneg 2 n ltac:(lia) ltac:(lia)) as Hp.
  rewrite !Z.pow_add_r in Hy by lia.
  assert (Hy1 : 2 ^ 30 <= y / 2 ^ n) by (apply Z.div_le_lower_bound; lia).
  pose proof (Z.div_mod y (2 ^ n) ltac:(lia)) as Ey. pose proof (Z.mod_pos_bound y (2 ^ n) Hp) as Hr.
  set (y1 := y / 2 ^ n) in *. set (r := y mod 2 ^ n) in *. set (B := 2 ^ n) in *. cbn zeta.
  rewrite Z.div_div by lia. assert (Hle : B * y1 <= y) by lia.
  pose proof (Z.div_mod x (B * y1) ltac:(nia)) as Ex. pose proof (Z.mod_pos_bound x (B * y1) ltac:(nia)) as Hm.
  set (q := x / (B * y1)) in *. assert (Hq0 : 0 <= q) by (apply Z.div_pos; nia).
  split; [apply Z.div_le_compat_l; nia|].
  assert (HB : 4 <= B) by (change 4 with (2 ^ 2); apply Z.pow_le_mono_r; lia).
  assert (Hqs : q * B * 2 ^ 30 <= x).
  { assert (0 <= q * B * (y1 - 2 ^ 30)) by (repeat apply Z.mul_nonneg_nonneg; lia). lia. }
  assert (Hqy : q * B <= B * y1).
  { assert (4 * y1 <= B * y1) by (apply Z.mul_le_mono_nonneg_r; lia). lia. }
  enough (q - 1 <= x / y) by lia. apply Z.div_le_lower_bound; [lia|].
  assert (0 <= q * (B - r)) by (apply Z.mul_nonneg_nonneg; lia). rewrite Ey. lia.
Qed.

Lemma high_part divisor :
  2 ^ 32 <= divisor < 2 ^ 64 ->
  exists k, fls (u32 (Z.shiftr divisor 32)) = k /\ u32 (Z.shiftr divisor 32) <> 0 /\ 1 <= k <= 32 /\
    2 ^ (30 + (1 + k)) <= divisor < 2 ^ (31 + (1 + k)).
Proof.
  intros Hd. rewrite Z.shiftr_div_pow2 by lia.
  assert (Hh : 1 <= divisor / 2 ^ 32 < 2 ^ 32) by
    (split; [apply Z.div_le_lower_bound; lia|apply Z.div_lt_upper_bound; lia]).
  rewrite u32_small, fls_spec by lia. exists (Z.log2 (divisor / 2 ^ 32) + 1).
  pose proof (Z.log2_spec (divisor / 2 ^ 32) ltac:(lia)) as Hl.
  pose proof (Z.log2_nonneg (divisor / 2 ^ 32)).
  pose proof (proj1 (Z.log2_lt_pow2 (divisor / 2 ^ 32) 32 ltac:(lia)) ltac:(lia)).
  set (j := Z.log2 _) in *. split; [done|]. split; [lia|]. split; [lia|].
  replace (30 + (1 + (j + 1))) with (j + 32) by lia. replace (31 + (1 + (j + 1))) with (Z.succ j + 32) by lia.
  rewrite !Z.pow_add_r by lia. pose proof (Z.div_mod divisor (2 ^ 32)).
  pose proof (Z.mod_pos_bound divisor (2 ^ 32)). lia.
Qed.

Lemma shifted_estimate dividend divisor k :
  0 <= dividend < 2 ^ 62 -> 1 <= k <= 32 -> 2 ^ (30 + (1 + k)) <= divisor < 2 ^ (31 + (1 + k)) ->
  exists q, div_u64 (Z.shiftr dividend (1 + k)) (u32 (Z.shiftr divisor (1 + k))) = Some q /\
    dividend / divisor <= q <= dividend / divisor + 1.
Proof.
  intros Hx Hk Hy. eexists. rewrite !Z.shiftr_div_pow2 by lia.
  pose proof (Z.pow_pos_nonneg 2 (1 + k) ltac:(lia) ltac:(lia)).
  pose proof Hy as Hy'. rewrite !(Z.pow_add_r 2 _ (1 + k)) in Hy' by lia.
  assert (2 ^ 30 <= divisor / 2 ^ (1 + k) < 2 ^ 31) by
    (split; [apply Z.div_le_lower_bound; lia|apply Z.div_lt_upper_bound; lia]).
  rewrite (u32_small (divisor / _)), div_u64_run; [|split; [apply Z.div_pos; lia|]|lia|lia].
  - split; [done|]. apply (estimate dividend divisor (1 + k)); lia.
  - apply Z.div_lt_upper_bound; nia.
Qed.

(** [div64_u64_rem] and [div64_u64] give the quotient and the remainder of
    64-bit numbers when the divisor fits in 32 bits or the dividend in 62. *)
Theorem div64_u64_exact dividend divisor :
  0 <= dividend < 2 ^ 64 -> 0 < divisor < 2 ^ 64 -> dividend < 2 ^ 62 \/ divisor < 2 ^ 32 ->
  div64_u64_rem dividend divisor = Some (dividend / divisor, dividend mod divisor) /\
  div64_u64 dividend divisor = Some (dividend / divisor).
Proof.
  intros Hx Hy Hb. unfold div64_u64_rem, div64_u64.
  destruct (Z.lt_ge_cases divisor (2 ^ 32)) as [Hs|Hl].
  { rewrite (Z.shiftr_div_pow2 divisor), Z.div_small by lia. change (u32 0) with 0.
    rewrite !(u32_small divisor) by lia. cbn [decide decide_rel]. rewrite !decide_True by done.
    unfold div_u64_rem. by rewrite do_div_run, div_u64_run by lia. }
  destruct (high_part divisor ltac:(lia)) as (k & -> & Hh & Hk & Hy2).
  rewrite !decide_False by done.
  destruct (shifted_estimate dividend divisor k ltac:(lia) Hk Hy2) as (q & -> & Hq). cbn [mbind option_bind].
  pose proof (Z.div_mod dividend divisor ltac:(lia)) as E.
  pose proof (Z.mod_pos_bound dividend divisor ltac:(lia)).
  pose proof (Z.div_pos dividend divisor ltac:(lia) ltac:(lia)).
  set (D := dividend / divisor) in *.
  set (q' := if decide (q <> 0) then q - 1 else q).
  assert (Hq' : q' = D \/ q' = D - 1) by (unfold q'; case_decide; lia).
  assert (Hq0 : 0 <= q') by (unfold q'; case_decide; lia).
  assert (0 <= q' * divisor <= dividend) by nia.
  rewrite (u64_small (q' * divisor)), u64_small by lia.
  destruct Hq' as [E'|E']; rewrite E' in *.
  - rewrite !decide_False by lia. split; [|done]. do 2 f_equal. lia.
  - rewrite !decide_True by lia. rewrite !u64_small by nia. split; do 2 f_equal; lia.
Qed.

Lemma div64_u64_exact_witness :
  div64_u64_rem (2 ^ 61 + 5) (2 ^ 33 + 1) = Some ((2 ^ 61 + 5) / (2 ^ 33 + 1), (2 ^ 61 + 5) mod (2 ^ 33 + 1)) /\
  div64_u64 (2 ^ 61 + 5) (2 ^ 33 + 1) = Some ((2 ^ 61 + 5) / (2 ^ 33 + 1)).
Proof. apply (div64_u64_exact (2 ^ 61 + 5) (2 ^ 33 + 1)); lia. Defined.

(** Beyond that the estimate can be two too large: the shift by [1 + fls(high)]
    drops one bit of the divisor too many. *)
Theorem div64_u64_wrong :
  div64_u64 (2 ^ 64 - 1) (2 ^ 32 + 3) = Some 4294967295 /\ (2 ^ 64 - 1) / (2 ^ 32 + 3) = 4294967293.
Proof. by vm_compute. Qed.

(** [div64_s64] takes [abs] of its arguments, which cuts them to 32 bits. *)
Theorem div64_s64_wrong :
  div64_s64 (2 ^ 40) 2 = Some 0 /\ div64_s64 (2 ^ 40) (2 ^ 33) = None.
Proof. by vm_compute. Qed.

(** ** Iterated subtraction *)

Lemma iter_div_run dividend divisor :
  0 <= dividend < 2 ^ 64 -> 0 < divisor < 2 ^ 32 -> dividend / divisor < 2 ^ 32 ->
  iter_div_u64_rem dividend divisor = Some (dividend / divisor, dividend mod divisor).
Proof.
  intros Hx Hy Hq. unfold iter_div_u64_rem.
  enough (HL : forall n x ret, 0 <= x <= dividend -> 0 <= ret -> ret + x / divisor < 2 ^ 32 ->
    (Z.to_nat (x / divisor) < n)%nat ->
    iter_div_loop n x divisor ret = Some (ret + x / divisor, x mod divisor)).
  { rewrite HL by lia. done. }
  induction n as [|n IH]; intros x ret Hx' Hret Hsum Hn; [lia|]. cbn [iter_div_loop].
  case_decide as Hd.
  - assert (E : x / divisor = (x - divisor) / divisor + 1).
    { replace x with (x - divisor + 1 * divisor) at 1 by lia. by rewrite Z.div_add by lia. }
    pose proof (Z.div_pos (x - divisor) divisor ltac:(lia) ltac:(lia)).
    rewrite u64_small, u32_small by lia. rewrite IH by lia. rewrite E.
    rewrite <-(Z.mod_add (x - divisor) 1 divisor) by lia.
    replace (x - divisor + 1 * divisor) with x by lia. do 2 f_equal. lia.
  - rewrite Z.div_small, Z.mod_small by lia. do 2 f_equal. lia.
Qed.

(** ** Products *)

Lemma u64_mod x : u64 x = x mod 2 ^ 64.
Proof. done. Qed.

(** The 96-bit product, shifted and cut to 64 bits; the shift is at most 32. *)
Lemma mul_u64_u32_shr_spec a mul shift :
  0 <= a < 2 ^ 64 -> 0 <= mul < 2 ^ 32 -> 0 <= shift <= 32 ->
  mul_u64_u32_shr a mul shift = u64 (Z.shiftr (a * mul) shift).
Proof.
  intros Ha Hm Hs. unfold mul_u64_u32_shr, mul_u32_u32.
  destruct (halves a Ha) as (l & h & -> & -> & _ & _ & E & Hl & Hh).
  pose proof (mul_bound l mul Hl Hm). pose proof (mul_bound h mul Hh Hm).
  pose proof (Z.pow_pos_nonneg 2 shift ltac:(lia) ltac:(lia)).
  assert (E2 : a * mul = l * mul + (h * mul * 2 ^ (32 - shift)) * 2 ^ shift).
  { rewrite <-Z.mul_assoc, <-Z.pow_add_r by lia. replace (32 - shift + shift) with 32 by lia. lia. }
  rewrite !Z.shiftr_div_pow2, E2, Z.div_add, !(u64_small (_ * mul)) by lia.
  assert (0 <= l * mul / 2 ^ shift < 2 ^ 64).
  { split; [apply Z.div_pos; lia|]. apply Z.div_lt_upper_bound; nia. }
  case_decide as Hd.
  - rewrite Z.shiftl_mul_pow2 by lia. rewrite !u64_mod. by rewrite Zplus_mod_idemp_r.
  - subst h. rewrite !Z.mul_0_l, Z.add_0_r, u64_small by lia. done.
Qed.

(** The product of a 64-bit and a 32-bit number divided by a 32-bit one, when the
    quotient fits in 64 bits. *)
Lemma mul_u64_u32_div_spec a mul divisor :
  0 <= a < 2 ^ 64 -> 0 <= mul < 2 ^ 32 -> 0 < divisor < 2 ^ 32 -> a * mul / divisor < 2 ^ 64 ->
  mul_u64_u32_div a mul divisor = Some (a * mul / divisor).
Proof.
  intros Ha Hm Hd Hq. unfold mul_u64_u32_div, mul_u32_u32.
  destruct (halves a Ha) as (l & h & -> & _ & -> & _ & E & Hl & Hh).
  pose proof (mul_bound l mul Hl Hm). pose proof (mul_bound h mul Hh Hm).
  rewrite !(u64_small (_ * mul)) by lia.
  destruct (halves (l * mul) ltac:(lia)) as (pl & ph & -> & _ & -> & _ & E2 & Hpl & Hph).
  rewrite u64_small by lia. set (R := h * mul + ph).
  rewrite do_div_run by (unfold R; lia). cbn [mbind option_bind]. unfold join.
  pose proof (Z.mod_pos_bound R divisor ltac:(lia)). pose proof (Z.div_mod R divisor ltac:(lia)) as ER.
  rewrite do_div_run by lia. cbn [mbind option_bind].
  assert (EA : a * mul = pl + 2 ^ 32 * R) by (unfold R; lia).
  assert (EQ : a * mul / divisor = (pl + 2 ^ 32 * (R mod divisor)) / divisor + 2 ^ 32 * (R / divisor)).
  { rewrite <-Z.div_add by lia. f_equal. rewrite EA. rewrite ER at 1. lia. }
  assert (0 <= (pl + 2 ^ 32 * (R mod divisor)) / divisor < 2 ^ 32).
  { split; [apply Z.div_pos; lia|]. apply Z.div_lt_upper_bound; lia. }
  pose proof (Z.div_pos R divisor ltac:(unfold R; lia) ltac:(lia)).
  rewrite !u32_small by lia. rewrite EQ. done.
Qed.
