(* ===== verification/Ctype.v ===== *)
(** * Character classes (src/lib/ctype.c, src/include/rosx/ctype.h)

    The table [_ctype] gives each of the 256 characters the bits of the classes it
    belongs to, and the macros test these bits.  A character is a byte, as a
    number from 0 to 255; the macros convert their argument to [unsigned char]. *)

From stdpp Require Import base list.
From Stdlib Require Import ZArith Lia.
From S2P Require Import Prelude.
#[local] Open Scope Z_scope.

Definition _U : Z := 0x01.
Definition _L : Z := 0x02.
Definition _D : Z := 0x04.
Definition _C : Z := 0x08.
Definition _P : Z := 0x10.
Definition _S : Z := 0x20.
Definition _X : Z := 0x40.
Definition _SP : Z := 0x80.

#[local] Notation "a ∣ b" := (Z.lor a b) (at level 50, left associativity).

Definition _ctype : list Z := [
_C;_C;_C;_C;_C;_C;_C;_C;                             (* 0-7 *)
_C;_C∣_S;_C∣_S;_C∣_S;_C∣_S;_C∣_S;_C;_C;              (* 8-15 *)
_C;_C;_C;_C;_C;_C;_C;_C;                             (* 16-23 *)
_C;_C;_C;_C;_C;_C;_C;_C;                             (* 24-31 *)
_S∣_SP;_P;_P;_P;_P;_P;_P;_P;                         (* 32-39 *)
_P;_P;_P;_P;_P;_P;_P;_P;                             (* 40-47 *)
_D;_D;_D;_D;_D;_D;_D;_D;                             (* 48-55 *)
_D;_D;_P;_P;_P;_P;_P;_P;                             (* 56-63 *)
_P;_U∣_X;_U∣_X;_U∣_X;_U∣_X;_U∣_X;_U∣_X;_U;           (* 64-71 *)
_U;_U;_U;_U;_U;_U;_U;_U;                             (* 72-79 *)
_U;_U;_U;_U;_U;_U;_U;_U;                             (* 80-87 *)
_U;_U;_U;_P;_P;_P;_P;_P;                             (* 88-95 *)
_P;_L∣_X;_L∣_X;_L∣_X;_L∣_X;_L∣_X;_L∣_X;_L;           (* 96-103 *)
_L;_L;_L;_L;_L;_L;_L;_L;                             (* 104-111 *)
_L;_L;_L;_L;_L;_L;_L;_L;                             (* 112-119 *)
_L;_L;_L;_P;_P;_P;_P;_C;                             (* 120-127 *)
0;0;0;0;0;0;0;0;0;0;0;0;0;0;0;0;                     (* 128-143 *)
0;0;0;0;0;0;0;0;0;0;0;0;0;0;0;0;                     (* 144-159 *)
_S∣_SP;_P;_P;_P;_P;_P;_P;_P;_P;_P;_P;_P;_P;_P;_P;_P; (* 160-175 *)
_P;_P;_P;_P;_P;_P;_P;_P;_P;_P;_P;_P;_P;_P;_P;_P;     (* 176-191 *)
_U;_U;_U;_U;_U;_U;_U;_U;_U;_U;_U;_U;_U;_U;_U;_U;     (* 192-207 *)
_U;_U;_U;_U;_U;_U;_U;_P;_U;_U;_U;_U;_U;_U;_U;_L;     (* 208-223 *)
_L;_L;_L;_L;_L;_L;_L;_L;_L;_L;_L;_L;_L;_L;_L;_L;     (* 224-239 *)
_L;_L;_L;_L;_L;_L;_L;_P;_L;_L;_L;_L;_L;_L;_L;_L].    (* 240-255 *)

Definition __ismask (x : Z) : Z := nth (Z.to_nat (x mod 2 ^ 8)) _ctype 0.

(** [(__ismask(c) & bits) != 0]. *)
Definition has_class (bits c : Z) : bool := negb (Z.land (__ismask c) bits =? 0).

Definition isalnum (c : Z) : bool := has_class (_U ∣ _L ∣ _D) c.
Definition isalpha (c : Z) : bool := has_class (_U ∣ _L) c.
Definition iscntrl (c : Z) : bool := has_class _C c.
Definition isdigit (c : Z) : bool := has_class _D c.
Definition isgraph (c : Z) : bool := has_class (_P ∣ _U ∣ _L ∣ _D) c.
Definition islower (c : Z) : bool := has_class _L c.
Definition isprint (c : Z) : bool := has_class (_P ∣ _U ∣ _L ∣ _D ∣ _SP) c.
Definition ispunct (c : Z) : bool := has_class _P c.
Definition isspace (c : Z) : bool := has_class _S c.
Definition isupper (c : Z) : bool := has_class _U c.
Definition isxdigit (c : Z) : bool := has_class (_D ∣ _X) c.
Definition isblank (c : Z) : bool := (c =? 32) || (c =? 9).
Definition isascii (c : Z) : bool := c mod 2 ^ 8 <=? 0x7f.
Definition toascii (c : Z) : Z := Z.land (c mod 2 ^ 8) 0x7f.

(** The parameter is an [unsigned char], the assignment wraps to one. *)
Definition __tolower (c : Z) : Z :=
  let c := c mod 2 ^ 8 in if isupper c then (c - (65 - 97)) mod 2 ^ 8 else c.
Definition __toupper (c : Z) : Z :=
  let c := c mod 2 ^ 8 in if islower c then (c - (97 - 65)) mod 2 ^ 8 else c.
Definition tolower (c : Z) : Z := __tolower c.
Definition toupper (c : Z) : Z := __toupper c.

(** ** What the table says

    A statement about every byte is checked by running through the 256 of them. *)

Definition all_bytes : list Z := Z.of_nat <$> seq 0 256.

Lemma byte_enum (P : Z -> bool) :
  forallb P all_bytes = true -> forall c, 0 <= c < 2 ^ 8 -> P c = true.
Proof.
  intros H c Hc. rewrite forallb_forall in H. apply H. unfold all_bytes.
  apply list_elem_of_In, list_elem_of_fmap. exists (Z.to_nat c).
  split; [lia|]. apply elem_of_seq. lia.
Qed.

Ltac by_bytes :=
  match goal with
  | |- forall c, 0 <= c < 2 ^ 8 -> @?L c = @?R c =>
    intros c Hc; apply eqb_prop; revert c Hc;
    apply (byte_enum (fun c => eqb (L c) (R c))); vm_compute; reflexivity
  end.

Lemma isdigit_spec : forall c, 0 <= c < 2 ^ 8 -> isdigit c = (48 <=? c) && (c <=? 57).
Proof. by_bytes. Qed.

Lemma isspace_spec : forall c, 0 <= c < 2 ^ 8 ->
  isspace c = (9 <=? c) && (c <=? 13) || (c =? 32) || (c =? 160).
Proof. by_bytes. Qed.

Lemma isxdigit_spec : forall c, 0 <= c < 2 ^ 8 ->
  isxdigit c = isdigit c || (65 <=? c) && (c <=? 70) || (97 <=? c) && (c <=? 102).
Proof. by_bytes. Qed.

Lemma isspace_0 : isspace 0 = false.
Proof. reflexivity. Qed.

Lemma isalnum_split : forall c, 0 <= c < 2 ^ 8 -> isalnum c = isalpha c || isdigit c.
Proof. by_bytes. Qed.

(** Every printing character is graphic or a hard space, and control characters
    never print. *)
Lemma isprint_split : forall c, 0 <= c < 2 ^ 8 ->
  isprint c = (isgraph c || (c =? 32) || (c =? 160)) && negb (iscntrl c).
Proof. by_bytes. Qed.

(** Changing the case of an ASCII letter and back is the identity, and only
    letters change. *)
Lemma case_roundtrip : forall c, 0 <= c < 2 ^ 8 ->
  (toupper (tolower c) =? (if isupper c then c else toupper c)) = true.
Proof. apply byte_enum. vm_compute. reflexivity. Qed.

(** The case functions on characters of the upper half: [ÿ] is marked as a lower
    case letter and its upper case would be [ß], which is marked so too. *)
Lemma toupper_y_diaeresis : toupper 255 = 223 /\ islower 223 = true /\ isupper 223 = false.
Proof. by vm_compute. Qed.
