(* ===== verification/Mem.v ===== *)
(** * Byte memory and the memory functions (src/lib/string.c)

    Raw memory is a finite map from addresses to bytes; an access to an address
    that is not mapped faults ([None]).  The x86 port is little-endian with
    32-bit words.  [memcpy] and [memset] work a word at a time when the addresses
    are aligned; the theorems compare them with the plain copy of bytes. *)

From stdpp Require Import base gmap list.
From Stdlib Require Import ZArith Lia.
From S2P Require Import Prelude.
#[local] Open Scope Z_scope.

Notation mem := (gmap Z Z).

Definition store_byte (m : mem) (a b : Z) : option mem :=
  match m !! a with
  | Some _ => Some (<[a := b]> m)
  | None => None
  end.

(** [*(unsigned long * )a] and the assignment to it. *)
Definition load_word (m : mem) (a : Z) : option Z :=
  b0 ← m !! a; b1 ← m !! (a + 1); b2 ← m !! (a + 2); b3 ← m !! (a + 3);
  Some (b0 + 2 ^ 8 * b1 + 2 ^ 16 * b2 + 2 ^ 24 * b3).

Definition byte_of (w : Z) (i : Z) : Z := (w / 2 ^ (8 * i)) mod 2 ^ 8.

Definition store_word (m : mem) (a w : Z) : option mem :=
  m ← store_byte m a (byte_of w 0); m ← store_byte m (a + 1) (byte_of w 1);
  m ← store_byte m (a + 2) (byte_of w 2); store_byte m (a + 3) (byte_of w 3).

(** ** memcpy *)

(** [while (count--) *d8++ = *s8++;]. *)
Fixpoint copy_bytes (count : nat) (m : mem) (d s : Z) : option mem :=
  match count with
  | O => Some m
  | S count => b ← m !! s; m ← store_byte m d b; copy_bytes count m (d + 1) (s + 1)
  end.

(** [while (count >= 4) { *dl++ = *sl++; count -= 4; }], then the rest. *)
Fixpoint copy_words (words : nat) (rest : nat) (m : mem) (d s : Z) : option mem :=
  match words with
  | O => copy_bytes rest m d s
  | S words => w ← load_word m s; m ← store_word m d w; copy_words words rest m (d + 4) (s + 4)
  end.

Definition memcpy (dest src : Z) (count : nat) (m : mem) : option mem :=
  if decide (src = dest) then Some m
  else if decide (Z.land (Z.lor dest src) 3 = 0)
  then copy_words (count `div` 4) (count `mod` 4) m dest src
  else copy_bytes count m dest src.

(** ** memset *)

(** [while (count--) *s8++ = c;]: the assignment converts to [char]. *)
Fixpoint set_bytes (count : nat) (m : mem) (s c : Z) : option mem :=
  match count with
  | O => Some m
  | S count => m ← store_byte m s (c mod 2 ^ 8); set_bytes count m (s + 1) c
  end.

(** The word with the byte [c & 0xff] in each place:
    [cl <<= 8; cl |= c & 0xff;] four times. *)
Definition fill_word (c : Z) : Z :=
  Nat.iter 4 (fun cl => Z.lor (u32 (Z.shiftl cl 8)) (Z.land c 255)) 0.

Fixpoint set_words (words : nat) (rest : nat) (m : mem) (s cl c : Z) : option mem :=
  match words with
  | O => set_bytes rest m s c
  | S words => m ← store_word m s cl; set_words words rest m (s + 4) cl c
  end.

Definition memset (s c : Z) (count : nat) (m : mem) : option mem :=
  if decide (Z.land s 3 = 0)
  then set_words (count `div` 4) (count `mod` 4) m s (fill_word c) c
  else set_bytes count m s c.

(** ** memmove *)

(** [while (count--) *--tmp = *--s;] from the ends [d], [s] of the areas. *)
Fixpoint copy_down (count : nat) (m : mem) (d s : Z) : option mem :=
  match count with
  | O => Some m
  | S count => b ← m !! (s - 1); m ← store_byte m (d - 1) b; copy_down count m (d - 1) (s - 1)
  end.

Definition memmove (dest src : Z) (count : nat) (m : mem) : option mem :=
  if decide (src = dest) then Some m
  else if decide (dest <= src) then copy_bytes count m dest src
  else copy_down count m (dest + Z.of_nat count) (src + Z.of_nat count).

(** ** memcmp, memscan, memchr *)

Fixpoint memcmp (count : nat) (m : mem) (cs ct : Z) : option Z :=
  match count with
  | O => Some 0
  | S count =>
    b1 ← m !! cs; b2 ← m !! ct;
    if decide (b1 - b2 <> 0) then Some (b1 - b2) else memcmp count m (cs + 1) (ct + 1)
  end.

(** [*p == c] compares the byte with the whole integer [c]. *)
Fixpoint memscan (size : nat) (m : mem) (p c : Z) : option Z :=
  match size with
  | O => Some p
  | S size => b ← m !! p; if decide (b = c) then Some p else memscan size m (p + 1) c
  end.

(** The result 0 is NULL. *)
Fixpoint memchr (n : nat) (m : mem) (p c : Z) : option Z :=
  match n with
  | O => Some 0
  | S n => b ← m !! p; if decide (c mod 2 ^ 8 = b) then Some p else memchr n m (p + 1) c
  end.

(** ** Blocks of memory *)

(** The bytes [l] are at the address [a]. *)
Definition block (m : mem) (a : Z) (l : list Z) : Prop :=
  forall j b, l !! j = Some b -> m !! (a + Z.of_nat j) = Some b.

(** The [n] bytes at [a] are mapped. *)
Definition mapped (m : mem) (a : Z) (n : nat) : Prop :=
  forall j, (j < n)%nat -> is_Some (m !! (a + Z.of_nat j)).

(** Memory with the bytes [l] written at [a]. *)
Fixpoint store_list (m : mem) (a : Z) (l : list Z) : mem :=
  match l with
  | [] => m
  | b :: l => store_list (<[a := b]> m) (a + 1) l
  end.

(** Two areas of [n] bytes have no byte in common. *)
Definition apart (d s : Z) (n : nat) : Prop := d + Z.of_nat n <= s \/ s + Z.of_nat n <= d.

Definition bytes (l : list Z) : Prop := Forall (fun b => 0 <= b < 2 ^ 8) l.

Lemma block_cons m a b l : block m a (b :: l) <-> m !! a = Some b /\ block m (a + 1) l.
Proof.
  split.
  - intros H. split.
    + specialize (H 0%nat b eq_refl). by rewrite Z.add_0_r in H.
    + intros j x Hj. specialize (H (S j) x Hj). by replace (a + 1 + Z.of_nat j) with (a + Z.of_nat (S j)) by lia.
  - intros [H0 H] [|j] x Hj; simplify_eq/=; [by rewrite Z.add_0_r|].
    specialize (H j x Hj). by replace (a + Z.of_nat (S j)) with (a + 1 + Z.of_nat j) by lia.
Qed.

Lemma block_nil m a : block m a [].
Proof. intros j b. by rewrite lookup_nil. Qed.

Lemma mapped_S m a n : mapped m a (S n) <-> is_Some (m !! a) /\ mapped m (a + 1) n.
Proof.
  split.
  - intros H. split; [specialize (H 0%nat ltac:(lia)); by rewrite Z.add_0_r in H|].
    intros j Hj. specialize (H (S j) ltac:(lia)). by replace (a + 1 + Z.of_nat j) with (a + Z.of_nat (S j)) by lia.
  - intros [H0 H] [|j] Hj; [by rewrite Z.add_0_r|].
    specialize (H j ltac:(lia)). by replace (a + Z.of_nat (S j)) with (a + 1 + Z.of_nat j) by lia.
Qed.

Lemma mapped_insert m a n x b : mapped m a n -> mapped (<[x := b]> m) a n.
Proof. intros H j Hj. rewrite lookup_insert. case_decide; [done|auto]. Qed.

Lemma block_insert m a l x b :
  (x < a \/ a + Z.of_nat (length l) <= x) -> block m a l -> block (<[x := b]> m) a l.
Proof.
  intros Hx H j y Hj. rewrite lookup_insert_ne; [auto|].
  apply lookup_lt_Some in Hj. lia.
Qed.

Lemma store_byte_mapped m a b : is_Some (m !! a) -> store_byte m a b = Some (<[a := b]> m).
Proof. unfold store_byte. by intros [x ->]. Qed.

(** What [store_list] stores and what it keeps. *)
Lemma store_list_out m a l x :
  x < a \/ a + Z.of_nat (length l) <= x -> store_list m a l !! x = m !! x.
Proof.
  revert m a. induction l as [|b l IH]; intros m a Hx; simpl in *; [done|].
  rewrite IH by lia. rewrite lookup_insert_ne by lia. done.
Qed.

Lemma store_list_block m a l : block (store_list m a l) a l.
Proof.
  revert m a. induction l as [|b l IH]; intros m a; [apply block_nil|].
  apply block_cons. simpl. split; [|apply IH].
  rewrite store_list_out by lia. apply lookup_insert_eq.
Qed.

Lemma store_list_mapped m a l x n : mapped m x n -> mapped (store_list m a l) x n.
Proof.
  revert m a. induction l as [|b l IH]; intros m a H; [done|]. by apply IH, mapped_insert.
Qed.

Lemma store_list_app m a l1 l2 :
  store_list m a (l1 ++ l2) = store_list (store_list m a l1) (a + Z.of_nat (length l1)) l2.
Proof.
  revert m a. induction l1 as [|b l1 IH]; intros m a; simpl; [by rewrite Z.add_0_r|].
  rewrite IH. f_equal. lia.
Qed.

(** ** The copies *)

Lemma copy_bytes_run m d s l :
  block m s l -> mapped m d (length l) -> d <= s \/ s + Z.of_nat (length l) <= d ->
  copy_bytes (length l) m d s = Some (store_list m d l).
Proof.
  revert m d s. induction l as [|b l IH]; intros m d s Hb Hm Ho; simpl in *; [done|].
  apply block_cons in Hb as [Hb Hl]. apply mapped_S in Hm as [Hd Hm].
  rewrite Hb. simpl. rewrite store_byte_mapped by done. simpl. apply IH; [|by apply mapped_insert|lia].
  apply block_insert; [lia|done].
Qed.

Lemma byte_of_word b0 b1 b2 b3 i :
  bytes [b0; b1; b2; b3] -> (i < 4)%nat ->
  Some (byte_of (b0 + 2 ^ 8 * b1 + 2 ^ 16 * b2 + 2 ^ 24 * b3) (Z.of_nat i)) = [b0; b1; b2; b3] !! i.
Proof.
  unfold bytes, byte_of. rewrite !Forall_cons. intros (H0 & H1 & H2 & H3 & _) Hi.
  destruct i as [|[|[|[|i]]]]; [..|lia]; simpl; f_equal; Z.div_mod_to_equations; lia.
Qed.

(** One word is four bytes. *)
Lemma store_word_run m d b0 b1 b2 b3 :
  bytes [b0; b1; b2; b3] -> mapped m d 4 ->
  store_word m d (b0 + 2 ^ 8 * b1 + 2 ^ 16 * b2 + 2 ^ 24 * b3)
    = Some (store_list m d [b0; b1; b2; b3]).
Proof.
  intros Hby Hm. rewrite !mapped_S in Hm. destruct Hm as (M0 & M1 & M2 & M3 & _).
  replace (d + 1 + 1) with (d + 2) in * by lia. replace (d + 2 + 1) with (d + 3) in * by lia.
  set (w := b0 + _ + _ + _).
  assert (Hw : forall i, (i < 4)%nat -> Some (byte_of w (Z.of_nat i)) = [b0; b1; b2; b3] !! i)
    by (intros; by apply byte_of_word).
  assert (E0 : byte_of w 0 = b0) by (by injection (Hw 0%nat ltac:(lia))).
  assert (E1 : byte_of w 1 = b1) by (by injection (Hw 1%nat ltac:(lia))).
  assert (E2 : byte_of w 2 = b2) by (by injection (Hw 2%nat ltac:(lia))).
  assert (E3 : byte_of w 3 = b3) by (by injection (Hw 3%nat ltac:(lia))).
  unfold store_word. rewrite E0, E1, E2, E3. rewrite store_byte_mapped by done. simpl.
  rewrite store_byte_mapped by (rewrite lookup_insert_ne by lia; done). simpl.
  rewrite store_byte_mapped by (rewrite !lookup_insert_ne by lia; done). simpl.
  rewrite store_byte_mapped by (rewrite !lookup_insert_ne by lia; done).
  do 2 f_equal; [lia|]. f_equal. lia.
Qed.

Lemma load_word_run m s b0 b1 b2 b3 :
  block m s [b0; b1; b2; b3] ->
  load_word m s = Some (b0 + 2 ^ 8 * b1 + 2 ^ 16 * b2 + 2 ^ 24 * b3).
Proof.
  intros Hb. rewrite !block_cons in Hb. destruct Hb as (H0 & H1 & H2 & H3 & _).
  replace (s + 1 + 1) with (s + 2) in * by lia. replace (s + 2 + 1) with (s + 3) in * by lia.
  unfold load_word. rewrite H0. simpl. rewrite H1. simpl. rewrite H2. simpl. by rewrite H3.
Qed.

Lemma block_app m a l1 l2 :
  block m a (l1 ++ l2) <-> block m a l1 /\ block m (a + Z.of_nat (length l1)) l2.
Proof.
  revert a. induction l1 as [|b l1 IH]; intros a; simpl.
  - rewrite Z.add_0_r. split; [split; [apply block_nil|done]|tauto].
  - rewrite !block_cons, IH. replace (a + Z.of_nat (S (length l1)))
      with (a + 1 + Z.of_nat (length l1)) by lia. tauto.
Qed.

Lemma mapped_app m a n1 n2 :
  mapped m a (n1 + n2) <-> mapped m a n1 /\ mapped m (a + Z.of_nat n1) n2.
Proof.
  revert a. induction n1 as [|n IH]; intros a; simpl.
  - rewrite Z.add_0_r. split; [split; [intros j Hj; lia|done]|tauto].
  - rewrite !mapped_S, IH. replace (a + Z.of_nat (S n)) with (a + 1 + Z.of_nat n) by lia. tauto.
Qed.

Lemma store_list_keeps m a l x l' :
  x + Z.of_nat (length l') <= a \/ a + Z.of_nat (length l) <= x ->
  block m x l' -> block (store_list m a l) x l'.
Proof.
  intros Hx H j b Hj. rewrite store_list_out; [auto|]. apply lookup_lt_Some in Hj. lia.
Qed.

Lemma copy_words_run w r m d s l :
  length l = (4 * w + r)%nat -> bytes l -> block m s l -> mapped m d (length l) ->
  apart d s (length l) -> copy_words w r m d s = Some (store_list m d l).
Proof.
  revert m d s l. induction w as [|w IH]; intros m d s l Hl Hby Hb Hm Ha.
  - simpl in *. subst r. apply copy_bytes_run; [done|done|]. unfold apart in Ha. lia.
  - destruct l as [|b0 [|b1 [|b2 [|b3 l]]]]; [simpl in Hl; lia..|].
    change (b0 :: b1 :: b2 :: b3 :: l) with ([b0; b1; b2; b3] ++ l) in *.
    apply Forall_app in Hby as [Hby Hbl]. apply block_app in Hb as [Hb Hbl'].
    rewrite length_app in *. apply mapped_app in Hm as [Hm Hml].
    simpl length in *. unfold apart in Ha. cbn [copy_words].
    rewrite (load_word_run m s b0 b1 b2 b3) by done. cbn [mbind option_bind].
    rewrite (store_word_run m d b0 b1 b2 b3) by done. simpl.
    rewrite IH with (l := l); [|lia|done| | |].
    + do 2 f_equal. lia.
    + apply (store_list_keeps m d [b0; b1; b2; b3]); [simpl; lia|]. exact Hbl'.
    + apply (store_list_mapped m d [b0; b1; b2; b3]). exact Hml.
    + unfold apart. lia.
Qed.

Lemma memcpy_run m dest src l :
  bytes l -> block m src l -> mapped m dest (length l) -> apart dest src (length l) ->
  memcpy dest src (length l) m = Some (store_list m dest l).
Proof.
  intros Hby Hb Hm Ha. unfold memcpy. case_decide as He.
  { subst. unfold apart in Ha. assert (length l = 0%nat) as ->%nil_length_inv by lia. done. }
  case_decide.
  - apply copy_words_run; [|done..].
    rewrite (Nat.div_mod (length l) 4) at 1 by lia. lia.
  - apply copy_bytes_run; [done|done|]. unfold apart in Ha. lia.
Qed.

(** [memcpy] of two areas without common bytes copies exactly the source:
    whether it copies words or bytes, the destination then holds the bytes of the
    source and every other byte of memory is as before. *)
Theorem memcpy_copies m dest src l :
  bytes l -> block m src l -> mapped m dest (length l) -> apart dest src (length l) ->
  exists m', memcpy dest src (length l) m = Some m' /\ block m' dest l /\
    (forall x, x < dest \/ dest + Z.of_nat (length l) <= x -> m' !! x = m !! x).
Proof.
  intros Hby Hb Hm Ha. eexists. split; [by apply memcpy_run|].
  split; [apply store_list_block|]. intros x. apply store_list_out.
Qed.

(** Bytes 0..11 of a sample memory. *)
Definition sample_mem : mem :=
  store_list ∅ 0 [1; 2; 3; 4; 5; 6; 0; 0; 0; 0; 0; 0].

Lemma sample_mem_block : block sample_mem 0 [1; 2; 3; 4; 5; 6; 0; 0; 0; 0; 0; 0].
Proof. apply store_list_block. Qed.

Lemma block_mapped m a l n : (n <= length l)%nat -> block m a l -> mapped m a n.
Proof.
  intros Hn Hb j Hj. destruct (lookup_lt_is_Some_2 l j) as [b Hj']; [lia|].
  rewrite (Hb j b Hj'). done.
Qed.

Lemma memcpy_copies_witness :
  exists m', memcpy 4 0 3 sample_mem = Some m' /\ block m' 4 [1; 2; 3] /\
    (forall x, x < 4 \/ 4 + Z.of_nat 3 <= x -> m' !! x = sample_mem !! x).
Proof.
  apply (memcpy_copies sample_mem 4 0 [1; 2; 3]).
  - by repeat constructor.
  - pose proof sample_mem_block as H. change [1; 2; 3; 4; 5; 6; 0; 0; 0; 0; 0; 0]
      with ([1; 2; 3] ++ [4; 5; 6; 0; 0; 0; 0; 0; 0]) in H. by apply block_app in H as [H _].
  - pose proof sample_mem_block as H. change [1; 2; 3; 4; 5; 6; 0; 0; 0; 0; 0; 0]
      with ([1; 2; 3; 4] ++ [5; 6; 0; 0; 0; 0; 0; 0]) in H. apply block_app in H as [_ H].
    eapply block_mapped; [|exact H]. simpl. lia.
  - right. simpl. lia.
Defined.

(** ** Overlapping areas *)

Lemma store_list_snoc m a l b :
  store_list m a (l ++ [b]) = <[a + Z.of_nat (length l) := b]> (store_list m a l).
Proof. by rewrite store_list_app. Qed.

Lemma store_list_insert m a l x b :
  x < a \/ a + Z.of_nat (length l) <= x ->
  store_list (<[x := b]> m) a l = <[x := b]> (store_list m a l).
Proof.
  revert m a. induction l as [|c l IH]; intros m a Hx; simpl in *; [done|].
  rewrite insert_insert_ne by lia. apply IH. lia.
Qed.

Lemma copy_down_run m d s l :
  block m s l -> mapped m d (length l) -> s <= d ->
  copy_down (length l) m (d + Z.of_nat (length l)) (s + Z.of_nat (length l))
    = Some (store_list m d l).
Proof.
  revert m. induction l as [|b l IH] using rev_ind; intros m Hb Hm Ho; [done|].
  rewrite length_app in *. simpl in *. rewrite Nat.add_1_r in *. cbn [copy_down].
  apply block_app in Hb as [Hb Hbl]. apply block_cons in Hbl as [Hbl _].
  replace (s + Z.of_nat (S (length l)) - 1) with (s + Z.of_nat (length l)) by lia.
  replace (d + Z.of_nat (S (length l)) - 1) with (d + Z.of_nat (length l)) by lia.
  rewrite Hbl. simpl. rewrite store_byte_mapped by (apply Hm; lia). simpl. rewrite IH; [|..|done].
  - rewrite store_list_snoc, store_list_insert by lia. done.
  - apply block_insert; [lia|done].
  - apply mapped_insert. intros j Hj. apply Hm. lia.
Qed.

Lemma store_list_self m a l : block m a l -> store_list m a l = m.
Proof.
  revert a. induction l as [|b l IH]; intros a Hb; simpl; [done|].
  apply block_cons in Hb as [Hb Hl]. rewrite insert_id by done. by apply IH.
Qed.

(** [memmove] copies the source as it was before the call, however the two
    areas overlap, and changes nothing outside the destination. *)
Theorem memmove_copies m dest src l :
  block m src l -> mapped m dest (length l) ->
  exists m', memmove dest src (length l) m = Some m' /\ block m' dest l /\
    (forall x, x < dest \/ dest + Z.of_nat (length l) <= x -> m' !! x = m !! x).
Proof.
  intros Hb Hm. exists (store_list m dest l).
  split; [|split; [apply store_list_block|intros x; apply store_list_out]].
  unfold memmove. case_decide; [subst; by rewrite store_list_self|].
  case_decide; [apply copy_bytes_run; auto|apply copy_down_run; [done|done|lia]].
Qed.

Lemma memmove_copies_witness :
  exists m', memmove 2 0 6 sample_mem = Some m' /\ block m' 2 [1; 2; 3; 4; 5; 6] /\
    (forall x, x < 2 \/ 2 + Z.of_nat 6 <= x -> m' !! x = sample_mem !! x).
Proof.
  apply (memmove_copies sample_mem 2 0 [1; 2; 3; 4; 5; 6]).
  - pose proof sample_mem_block as H. change [1; 2; 3; 4; 5; 6; 0; 0; 0; 0; 0; 0]
      with ([1; 2; 3; 4; 5; 6] ++ [0; 0; 0; 0; 0; 0]) in H. by apply block_app in H as [H _].
  - pose proof sample_mem_block as H. change [1; 2; 3; 4; 5; 6; 0; 0; 0; 0; 0; 0]
      with ([1; 2] ++ [3; 4; 5; 6; 0; 0; 0; 0; 0; 0]) in H. apply block_app in H as [_ H].
    eapply block_mapped; [|exact H]. simpl. lia.
Defined.

(** ** Filling *)

Lemma set_bytes_run m s c n :
  mapped m s n -> set_bytes n m s c = Some (store_list m s (replicate n (c mod 2 ^ 8))).
Proof.
  revert m s. induction n as [|n IH]; intros m s Hm; [done|].
  apply mapped_S in Hm as [Hs Hm]. cbn [set_bytes replicate store_list].
  rewrite store_byte_mapped by done. simpl. by apply IH, mapped_insert.
Qed.

Lemma fill_word_bytes c :
  let b := c mod 2 ^ 8 in fill_word c = b + 2 ^ 8 * b + 2 ^ 16 * b + 2 ^ 24 * b.
Proof.
  intros b. pose proof (Z.mod_pos_bound c (2 ^ 8) ltac:(lia)) as Hb. fold b in Hb.
  assert (Hor : forall x, 0 <= x < 2 ^ 24 -> Z.lor (u32 (Z.shiftl x 8)) b = 2 ^ 8 * x + b).
  { intros x Hx. rewrite Z.shiftl_mul_pow2 by lia. rewrite u32_small by lia.
    assert (Hland : Z.land (x * 2 ^ 8) b = 0).
    { apply Z.bits_inj'. intros i Hi. rewrite Z.land_spec, Z.bits_0.
      rewrite <- Z.shiftl_mul_pow2, Z.shiftl_spec by lia.
      destruct (decide (i < 8)); [by rewrite (Z.testbit_neg_r _ (i - 8)) by lia|].
      rewrite <- (Z.mod_small b (2 ^ 8)), Z.mod_pow2_bits_high by lia. apply andb_false_r. }
    rewrite <- Z.lxor_lor, <- Z.add_nocarry_lxor by done. lia. }
  unfold fill_word. change (Z.land c 255) with (Z.land c (Z.ones 8)).
  rewrite Z.land_ones by lia. change (2 ^ 8) with 256 in *. fold b. cbn [Nat.iter nat_rect].
  rewrite (Hor 0), (Hor (256 * 0 + b)), (Hor (256 * (256 * 0 + b) + b)) by lia.
  rewrite Hor by lia. lia.
Qed.

Lemma set_words_run w r m s c :
  mapped m s (4 * w + r) ->
  set_words w r m s (fill_word c) c = Some (store_list m s (replicate (4 * w + r) (c mod 2 ^ 8))).
Proof.
  set (b := c mod 2 ^ 8). assert (Hb : 0 <= b < 2 ^ 8) by (apply Z.mod_pos_bound; lia).
  revert m s. induction w as [|w IH]; intros m s Hm.
  - by apply set_bytes_run.
  - replace (4 * S w + r)%nat with (4 + (4 * w + r))%nat in * by lia.
    apply mapped_app in Hm as [Hm Hml]. cbn [set_words].
    assert (Hs : store_word m s (fill_word c) = Some (store_list m s [b; b; b; b])).
    { rewrite fill_word_bytes. apply store_word_run; [|done]. unfold bytes. by rewrite !Forall_cons. }
    rewrite Hs. cbn [mbind option_bind].
    rewrite IH by (apply (store_list_mapped m s [b; b; b; b]); exact Hml).
    cbn [replicate Nat.add store_list]. do 2 f_equal. lia.
Qed.

Lemma memset_run m s c n :
  mapped m s n -> memset s c n m = Some (store_list m s (replicate n (c mod 2 ^ 8))).
Proof.
  intros Hm. unfold memset. case_decide; [|by apply set_bytes_run].
  assert (Hn : n = (4 * (n `div` 4) + n `mod` 4)%nat) by (apply Nat.div_mod; lia).
  rewrite set_words_run by (by rewrite <- Hn). by rewrite <- Hn.
Qed.

(** [memset] fills exactly the area with the byte [c]: filling by words and
    by bytes give the same memory. *)
Theorem memset_fills m s c n :
  mapped m s n ->
  exists m', memset s c n m = Some m' /\ block m' s (replicate n (c mod 2 ^ 8)) /\
    (forall x, x < s \/ s + Z.of_nat n <= x -> m' !! x = m !! x).
Proof.
  intros Hm. exists (store_list m s (replicate n (c mod 2 ^ 8))).
  split; [|split; [apply store_list_block|]].
  - by apply memset_run.
  - intros x Hx. apply store_list_out. rewrite length_replicate. lia.
Qed.

Lemma memset_fills_witness :
  exists m', memset 4 (-1) 6 sample_mem = Some m' /\ block m' 4 (replicate 6 (-1 mod 2 ^ 8)) /\
    (forall x, x < 4 \/ 4 + Z.of_nat 6 <= x -> m' !! x = sample_mem !! x).
Proof.
  apply (memset_fills sample_mem 4 (-1) 6).
  pose proof sample_mem_block as H. change [1; 2; 3; 4; 5; 6; 0; 0; 0; 0; 0; 0]
    with ([1; 2; 3; 4] ++ [5; 6; 0; 0; 0; 0; 0; 0]) in H. apply block_app in H as [_ H].
  eapply block_mapped; [|exact H]. simpl. lia.
Defined.
