(* ===== verification/Words.v ===== *)
(** * Words: population counts, single bits and byte order
      (src/include/rosx/bitops.h, src/include/asm-generic/bitops/,
       src/include/rosx/byteorder/swab.h)

    The number of bits set in a word, by adding neighbouring fields of it; the first and
    the last bit set; setting and clearing a bit of an array of words in memory; and the
    reversal of the bytes of a word, by masks and shifts. *)

From stdpp Require Import base gmap list.
From Stdlib Require Import ZArith Lia.
From S2P Require Import Prelude Bitops Mem.
#[local] Open Scope Z_scope.

(** ** Counting bits *)

(** [(w & mask) + ((w >> k) & mask)]. *)
Definition add_fields (mask k w : Z) : Z := u32 (Z.land w mask + Z.land (Z.shiftr w k) mask).

Definition generic_hweight32 (w : Z) : Z :=
  let res := add_fields 0x55555555 1 w in
  let res := add_fields 0x33333333 2 res in
  let res := add_fields 0x0F0F0F0F 4 res in
  let res := add_fields 0x00FF00FF 8 res in
  add_fields 0x0000FFFF 16 res.

Definition generic_hweight16 (w : Z) : Z :=
  let res := add_fields 0x5555 1 w in
  let res := add_fields 0x3333 2 res in
  let res := add_fields 0x0F0F 4 res in
  add_fields 0x00FF 8 res.

Definition generic_hweight8 (w : Z) : Z :=
  let res := add_fields 0x55 1 w in
  let res := add_fields 0x33 2 res in
  add_fields 0x0F 4 res.

(** The sum of the lowest [n] bits. *)
Fixpoint bits_set (n : nat) (w : Z) : Z :=
  match n with
  | O => 0
  | S n => w mod 2 + bits_set n (w / 2)
  end.

Lemma bits_set_app n m w : bits_set (n + m) w = bits_set n w + bits_set m (w / 2 ^ Z.of_nat n).
Proof.
  revert w. induction n as [|n IH]; intros w; cbn [bits_set Nat.add].
  - by rewrite Z.div_1_r.
  - rewrite IH, Nat2Z.inj_succ, Z.pow_succ_r, Z.div_div by lia. lia.
Qed.

Lemma bits_set_mod n w : bits_set n (w mod 2 ^ Z.of_nat n) = bits_set n w.
Proof.
  revert w. induction n as [|n IH]; intros w; [done|]. cbn [bits_set].
  rewrite Nat2Z.inj_succ, Z.pow_succ_r by lia. set (p := 2 ^ Z.of_nat n) in *.
  assert (0 < p) by (apply Z.pow_pos_nonneg; lia).
  rewrite Z.rem_mul_r by lia. rewrite Z.mul_comm, Z.mod_add, Z.mod_mod by lia. f_equal.
  rewrite Z.div_add, Z.div_small, Z.add_0_l by (lia || apply Z.mod_pos_bound; lia). apply IH.
Qed.

(** A word as its lowest byte and the rest. *)
Lemma bits_set_byte n lo hi :
  0 <= lo < 2 ^ 8 -> bits_set (8 + n) (lo + 2 ^ 8 * hi) = bits_set 8 lo + bits_set n hi.
Proof.
  intros Hlo. rewrite bits_set_app. change (Z.of_nat 8) with 8. f_equal.
  - rewrite <- (bits_set_mod 8). change (2 ^ Z.of_nat 8) with (2 ^ 8).
    rewrite Z.mul_comm, Z.mod_add, Z.mod_small by lia. done.
  - rewrite Z.mul_comm, Z.div_add, Z.div_small by lia. done.
Qed.

(** A word in two parts. *)
Lemma testbit_parts j a b n :
  0 <= j -> 0 <= a < 2 ^ j -> 0 <= n ->
  Z.testbit (a + 2 ^ j * b) n = if decide (n < j) then Z.testbit a n else Z.testbit b (n - j).
Proof.
  intros Hj Ha Hn. case_decide.
  - rewrite <- (Z.mod_pow2_bits_low _ j) by lia. rewrite Z.mul_comm, Z.mod_add, Z.mod_small by lia. done.
  - replace n with ((n - j) + j) at 1 by lia. rewrite <- Z.div_pow2_bits by lia.
    by rewrite Z.mul_comm, Z.div_add, Z.div_small, Z.add_0_l by lia.
Qed.

Lemma land_low j a c : 0 <= j -> 0 <= a < 2 ^ j -> 0 <= c -> 0 <= Z.land a c < 2 ^ j.
Proof.
  intros Hj Ha Hc. assert (H0 : 0 <= Z.land a c) by (apply Z.land_nonneg; lia). split; [done|].
  destruct (decide (Z.land a c = 0)) as [->|]; [lia|]. apply Z.log2_lt_pow2; [lia|].
  pose proof (Z.log2_land a c ltac:(lia) Hc). destruct (decide (a = 0)) as [->|]; [by rewrite Z.land_0_l in *|].
  assert (Z.log2 a < j) by (apply Z.log2_lt_pow2; lia). lia.
Qed.

Lemma land_parts j a b c d :
  0 <= j -> 0 <= a < 2 ^ j -> 0 <= c < 2 ^ j ->
  Z.land (a + 2 ^ j * b) (c + 2 ^ j * d) = Z.land a c + 2 ^ j * Z.land b d.
Proof.
  intros Hj Ha Hc. apply Z.bits_inj'. intros n Hn.
  rewrite Z.land_spec, !testbit_parts by (auto using land_low with lia).
  case_decide; by rewrite Z.land_spec.
Qed.

(** Adding the fields of the low part and of the high part: the mask keeps the two
    apart. *)
Lemma add_fields_parts j k m M lo hi :
  0 <= k <= j -> 0 <= lo < 2 ^ j -> 0 <= m < 2 ^ (j - k) -> 0 <= hi ->
  Z.land (lo + 2 ^ j * hi) (m + 2 ^ j * M) + Z.land (Z.shiftr (lo + 2 ^ j * hi) k) (m + 2 ^ j * M) =
  (Z.land lo m + Z.land (Z.shiftr lo k) m) + 2 ^ j * (Z.land hi M + Z.land (Z.shiftr hi k) M).
Proof.
  intros Hk Hlo Hm Hhi. assert (Hp : 2 ^ j = 2 ^ (j - k) * 2 ^ k) by (rewrite <- Z.pow_add_r by lia; f_equal; lia).
  assert (0 < 2 ^ k) by (apply Z.pow_pos_nonneg; lia). assert (0 < 2 ^ (j - k)) by (apply Z.pow_pos_nonneg; lia).
  assert (Hm' : 0 <= m < 2 ^ j) by nia.
  rewrite !Z.shiftr_div_pow2 by lia.
  assert (E : (lo + 2 ^ j * hi) / 2 ^ k = (lo / 2 ^ k + 2 ^ (j - k) * (hi mod 2 ^ k)) + 2 ^ j * (hi / 2 ^ k)).
  { rewrite Hp. replace (lo + 2 ^ (j - k) * 2 ^ k * hi) with (lo + (2 ^ (j - k) * hi) * 2 ^ k) by lia.
    rewrite Z.div_add by lia. rewrite (Z.div_mod hi (2 ^ k)) at 1 by lia. lia. }
  assert (Hlk : 0 <= lo / 2 ^ k < 2 ^ (j - k)).
  { split; [apply Z.div_pos; lia|]. apply Z.div_lt_upper_bound; lia. }
  pose proof (Z.mod_pos_bound hi (2 ^ k) ltac:(lia)) as Hr.
  rewrite E, !land_parts by (lia || nia).
  pose proof (land_parts (j - k) (lo / 2 ^ k) (hi mod 2 ^ k) m 0 ltac:(lia) Hlk Hm) as El.
  rewrite Z.mul_0_r, Z.add_0_r, Z.land_0_r, Z.mul_0_r, Z.add_0_r in El. lia.
Qed.

(** The same for the steps of the code, on the bytes of a word; the sums do not wrap
    around. *)
Lemma fields_sum_low n k m w :
  1 <= k <= n -> 0 <= m < 2 ^ (n - k) -> 0 <= w -> 0 <= Z.land w m + Z.land (Z.shiftr w k) m <= 2 ^ n - 2.
Proof.
  intros Hk Hm Hw. pose proof (land_low (n - k) m w ltac:(lia) Hm Hw) as H1.
  pose proof (land_low (n - k) m (Z.shiftr w k) ltac:(lia) Hm ltac:(by apply Z.shiftr_nonneg)) as H2.
  rewrite (Z.land_comm m) in H1, H2.
  assert (2 ^ (n - k) * 2 <= 2 ^ n).
  { replace 2 with (2 ^ 1) at 2 by done. rewrite <- Z.pow_add_r by lia. apply Z.pow_le_mono_r; lia. }
  lia.
Qed.

Lemma add_fields_low n k m w :
  1 <= k <= n -> n <= 32 -> 0 <= m < 2 ^ (n - k) -> 0 <= w ->
  add_fields m k w = Z.land w m + Z.land (Z.shiftr w k) m /\ 0 <= add_fields m k w < 2 ^ n.
Proof.
  intros Hk Hn Hm Hw. pose proof (fields_sum_low n k m w Hk Hm Hw). unfold add_fields.
  pose proof (Z.pow_le_mono_r 2 n 32). rewrite u32_small; lia.
Qed.

Lemma add_fields_byte n m M k lo hi :
  1 <= k <= 8 -> k <= n <= 24 -> 0 <= lo < 2 ^ 8 -> 0 <= m < 2 ^ (8 - k) -> 0 <= hi -> 0 <= M < 2 ^ (n - k) ->
  add_fields (m + 2 ^ 8 * M) k (lo + 2 ^ 8 * hi) = add_fields m k lo + 2 ^ 8 * add_fields M k hi.
Proof.
  intros Hk Hn Hlo Hm Hhi HM. destruct (add_fields_low 8 k m lo) as [-> _]; [lia..|].
  destruct (add_fields_low n k M hi) as [-> _]; [lia..|]. unfold add_fields.
  rewrite (add_fields_parts 8) by lia. pose proof (fields_sum_low 8 k m lo). pose proof (fields_sum_low n k M hi).
  pose proof (Z.pow_le_mono_r 2 n 24). apply u32_small. lia.
Qed.

(** A word of two and of four bytes. *)
Definition word2 (b0 b1 : Z) : Z := b0 + 2 ^ 8 * b1.
Definition word4 (b0 b1 b2 b3 : Z) : Z := word2 b0 (word2 b1 (word2 b2 b3)).

Lemma word2_low n a b : 0 <= n -> 0 <= a < 2 ^ 8 -> 0 <= b < 2 ^ n -> 0 <= word2 a b < 2 ^ (8 + n).
Proof. intros Hn Ha Hb. unfold word2. rewrite Z.pow_add_r by lia. lia. Qed.

Definition byte (b : Z) : Prop := 0 <= b < 2 ^ 8.

Lemma add_fields_keeps_byte k m w : 1 <= k <= 8 -> 0 <= m < 2 ^ (8 - k) -> byte w -> byte (add_fields m k w).
Proof. unfold byte. intros Hk Hm Hw. apply (add_fields_low 8); lia. Qed.

Lemma add_fields_word2 m k b0 b1 :
  1 <= k <= 8 -> 0 <= m < 2 ^ (8 - k) -> byte b0 -> byte b1 ->
  add_fields (word2 m m) k (word2 b0 b1) = word2 (add_fields m k b0) (add_fields m k b1).
Proof. unfold byte, word2. intros Hk Hm H0 H1. rewrite (add_fields_byte 8) by lia. done. Qed.

Lemma add_fields_word4 m k b0 b1 b2 b3 :
  1 <= k <= 8 -> 0 <= m < 2 ^ (8 - k) -> byte b0 -> byte b1 -> byte b2 -> byte b3 ->
  add_fields (word4 m m m m) k (word4 b0 b1 b2 b3) =
  word4 (add_fields m k b0) (add_fields m k b1) (add_fields m k b2) (add_fields m k b3).
Proof.
  unfold byte. intros Hk Hm H0 H1 H2 H3. pose proof (Z.pow_le_mono_r 2 (8 - k) 8) as Hp.
  pose proof (word2_low (8 - k) m m ltac:(lia) ltac:(lia) Hm) as M2.
  replace (8 + (8 - k)) with (16 - k) in M2 by lia.
  pose proof (word2_low (16 - k) m _ ltac:(lia) ltac:(lia) M2) as M3.
  replace (8 + (16 - k)) with (24 - k) in M3 by lia.
  pose proof (word2_low 8 b2 b3 ltac:(lia) H2 H3) as B2. pose proof (word2_low 16 b1 _ ltac:(lia) H1 B2) as B3.
  unfold word4. unfold word2 at 1 4 7. rewrite (add_fields_byte 24) by lia. f_equal. f_equal.
  unfold word2 at 1 3 5. rewrite (add_fields_byte 16) by lia. f_equal. f_equal.
  unfold word2. by rewrite (add_fields_byte 8) by lia.
Qed.

Lemma hweight8_bits b : byte b -> generic_hweight8 b = bits_set 8 b.
Proof.
  intros Hb. assert (Hall : Forall (fun n => generic_hweight8 (Z.of_nat n) = bits_set 8 (Z.of_nat n)) (seq 0 256))
    by (apply (bool_decide_unpack _); vm_compute; exact I).
  rewrite Forall_seq in Hall. unfold byte in Hb. specialize (Hall (Z.to_nat b)). rewrite Z2Nat.id in Hall by lia.
  apply Hall. lia.
Qed.

Lemma bits_set_range n w : 0 <= bits_set n w <= Z.of_nat n.
Proof.
  revert w. induction n as [|n IH]; intros w; cbn [bits_set]; [lia|].
  specialize (IH (w / 2)). pose proof (Z.mod_pos_bound w 2). lia.
Qed.

(** The first three steps count the bits of each byte. *)
Lemma hweight_bytes b0 b1 b2 b3 :
  byte b0 -> byte b1 -> byte b2 -> byte b3 ->
  add_fields 0x0F0F0F0F 4 (add_fields 0x33333333 2 (add_fields 0x55555555 1 (word4 b0 b1 b2 b3))) =
  word4 (bits_set 8 b0) (bits_set 8 b1) (bits_set 8 b2) (bits_set 8 b3).
Proof.
  intros H0 H1 H2 H3. change 0x55555555 with (word4 0x55 0x55 0x55 0x55).
  change 0x33333333 with (word4 0x33 0x33 0x33 0x33). change 0x0F0F0F0F with (word4 0x0F 0x0F 0x0F 0x0F).
  rewrite !add_fields_word4 by (repeat apply add_fields_keeps_byte; done || lia).
  rewrite <- !hweight8_bits by done. done.
Qed.

(** The last steps add the counts, by cases: each is at most 8. *)
Lemma add_counts b0 b1 b2 b3 :
  let c0 := bits_set 8 b0 in let c1 := bits_set 8 b1 in let c2 := bits_set 8 b2 in let c3 := bits_set 8 b3 in
  add_fields 0x0000FFFF 16 (add_fields 0x00FF00FF 8 (word4 c0 c1 c2 c3)) = c0 + (c1 + (c2 + c3)) /\
  add_fields 0x00FF 8 (word2 c0 c1) = c0 + c1.
Proof.
  set (ok := fun c0 c1 c2 c3 : nat => let '(c0, c1, c2, c3) := (Z.of_nat c0, Z.of_nat c1, Z.of_nat c2, Z.of_nat c3) in
    add_fields 0x0000FFFF 16 (add_fields 0x00FF00FF 8 (word4 c0 c1 c2 c3)) = c0 + (c1 + (c2 + c3)) /\
    add_fields 0x00FF 8 (word2 c0 c1) = c0 + c1).
  assert (Hall : Forall (fun c0 => Forall (fun c1 => Forall (fun c2 => Forall (ok c0 c1 c2) (seq 0 9)) (seq 0 9)) (seq 0 9)) (seq 0 9))
    by (apply (bool_decide_unpack _); vm_compute; exact I).
  intros c0 c1 c2 c3. pose proof (bits_set_range 8 b0). pose proof (bits_set_range 8 b1).
  pose proof (bits_set_range 8 b2). pose proof (bits_set_range 8 b3). fold c0 c1 c2 c3 in H, H0, H1, H2.
  rewrite Forall_seq in Hall. specialize (Hall (Z.to_nat c0) ltac:(lia)). rewrite Forall_seq in Hall.
  specialize (Hall (Z.to_nat c1) ltac:(lia)). rewrite Forall_seq in Hall. specialize (Hall (Z.to_nat c2) ltac:(lia)).
  rewrite Forall_seq in Hall. specialize (Hall (Z.to_nat c3) ltac:(lia)).
  unfold ok in Hall. by rewrite !Z2Nat.id in Hall by lia.
Qed.

(** A word is made of its bytes. *)
Lemma word4_bytes w :
  0 <= w < 2 ^ 32 -> exists b0 b1 b2 b3, w = word4 b0 b1 b2 b3 /\ byte b0 /\ byte b1 /\ byte b2 /\ byte b3.
Proof.
  intros Hw. exists (w mod 2 ^ 8), (w / 2 ^ 8 mod 2 ^ 8), (w / 2 ^ 16 mod 2 ^ 8), (w / 2 ^ 24).
  unfold word4, word2, byte. Z.to_euclidean_division_equations. lia.
Qed.

(** [generic_hweight32], [generic_hweight16] and [generic_hweight8] are the number of
    bits set. *)
Theorem hweight_counts w :
  (0 <= w < 2 ^ 32 -> generic_hweight32 w = bits_set 32 w) /\
  (0 <= w < 2 ^ 16 -> generic_hweight16 w = bits_set 16 w) /\
  (0 <= w < 2 ^ 8 -> generic_hweight8 w = bits_set 8 w).
Proof.
  split_and!; intros Hw; [| |by apply hweight8_bits].
  - destruct (word4_bytes w Hw) as (b0 & b1 & b2 & b3 & -> & H0 & H1 & H2 & H3).
    unfold generic_hweight32. rewrite hweight_bytes by done. rewrite (proj1 (add_counts b0 b1 b2 b3)).
    unfold word4, word2. by rewrite !(bits_set_byte 24), !(bits_set_byte 16), (bits_set_byte 8) by done.
  - destruct (word4_bytes w ltac:(lia)) as (b0 & b1 & b2 & b3 & Ew & H0 & H1 & H2 & H3).
    assert (w = word2 b0 b1) as -> by (unfold byte, word4, word2 in *; lia).
    unfold generic_hweight16. change 0x5555 with (word2 0x55 0x55). change 0x3333 with (word2 0x33 0x33).
    change 0x0F0F with (word2 0x0F 0x0F).
    rewrite !add_fields_word2 by (repeat apply add_fields_keeps_byte; done || lia).
    change (add_fields 0x0F 4 (add_fields 0x33 2 (add_fields 0x55 1 b0))) with (generic_hweight8 b0).
    change (add_fields 0x0F 4 (add_fields 0x33 2 (add_fields 0x55 1 b1))) with (generic_hweight8 b1).
    rewrite !hweight8_bits by done.
    rewrite (proj2 (add_counts b0 b1 0 0)). unfold word2. by rewrite (bits_set_byte 8) by done.
Qed.

(** ** Byte order *)

Definition ___swab16 (x : Z) : Z :=
  let x := x mod 2 ^ 16 in
  Z.lor (Z.shiftl (Z.land x 0x00ff) 8) (Z.shiftr (Z.land x 0xff00) 8) mod 2 ^ 16.

Definition ___swab32 (x : Z) : Z :=
  let x := u32 x in
  u32 (Z.lor (Z.lor (Z.lor (Z.shiftl (Z.land x 0x000000ff) 24) (Z.shiftl (Z.land x 0x0000ff00) 8))
    (Z.shiftr (Z.land x 0x00ff0000) 8)) (Z.shiftr (Z.land x 0xff000000) 24)).

Definition ___swab64 (x : Z) : Z :=
  let x := u64 x in
  u64 (Z.lor (Z.lor (Z.lor (Z.lor (Z.lor (Z.lor (Z.lor
    (u64 (Z.shiftl (Z.land x 0x00000000000000ff) 56)) (u64 (Z.shiftl (Z.land x 0x000000000000ff00) 40)))
    (u64 (Z.shiftl (Z.land x 0x0000000000ff0000) 24))) (u64 (Z.shiftl (Z.land x 0x00000000ff000000) 8)))
    (u64 (Z.shiftr (Z.land x 0x000000ff00000000) 8))) (u64 (Z.shiftr (Z.land x 0x0000ff0000000000) 24)))
    (u64 (Z.shiftr (Z.land x 0x00ff000000000000) 40))) (u64 (Z.shiftr (Z.land x 0xff00000000000000) 56))).

(** With [__SWAB_64_THRU_32__], which the x86 port sets.  [__swab32] is the macro for a
    constant and the instruction bswap, which reverses the bytes too, otherwise. *)
Definition __fswab64 (x : Z) : Z :=
  let h := u32 (Z.shiftr x 32) in
  let l := u32 (Z.land x (Z.shiftl 1 32 - 1)) in
  Z.lor (Z.shiftl (___swab32 l) 32) (___swab32 h).

(** A number from its bytes, the lowest first. *)
Fixpoint word_of (l : list Z) : Z :=
  match l with
  | [] => 0
  | b :: l => b + 2 ^ 8 * word_of l
  end.

Lemma word_of_land l m :
  length l = length m -> Forall byte l -> Forall byte m ->
  Z.land (word_of l) (word_of m) = word_of (zip_with Z.land l m).
Proof.
  intros Hlen Hl. revert m Hlen. induction Hl as [|b l Hb Hl IH]; intros [|c m] Hlen Hm; try done.
  apply Forall_cons in Hm as [Hc Hm]. cbn [word_of zip_with]. rewrite land_parts by (done || lia). f_equal. f_equal.
  apply IH; [by injection Hlen|done].
Qed.

Lemma lor_parts j a b c d :
  0 <= j -> 0 <= a < 2 ^ j -> 0 <= c < 2 ^ j ->
  Z.lor (a + 2 ^ j * b) (c + 2 ^ j * d) = Z.lor a c + 2 ^ j * Z.lor b d.
Proof.
  intros Hj Ha Hc. assert (H : 0 <= Z.lor a c < 2 ^ j).
  { split; [apply Z.lor_nonneg; lia|]. destruct (decide (Z.lor a c = 0)) as [->|]; [lia|].
    assert (0 <= Z.lor a c) by (apply Z.lor_nonneg; lia). apply Z.log2_lt_pow2; [lia|].
    rewrite Z.log2_lor by lia. apply Z.max_lub_lt.
    - destruct (decide (a = 0)) as [->|]; [|apply Z.log2_lt_pow2; lia]. cbn. destruct (decide (j = 0)) as [->|]; [|lia].
      assert (c = 0) by lia. by subst.
    - destruct (decide (c = 0)) as [->|]; [|apply Z.log2_lt_pow2; lia]. cbn. destruct (decide (j = 0)) as [->|]; [|lia].
      assert (a = 0) by lia. by subst. }
  apply Z.bits_inj'. intros n Hn. rewrite Z.lor_spec, !testbit_parts by lia. case_decide; by rewrite Z.lor_spec.
Qed.

Lemma word_of_lor l m :
  length l = length m -> Forall byte l -> Forall byte m ->
  Z.lor (word_of l) (word_of m) = word_of (zip_with Z.lor l m).
Proof.
  intros Hlen Hl. revert m Hlen. induction Hl as [|b l Hb Hl IH]; intros [|c m] Hlen Hm; try done.
  apply Forall_cons in Hm as [Hc Hm]. cbn [word_of zip_with]. rewrite lor_parts by (done || lia). f_equal. f_equal.
  apply IH; [by injection Hlen|done].
Qed.

Lemma word_of_range l : Forall byte l -> 0 <= word_of l < 2 ^ (8 * Z.of_nat (length l)).
Proof.
  induction 1 as [|b l Hb Hl IH]; [cbn; lia|]. cbn [word_of length]. unfold byte in Hb.
  replace (8 * Z.of_nat (S (length l))) with (8 + 8 * Z.of_nat (length l)) by lia.
  rewrite Z.pow_add_r by lia. lia.
Qed.

(** Shifts by whole bytes. *)
Lemma word_of_shiftl n l : Z.shiftl (word_of l) (8 * Z.of_nat n) = word_of (replicate n 0 ++ l).
Proof.
  induction n as [|n IH]; [apply Z.shiftl_0_r|]. cbn [replicate app word_of]. rewrite <- IH.
  replace (8 * Z.of_nat (S n)) with (8 * Z.of_nat n + 8) by lia. rewrite <- Z.shiftl_shiftl by lia.
  rewrite (Z.shiftl_mul_pow2 _ 8) by lia. lia.
Qed.

Lemma word_of_shiftr n l : Z.shiftr (word_of (replicate n 0 ++ l)) (8 * Z.of_nat n) = word_of l.
Proof. rewrite <- word_of_shiftl, Z.shiftr_shiftl_l, Z.sub_diag, Z.shiftl_0_r by lia. done. Qed.

(** One byte at the place [i]. *)
Definition at_place (i : nat) (b : Z) : Z := word_of (replicate i 0 ++ [b]).

Lemma byte_mask i l b : l !! i = Some b -> Forall byte l -> Z.land (word_of l) (at_place i 255) = at_place i b.
Proof.
  revert l. induction i as [|i IH]; intros [|c l] Hi Hl; try done; apply Forall_cons in Hl as [Hc Hl];
    unfold at_place; cbn [replicate app word_of].
  - simplify_eq/=. rewrite land_parts by (done || lia). rewrite Z.land_0_r. f_equal.
    change 255 with (Z.ones 8). rewrite Z.land_ones by lia. by apply Z.mod_small.
  - rewrite land_parts by (done || lia). rewrite Z.land_0_r. f_equal. f_equal. by apply (IH l).
Qed.

Lemma at_place_range i b n : byte b -> (i < n)%nat -> 0 <= at_place i b < 2 ^ (8 * Z.of_nat n).
Proof.
  intros Hb Hi. unfold at_place. destruct (word_of_range (replicate i 0 ++ [b])) as [H0 H1].
  { apply Forall_app. split; [by apply Forall_replicate|by repeat constructor; apply Hb]. }
  split; [done|]. eapply Z.lt_le_trans; [exact H1|]. apply Z.pow_le_mono_r; [lia|].
  rewrite length_app, length_replicate. cbn. lia.
Qed.

Lemma move_up i j l b mask k :
  l !! i = Some b -> Forall byte l -> mask = at_place i 255 -> k = 8 * Z.of_nat j ->
  Z.shiftl (Z.land (word_of l) mask) k = at_place (j + i) b.
Proof.
  intros Hi Hl -> ->. rewrite (byte_mask i l b) by done. unfold at_place.
  by rewrite word_of_shiftl, replicate_add, <- app_assoc.
Qed.

Lemma move_down i j l b mask k :
  l !! (j + i)%nat = Some b -> Forall byte l -> mask = at_place (j + i) 255 -> k = 8 * Z.of_nat j ->
  Z.shiftr (Z.land (word_of l) mask) k = at_place i b.
Proof.
  intros Hi Hl -> ->. rewrite (byte_mask _ l b) by done. unfold at_place.
  by rewrite replicate_add, <- app_assoc, word_of_shiftr.
Qed.

(** Bytes put together from the highest place down. *)
Lemma lor_place i b l : byte b -> Z.lor (word_of (replicate (S i) 0 ++ l)) (at_place i b) = word_of (replicate i 0 ++ b :: l).
Proof.
  intros Hb. unfold at_place. rewrite replicate_S_end, <- app_assoc. rewrite <- !word_of_shiftl, <- Z.shiftl_lor.
  f_equal. cbn [app word_of]. rewrite lor_parts by (done || lia). by rewrite Z.lor_0_r.
Qed.

Ltac bytes := repeat (apply Forall_cons; split; [assumption|]); apply Forall_nil; exact I.

(** The masks and shifts reverse the bytes of a word, and so undo themselves; the two
    ways to reverse 64 bits agree. *)
Lemma swab16_reverses b0 b1 : byte b0 -> byte b1 -> ___swab16 (word_of [b0; b1]) = word_of [b1; b0].
Proof.
  intros H0 H1. unfold ___swab16. rewrite (Z.mod_small (word_of _)) by (apply (word_of_range [b0; b1]); bytes).
  rewrite (move_up 0 1 _ b0), (move_down 0 1 _ b1) by (done || bytes).
  change (at_place _ b0) with (word_of (replicate 1 0 ++ [b0])). rewrite lor_place by done.
  apply Z.mod_small, (word_of_range [b1; b0]). bytes.
Qed.

Lemma swab32_reverses b0 b1 b2 b3 :
  byte b0 -> byte b1 -> byte b2 -> byte b3 -> ___swab32 (word_of [b0; b1; b2; b3]) = word_of [b3; b2; b1; b0].
Proof.
  intros H0 H1 H2 H3. unfold ___swab32. rewrite (u32_small (word_of _)) by (apply (word_of_range [b0; b1; b2; b3]); bytes).
  rewrite (move_up 0 3 _ b0), (move_up 1 1 _ b1), (move_down 1 1 _ b2), (move_down 0 3 _ b3) by (done || bytes).
  change (at_place (3 + 0) b0) with (word_of (replicate 3 0 ++ [b0])). cbn [Nat.add]. rewrite !lor_place by done.
  apply u32_small, (word_of_range [b3; b2; b1; b0]). bytes.
Qed.

Lemma swab64_reverses b0 b1 b2 b3 b4 b5 b6 b7 :
  Forall byte [b0; b1; b2; b3; b4; b5; b6; b7] ->
  ___swab64 (word_of [b0; b1; b2; b3; b4; b5; b6; b7]) = word_of [b7; b6; b5; b4; b3; b2; b1; b0].
Proof.
  intros Hl. pose proof Hl as Hall. rewrite !Forall_cons in Hall. destruct Hall as (?&?&?&?&?&?&?&?&_).
  unfold ___swab64. rewrite (u64_small (word_of _)) by (apply (word_of_range [b0; b1; b2; b3; b4; b5; b6; b7]); done).
  rewrite (move_up 0 7 _ b0), (move_up 1 5 _ b1), (move_up 2 3 _ b2), (move_up 3 1 _ b3),
    (move_down 3 1 _ b4), (move_down 2 3 _ b5), (move_down 1 5 _ b6), (move_down 0 7 _ b7) by done.
  assert (Hs : forall i b, byte b -> (i < 8)%nat -> u64 (at_place i b) = at_place i b).
  { intros i b Hb Hi. by apply u64_small, (at_place_range _ _ 8). }
  rewrite !Hs by (done || lia).
  change (at_place (7 + 0) b0) with (word_of (replicate 7 0 ++ [b0])). cbn [Nat.add]. rewrite !lor_place by done.
  apply u64_small, (word_of_range [b7; b6; b5; b4; b3; b2; b1; b0]). bytes.
Qed.

Lemma fswab64_reverses b0 b1 b2 b3 b4 b5 b6 b7 :
  Forall byte [b0; b1; b2; b3; b4; b5; b6; b7] ->
  __fswab64 (word_of [b0; b1; b2; b3; b4; b5; b6; b7]) = word_of [b7; b6; b5; b4; b3; b2; b1; b0].
Proof.
  intros Hall. rewrite !Forall_cons in Hall. destruct Hall as (?&?&?&?&?&?&?&?&_).
  set (lo := word_of [b0; b1; b2; b3]). set (hi := word_of [b4; b5; b6; b7]).
  assert (Hlo : 0 <= lo < 2 ^ 32) by (apply (word_of_range [b0; b1; b2; b3]); bytes).
  assert (Hhi : 0 <= hi < 2 ^ 32) by (apply (word_of_range [b4; b5; b6; b7]); bytes).
  assert (E : word_of [b0; b1; b2; b3; b4; b5; b6; b7] = lo + hi * 2 ^ 32) by (unfold lo, hi; cbn [word_of]; lia).
  unfold __fswab64. rewrite E. change (Z.shiftl 1 32 - 1) with (Z.ones 32).
  rewrite Z.land_ones, Z.shiftr_div_pow2, Z.mod_add, Z.div_add, Z.mod_small, Z.div_small, Z.add_0_l, !u32_small by lia.
  unfold lo, hi. rewrite !swab32_reverses by done.
  pose proof (lor_parts 32 0 (word_of [b3; b2; b1; b0]) (word_of [b7; b6; b5; b4]) 0) as El.
  rewrite Z.mul_0_r, Z.add_0_r, Z.add_0_l, Z.lor_0_l, Z.lor_0_r in El.
  rewrite Z.shiftl_mul_pow2, Z.mul_comm, El by (lia || apply (word_of_range [b7; b6; b5; b4]); bytes).
  cbn [word_of]. lia.
Qed.

(** ** The first and the last bit set *)

(** The last test does not shift. *)
Definition __fls (word : Z) : Z :=
  let xr := fls_step 0xffff0000 16 (word, 31) in
  let xr := fls_step 0xff000000 8 xr in
  let xr := fls_step 0xf0000000 4 xr in
  let xr := fls_step 0xc0000000 2 xr in
  let '(word, num) := xr in
  if decide (Z.land word 0x80000000 = 0) then num - 1 else num.

Definition __ffs (word : Z) : Z :=
  let xr := ffs_step 0xffff 16 (word, 0) in
  let xr := ffs_step 0xff 8 xr in
  let xr := ffs_step 0xf 4 xr in
  let xr := ffs_step 3 2 xr in
  let '(word, num) := xr in
  if decide (Z.land word 1 = 0) then num + 1 else num.

Definition __ffs64 (word : Z) : Z :=
  if decide (u32 word = 0) then __ffs (u32 (Z.shiftr word 32)) + 32 else __ffs (u32 word).

(** The searches of Bitops.v count from 1. *)
Lemma fls_step_pred mask k x r x' r' :
  fls_step mask k (x, r) = (x', r') -> fls_step mask k (x, r - 1) = (x', r' - 1).
Proof. unfold fls_step. case_decide; intros; simplify_eq; f_equal; lia. Qed.

Lemma ffs_step_pred mask k x r x' r' :
  ffs_step mask k (x, r) = (x', r') -> ffs_step mask k (x, r - 1) = (x', r' - 1).
Proof. unfold ffs_step. case_decide; intros; simplify_eq; f_equal; lia. Qed.

Lemma fls_last word : 0 < word < 2 ^ 32 -> __fls word = Z.log2 word.
Proof.
  intros Hw. assert (E : __fls word = fls word - 1); [|rewrite E, fls_spec by done; lia].
  unfold __fls, fls. rewrite decide_False by lia. change 31 with (32 - 1).
  destruct (fls_step 0xffff0000 16 (word, 32)) as [x1 r1] eqn:E1. rewrite (fls_step_pred _ _ _ _ _ _ E1).
  destruct (fls_step 0xff000000 8 (x1, r1)) as [x2 r2] eqn:E2. rewrite (fls_step_pred _ _ _ _ _ _ E2).
  destruct (fls_step 0xf0000000 4 (x2, r2)) as [x3 r3] eqn:E3. rewrite (fls_step_pred _ _ _ _ _ _ E3).
  destruct (fls_step 0xc0000000 2 (x3, r3)) as [x4 r4] eqn:E4. rewrite (fls_step_pred _ _ _ _ _ _ E4).
  unfold fls_step. case_decide; cbn [snd]; lia.
Qed.

Lemma ffs_generic word : word <> 0 -> __ffs word = generic_ffs word - 1.
Proof.
  intros Hw. unfold __ffs, generic_ffs. rewrite decide_False by lia. change (word, 0) with (word, 1 - 1).
  destruct (ffs_step 0xffff 16 (word, 1)) as [x1 r1] eqn:E1. rewrite (ffs_step_pred _ _ _ _ _ _ E1).
  destruct (ffs_step 0xff 8 (x1, r1)) as [x2 r2] eqn:E2. rewrite (ffs_step_pred _ _ _ _ _ _ E2).
  destruct (ffs_step 0xf 4 (x2, r2)) as [x3 r3] eqn:E3. rewrite (ffs_step_pred _ _ _ _ _ _ E3).
  destruct (ffs_step 3 2 (x3, r3)) as [x4 r4] eqn:E4. rewrite (ffs_step_pred _ _ _ _ _ _ E4).
  unfold ffs_step. case_decide; cbn [snd]; lia.
Qed.

(** [__ffs] is the place of the lowest bit set, [__ffs64] the same for 64 bits. *)
Lemma ffs_lowest word : 0 < word < 2 ^ 32 -> exists y, word = (2 * y + 1) * 2 ^ __ffs word /\ 0 <= __ffs word.
Proof.
  intros Hw. destruct (generic_ffs_lowest word) as (y & E & Hf); [rewrite Z.mod_small by lia; lia|].
  rewrite ffs_generic by lia. exists y. split; [done|lia].
Qed.

Lemma ffs64_lowest word : 0 < word < 2 ^ 64 -> exists y, word = (2 * y + 1) * 2 ^ __ffs64 word.
Proof.
  intros Hw. unfold __ffs64, u32. pose proof (Z.div_mod word (2 ^ 32) ltac:(lia)) as Ew.
  pose proof (Z.mod_pos_bound word (2 ^ 32) ltac:(lia)). rewrite Z.shiftr_div_pow2 by lia. case_decide as Hd.
  - assert (0 < word / 2 ^ 32 < 2 ^ 32) by (split; [lia|apply Z.div_lt_upper_bound; lia]).
    rewrite (Z.mod_small (word / 2 ^ 32)) by lia. destruct (ffs_lowest (word / 2 ^ 32)) as (y & E & Hf); [done|].
    exists y. rewrite Z.pow_add_r, Z.mul_assoc, <- E by lia. lia.
  - destruct (ffs_lowest (word mod 2 ^ 32)) as (y & E & Hf); [lia|].
    assert (Hlow : __ffs (word mod 2 ^ 32) < 32).
    { apply (Z.pow_lt_mono_r_iff 2); [lia|lia|]. pose proof (Z.pow_pos_nonneg 2 _ ltac:(lia) Hf) as Hpos.
      assert (0 < 2 * y + 1) by nia. nia. }
    exists (y + word / 2 ^ 32 * 2 ^ (31 - __ffs (word mod 2 ^ 32))).
    assert (Hp : 2 ^ 32 = 2 * 2 ^ (31 - __ffs (word mod 2 ^ 32)) * 2 ^ __ffs (word mod 2 ^ 32)).
    { rewrite <- Z.mul_assoc, <- Z.pow_add_r by lia. rewrite <- Z.pow_succ_r by lia. f_equal. lia. }
    rewrite Ew at 1. rewrite E at 1. set (f := __ffs _) in *. set (q := word / 2 ^ 32) in *.
    rewrite Hp. lia.
Qed.

(** ** Single bits in memory *)

(** [BIT_MASK(nr)], [BIT_WORD(nr)] with 32 bits to a word. *)
Definition BIT_MASK (nr : Z) : Z := u32 (Z.shiftl 1 (nr mod 32)).
Definition BIT_WORD (nr : Z) : Z := nr / 32.

Definition generic_set_bit (nr addr : Z) (m : mem) : option mem :=
  let p := addr + 4 * BIT_WORD nr in
  w ← load_word m p; store_word m p (Z.lor w (BIT_MASK nr)).

Definition generic_clear_bit (nr addr : Z) (m : mem) : option mem :=
  let p := addr + 4 * BIT_WORD nr in
  w ← load_word m p; store_word m p (Z.land w (u32 (Z.lnot (BIT_MASK nr)))).

(** Storing a word and loading it. *)
Lemma store_word_load m p w :
  0 <= w < 2 ^ 32 -> mapped m p 4 ->
  exists m', store_word m p w = Some m' /\ load_word m' p = Some w /\ mapped m' p 4 /\
    (forall x, x < p \/ p + 4 <= x -> m' !! x = m !! x).
Proof.
  intros Hw Hm. destruct (word4_bytes w Hw) as (b0 & b1 & b2 & b3 & -> & H0 & H1 & H2 & H3).
  assert (E : word4 b0 b1 b2 b3 = b0 + 2 ^ 8 * b1 + 2 ^ 16 * b2 + 2 ^ 24 * b3) by (unfold word4, word2; lia).
  rewrite E, store_word_run by (done || bytes). eexists. split_and!; [done| | |].
  - apply load_word_run, store_list_block.
  - by apply store_list_mapped.
  - intros x Hx. by apply store_list_out.
Qed.

Lemma bit_mask_pow nr : BIT_MASK nr = 2 ^ (nr mod 32).
Proof.
  unfold BIT_MASK. pose proof (Z.mod_pos_bound nr 32). rewrite Z.shiftl_1_l. apply u32_small.
  split; [lia|]. apply Z.pow_lt_mono_r; lia.
Qed.

Lemma setbit_low w n : 0 <= w < 2 ^ 32 -> 0 <= n < 32 -> 0 <= Z.setbit w n < 2 ^ 32.
Proof.
  intros Hw Hn. rewrite Z.setbit_spec'. assert (H0 : 0 <= Z.lor w (2 ^ n)) by (apply Z.lor_nonneg; lia).
  split; [done|]. pose proof (Z.pow_pos_nonneg 2 n ltac:(lia) ltac:(lia)).
  apply Z.log2_lt_pow2; [|rewrite Z.log2_lor, Z.log2_pow2 by lia].
  - assert (Z.lor w (2 ^ n) <> 0); [|lia]. rewrite Z.lor_eq_0_iff. lia.
  - destruct (decide (w = 0)) as [->|]; [cbn; lia|]. assert (Z.log2 w < 32) by (apply Z.log2_lt_pow2; lia). lia.
Qed.

Lemma clear_after_set w n :
  0 <= w < 2 ^ 32 -> 0 <= n < 32 -> Z.land (Z.setbit w n) (u32 (Z.lnot (2 ^ n))) = Z.clearbit w n.
Proof.
  intros Hw Hn. rewrite Z.setbit_spec', Z.clearbit_spec'. unfold u32. apply Z.bits_inj'. intros i Hi.
  rewrite Z.land_spec, Z.lor_spec, Z.ldiff_spec. destruct (decide (i < 32)).
  - rewrite Z.mod_pow2_bits_low, Z.lnot_spec by lia. by destruct (Z.testbit w i), (Z.testbit (2 ^ n) i).
  - rewrite Z.mod_pow2_bits_high, andb_false_r by lia.
    rewrite <- (Z.mod_small w (2 ^ 32)), Z.mod_pow2_bits_high by lia. done.
Qed.

(** A bit that is set can be read, every other bit of memory is as before, and clearing
    it again gives the word without it. *)
Theorem set_clear_bit m nr addr w :
  load_word m (addr + 4 * BIT_WORD nr) = Some w -> 0 <= w < 2 ^ 32 ->
  exists m1 m2,
    generic_set_bit nr addr m = Some m1 /\ load_word m1 (addr + 4 * BIT_WORD nr) = Some (Z.setbit w (nr mod 32)) /\
    generic_clear_bit nr addr m1 = Some m2 /\ load_word m2 (addr + 4 * BIT_WORD nr) = Some (Z.clearbit w (nr mod 32)) /\
    (forall x, x < addr + 4 * BIT_WORD nr \/ addr + 4 * BIT_WORD nr + 4 <= x -> m2 !! x = m1 !! x /\ m1 !! x = m !! x).
Proof.
  set (p := addr + 4 * BIT_WORD nr). intros Hl Hw. pose proof (Z.mod_pos_bound nr 32 ltac:(lia)) as Hn.
  set (n := nr mod 32) in *.
  assert (Hm : mapped m p 4).
  { unfold load_word in Hl. apply bind_Some in Hl as (a0 & L0 & (a1 & L1 & (a2 & L2 & (a3 & L3 & _)%bind_Some)%bind_Some)%bind_Some).
    intros [|[|[|[|j]]]] Hj; [..|lia]; eexists; [rewrite Z.add_0_r; exact L0|exact L1|exact L2|exact L3]. }
  pose proof (setbit_low w n Hw Hn) as Hs.
  destruct (store_word_load m p (Z.setbit w n) Hs Hm) as (m1 & E1 & L1 & Hm1 & O1).
  destruct (store_word_load m1 p (Z.clearbit w n)) as (m2 & E2 & L2 & _ & O2); [|done|].
  { rewrite <- clear_after_set by done. apply land_low; [lia|done|apply u32_range]. }
  exists m1, m2. unfold generic_set_bit, generic_clear_bit. fold p. rewrite Hl, bit_mask_pow. fold n.
  cbn [mbind option_bind]. rewrite <- Z.setbit_spec', E1. split_and!; [done|done| |done|].
  - rewrite L1. cbn [mbind option_bind]. by rewrite clear_after_set.
  - intros x Hx. split; [by apply O2|by apply O1].
Qed.
