(* ===== verification/ByteOrder.v ===== *)
(** * Byte order (src/arch/x86/byteorder.h, src/include/rosx/byteorder)

    The x86 port is little-endian: numbers lie in memory with their least significant byte
    first.  The conversions to and from little-endian do nothing, those to and from
    big-endian reverse the bytes, of a value, of the object a pointer points to, or in
    place.  Constants are converted by the masks and shifts of swab.h (Words.v), everything
    else by the processor's instructions. *)

From stdpp Require Import base gmap list.
From Stdlib Require Import ZArith Lia.
From S2P Require Import Prelude Mem Words.
#[local] Open Scope Z_scope.

(** ** Numbers in memory *)

Definition u16 (x : Z) : Z := x mod 2 ^ 16.

(** A number of [n] bytes at [p], read and written. *)
Fixpoint load_n (n : nat) (m : mem) (p : Z) : option Z :=
  match n with
  | O => Some 0
  | S n => b ← m !! p; r ← load_n n m (p + 1); Some (b + 2 ^ 8 * r)
  end.
Fixpoint store_n (n : nat) (m : mem) (p x : Z) : option mem :=
  match n with
  | O => Some m
  | S n => m ← store_byte m p (x mod 2 ^ 8); store_n n m (p + 1) (x / 2 ^ 8)
  end.

(** ** The instructions *)

(** Byte [i] of a number. *)
Definition nth_byte (x : Z) (i : nat) : Z := x / 2 ^ (8 * Z.of_nat i) mod 2 ^ 8.
Definition bswap (x : Z) : Z := word_of [nth_byte x 3; nth_byte x 2; nth_byte x 1; nth_byte x 0].
(** [xchgb %b0,%h0]: the two low bytes of a register change places. *)
Definition xchgb (x : Z) : Z := word_of [nth_byte x 1; nth_byte x 0].

Definition ___arch__swab32 (x : Z) : Z := bswap x.
Definition ___arch__swab16 (x : Z) : Z := xchgb x.

(** ** swab.h *)

Definition __fswab16 (x : Z) : Z := ___arch__swab16 (u16 x).
Definition __fswab32 (x : Z) : Z := ___arch__swab32 (u32 x).

(** With the optimiser a constant is converted by the macro. *)
Definition __swab16 (constant : bool) (x : Z) : Z := if constant then ___swab16 x else __fswab16 x.
Definition __swab32 (constant : bool) (x : Z) : Z := if constant then ___swab32 x else __fswab32 x.
Definition __swab64 (constant : bool) (x : Z) : Z := if constant then ___swab64 x else __fswab64 x.

Definition __swab16p (x : Z) (m : mem) : option Z := v ← load_n 2 m x; Some (__swab16 false v).
Definition __swab16s (addr : Z) (m : mem) : option mem := v ← __swab16p addr m; store_n 2 m addr v.
Definition __swab32p (x : Z) (m : mem) : option Z := v ← load_n 4 m x; Some (__swab32 false v).
Definition __swab32s (addr : Z) (m : mem) : option mem := v ← __swab32p addr m; store_n 4 m addr v.
Definition __swab64p (x : Z) (m : mem) : option Z := v ← load_n 8 m x; Some (__swab64 false v).
Definition __swab64s (addr : Z) (m : mem) : option mem := v ← __swab64p addr m; store_n 8 m addr v.

(** ** little_endian.h *)

Definition __cpu_to_le64 (x : Z) : Z := u64 x.
Definition __le64_to_cpu (x : Z) : Z := u64 x.
Definition __cpu_to_le32 (x : Z) : Z := u32 x.
Definition __le32_to_cpu (x : Z) : Z := u32 x.
Definition __cpu_to_le16 (x : Z) : Z := u16 x.
Definition __le16_to_cpu (x : Z) : Z := u16 x.
Definition __cpu_to_be64 (constant : bool) (x : Z) : Z := __swab64 constant x.
Definition __be64_to_cpu (constant : bool) (x : Z) : Z := __swab64 constant (u64 x).
Definition __cpu_to_be32 (constant : bool) (x : Z) : Z := __swab32 constant x.
Definition __be32_to_cpu (constant : bool) (x : Z) : Z := __swab32 constant (u32 x).
Definition __cpu_to_be16 (constant : bool) (x : Z) : Z := __swab16 constant x.
Definition __be16_to_cpu (constant : bool) (x : Z) : Z := __swab16 constant (u16 x).

Definition __cpu_to_le64p (p : Z) (m : mem) : option Z := load_n 8 m p.
Definition __le64_to_cpup (p : Z) (m : mem) : option Z := load_n 8 m p.
Definition __cpu_to_le32p (p : Z) (m : mem) : option Z := load_n 4 m p.
Definition __le32_to_cpup (p : Z) (m : mem) : option Z := load_n 4 m p.
Definition __cpu_to_le16p (p : Z) (m : mem) : option Z := load_n 2 m p.
Definition __le16_to_cpup (p : Z) (m : mem) : option Z := load_n 2 m p.
Definition __cpu_to_be64p (p : Z) (m : mem) : option Z := __swab64p p m.
Definition __be64_to_cpup (p : Z) (m : mem) : option Z := __swab64p p m.
Definition __cpu_to_be32p (p : Z) (m : mem) : option Z := __swab32p p m.
Definition __be32_to_cpup (p : Z) (m : mem) : option Z := __swab32p p m.
Definition __cpu_to_be16p (p : Z) (m : mem) : option Z := __swab16p p m.
Definition __be16_to_cpup (p : Z) (m : mem) : option Z := __swab16p p m.

(** In place; the conversions from and to little-endian leave the object alone. *)
Definition __cpu_to_be64s (p : Z) (m : mem) : option mem := __swab64s p m.
Definition __be64_to_cpus (p : Z) (m : mem) : option mem := __swab64s p m.
Definition __cpu_to_be32s (p : Z) (m : mem) : option mem := __swab32s p m.
Definition __be32_to_cpus (p : Z) (m : mem) : option mem := __swab32s p m.
Definition __cpu_to_be16s (p : Z) (m : mem) : option mem := __swab16s p m.
Definition __be16_to_cpus (p : Z) (m : mem) : option mem := __swab16s p m.

(** ** generic.h *)

Definition htonl (constant : bool) (x : Z) : Z := __cpu_to_be32 constant x.
Definition htons (constant : bool) (x : Z) : Z := __cpu_to_be16 constant x.
Definition ntohl (constant : bool) (x : Z) : Z := __be32_to_cpu constant x.
Definition ntohs (constant : bool) (x : Z) : Z := __be16_to_cpu constant x.

(** ** Bytes of numbers *)

Lemma nth_byte_of l i b : Forall byte l -> l !! i = Some b -> nth_byte (word_of l) i = b.
Proof.
  intros Hl. revert i. induction Hl as [|c l Hc Hl IH]; intros [|i] Hi; [done|done| |]; cbn in Hi; unfold byte in Hc.
  - injection Hi as ->. unfold nth_byte. rewrite Z.div_1_r. cbn [word_of].
    rewrite Z.mul_comm, Z.mod_add, Z.mod_small by lia. done.
  - rewrite <- (IH i Hi). unfold nth_byte. cbn [word_of].
    replace (8 * Z.of_nat (S i)) with (8 + 8 * Z.of_nat i) by lia. rewrite Z.pow_add_r, <- Z.div_div by lia.
    rewrite Z.mul_comm, Z.div_add, (Z.div_small c) by lia. done.
Qed.

Lemma load_n_block m p l : block m p l -> load_n (length l) m p = Some (word_of l).
Proof.
  revert p. induction l as [|b l IH]; intros p H; [done|]. apply block_cons in H as [Hb H]. cbn.
  rewrite Hb. cbn. rewrite (IH _ H). done.
Qed.

Lemma store_n_block m p l :
  Forall byte l -> mapped m p (length l) -> store_n (length l) m p (word_of l) = Some (store_list m p l).
Proof.
  intros Hl. revert m p. induction Hl as [|b l Hb Hl IH]; intros m p Hm; [done|]. apply mapped_S in Hm as [Hp Hm].
  unfold byte in Hb. cbn [length store_n word_of store_list].
  assert (E : (b + 2 ^ 8 * word_of l) mod 2 ^ 8 = b) by (rewrite Z.mul_comm, Z.mod_add, Z.mod_small; lia).
  assert (E' : (b + 2 ^ 8 * word_of l) / 2 ^ 8 = word_of l) by (rewrite Z.mul_comm, Z.div_add, Z.div_small; lia).
  rewrite E, E', store_byte_mapped by done. cbn [mbind option_bind]. apply IH. by apply mapped_insert.
Qed.

(** The instructions and the masks do the same: they reverse the bytes. *)
Lemma swab16_rev c b0 b1 : byte b0 -> byte b1 -> __swab16 c (word_of [b0; b1]) = word_of [b1; b0].
Proof.
  intros H0 H1. assert (Hl : Forall byte [b0; b1]) by bytes.
  destruct c; [by apply swab16_reverses|]. unfold __swab16, __fswab16, ___arch__swab16, xchgb, u16.
  rewrite Z.mod_small by (apply (word_of_range _ Hl)). by rewrite (nth_byte_of _ 0 b0), (nth_byte_of _ 1 b1).
Qed.
Lemma swab32_rev c b0 b1 b2 b3 :
  byte b0 -> byte b1 -> byte b2 -> byte b3 -> __swab32 c (word_of [b0; b1; b2; b3]) = word_of [b3; b2; b1; b0].
Proof.
  intros H0 H1 H2 H3. assert (Hl : Forall byte [b0; b1; b2; b3]) by bytes.
  destruct c; [by apply swab32_reverses|]. unfold __swab32, __fswab32, ___arch__swab32, bswap.
  rewrite u32_small by (apply (word_of_range _ Hl)).
  by rewrite (nth_byte_of _ 0 b0), (nth_byte_of _ 1 b1), (nth_byte_of _ 2 b2), (nth_byte_of _ 3 b3).
Qed.
Lemma swab64_rev c b0 b1 b2 b3 b4 b5 b6 b7 :
  Forall byte [b0; b1; b2; b3; b4; b5; b6; b7] ->
  __swab64 c (word_of [b0; b1; b2; b3; b4; b5; b6; b7]) = word_of [b7; b6; b5; b4; b3; b2; b1; b0].
Proof. intros. destruct c; [by apply swab64_reverses|by apply fswab64_reverses]. Qed.

(** One object: its bytes [l] at [p] are reversed in place, and a conversion through the
    pointer then reads the number they were. *)
Section Object.
Context (n : nat) (swab : Z -> Z) (sp : Z -> mem -> option Z) (ss : Z -> mem -> option mem).
Context (Hp : forall p m, sp p m = (v ← load_n n m p; Some (swab v))).
Context (Hs : forall p m, ss p m = (v ← sp p m; store_n n m p v)).
Context (Hrev : forall l, length l = n -> Forall byte l -> swab (word_of l) = word_of (reverse l)).

Lemma in_place_reverses m p l :
  length l = n -> Forall byte l -> block m p l ->
  exists m', ss p m = Some m' /\ block m' p (reverse l) /\ sp p m' = Some (word_of l) /\
    (forall x, x < p \/ p + Z.of_nat n <= x -> m' !! x = m !! x).
Proof using Hp Hs Hrev.
  intros Hl Hby Hb. pose proof Hl as Hr. rewrite <- length_reverse in Hr.
  assert (Hby' : Forall byte (reverse l)) by by apply Forall_reverse.
  assert (Hload : forall m l, length l = n -> block m p l -> load_n n m p = Some (word_of l)).
  { intros m0 l0 <-. apply load_n_block. }
  assert (Hm : mapped m p (length (reverse l))) by (rewrite length_reverse; by eapply block_mapped).
  assert (Hst : store_n n m p (word_of (reverse l)) = Some (store_list m p (reverse l))).
  { rewrite <- Hr. by apply store_n_block. }
  exists (store_list m p (reverse l)). split_and!.
  - rewrite Hs, Hp, (Hload m l) by done. cbn [mbind option_bind]. by rewrite Hrev.
  - apply store_list_block.
  - rewrite Hp, (Hload _ (reverse l)) by (done || apply store_list_block). cbn [mbind option_bind].
    by rewrite Hrev, reverse_involutive.
  - intros x Hx. apply store_list_out. by rewrite Hr.
Qed.
End Object.

Lemma list2 {A} (l : list A) : length l = 2%nat -> exists a b, l = [a; b].
Proof. destruct l as [|? [|? [|]]]; try done. eauto. Qed.
Lemma list4 {A} (l : list A) : length l = 4%nat -> exists a b c d, l = [a; b; c; d].
Proof. destruct l as [|? [|? [|? [|? [|]]]]]; try done. eauto. Qed.
Lemma list8 {A} (l : list A) : length l = 8%nat -> exists a b c d e f g h, l = [a; b; c; d; e; f; g; h].
Proof. destruct l as [|? [|? [|? [|? [|? [|? [|? [|? [|]]]]]]]]]; try done. eauto 10. Qed.

(** Big-endian objects in memory: a number of 2, 4 or 8 bytes that is converted in place
    lies with its most significant byte first, nothing else changes, and the conversion
    back reads the number; of values, the two conversions are inverse to each other,
    whether the compiler folds constants or not. *)
Theorem big_endian_roundtrip m p l :
  Forall byte l -> block m p l ->
  (length l = 2%nat -> exists m', __cpu_to_be16s p m = Some m' /\ block m' p (reverse l) /\
    __be16_to_cpup p m' = Some (word_of l) /\ (forall x, x < p \/ p + 2 <= x -> m' !! x = m !! x) /\
    forall c c', __be16_to_cpu c' (__cpu_to_be16 c (word_of l)) = word_of l) /\
  (length l = 4%nat -> exists m', __cpu_to_be32s p m = Some m' /\ block m' p (reverse l) /\
    __be32_to_cpup p m' = Some (word_of l) /\ (forall x, x < p \/ p + 4 <= x -> m' !! x = m !! x) /\
    forall c c', __be32_to_cpu c' (__cpu_to_be32 c (word_of l)) = word_of l) /\
  (length l = 8%nat -> exists m', __cpu_to_be64s p m = Some m' /\ block m' p (reverse l) /\
    __be64_to_cpup p m' = Some (word_of l) /\ (forall x, x < p \/ p + 8 <= x -> m' !! x = m !! x) /\
    forall c c', __be64_to_cpu c' (__cpu_to_be64 c (word_of l)) = word_of l).
Proof.
  intros Hby Hb.
  assert (R2 : forall c l, length l = 2%nat -> Forall byte l -> __swab16 c (word_of l) = word_of (reverse l)).
  { intros c l' (a & b & ->)%list2 H. rewrite !Forall_cons in H. apply swab16_rev; tauto. }
  assert (R4 : forall c l, length l = 4%nat -> Forall byte l -> __swab32 c (word_of l) = word_of (reverse l)).
  { intros c l' (? & ? & ? & ? & ->)%list4 H. rewrite !Forall_cons in H. apply swab32_rev; tauto. }
  assert (R8 : forall c l, length l = 8%nat -> Forall byte l -> __swab64 c (word_of l) = word_of (reverse l)).
  { intros c l' (? & ? & ? & ? & ? & ? & ? & ? & ->)%list8 H. by apply swab64_rev. }
  assert (Hby' : Forall byte (reverse l)) by by apply Forall_reverse.
  pose proof (word_of_range _ Hby') as Hr. rewrite length_reverse in Hr.
  split_and!; intros Hl; rewrite Hl in Hr.
  - destruct (in_place_reverses 2 (__swab16 false) __swab16p __swab16s ltac:(done) ltac:(done) (R2 false) m p l)
      as (m' & ? & ? & ? & ?); [done..|].
    exists m'. split_and!; [done..|]. intros c c'. unfold __be16_to_cpu, __cpu_to_be16, u16.
    rewrite R2, Z.mod_small, R2, reverse_involutive by (done || by rewrite length_reverse). done.
  - destruct (in_place_reverses 4 (__swab32 false) __swab32p __swab32s ltac:(done) ltac:(done) (R4 false) m p l)
      as (m' & ? & ? & ? & ?); [done..|].
    exists m'. split_and!; [done..|]. intros c c'. unfold __be32_to_cpu, __cpu_to_be32.
    rewrite R4, u32_small, R4, reverse_involutive by (done || by rewrite length_reverse). done.
  - destruct (in_place_reverses 8 (__swab64 false) __swab64p __swab64s ltac:(done) ltac:(done) (R8 false) m p l)
      as (m' & ? & ? & ? & ?); [done..|].
    exists m'. split_and!; [done..|]. intros c c'. unfold __be64_to_cpu, __cpu_to_be64.
    rewrite R8, u64_small, R8, reverse_involutive by (done || by rewrite length_reverse). done.
Qed.
