(* ===== verification/X86Bitops.v ===== *)
(** * Bit operations of the x86 port (src/arch/x86/bitops.h)

    The functions are single instructions of the processor on a string of bits in memory,
    or short sequences of them; the instructions they use are defined first, as the
    processor's manual has them.  Registers and words have 32 bits.  One processor runs
    the code, so the lock prefix is empty and the functions that differ only by it do the
    same. *)

From stdpp Require Import base gmap list.
From Stdlib Require Import ZArith Lia.
From S2P Require Import Prelude Bitops Mem Words.
#[local] Open Scope Z_scope.

(** ** The instructions *)

(** [btsl], [btrl] and [btcl] with a bit string at [addr] and the signed bit number [nr]:
    the carry flag gets the bit, and the bit is replaced. *)
Definition bt_op (f : Z -> Z -> Z) (nr addr : Z) (m : mem) : option (mem * bool) :=
  let p := addr + 4 * Z.shiftr nr 5 in
  let i := Z.land nr 31 in
  w ← load_word m p; m' ← store_word m p (f w i); Some (m', Z.testbit w i).

Definition btsl : Z -> Z -> mem -> option (mem * bool) := bt_op Z.setbit.
Definition btrl : Z -> Z -> mem -> option (mem * bool) := bt_op Z.clearbit.
Definition btcl : Z -> Z -> mem -> option (mem * bool) := bt_op (fun w i => Z.lxor w (2 ^ i)).

Definition btl (nr addr : Z) (m : mem) : option bool :=
  w ← load_word m (addr + 4 * Z.shiftr nr 5); Some (Z.testbit w (Z.land nr 31)).

(** [sbbl %0,%0]: zero less the carry flag. *)
Definition sbbl (cf : bool) : Z := if cf then -1 else 0.

(** [bsfl]: the number of the lowest bit set; [None] when there is none, the zero flag is
    set and the destination undefined. *)
Fixpoint bsf_loop (n : nat) (i x : Z) : option Z :=
  match n with
  | O => None
  | S n => if Z.testbit x i then Some i else bsf_loop n (i + 1) x
  end.
Definition bsfl (x : Z) : option Z := bsf_loop 32 0 x.

(** [repe; scasl] with the zero flag set: at most [ecx] words from [edi] are compared
    with [eax], up to the first that differs; the new [edi] and the zero flag. *)
Fixpoint repe_scasl (ecx : nat) (m : mem) (eax edi : Z) : option (Z * bool) :=
  match ecx with
  | O => Some (edi, true)
  | S ecx =>
    w ← load_word m edi;
    if decide (w = eax) then repe_scasl ecx m eax (u32 (edi + 4)) else Some (u32 (edi + 4), false)
  end.

(** ** The functions *)

Definition set_bit (nr addr : Z) (m : mem) : option mem := fst <$> btsl nr addr m.
Definition __set_bit (nr addr : Z) (m : mem) : option mem := fst <$> btsl nr addr m.
Definition clear_bit (nr addr : Z) (m : mem) : option mem := fst <$> btrl nr addr m.
Definition __change_bit (nr addr : Z) (m : mem) : option mem := fst <$> btcl nr addr m.
Definition change_bit (nr addr : Z) (m : mem) : option mem := fst <$> btcl nr addr m.

Definition test_and_set_bit (nr addr : Z) (m : mem) : option (mem * Z) :=
  '(m, cf) ← btsl nr addr m; Some (m, sbbl cf).
Definition __test_and_set_bit (nr addr : Z) (m : mem) : option (mem * Z) :=
  '(m, cf) ← btsl nr addr m; Some (m, sbbl cf).
Definition test_and_clear_bit (nr addr : Z) (m : mem) : option (mem * Z) :=
  '(m, cf) ← btrl nr addr m; Some (m, sbbl cf).
Definition __test_and_clear_bit (nr addr : Z) (m : mem) : option (mem * Z) :=
  '(m, cf) ← btrl nr addr m; Some (m, sbbl cf).
Definition __test_and_change_bit (nr addr : Z) (m : mem) : option (mem * Z) :=
  '(m, cf) ← btcl nr addr m; Some (m, sbbl cf).
Definition test_and_change_bit (nr addr : Z) (m : mem) : option (mem * Z) :=
  '(m, cf) ← btcl nr addr m; Some (m, sbbl cf).

Definition constant_test_bit (nr addr : Z) (m : mem) : option Z :=
  w ← load_word m (addr + 4 * Z.shiftr nr 5);
  Some (if decide (Z.land (u32 (Z.shiftl 1 (Z.land nr 31))) w <> 0) then 1 else 0).

Definition variable_test_bit (nr addr : Z) (m : mem) : option Z :=
  cf ← btl nr addr m; Some (sbbl cf).

(** The registers of the assembly; [bsfl] finds a bit, since the words differ. *)
Definition find_first_zero_bit (addr size : Z) (m : mem) : option Z :=
  if decide (size = 0) then Some 0
  else
    let ecx := Z.shiftr (u32 (size + 31)) 5 in
    let ebx := addr in
    let eax := u32 (-1) in
    let edx := 0 in
    '(edi, zf) ← repe_scasl (Z.to_nat ecx) m eax addr;
    '(edi, edx) ← (if zf : bool then Some (edi, edx)
      else
        w ← load_word m (edi - 4);
        let eax := Z.lxor w eax in
        let edi := u32 (edi - 4) in
        edx ← bsfl eax;
        Some (edi, edx));
    let edi := u32 (edi - ebx) in
    let edi := u32 (Z.shiftl edi 3) in
    Some (s32 (edx + edi)).

Definition find_next_zero_bit (addr size offset : Z) (m : mem) : option Z :=
  let p := addr + 4 * Z.shiftr offset 5 in
  let bit := Z.land offset 31 in
  if decide (bit <> 0) then
    w ← load_word m p;
    let set := match bsfl (u32 (Z.lnot (Z.shiftr w bit))) with Some i => i | None => 32 end in
    if decide (set < 32 - bit) then Some (set + offset)
    else
      let set := 32 - bit in
      let p := p + 4 in
      res ← find_first_zero_bit p (u32 (size - 32 * ((p - addr) / 4))) m;
      Some (s32 (offset + set + res))
  else
    res ← find_first_zero_bit p (u32 (size - 32 * ((p - addr) / 4))) m;
    Some (s32 (offset + 0 + res)).

(** [None]: the result is undefined. *)
Definition ffz (word : Z) : option Z := bsfl (u32 (Z.lnot word)).
Definition __ffs (word : Z) : option Z := bsfl word.

Definition ffs (x : Z) : Z :=
  let r := match bsfl (u32 x) with Some i => i | None => -1 end in r + 1.

Definition __ilog2 (x : Z) : Z := generic_fls x - 1.

(** ** Strings of bits *)

(** Bit [nr] of the string at [addr]. *)
Definition mbit (m : mem) (addr nr : Z) : option bool :=
  w ← load_word m (addr + 4 * (nr / 32)); Some (Z.testbit w (nr mod 32)).

Lemma land31 n : Z.land n 31 = n mod 32.
Proof. change 31 with (Z.ones 5). by rewrite Z.land_ones. Qed.
Lemma shiftr5 n : Z.shiftr n 5 = n / 32.
Proof. by rewrite Z.shiftr_div_pow2. Qed.

Definition byte_mem (m : mem) : Prop := map_Forall (fun _ b => 0 <= b < 2 ^ 8) m.

Lemma load_word_range m p w : byte_mem m -> load_word m p = Some w -> 0 <= w < 2 ^ 32.
Proof.
  intros Hm Hl. unfold load_word in Hl.
  apply bind_Some in Hl as (a0 & L0 & (a1 & L1 & (a2 & L2 & (a3 & L3 & E)%bind_Some)%bind_Some)%bind_Some).
  pose proof (Hm _ _ L0). pose proof (Hm _ _ L1). pose proof (Hm _ _ L2). pose proof (Hm _ _ L3). simpl in *.
  injection E as <-. lia.
Qed.

Lemma load_word_mapped m p w : load_word m p = Some w -> mapped m p 4.
Proof.
  intros Hl. unfold load_word in Hl.
  apply bind_Some in Hl as (a0 & L0 & (a1 & L1 & (a2 & L2 & (a3 & L3 & _)%bind_Some)%bind_Some)%bind_Some).
  intros [|[|[|[|j]]]] Hj; [..|lia]; eexists; [rewrite Z.add_0_r; exact L0|exact L1|exact L2|exact L3].
Qed.

Lemma load_word_frame m m' p : (forall x, p <= x < p + 4 -> m' !! x = m !! x) -> load_word m' p = load_word m p.
Proof. intros H. unfold load_word. by rewrite !H by lia. Qed.

Lemma high_bits w i : 0 <= w < 2 ^ 32 -> 32 <= i -> Z.testbit w i = false.
Proof. intros Hw Hi. rewrite <- (Z.mod_small w (2 ^ 32)) by done. apply Z.mod_pow2_bits_high. lia. Qed.

(** An operation that sets bit [i] of a word to [b] and leaves the others. *)
Definition changes_bit (f : Z -> Z -> Z) (b : bool -> bool) : Prop :=
  forall w i j, 0 <= i -> 0 <= j -> Z.testbit (f w i) j = if decide (j = i) then b (Z.testbit w i) else Z.testbit w j.

Lemma setbit_changes : changes_bit Z.setbit (fun _ => true).
Proof.
  intros w i j Hi Hj. case_decide as E; [subst; by rewrite Z.setbit_eq|]. by rewrite Z.setbit_neq by lia.
Qed.
Lemma clearbit_changes : changes_bit Z.clearbit (fun _ => false).
Proof. intros w i j Hi Hj. case_decide as E; [subst; apply Z.clearbit_eq|]. by rewrite Z.clearbit_neq. Qed.
Lemma xorbit_changes : changes_bit (fun w i => Z.lxor w (2 ^ i)) negb.
Proof.
  intros w i j Hi Hj. rewrite Z.lxor_spec, Z.pow2_bits_eqb by done. case_decide as E.
  - subst. by rewrite Z.eqb_refl, xorb_true_r.
  - rewrite (proj2 (Z.eqb_neq i j)) by congruence. apply xorb_false_r.
Qed.

(** Words are equal to their low 32 bits. *)
Lemma bits_range w : 0 <= w -> (forall j, 32 <= j -> Z.testbit w j = false) -> 0 <= w < 2 ^ 32.
Proof.
  intros Hw Hb. split; [done|]. destruct (decide (w = 0)) as [->|]; [lia|].
  apply Z.log2_lt_pow2; [lia|]. destruct (decide (Z.log2 w < 32)); [done|].
  pose proof (Z.bit_log2 w ltac:(lia)) as E. rewrite Hb in E; [done|lia].
Qed.

Lemma changes_bit_range f b w i :
  changes_bit f b -> (forall w, 0 <= w -> 0 <= f w i) -> 0 <= w < 2 ^ 32 -> 0 <= i < 32 -> 0 <= f w i < 2 ^ 32.
Proof.
  intros Hf Hn Hw Hi. apply bits_range; [by apply Hn, Hw|]. intros j Hj. rewrite Hf by lia.
  rewrite decide_False by lia. by apply high_bits.
Qed.

Lemma setbit_pos w i : 0 <= i -> 0 <= w -> 0 <= Z.setbit w i.
Proof. intros Hi Hw. rewrite Z.setbit_spec'. apply Z.lor_nonneg. split; [done|]. by apply Z.pow_nonneg. Qed.
Lemma clearbit_pos w i : 0 <= i -> 0 <= w -> 0 <= Z.clearbit w i.
Proof. intros Hi Hw. rewrite Z.clearbit_spec'. rewrite Z.ldiff_nonneg. left. done. Qed.
Lemma xorbit_pos w i : 0 <= i -> 0 <= w -> 0 <= Z.lxor w (2 ^ i).
Proof. intros Hi Hw. apply Z.lxor_nonneg. pose proof (Z.pow_nonneg 2 i). lia. Qed.

(** The instruction on a bit string. *)
Lemma bt_op_spec f b m nr addr old :
  changes_bit f b -> (forall w i, 0 <= i -> 0 <= w -> 0 <= f w i) -> byte_mem m -> mbit m addr nr = Some old ->
  exists m', bt_op f nr addr m = Some (m', old) /\
    (forall k, mbit m' addr k = if decide (k = nr) then Some (b old) else mbit m addr k) /\
    (forall x, x < addr + 4 * (nr / 32) \/ addr + 4 * (nr / 32) + 4 <= x -> m' !! x = m !! x).
Proof.
  intros Hf Hpos Hm. unfold mbit at 1. intros (w & Hw & [= <-])%bind_Some.
  pose proof (load_word_range _ _ _ Hm Hw) as Hr. pose proof (Z.mod_pos_bound nr 32 ltac:(lia)) as Hn.
  destruct (store_word_load m (addr + 4 * (nr / 32)) (f w (nr mod 32))) as (m' & E & L & _ & O).
  { apply (changes_bit_range _ b); [done| |done|lia]. intros w' Hw'. apply Hpos; lia. }
  { by eapply load_word_mapped. }
  exists m'. unfold bt_op. rewrite shiftr5, land31, Hw. cbn [mbind option_bind]. rewrite E. cbn [mbind option_bind].
  split_and!; [done| |exact O]. intros k. unfold mbit.
  destruct (decide (k / 32 = nr / 32)) as [Ek|Ek].
  - rewrite Ek, L, Hw. cbn [mbind option_bind]. pose proof (Z.mod_pos_bound k 32 ltac:(lia)).
    rewrite Hf by lia. pose proof (Z.div_mod k 32). pose proof (Z.div_mod nr 32).
    destruct (decide (k = nr)) as [->|]; [by rewrite decide_True|]. rewrite decide_False by lia. done.
  - rewrite decide_False by (by intros ->). rewrite (load_word_frame m m'); [done|]. intros x Hx. apply O. lia.
Qed.

Lemma mask_test w i :
  0 <= i -> (if decide (Z.land (2 ^ i) w <> 0) then 1 else 0) = (if Z.testbit w i then 1 else 0).
Proof.
  intros Hi. assert (E : Z.land (2 ^ i) w = if Z.testbit w i then 2 ^ i else 0).
  { apply Z.bits_inj'. intros j Hj. rewrite Z.land_spec, Z.pow2_bits_eqb by done.
    destruct (Z.testbit w i) eqn:Eb; rewrite ?Z.pow2_bits_eqb, ?Z.bits_0 by done;
      (destruct (Z.eqb_spec i j) as [<-|]; [by rewrite Eb|done]). }
  rewrite E. pose proof (Z.pow_pos_nonneg 2 i ltac:(lia) Hi). destruct (Z.testbit w i); case_decide; lia.
Qed.

(** The atomic operations on bit strings, for any bit number, negative ones included:
    each returns the old bit, as 0 or -1, and sets, clears or toggles that bit and no
    other; and the two ways to test a bit agree. *)
Theorem test_and_modify_bit m nr addr old :
  byte_mem m -> mbit m addr nr = Some old ->
  (exists m1, test_and_set_bit nr addr m = Some (m1, sbbl old) /\ set_bit nr addr m = Some m1 /\
    forall k, mbit m1 addr k = if decide (k = nr) then Some true else mbit m addr k) /\
  (exists m2, test_and_clear_bit nr addr m = Some (m2, sbbl old) /\ clear_bit nr addr m = Some m2 /\
    forall k, mbit m2 addr k = if decide (k = nr) then Some false else mbit m addr k) /\
  (exists m3, test_and_change_bit nr addr m = Some (m3, sbbl old) /\ change_bit nr addr m = Some m3 /\
    forall k, mbit m3 addr k = if decide (k = nr) then Some (negb old) else mbit m addr k) /\
  variable_test_bit nr addr m = Some (sbbl old) /\
  constant_test_bit nr addr m = Some (if old then 1 else 0).
Proof.
  intros Hm Hb.
  destruct (bt_op_spec _ _ _ _ _ _ setbit_changes setbit_pos Hm Hb) as (m1 & E1 & B1 & _).
  destruct (bt_op_spec _ _ _ _ _ _ clearbit_changes clearbit_pos Hm Hb) as (m2 & E2 & B2 & _).
  destruct (bt_op_spec _ _ _ _ _ _ xorbit_changes xorbit_pos Hm Hb) as (m3 & E3 & B3 & _).
  split_and!.
  - exists m1. unfold test_and_set_bit, set_bit, btsl. by rewrite E1.
  - exists m2. unfold test_and_clear_bit, clear_bit, btrl. by rewrite E2.
  - exists m3. unfold test_and_change_bit, change_bit, btcl. by rewrite E3.
  - apply bind_Some in Hb as (w & Hw & [= <-]). unfold variable_test_bit, btl. by rewrite shiftr5, land31, Hw.
  - apply bind_Some in Hb as (w & Hw & [= <-]). unfold constant_test_bit. rewrite shiftr5, land31, Hw.
    cbn [mbind option_bind]. fold (BIT_MASK nr). rewrite bit_mask_pow. f_equal. apply mask_test.
    by apply Z.mod_pos_bound.
Qed.

(** Bits 0 and 33 of the two words at 100 are set. *)
Definition sample_bits : mem := list_to_map (zip [100; 101; 102; 103; 104; 105; 106; 107] [1; 0; 0; 0; 2; 0; 0; 0]).

Lemma byte_memb m : bool_decide (map_Forall (fun _ b => 0 <= b < 2 ^ 8) m) = true -> byte_mem m.
Proof. intros H. by apply bool_decide_eq_true in H. Qed.

Lemma test_and_modify_bit_witness :
  (exists m1, test_and_set_bit 34 100 sample_bits = Some (m1, 0) /\ set_bit 34 100 sample_bits = Some m1 /\
    forall k, mbit m1 100 k = if decide (k = 34) then Some true else mbit sample_bits 100 k) /\
  (exists m2, test_and_clear_bit 34 100 sample_bits = Some (m2, 0) /\ clear_bit 34 100 sample_bits = Some m2 /\
    forall k, mbit m2 100 k = if decide (k = 34) then Some false else mbit sample_bits 100 k) /\
  (exists m3, test_and_change_bit 34 100 sample_bits = Some (m3, 0) /\ change_bit 34 100 sample_bits = Some m3 /\
    forall k, mbit m3 100 k = if decide (k = 34) then Some true else mbit sample_bits 100 k) /\
  variable_test_bit 34 100 sample_bits = Some 0 /\ constant_test_bit 34 100 sample_bits = Some 0.
Proof.
  apply (test_and_modify_bit sample_bits 34 100 false).
  - apply byte_memb. vm_compute. reflexivity.
  - vm_compute. reflexivity.
Defined.

(** ** The lowest bit set *)

Lemma bsf_loop_some n i x r :
  bsf_loop n i x = Some r ->
  i <= r < i + Z.of_nat n /\ Z.testbit x r = true /\ forall j, i <= j < r -> Z.testbit x j = false.
Proof.
  revert i. induction n as [|n IH]; intros i; cbn [bsf_loop]; [done|]. destruct (Z.testbit x i) eqn:E.
  - intros [= <-]. split; [lia|]. split; [done|]. intros j ?. lia.
  - intros (? & ? & Hj)%IH. split; [lia|]. split; [done|]. intros j ?.
    destruct (decide (j = i)) as [->|]; [done|]. apply Hj. lia.
Qed.

Lemma bsf_loop_none n i x :
  bsf_loop n i x = None -> forall j, i <= j < i + Z.of_nat n -> Z.testbit x j = false.
Proof.
  revert i. induction n as [|n IH]; intros i; cbn [bsf_loop]; [lia|]. destruct (Z.testbit x i) eqn:E; [done|].
  intros Hj j ?. destruct (decide (j = i)) as [->|]; [done|]. apply (IH (i + 1) Hj). lia.
Qed.

(** The bit found is the lowest. *)
Lemma bsfl_some x r :
  bsfl x = Some r -> 0 <= r < 32 /\ Z.testbit x r = true /\ forall j, 0 <= j < r -> Z.testbit x j = false.
Proof. intros H. apply bsf_loop_some in H as (? & ? & ?). by split_and!; [lia|lia|..]. Qed.

Lemma bsfl_none x : 0 <= x < 2 ^ 32 -> bsfl x = None -> x = 0.
Proof.
  intros Hx H. apply Z.bits_inj_0. intros j. destruct (decide (0 <= j)); [|apply Z.testbit_neg_r; lia].
  destruct (decide (j < 32)); [|apply high_bits; lia]. apply (bsf_loop_none _ _ _ H). lia.
Qed.

Lemma bsfl_unique x r :
  0 <= r < 32 -> Z.testbit x r = true -> (forall j, 0 <= j < r -> Z.testbit x j = false) -> bsfl x = Some r.
Proof.
  intros Hr Hb Hl. destruct (bsfl x) as [r'|] eqn:E.
  - apply bsfl_some in E as (? & Hb' & Hl'). f_equal. destruct (decide (r < r')); [rewrite Hl' in Hb; done || lia|].
    destruct (decide (r' < r)); [rewrite Hl in Hb'; done || lia|]. lia.
  - pose proof (bsf_loop_none _ _ _ E r ltac:(lia)). congruence.
Qed.

(** The function of the port is the generic one. *)
Theorem ffs_is_generic x : - 2 ^ 31 <= x < 2 ^ 31 -> ffs x = generic_ffs x.
Proof.
  intros Hx. destruct (decide (x = 0)) as [->|Hx0]; [done|].
  destruct (generic_ffs_spec x Hx Hx0) as (y & E & Hg). set (g := generic_ffs x) in *.
  assert (Hbit : forall j, 0 <= j -> Z.testbit x j = Z.testbit (2 * y + 1) (j - (g - 1))).
  { intros j Hj. rewrite E at 1. apply Z.mul_pow2_bits. lia. }
  assert (Hg32 : g - 1 < 32).
  { destruct (decide (g - 1 < 32)); [done|]. exfalso. assert (Hm : x mod 2 ^ 32 = 0).
    { rewrite E. replace (g - 1) with ((g - 33) + 32) by lia. rewrite Z.pow_add_r, Z.mul_assoc by lia.
      apply Z.mod_mul. lia. }
    pose proof (Z.div_mod x (2 ^ 32)). lia. }
  unfold ffs. rewrite (bsfl_unique (u32 x) (g - 1)); [lia|lia|..].
  - unfold u32. rewrite Z.mod_pow2_bits_low, Hbit by lia. by rewrite Z.sub_diag, Z.testbit_odd_0.
  - intros j Hj. unfold u32. rewrite Z.mod_pow2_bits_low, Hbit by lia. apply Z.testbit_neg_r. lia.
Qed.

(** ** The first zero of a bit string *)

Lemma ones_bits i : 0 <= i < 32 -> Z.testbit (u32 (-1)) i = true.
Proof. intros Hi. change (u32 (-1)) with (Z.ones 32). apply Z.ones_spec_low. lia. Qed.

Lemma repe_scasl_spec n m edi :
  (forall j, 0 <= j < Z.of_nat n -> exists w, load_word m (edi + 4 * j) = Some w) ->
  0 <= edi -> edi + 4 * Z.of_nat n < 2 ^ 32 ->
  exists j, 0 <= j <= Z.of_nat n /\ (forall i, 0 <= i < j -> load_word m (edi + 4 * i) = Some (u32 (-1))) /\
    ((j = Z.of_nat n /\ repe_scasl n m (u32 (-1)) edi = Some (edi + 4 * j, true)) \/
     (j < Z.of_nat n /\ (exists w, load_word m (edi + 4 * j) = Some w /\ w <> u32 (-1)) /\
      repe_scasl n m (u32 (-1)) edi = Some (edi + 4 * j + 4, false))).
Proof.
  revert edi. induction n as [|n IH]; intros edi Hw H0 Hr.
  { exists 0. split; [lia|]. split; [intros i ?; lia|]. left. split; [done|]. cbn [repe_scasl]. do 2 f_equal. lia. }
  destruct (Hw 0 ltac:(lia)) as [w Hl]. rewrite Z.mul_0_r, Z.add_0_r in Hl. cbn [repe_scasl]. rewrite Hl.
  cbn [mbind option_bind]. rewrite (u32_small (edi + 4)) by lia. destruct (decide (w = u32 (-1))) as [->|Hne].
  - destruct (IH (edi + 4)) as (j & Hj & Hall & Hres); [|lia|lia|].
    { intros j Hj. destruct (Hw (j + 1) ltac:(lia)) as [w Hw']. exists w. rewrite <- Hw'. f_equal. lia. }
    exists (j + 1). split; [lia|]. split.
    + intros i Hi. destruct (decide (i = 0)) as [->|]; [by rewrite Z.mul_0_r, Z.add_0_r|].
      rewrite <- (Hall (i - 1)) by lia. f_equal. lia.
    + replace (edi + 4 * (j + 1)) with (edi + 4 + 4 * j) by lia. destruct Hres as [[? ?]|(? & ? & ?)]; [left|right].
      * split; [lia|done].
      * split; [lia|]. by split.
  - exists 0. split; [lia|]. split; [intros i ?; lia|]. right. rewrite Z.mul_0_r, Z.add_0_r.
    split; [lia|]. split; [by exists w|done].
Qed.

Lemma mbit_word m addr j w i :
  load_word m (addr + 4 * j) = Some w -> 0 <= i < 32 -> mbit m addr (32 * j + i) = Some (Z.testbit w i).
Proof.
  intros Hl Hi. unfold mbit. rewrite Z.mul_comm, Z.div_add_l, Z.div_small, Z.add_0_r by lia. rewrite Hl.
  cbn [mbind option_bind]. by rewrite Z.add_comm, Z.mod_add, Z.mod_small by lia.
Qed.

(** The result: the first zero from [lo] on, or the end. *)
Definition first_zero (m : mem) (addr lo hi r : Z) : Prop :=
  lo <= r <= hi /\ (forall k, lo <= k < r -> mbit m addr k = Some true) /\
  (r < hi -> mbit m addr r = Some false).

Lemma find_first_spec m addr size :
  byte_mem m -> 0 <= addr -> addr + 4 * ((size + 31) / 32) < 2 ^ 32 -> 0 <= size < 2 ^ 31 - 32 ->
  (forall j, 0 <= j < (size + 31) / 32 -> exists w, load_word m (addr + 4 * j) = Some w) ->
  exists r, find_first_zero_bit addr size m = Some r /\ first_zero m addr 0 (32 * ((size + 31) / 32)) r.
Proof.
  intros Hm Ha Hend Hs Hw. set (n := (size + 31) / 32) in *. unfold find_first_zero_bit.
  assert (Hn : 0 <= n /\ 32 * n <= size + 31) by (unfold n; pose proof (Z.div_mod (size + 31) 32); pose proof (Z.mod_pos_bound (size + 31) 32); lia).
  case_decide as H0.
  { subst size. exists 0. split; [done|]. change n with 0. split; [lia|]. split; intros; lia. }
  rewrite (u32_small (size + 31)), shiftr5 by lia. fold n.
  destruct (repe_scasl_spec (Z.to_nat n) m addr) as (j & Hj & Hall & Hres); [by rewrite Z2Nat.id by lia|lia|lia|].
  rewrite Z2Nat.id in * by lia.
  assert (Hones : forall k, 0 <= k < 32 * j -> mbit m addr k = Some true).
  { intros k Hk. pose proof (Z.div_mod k 32 ltac:(lia)) as E. pose proof (Z.mod_pos_bound k 32 ltac:(lia)).
    rewrite E, (mbit_word _ _ _ (u32 (-1))), ones_bits; [done|lia|apply Hall; lia|lia]. }
  assert (Hfin : forall i, 0 <= i < 32 -> s32 (i + u32 (Z.shiftl (u32 (addr + 4 * j - addr)) 3)) = 32 * j + i).
  { intros i Hi. replace (addr + 4 * j - addr) with (4 * j) by lia. rewrite (u32_small (4 * j)) by lia.
    rewrite Z.shiftl_mul_pow2 by lia. change (2 ^ 3) with 8. rewrite u32_small, s32_small by lia. lia. }
  destruct Hres as [[-> E]|(Hjn & (w & Hl & Hne) & E)]; rewrite E; cbn [mbind option_bind].
  - exists (32 * n). rewrite <- (Z.add_0_r (32 * n)), <- (Hfin 0) by lia. split; [done|]. rewrite Hfin by lia.
    split; [lia|]. split; [intros k ?; apply Hones; lia|lia].
  - pose proof (load_word_range _ _ _ Hm Hl) as Hr. replace (addr + 4 * j + 4 - 4) with (addr + 4 * j) by lia.
    rewrite Hl. cbn [mbind option_bind]. rewrite (u32_small (addr + 4 * j)) by lia.
    assert (Hx : 0 <= Z.lxor w (u32 (-1)) < 2 ^ 32).
    { apply bits_range; [apply Z.lxor_nonneg; pose proof (u32_range (-1)); lia|]. intros i Hi.
      rewrite Z.lxor_spec, !high_bits; [done|apply u32_range|done|done|done]. }
    destruct (bsfl (Z.lxor w (u32 (-1)))) as [i|] eqn:Eb; cycle 1.
    { apply bsfl_none in Eb; [|done]. by apply Z.lxor_eq in Eb. }
    apply bsfl_some in Eb as (Hi & Hb & Hlow). rewrite Z.lxor_spec, ones_bits, xorb_true_r in Hb by done.
    cbn [mbind option_bind]. exists (32 * j + i). rewrite Hfin by done. split; [done|]. split; [lia|]. split.
    + intros k Hk. destruct (decide (k < 32 * j)); [apply Hones; lia|]. replace k with (32 * j + (k - 32 * j)) by lia.
      rewrite (mbit_word _ _ _ w) by (done || lia). specialize (Hlow (k - 32 * j) ltac:(lia)).
      rewrite Z.lxor_spec, ones_bits, xorb_true_r in Hlow by lia. by apply negb_false_iff in Hlow as ->.
    + intros _. rewrite (mbit_word _ _ _ w) by done. by apply negb_true_iff in Hb as ->.
Qed.

Lemma mbit_shift m addr d k : mbit m (addr + 4 * d) k = mbit m addr (32 * d + k).
Proof.
  unfold mbit. rewrite (Z.mul_comm 32), Z.div_add_l, (Z.add_comm (d * 32)), Z.mod_add by lia.
  replace (addr + 4 * (d + k / 32)) with (addr + 4 * d + 4 * (k / 32)) by lia. done.
Qed.

(** A bit string of [size] bits, in [n] words; the last one may be used in part. *)
Section Bitmap.
Context (m : mem) (addr size n : Z) (Hm : byte_mem m) (Ha : 0 <= addr) (Hend : addr + 4 * n < 2 ^ 32).
Context (Hs : 0 <= size < 2 ^ 31 - 32) (Hn : n = (size + 31) / 32).
Context (Hw : forall j, 0 <= j < n -> exists w, load_word m (addr + 4 * j) = Some w).

Lemma size_words : 0 <= n /\ size <= 32 * n <= size + 31.
Proof using Hs Hn.
  clear Hend Hw. pose proof (Z.div_mod (size + 31) 32). pose proof (Z.mod_pos_bound (size + 31) 32). lia.
Qed.

(** The search in the full words from word [d] on.  Behind a last word that is used in part,
    the number of bits that are left is negative; as an unsigned number it wraps around
    with the addition of 31, and no word is searched. *)
Lemma find_rest d :
  0 <= d <= n ->
  exists r, find_first_zero_bit (addr + 4 * d) (u32 (size - 32 * ((addr + 4 * d - addr) / 4))) m = Some r /\
    first_zero m addr (32 * d) (32 * n) (32 * d + r).
Proof using Hm Ha Hend Hs Hn Hw.
  intros Hd. pose proof size_words as Hsz. replace (addr + 4 * d - addr) with (d * 4) by lia. rewrite Z.div_mul by lia.
  destruct (decide (size - 32 * d < 0)) as [Hneg|Hpos].
  { assert (d = n) as -> by lia. exists 0. split; [|split; [lia|split; intros; lia]].
    assert (Eu : u32 (size - 32 * n) = size - 32 * n + 2 ^ 32).
    { unfold u32. rewrite <- (Z.mod_add _ 1) by lia. rewrite Z.mod_small by lia. lia. }
    rewrite Eu. unfold find_first_zero_bit. rewrite decide_False by lia.
    assert (Ew : u32 (size - 32 * n + 2 ^ 32 + 31) = size - 32 * n + 31).
    { unfold u32. replace (size - 32 * n + 2 ^ 32 + 31) with (size - 32 * n + 31 + 1 * 2 ^ 32) by lia.
      rewrite Z.mod_add, Z.mod_small by lia. lia. }
    rewrite Ew, shiftr5, Z.div_small by lia. change (Z.to_nat 0) with O. cbn [repe_scasl mbind option_bind]. rewrite Z.sub_diag. done. }
  rewrite u32_small by lia. assert (E : (size - 32 * d + 31) / 32 = n - d).
  { replace (size - 32 * d + 31) with (size + 31 + (- d) * 32) by lia. rewrite Z.div_add by lia. lia. }
  destruct (find_first_spec m (addr + 4 * d) (size - 32 * d)) as (r & Er & Hr & Hones & Hz); rewrite ?E in *; [done|lia..| |].
  { intros j Hj. destruct (Hw (d + j)) as [w Hl]; [lia|]. exists w. rewrite <- Hl. f_equal. lia. }
  exists r. split; [done|]. split; [lia|]. split.
  - intros k Hk. rewrite <- (Hones (k - 32 * d)) by lia. rewrite mbit_shift. f_equal. lia.
  - intros Hlt. rewrite <- mbit_shift. apply Hz. lia.
Qed.

(** The search in what is left of the word [q] from bit [b] on. *)
Lemma find_in_word q b w :
  load_word m (addr + 4 * q) = Some w -> 0 < b < 32 ->
  exists i, match bsfl (u32 (Z.lnot (Z.shiftr w b))) with Some i => i | None => 32 end = i /\
    0 <= i <= 32 - b /\ (forall k, 32 * q + b <= k < 32 * q + b + i -> mbit m addr k = Some true) /\
    (i < 32 - b -> mbit m addr (32 * q + b + i) = Some false).
Proof using Hm.
  intros Hl Hb. pose proof (load_word_range _ _ _ Hm Hl) as Hr.
  assert (Hbit : forall j, 0 <= j < 32 -> Z.testbit (u32 (Z.lnot (Z.shiftr w b))) j = negb (Z.testbit w (j + b))).
  { intros j Hj. unfold u32. rewrite Z.mod_pow2_bits_low, Z.lnot_spec, Z.shiftr_spec by lia. done. }
  assert (Hlast : Z.testbit (u32 (Z.lnot (Z.shiftr w b))) (32 - b) = true).
  { rewrite Hbit by lia. by rewrite high_bits by lia. }
  destruct (bsfl _) as [i|] eqn:E; cycle 1.
  { pose proof (bsf_loop_none _ _ _ E (32 - b) ltac:(lia)). congruence. }
  apply bsfl_some in E as (Hi & Hz & Hlow). rewrite Hbit in Hz by done. exists i. split; [done|].
  assert (Hib : i <= 32 - b).
  { destruct (decide (i <= 32 - b)); [done|]. rewrite Hlow in Hlast by lia. done. }
  split; [lia|]. split.
  - intros k Hk. replace k with (32 * q + (k - 32 * q)) by lia. rewrite (mbit_word _ _ _ w) by (done || lia).
    specialize (Hlow (k - 32 * q - b) ltac:(lia)). rewrite Hbit in Hlow by lia. apply negb_false_iff in Hlow.
    rewrite <- Hlow. do 2 f_equal. lia.
  - intros Hlt. rewrite <- Z.add_assoc, (mbit_word _ _ _ w) by (done || lia). apply negb_true_iff in Hz.
    rewrite <- Hz. do 2 f_equal. lia.
Qed.

(** The search for a zero in a bit string of any size: the result is the first zero bit
    at or behind [offset] in the words of the string, or their end when all bits from there
    on are set; a string that ends inside a word is not searched beyond that word. *)
Theorem find_next_zero_bit_first offset :
  0 <= offset <= size ->
  exists r, find_next_zero_bit addr size offset m = Some r /\
    offset <= r <= 32 * n /\ (forall k, offset <= k < r -> mbit m addr k = Some true) /\
    (r < 32 * n -> mbit m addr r = Some false).
Proof using Hm Ha Hend Hs Hn Hw.
  intros Ho. pose proof size_words as Hsz. unfold find_next_zero_bit. rewrite shiftr5, land31.
  pose proof (Z.div_mod offset 32 ltac:(lia)) as E. pose proof (Z.mod_pos_bound offset 32 ltac:(lia)) as Hb.
  set (q := offset / 32) in *. set (b := offset mod 32) in *. case_decide as Hb0.
  - destruct (Hw q) as [w Hl]; [lia|]. rewrite Hl. cbn [mbind option_bind].
    destruct (find_in_word q b w Hl ltac:(lia)) as (i & -> & Hi & Hones & Hz). rewrite <- E in *. case_decide as Hlt.
    + exists (i + offset). split; [done|]. split; [lia|]. split; [intros k Hk; apply Hones; lia|].
      intros _. rewrite Z.add_comm. by apply Hz.
    + replace (addr + 4 * q + 4) with (addr + 4 * (q + 1)) by lia.
      destruct (find_rest (q + 1) ltac:(lia)) as (r & -> & Hr & Hones' & Hz'). cbn [mbind option_bind].
      replace (offset + (32 - b) + r) with (32 * (q + 1) + r) by lia. rewrite s32_small by lia.
      exists (32 * (q + 1) + r). split; [done|]. split; [lia|]. split; [|done].
      intros k Hk. destruct (decide (k < 32 * (q + 1))); [apply Hones|apply Hones']; lia.
  - destruct (find_rest q ltac:(lia)) as (r & -> & Hr & Hones & Hz). cbn [mbind option_bind].
    replace (offset + 0 + r) with (32 * q + r) by lia. rewrite s32_small by lia.
    exists (32 * q + r). split; [done|]. split; [lia|]. split; [|done]. intros k Hk. apply Hones. lia.
Qed.
End Bitmap.

(** A string of 40 bits: bit 0 of the first word is set, and all of the second word. *)
Definition sample_map : mem := list_to_map (zip [100; 101; 102; 103; 104; 105; 106; 107] [1; 0; 0; 0; 255; 255; 255; 255]).

Lemma find_next_zero_bit_first_witness :
  find_next_zero_bit 100 40 33 sample_map = Some 64 /\
  exists r, find_next_zero_bit 100 40 33 sample_map = Some r /\
    33 <= r <= 64 /\ (forall k, 33 <= k < r -> mbit sample_map 100 k = Some true) /\
    (r < 64 -> mbit sample_map 100 r = Some false).
Proof.
  split; [vm_compute; reflexivity|]. apply (find_next_zero_bit_first sample_map 100 40 2); try lia.
  - apply byte_memb. vm_compute. reflexivity.
  - reflexivity.
  - intros j Hj. assert (j = 0 \/ j = 1) as [-> | ->] by lia; eexists; vm_compute; reflexivity.
Defined.
