(* ===== verification/Macros.v ===== *)
(** * Rounding, comparison and scaling macros (src/include/rosx/kernel.h)

    The macros are used at the type of their first argument; here it is the 32-bit
    unsigned integer, with the signed one where the macro distinguishes it.  Every
    operation that can leave the type wraps. *)

From stdpp Require Import base list.
From Stdlib Require Import ZArith Lia.
From S2P Require Import Prelude Div64.
#[local] Open Scope Z_scope.

Definition REPEAT_BYTE (x : Z) : Z := u32 ((2 ^ 32 - 1) / 0xff * x).

Definition __ALIGN_MASK (x mask : Z) : Z := Z.land (u32 (x + mask)) (u32 (Z.lnot mask)).
Definition ALIGN (x a : Z) : Z := __ALIGN_MASK x (u32 (a - 1)).
Definition ALIGN_DOWN (x a : Z) : Z := ALIGN (u32 (x - u32 (a - 1))) a.
Definition IS_ALIGNED (x a : Z) : bool := Z.land x (u32 (a - 1)) =? 0.

Definition __round_mask (y : Z) : Z := u32 (y - 1).
Definition round_up (x y : Z) : Z := u32 (Z.lor (u32 (x - 1)) (__round_mask y) + 1).
Definition round_down (x y : Z) : Z := Z.land x (u32 (Z.lnot (__round_mask y))).

Definition DIV_ROUND_UP (n d : Z) : Z := u32 (u32 (n + d) - 1) / d.

Definition roundup (x y : Z) : Z := u32 (u32 (x + u32 (y - 1)) / y * y).
Definition rounddown (x y : Z) : Z := u32 (x - x mod y).

(** The branch for unsigned arguments and the two for signed ones, of [int]. *)
Definition DIV_ROUND_CLOSEST_u (x d : Z) : Z := u32 (x + d / 2) / d.
Definition DIV_ROUND_CLOSEST_s (x d : Z) : Z :=
  if decide (x > 0) then Z.quot (s32 (x + Z.quot d 2)) d else Z.quot (s32 (x - Z.quot d 2)) d.

Definition mult_frac (x numer denom : Z) : Z :=
  let quot := x / denom in
  let rem := x mod denom in
  u32 (u32 (quot * numer) + u32 (rem * numer) / denom).

Definition upper_32_bits (n : Z) : Z := u32 (Z.shiftr (Z.shiftr n 16) 16).
Definition lower_32_bits (n : Z) : Z := u32 n.

(** [do_div] of a divisor that is not a constant. *)
Definition DIV_ROUND_DOWN_ULL (ll d : Z) : option Z := '(q, _) ← do_div false ll d; Some q.
Definition DIV_ROUND_UP_ULL (ll d : Z) : option Z := DIV_ROUND_DOWN_ULL (u64 (u64 (ll + d) - 1)) d.

Definition abs64 (x : Z) : Z := if decide (x < 0) then s64 (- x) else x.

Definition min (x y : Z) : Z := if decide (x < y) then x else y.
Definition max (x y : Z) : Z := if decide (x > y) then x else y.
Definition min3 (x y z : Z) : Z := min (min x y) z.
Definition max3 (x y z : Z) : Z := max (max x y) z.
Definition min_not_zero (x y : Z) : Z :=
  if decide (x = 0) then y else if decide (y = 0) then x else min x y.
Definition clamp (val lo hi : Z) : Z := min (max val lo) hi.

(** [type] converts a value to the type the macro is called with. *)
Definition min_t (type : Z -> Z) (x y : Z) : Z := min (type x) (type y).
Definition max_t (type : Z -> Z) (x y : Z) : Z := max (type x) (type y).
Definition clamp_t (type : Z -> Z) (val lo hi : Z) : Z := min_t type (max_t type val lo) hi.
Definition clamp_val (val lo hi : Z) : Z := clamp_t u32 val lo hi.

(** ** Powers of two *)

Section Alignment.
Context (k : Z) (Hk : 0 <= k < 32).

Lemma pow_range : 0 < 2 ^ k < 2 ^ 32.
Proof using Hk. split; [apply Z.pow_pos_nonneg; lia|apply Z.pow_lt_mono_r; lia]. Qed.

Lemma mask_ones : u32 (2 ^ k - 1) = Z.ones k.
Proof using Hk. pose proof pow_range. rewrite u32_small, Z.ones_equiv by lia. lia. Qed.

(** Clearing the low [k] bits. *)
Lemma clear_low x : 0 <= x < 2 ^ 32 -> Z.land x (u32 (Z.lnot (Z.ones k))) = 2 ^ k * (x / 2 ^ k).
Proof using Hk.
  intros Hx. rewrite Z.mul_comm, <- Z.shiftr_div_pow2, <- Z.shiftl_mul_pow2 by lia. unfold u32.
  apply Z.bits_inj'. intros i Hi. rewrite Z.land_spec. destruct (decide (i < 32)).
  - rewrite Z.mod_pow2_bits_low, Z.lnot_spec by lia. destruct (decide (i < k)).
    + rewrite Z.ones_spec_low, Z.shiftl_spec_low, andb_false_r by lia. done.
    + rewrite Z.ones_spec_high, Z.shiftl_spec, Z.shiftr_spec by lia. cbn. rewrite andb_true_r. f_equal. lia.
  - rewrite Z.mod_pow2_bits_high, andb_false_r, Z.shiftl_spec, Z.shiftr_spec by lia.
    rewrite <- (Z.mod_small x (2 ^ 32)), Z.mod_pow2_bits_high by lia. done.
Qed.

Lemma multiple_le x : 0 <= x < 2 ^ 32 -> 0 <= 2 ^ k * (x / 2 ^ k) <= x.
Proof using Hk. intros Hx. pose proof pow_range. pose proof (Z.div_pos x (2 ^ k)). pose proof (Z.mul_div_le x (2 ^ k)). nia. Qed.

(** Setting the low [k] bits. *)
Lemma set_low x : 0 <= x -> Z.lor x (Z.ones k) = 2 ^ k * (x / 2 ^ k) + (2 ^ k - 1).
Proof using Hk.
  intros Hx. replace (2 ^ k - 1) with (Z.ones k) by (rewrite Z.ones_equiv; lia).
  assert (E : 2 ^ k * (x / 2 ^ k) = Z.shiftl (Z.shiftr x k) k).
  { rewrite Z.shiftl_mul_pow2, Z.shiftr_div_pow2 by lia. lia. }
  rewrite E, Z.add_nocarry_lxor.
  - apply Z.bits_inj'. intros i Hi. rewrite Z.lor_spec, Z.lxor_spec. destruct (decide (i < k)).
    + rewrite Z.ones_spec_low, Z.shiftl_spec_low by lia. apply orb_true_r.
    + rewrite Z.ones_spec_high, Z.shiftl_spec, Z.shiftr_spec, xorb_false_r, orb_false_r by lia. f_equal. lia.
  - apply Z.bits_inj'. intros i Hi. rewrite Z.land_spec, Z.bits_0. destruct (decide (i < k)).
    + by rewrite Z.shiftl_spec_low by lia.
    + by rewrite Z.ones_spec_high, andb_false_r by lia.
Qed.

(** [ALIGN] of a number that has been lowered by the mask clears the low bits. *)
Lemma align_lowered y : 0 <= y < 2 ^ 32 -> ALIGN (u32 (y - (2 ^ k - 1))) (2 ^ k) = 2 ^ k * (y / 2 ^ k).
Proof using Hk.
  intros Hy. unfold ALIGN, __ALIGN_MASK. rewrite mask_ones.
  assert (Ey : u32 (u32 (y - (2 ^ k - 1)) + Z.ones k) = y).
  { rewrite Z.ones_equiv. unfold u32. rewrite Zplus_mod_idemp_l. rewrite Z.mod_small; lia. }
  rewrite Ey. by apply clear_low.
Qed.

Lemma round_up_multiple x :
  0 <= x -> x + (2 ^ k - 1) < 2 ^ 32 -> round_up x (2 ^ k) = 2 ^ k * ((x + (2 ^ k - 1)) / 2 ^ k).
Proof using Hk.
  intros Hx Hfit. pose proof pow_range. unfold round_up, __round_mask. rewrite mask_ones.
  destruct (decide (x = 0)) as [->|].
  - change (u32 (0 - 1)) with (Z.ones 32). assert (E : Z.lor (Z.ones 32) (Z.ones k) = Z.ones 32).
    { apply Z.bits_inj'. intros i Hi. rewrite Z.lor_spec. destruct (decide (i < 32)).
      - by rewrite Z.ones_spec_low by lia.
      - by rewrite !Z.ones_spec_high by lia. }
    rewrite E. rewrite Z.div_small by lia. rewrite Z.mul_0_r. done.
  - rewrite (u32_small (x - 1)), set_low by lia.
    assert (E : (x + (2 ^ k - 1)) / 2 ^ k = (x - 1) / 2 ^ k + 1).
    { replace (x + (2 ^ k - 1)) with (x - 1 + 1 * 2 ^ k) by lia. by rewrite Z.div_add by lia. }
    pose proof (multiple_le (x + (2 ^ k - 1)) ltac:(lia)) as Hup. rewrite E in Hup |- *. rewrite u32_small; lia.
Qed.
End Alignment.

(** The ways to round to a multiple of a power of two agree.  Rounded up, the result is
    the least multiple that is not less, if it fits into 32 bits; rounded down, the
    greatest that is not greater, also where the intermediate difference wraps. *)
Theorem rounding_agrees x k :
  0 <= k < 32 -> 0 <= x -> x + (2 ^ k - 1) < 2 ^ 32 ->
  let up := 2 ^ k * ((x + (2 ^ k - 1)) / 2 ^ k) in
  let down := 2 ^ k * (x / 2 ^ k) in
  ALIGN x (2 ^ k) = up /\ roundup x (2 ^ k) = up /\ round_up x (2 ^ k) = up /\
  ALIGN_DOWN x (2 ^ k) = down /\ rounddown x (2 ^ k) = down /\ round_down x (2 ^ k) = down /\
  x <= up < x + 2 ^ k /\ x - 2 ^ k < down <= x /\
  (IS_ALIGNED x (2 ^ k) = true <-> up = x /\ down = x).
Proof.
  intros Hk Hx Hfit up down. pose proof (pow_range k Hk) as Hp. pose proof (mask_ones k Hk) as Hmask.
  set (a := 2 ^ k) in *.
  assert (Hup := multiple_le k Hk (x + (a - 1)) ltac:(lia)). fold a up in Hup.
  assert (Hdn := multiple_le k Hk x ltac:(lia)). fold a down in Hdn.
  pose proof (Z.div_mod (x + (a - 1)) a ltac:(lia)) as Eu. pose proof (Z.mod_pos_bound (x + (a - 1)) a ltac:(lia)).
  pose proof (Z.div_mod x a ltac:(lia)) as Ed. pose proof (Z.mod_pos_bound x a ltac:(lia)). fold up in Eu. fold down in Ed.
  assert (Eal := align_lowered k Hk). fold a in Eal.
  split_and!; try lia.
  - transitivity (ALIGN (u32 (x + (a - 1) - (a - 1))) a); [|apply Eal; lia].
    replace (x + (a - 1) - (a - 1)) with x by lia. by rewrite u32_small by lia.
  - unfold roundup. rewrite (u32_small (a - 1)), (u32_small (x + (a - 1))), u32_small by lia. lia.
  - by apply round_up_multiple.
  - unfold ALIGN_DOWN. rewrite (u32_small (a - 1)) by lia. apply Eal. lia.
  - unfold rounddown. rewrite u32_small; lia.
  - unfold round_down, __round_mask. rewrite Hmask. apply clear_low; [done|lia].
  - unfold IS_ALIGNED. rewrite Hmask, Z.land_ones by lia. fold a. rewrite Z.eqb_eq.
    split; [intros E|lia]. split; [|lia]. assert (Eq : (x + (a - 1)) / a = x / a).
    { symmetry. apply (Z.div_unique _ _ _ (a - 1)); lia. }
    unfold up. rewrite Eq. fold down. lia.
Qed.

Lemma rounding_agrees_witness :
  ALIGN 1001 (2 ^ 3) = 1008 /\ roundup 1001 (2 ^ 3) = 1008 /\ round_up 1001 (2 ^ 3) = 1008 /\
  ALIGN_DOWN 1001 (2 ^ 3) = 1000 /\ rounddown 1001 (2 ^ 3) = 1000 /\ round_down 1001 (2 ^ 3) = 1000 /\
  1001 <= 1008 < 1001 + 2 ^ 3 /\ 1001 - 2 ^ 3 < 1000 <= 1001 /\
  (IS_ALIGNED 1001 (2 ^ 3) = true <-> 1008 = 1001 /\ 1000 = 1001).
Proof. apply (rounding_agrees 1001 3); lia. Defined.

(** ** Divisions *)

(** Division rounded up, on 32 and on 64 bits. *)
Lemma div_round_up_spec n d :
  0 <= n -> 0 < d -> n + d <= 2 ^ 32 - 1 -> DIV_ROUND_UP n d = - (- n / d).
Proof.
  intros Hn Hd Hf. unfold DIV_ROUND_UP. rewrite (u32_small (n + d)), u32_small by lia.
  pose proof (Z.div_mod (- n) d). pose proof (Z.mod_pos_bound (- n) d).
  symmetry. apply (Z.div_unique _ _ _ (d - 1 - (- n) mod d)); lia.
Qed.

Lemma div_round_up_ull_spec n d :
  0 <= n -> 0 < d < 2 ^ 32 -> n + d <= 2 ^ 64 - 1 -> DIV_ROUND_UP_ULL n d = Some (- (- n / d)).
Proof.
  intros Hn Hd Hf. unfold DIV_ROUND_UP_ULL, DIV_ROUND_DOWN_ULL.
  rewrite (u64_small (n + d)), u64_small, do_div_run by lia. cbn [mbind option_bind]. f_equal.
  pose proof (Z.div_mod (- n) d). pose proof (Z.mod_pos_bound (- n) d).
  symmetry. apply (Z.div_unique _ _ _ (d - 1 - (- n) mod d)); lia.
Qed.

(** Division to the closest integer, of positive and negative dividends. *)
Theorem div_round_closest_nearest x d :
  0 < d -> - 2 ^ 31 <= x - d -> x + d < 2 ^ 31 ->
  2 * Z.abs (d * DIV_ROUND_CLOSEST_s x d - x) <= d.
Proof.
  intros Hd Hlo Hhi. unfold DIV_ROUND_CLOSEST_s. rewrite (Z.quot_div_nonneg d 2) by lia.
  pose proof (Z.div_mod d 2). pose proof (Z.mod_pos_bound d 2). case_decide.
  - rewrite s32_small by lia. rewrite Z.quot_div_nonneg by lia.
    pose proof (Z.div_mod (x + d / 2) d). pose proof (Z.mod_pos_bound (x + d / 2) d). lia.
  - rewrite s32_small by lia. replace (x - d / 2) with (- (d / 2 - x)) by lia.
    rewrite Z.quot_opp_l, Z.quot_div_nonneg by lia.
    pose proof (Z.div_mod (d / 2 - x) d). pose proof (Z.mod_pos_bound (d / 2 - x) d). lia.
Qed.

(** The product with a fraction is exact where the product itself would overflow: only the
    result and the remainder times the numerator have to fit. *)
Theorem mult_frac_exact x numer denom :
  0 <= x -> 0 <= numer -> 0 < denom -> (x mod denom) * numer < 2 ^ 32 -> x * numer / denom < 2 ^ 32 ->
  mult_frac x numer denom = x * numer / denom.
Proof.
  intros Hx Hn Hd Hrem Hres. unfold mult_frac. pose proof (Z.mod_pos_bound x denom Hd) as Hm.
  assert (E : x * numer / denom = x / denom * numer + x mod denom * numer / denom).
  { rewrite (Z.div_mod x denom) at 1 by lia.
    replace ((denom * (x / denom) + x mod denom) * numer) with (x / denom * numer * denom + x mod denom * numer) by lia.
    by rewrite Z.div_add_l by lia. }
  pose proof (Z.div_pos x denom Hx Hd). pose proof (Z.div_pos (x mod denom * numer) denom ltac:(nia) Hd).
  assert (0 <= x / denom * numer) by nia.
  rewrite (u32_small (x mod denom * numer)) by nia. rewrite (u32_small (x / denom * numer)) by lia.
  rewrite <- E. apply u32_small. lia.
Qed.

(** The two halves of a 64-bit number. *)
Lemma word_halves n : 0 <= n < 2 ^ 64 -> n = 2 ^ 32 * upper_32_bits n + lower_32_bits n.
Proof.
  intros Hn. unfold upper_32_bits, lower_32_bits. rewrite Z.shiftr_shiftr, Z.shiftr_div_pow2 by lia.
  change (2 ^ (16 + 16)) with (2 ^ 32). pose proof (Z.div_mod n (2 ^ 32)). pose proof (Z.mod_pos_bound n (2 ^ 32)).
  rewrite (u32_small (n / 2 ^ 32)); [unfold u32; lia|]. split; [apply Z.div_pos; lia|apply Z.div_lt_upper_bound; lia].
Qed.

(** A clamped value is in the range and is the value if that is. *)
Lemma clamp_spec v lo hi : lo <= hi -> lo <= clamp v lo hi <= hi /\ (lo <= v <= hi -> clamp v lo hi = v).
Proof. intros H. unfold clamp, min, max. repeat case_decide; lia. Qed.

Lemma clamp_t_spec type v lo hi :
  (forall x, type (type x) = type x) -> type lo <= type hi ->
  type lo <= clamp_t type v lo hi <= type hi /\ (type lo <= type v <= type hi -> clamp_t type v lo hi = type v).
Proof.
  intros Ht H. unfold clamp_t, min_t, max_t, min, max. repeat case_decide; rewrite ?Ht in *; lia.
Qed.
