(* ===== verification/Str.v ===== *)
(** * Strings (src/lib/string.c)

    The functions on NUL-terminated strings, on the byte memory of Mem.v.  A
    pointer is an address and 0 is NULL; [None] is an access to an address that is
    not mapped.  A loop reads a new mapped address in each round, so it ends
    within [str_fuel] rounds, one more than there are bytes: the theorems show
    that the functions return.  [char] is signed on the x86 port. *)

From stdpp Require Import base gmap list.
From Stdlib Require Import ZArith Lia.
From S2P Require Import Prelude Ctype Mem.
#[local] Open Scope Z_scope.

Definition str_fuel (m : mem) : nat := S (size m).

(** A byte as a [signed char]. *)
Definition s8 (x : Z) : Z := (x + 2 ^ 7) mod 2 ^ 8 - 2 ^ 7.

(** ** Lengths *)

Fixpoint strlen_loop (n : nat) (m : mem) (sc : Z) : option Z :=
  match n with
  | O => None
  | S n => b ← m !! sc; if decide (b = 0) then Some sc else strlen_loop n m (sc + 1)
  end.

Definition strlen (s : Z) (m : mem) : option Z :=
  sc ← strlen_loop (str_fuel m) m s; Some (sc - s).

Fixpoint strnlen_loop (n : nat) (m : mem) (sc count : Z) : option Z :=
  match n with
  | O => None
  | S n =>
    if decide (count = 0) then Some sc
    else b ← m !! sc; if decide (b = 0) then Some sc else strnlen_loop n m (sc + 1) (count - 1)
  end.

Definition strnlen (s count : Z) (m : mem) : option Z :=
  sc ← strnlen_loop (str_fuel m) m s count; Some (sc - s).

(** ** Copies: they return [dest] *)

(** [while (( *dest++ = *src++) != 0);]. *)
Fixpoint strcpy_loop (n : nat) (m : mem) (dest src : Z) : option mem :=
  match n with
  | O => None
  | S n =>
    b ← m !! src; m ← store_byte m dest b;
    if decide (b = 0) then Some m else strcpy_loop n m (dest + 1) (src + 1)
  end.

Definition strcpy (dest src : Z) (m : mem) : option mem := strcpy_loop (str_fuel m) m dest src.

Fixpoint strncpy_loop (n : nat) (m : mem) (dest src count : Z) : option mem :=
  match n with
  | O => None
  | S n =>
    if decide (count = 0) then Some m
    else
      b ← m !! src; m ← store_byte m dest b;
      if decide (b = 0) then Some m else strncpy_loop n m (dest + 1) (src + 1) (count - 1)
  end.

Definition strncpy (dest src count : Z) (m : mem) : option mem :=
  strncpy_loop (str_fuel m) m dest src count.

(** The loop [while ( *dest) dest++;] is that of [strlen]. *)
Definition strcat (dest src : Z) (m : mem) : option mem :=
  dest ← strlen_loop (str_fuel m) m dest; strcpy_loop (str_fuel m) m dest src.

(** [while (( *dest++ = *src++)) if (--count == 0) { *dest = 0; break; }]. *)
Fixpoint strncat_loop (n : nat) (m : mem) (dest src count : Z) : option mem :=
  match n with
  | O => None
  | S n =>
    b ← m !! src; m ← store_byte m dest b;
    if decide (b = 0) then Some m
    else if decide (count - 1 = 0) then store_byte m (dest + 1) 0
    else strncat_loop n m (dest + 1) (src + 1) (count - 1)
  end.

Definition strncat (dest src count : Z) (m : mem) : option mem :=
  if decide (count = 0) then Some m
  else dest ← strlen_loop (str_fuel m) m dest; strncat_loop (str_fuel m) m dest src count.

(** ** Comparisons: the difference is kept in a [signed char] *)

Fixpoint strcmp_loop (n : nat) (m : mem) (cs ct : Z) : option Z :=
  match n with
  | O => None
  | S n =>
    b1 ← m !! cs; b2 ← m !! ct;
    let __res := s8 (s8 b1 - s8 b2) in
    if decide (__res <> 0 \/ b1 = 0) then Some __res else strcmp_loop n m (cs + 1) (ct + 1)
  end.

Definition strcmp (cs ct : Z) (m : mem) : option Z := strcmp_loop (str_fuel m) m cs ct.

Fixpoint strncmp_loop (n : nat) (m : mem) (cs ct count __res : Z) : option Z :=
  match n with
  | O => None
  | S n =>
    if decide (count = 0) then Some __res
    else
      b1 ← m !! cs; b2 ← m !! ct;
      let __res := s8 (s8 b1 - s8 b2) in
      if decide (__res <> 0 \/ b1 = 0) then Some __res
      else strncmp_loop n m (cs + 1) (ct + 1) (count - 1) __res
  end.

Definition strncmp (cs ct count : Z) (m : mem) : option Z :=
  strncmp_loop (str_fuel m) m cs ct count 0.

(** ** Searches *)

Fixpoint strchr_loop (n : nat) (m : mem) (s c : Z) : option Z :=
  match n with
  | O => None
  | S n =>
    b ← m !! s;
    if decide (b = c mod 2 ^ 8) then Some s
    else if decide (b = 0) then Some 0 else strchr_loop n m (s + 1) c
  end.

Definition strchr (s c : Z) (m : mem) : option Z := strchr_loop (str_fuel m) m s c.

Fixpoint strrchr_loop (n : nat) (m : mem) (p s c : Z) : option Z :=
  match n with
  | O => None
  | S n =>
    b ← m !! p;
    if decide (b = c mod 2 ^ 8) then Some p
    else if decide (p - 1 >= s) then strrchr_loop n m (p - 1) s c else Some 0
  end.

Definition strrchr (s c : Z) (m : mem) : option Z :=
  len ← strlen s m; strrchr_loop (str_fuel m) m (s + len) s c.

Fixpoint skip_spaces_loop (n : nat) (m : mem) (str : Z) : option Z :=
  match n with
  | O => None
  | S n => b ← m !! str; if isspace b then skip_spaces_loop n m (str + 1) else Some str
  end.

Definition skip_spaces (str : Z) (m : mem) : option Z := skip_spaces_loop (str_fuel m) m str.

(** [while (end >= s && isspace( *end)) end--;]. *)
Fixpoint trim_loop (n : nat) (m : mem) (e s : Z) : option Z :=
  match n with
  | O => None
  | S n =>
    if decide (e >= s) then b ← m !! e; if isspace b then trim_loop n m (e - 1) s else Some e
    else Some e
  end.

Definition strim (s : Z) (m : mem) : option (Z * mem) :=
  s ← skip_spaces s m;
  len ← strlen s m;
  if decide (len = 0) then Some (s, m)
  else
    e ← trim_loop (str_fuel m) m (s + len - 1) s;
    m ← store_byte m (e + 1) 0;
    Some (s, m).

(** The inner loop of [strspn] and [strpbrk]: is [c] in the string at [a]? *)
Fixpoint in_set (n : nat) (m : mem) (a c : Z) : option bool :=
  match n with
  | O => None
  | S n =>
    b ← m !! a;
    if decide (b = 0) then Some false
    else if decide (c = b) then Some true else in_set n m (a + 1) c
  end.

Fixpoint strspn_loop (n : nat) (m : mem) (p accept count : Z) : option Z :=
  match n with
  | O => None
  | S n =>
    b ← m !! p;
    if decide (b = 0) then Some count
    else
      found ← in_set (str_fuel m) m accept b;
      if (found : bool) then strspn_loop n m (p + 1) accept (count + 1) else Some count
  end.

Definition strspn (s accept : Z) (m : mem) : option Z := strspn_loop (str_fuel m) m s accept 0.

Fixpoint strpbrk_loop (n : nat) (m : mem) (sc1 ct : Z) : option Z :=
  match n with
  | O => None
  | S n =>
    b ← m !! sc1;
    if decide (b = 0) then Some 0
    else
      found ← in_set (str_fuel m) m ct b;
      if (found : bool) then Some sc1 else strpbrk_loop n m (sc1 + 1) ct
  end.

Definition strpbrk (cs ct : Z) (m : mem) : option Z := strpbrk_loop (str_fuel m) m cs ct.

(** The call returns the token, the new [___strtok] and the memory. *)
Definition strtok (s ct ___strtok : Z) (m : mem) : option (Z * Z * mem) :=
  let sbegin := if decide (s = 0) then ___strtok else s in
  if decide (sbegin = 0) then Some (0, ___strtok, m)
  else
    skip ← strspn sbegin ct m;
    let sbegin := sbegin + skip in
    b ← m !! sbegin;
    if decide (b = 0) then Some (0, 0, m)
    else
      send ← strpbrk sbegin ct m;
      if decide (send = 0) then Some (sbegin, send, m)
      else
        e ← m !! send;
        if decide (e = 0) then Some (sbegin, send, m)
        else m ← store_byte m send 0; Some (sbegin, send + 1, m).

(** [s] is the pointer [*s] and the second result its new value. *)
Definition strsep (s ct : Z) (m : mem) : option (Z * Z * mem) :=
  if decide (s = 0) then Some (0, s, m)
  else
    e ← strpbrk s ct m;
    if decide (e = 0) then Some (s, 0, m)
    else m ← store_byte m e 0; Some (s, e + 1, m).

Fixpoint strswab_loop (n : nat) (m : mem) (p : Z) : option mem :=
  match n with
  | O => None
  | S n =>
    x ← m !! p;
    if decide (x = 0) then Some m
    else
      y ← m !! (p + 1);
      if decide (y = 0) then Some m
      else
        m ← store_byte m p y; m ← store_byte m (p + 1) x;
        strswab_loop n m (p + 2)
  end.

Definition strswab (s : Z) (m : mem) : option (Z * mem) :=
  if decide (s = 0) then Some (0, m)
  else
    b ← m !! s;
    if decide (b = 0) then Some (0, m)
    else m ← strswab_loop (str_fuel m) m s; Some (s, m).

(** [while (l1 >= l2) { l1--; ... s1++; }]: [k] rounds are left, [l1 - l2 + 1]. *)
Fixpoint strstr_loop (k : nat) (m : mem) (s1 s2 l2 : Z) : option Z :=
  match k with
  | O => Some 0
  | S k =>
    r ← memcmp (Z.to_nat l2) m s1 s2;
    if decide (r = 0) then Some s1 else strstr_loop k m (s1 + 1) s2 l2
  end.

Definition strstr (s1 s2 : Z) (m : mem) : option Z :=
  l2 ← strlen s2 m;
  if decide (l2 = 0) then Some s1
  else l1 ← strlen s1 m; strstr_loop (Z.to_nat (l1 - l2 + 1)) m s1 s2 l2.

(** ** C strings *)

(** The string [l] is at the address [a], with the NUL behind it. *)
Definition cstr (m : mem) (a : Z) (l : list Z) : Prop :=
  block m a (l ++ [0]) /\ Forall (fun b => 0 < b < 2 ^ 8) l.

Lemma cstr_nil m a : cstr m a [] <-> m !! a = Some 0.
Proof.
  split; [by intros [[H _]%block_cons _]|]. intros H. split; [|done].
  apply block_cons. split; [done|apply block_nil].
Qed.

Lemma cstr_cons m a b l : cstr m a (b :: l) <-> m !! a = Some b /\ 0 < b < 2 ^ 8 /\ cstr m (a + 1) l.
Proof.
  unfold cstr. cbn [app]. rewrite block_cons, Forall_cons. tauto.
Qed.

Lemma block_size m a l : block m a l -> (length l <= size m)%nat.
Proof.
  revert m a. induction l as [|b l IH]; intros m a H; [simpl; lia|].
  apply block_cons in H as [Ha Hl]. simpl.
  assert (Hd : block (delete a m) (a + 1) l).
  { intros j x Hj. rewrite lookup_delete_ne by lia. auto. }
  apply IH in Hd. rewrite map_size_delete, Ha in Hd.
  assert (size m <> 0%nat) by (apply (map_size_ne_0_lookup_2 m a); by rewrite Ha). lia.
Qed.

Lemma cstr_fuel m a l : cstr m a l -> (length l < str_fuel m)%nat.
Proof.
  intros [H _]. apply block_size in H. rewrite length_app in H. simpl in H. unfold str_fuel. lia.
Qed.

(** A store outside the string keeps it. *)
Lemma cstr_insert m a l x b :
  (x < a \/ a + Z.of_nat (length l) < x) -> cstr m a l -> cstr (<[x := b]> m) a l.
Proof.
  intros Hx [H Hl]. split; [|done]. apply block_insert; [|done].
  rewrite length_app. simpl. lia.
Qed.

Lemma cstr_app m a l1 l2 :
  cstr m a (l1 ++ l2) -> cstr m (a + Z.of_nat (length l1)) l2 /\ Forall (fun b => 0 < b < 2 ^ 8) l1.
Proof.
  revert a. induction l1 as [|b l1 IH]; intros a H; simpl; [by rewrite Z.add_0_r|].
  apply cstr_cons in H as (_ & Hb & H). apply IH in H as [H HF].
  split; [|by constructor]. by replace (a + Z.of_nat (S (length l1))) with (a + 1 + Z.of_nat (length l1)) by lia.
Qed.

(** Cutting the string at a place leaves its first part. *)
Lemma cstr_cut m a l1 b l2 :
  cstr m a (l1 ++ b :: l2) -> cstr (<[a + Z.of_nat (length l1) := 0]> m) a l1.
Proof.
  revert a. induction l1 as [|c l1 IH]; intros a H; simpl in *.
  - apply cstr_nil. rewrite Z.add_0_r. apply lookup_insert_eq.
  - apply cstr_cons in H as (Ha & Hc & H). apply IH in H. apply cstr_cons.
    rewrite lookup_insert_ne by lia. split; [done|]. split; [done|].
    by replace (a + Z.of_nat (S (length l1))) with (a + 1 + Z.of_nat (length l1)) by lia.
Qed.

(** ** Lengths and copies *)

Lemma strlen_loop_run n m s l :
  cstr m s l -> (length l < n)%nat -> strlen_loop n m s = Some (s + Z.of_nat (length l)).
Proof.
  revert n s. induction l as [|b l IH]; intros [|n] s H Hn; simpl in *; try lia.
  - apply cstr_nil in H. rewrite H. simpl. by rewrite Z.add_0_r.
  - apply cstr_cons in H as (Hb & ? & H). rewrite Hb. simpl. rewrite decide_False by lia.
    rewrite IH by (done || lia). f_equal. lia.
Qed.

Lemma strlen_run m s l : cstr m s l -> strlen s m = Some (Z.of_nat (length l)).
Proof.
  intros H. unfold strlen. rewrite (strlen_loop_run _ _ _ l) by eauto using cstr_fuel.
  simpl. f_equal. lia.
Qed.

Lemma strnlen_run m s l count :
  cstr m s l -> 0 <= count -> strnlen s count m = Some (Z.min count (Z.of_nat (length l))).
Proof.
  intros H Hc. unfold strnlen.
  assert (HL : forall n, (length l < n)%nat ->
    strnlen_loop n m s count = Some (s + Z.min count (Z.of_nat (length l)))); cycle 1.
  { rewrite HL by eauto using cstr_fuel. simpl. f_equal. lia. }
  revert s count H Hc. induction l as [|b l IH]; intros s count H Hc [|n] Hn; simpl in *; try lia.
  - case_decide; [f_equal; lia|]. apply cstr_nil in H. rewrite H. simpl. f_equal; lia.
  - case_decide; [f_equal; lia|]. apply cstr_cons in H as (Hb & ? & H). rewrite Hb. simpl.
    rewrite decide_False by lia. rewrite IH by (done || lia). f_equal. lia.
Qed.

(** The copy of a string to a place that does not run into it. *)
Lemma strcpy_loop_run n m d s l :
  cstr m s l -> mapped m d (S (length l)) -> (d <= s \/ s + Z.of_nat (length l) < d) ->
  (length l < n)%nat -> strcpy_loop n m d s = Some (store_list m d (l ++ [0])).
Proof.
  revert n m d s. induction l as [|b l IH]; intros [|n] m d s H Hm Ho Hn; simpl in *; try lia.
  - apply cstr_nil in H. apply mapped_S in Hm as [Hd _]. rewrite H. simpl.
    by rewrite store_byte_mapped.
  - apply cstr_cons in H as (Hb & ? & H). apply mapped_S in Hm as [Hd Hm]. rewrite Hb. simpl.
    rewrite store_byte_mapped by done. simpl. rewrite decide_False by lia.
    apply IH; [|by apply mapped_insert|lia..]. apply cstr_insert; [lia|done].
Qed.

Lemma store_cstr m a l : Forall (fun b => 0 < b < 2 ^ 8) l -> cstr (store_list m a (l ++ [0])) a l.
Proof. intros H. split; [apply store_list_block|done]. Qed.

(** [strcpy] leaves the source's string at [dest] and changes nothing else. *)
Lemma strcpy_copies m d s l :
  cstr m s l -> mapped m d (S (length l)) -> (d <= s \/ s + Z.of_nat (length l) < d) ->
  exists m', strcpy d s m = Some m' /\ cstr m' d l /\
    (forall x, x < d \/ d + Z.of_nat (length l) < x -> m' !! x = m !! x).
Proof.
  intros H Hm Ho. eexists. split; [by apply strcpy_loop_run; eauto using cstr_fuel|].
  split; [apply store_cstr, H|]. intros x Hx. apply store_list_out. rewrite length_app. simpl. lia.
Qed.

(** [strcat] leaves the two strings one behind the other. *)
Lemma strcat_appends m d s l1 l2 :
  cstr m d l1 -> cstr m s l2 -> mapped m d (length l1 + S (length l2)) ->
  (d + Z.of_nat (length l1) + Z.of_nat (length l2) < s \/ s + Z.of_nat (length l2) < d) ->
  exists m', strcat d s m = Some m' /\ cstr m' d (l1 ++ l2) /\
    (forall x, x < d \/ d + Z.of_nat (length l1 + length l2) < x -> m' !! x = m !! x).
Proof.
  intros H1 H2 Hm Ho. unfold strcat.
  rewrite (strlen_loop_run _ _ _ l1) by eauto using cstr_fuel. cbn [mbind option_bind].
  rewrite (strcpy_loop_run _ _ _ _ l2); [|done| |lia|by eapply cstr_fuel].
  2:{ intros j Hj. specialize (Hm (length l1 + j)%nat ltac:(lia)).
      by replace (d + Z.of_nat (length l1) + Z.of_nat j) with (d + Z.of_nat (length l1 + j)) by lia. }
  eexists. split; [done|]. destruct H1 as [H1 HF1]. destruct H2 as [_ HF2]. split.
  - split; [|by apply Forall_app]. rewrite <-app_assoc. apply block_app. split; [|apply store_list_block].
    apply store_list_keeps; [lia|]. by apply block_app in H1 as [? _].
  - intros x Hx. apply store_list_out. rewrite length_app. simpl. lia.
Qed.

(** ** Comparisons *)

Fixpoint str_compare (l1 l2 : list Z) : comparison :=
  match l1, l2 with
  | [], [] => Eq
  | [], _ :: _ => Lt
  | _ :: _, [] => Gt
  | x :: l1, y :: l2 => match x ?= y with Eq => str_compare l1 l2 | c => c end
  end.

Definition ascii (l : list Z) : Prop := Forall (fun b => b < 2 ^ 7) l.

Lemma s8_eq x k : - 2 ^ 7 <= k < 2 ^ 7 -> (exists q, x = k + 2 ^ 8 * q) -> s8 x = k.
Proof.
  intros Hk [q ->]. unfold s8.
  replace (k + 2 ^ 8 * q + 2 ^ 7) with (k + 2 ^ 7 + q * 2 ^ 8) by lia.
  rewrite Z.mod_add, Z.mod_small by lia. lia.
Qed.

Lemma s8_ascii x : 0 <= x < 2 ^ 7 -> s8 x = x.
Proof. intros. apply s8_eq; [lia|exists 0; lia]. Qed.

(** The difference of two bytes is never lost altogether. *)
Lemma s8_diff_zero x y : 0 <= x < 2 ^ 8 -> 0 <= y < 2 ^ 8 -> s8 (s8 x - s8 y) = 0 <-> x = y.
Proof.
  intros Hx Hy. unfold s8. split; [|intros ->; rewrite Z.sub_diag; by vm_compute].
  intros H.
  pose proof (Z.div_mod (x + 2 ^ 7) (2 ^ 8)). pose proof (Z.mod_pos_bound (x + 2 ^ 7) (2 ^ 8)).
  pose proof (Z.div_mod (y + 2 ^ 7) (2 ^ 8)). pose proof (Z.mod_pos_bound (y + 2 ^ 7) (2 ^ 8)).
  set (a := (x + 2 ^ 7) mod 2 ^ 8) in *. set (b := (y + 2 ^ 7) mod 2 ^ 8) in *.
  pose proof (Z.div_mod (a - 2 ^ 7 - (b - 2 ^ 7) + 2 ^ 7) (2 ^ 8)). lia.
Qed.

Lemma s8_diff_ascii x y : 0 <= x < 2 ^ 7 -> 0 <= y < 2 ^ 7 -> s8 (s8 x - s8 y) = x - y.
Proof. intros. rewrite (s8_ascii x), (s8_ascii y) by done. apply s8_eq; [lia|exists 0; lia]. Qed.

Lemma strcmp_loop_run n m cs ct l1 l2 :
  cstr m cs l1 -> cstr m ct l2 -> (length l1 < n)%nat ->
  exists r, strcmp_loop n m cs ct = Some r /\ (r = 0 <-> l1 = l2) /\
    (ascii l1 -> ascii l2 -> (r ?= 0) = str_compare l1 l2).
Proof.
  revert n cs ct l2. induction l1 as [|x l1 IH]; intros [|n] cs ct [|y l2] H1 H2 Hn; simpl in *; try lia.
  - apply cstr_nil in H1, H2. rewrite H1, H2. cbn [mbind option_bind]. rewrite decide_True by (by right).
    by exists 0.
  - apply cstr_nil in H1. apply cstr_cons in H2 as (H2 & ? & _). rewrite H1, H2. cbn [mbind option_bind].
    rewrite decide_True by (by right). eexists. split; [done|].
    rewrite s8_diff_zero by lia. split; [split; [lia|done]|].
    intros _ [? _]%Forall_cons. rewrite s8_diff_ascii by lia. apply Z.compare_lt_iff. lia.
  - apply cstr_cons in H1 as (H1 & ? & _). apply cstr_nil in H2. rewrite H1, H2. cbn [mbind option_bind].
    rewrite decide_True by (left; rewrite s8_diff_zero; lia). eexists. split; [done|].
    rewrite s8_diff_zero by lia. split; [split; [lia|done]|].
    intros [? _]%Forall_cons _. rewrite s8_diff_ascii by lia. apply Z.compare_gt_iff. lia.
  - apply cstr_cons in H1 as (E1 & ? & H1). apply cstr_cons in H2 as (E2 & ? & H2).
    rewrite E1, E2. cbn [mbind option_bind]. destruct (decide (x = y)) as [->|Hxy].
    + rewrite decide_False by (rewrite s8_diff_zero; lia).
      destruct (IH n (cs + 1) (ct + 1) l2) as (r & -> & Hr & Hs); [done..|lia|].
      exists r. split; [done|]. split; [rewrite Hr; split; congruence|].
      intros [_ ?]%Forall_cons [_ ?]%Forall_cons. rewrite Z.compare_refl. auto.
    + rewrite decide_True by (left; rewrite s8_diff_zero; lia). eexists. split; [done|].
      rewrite s8_diff_zero by lia. split; [split; congruence|].
      intros [? _]%Forall_cons [? _]%Forall_cons. rewrite s8_diff_ascii by lia.
      destruct (Z.compare_spec x y); [lia|apply Z.compare_lt_iff; lia|apply Z.compare_gt_iff; lia].
Qed.

(** [strcmp] returns 0 exactly for equal strings, whatever their characters,
    and for ASCII strings the sign of the result is their lexicographic order. *)
Theorem strcmp_compares m cs ct l1 l2 :
  cstr m cs l1 -> cstr m ct l2 ->
  exists r, strcmp cs ct m = Some r /\ (r = 0 <-> l1 = l2) /\
    (ascii l1 -> ascii l2 -> (r ?= 0) = str_compare l1 l2).
Proof. intros H1 H2. apply strcmp_loop_run; eauto using cstr_fuel. Qed.

(** A memory with the strings of a list, each with its NUL, from an address on. *)
Definition str_mem (a : Z) (l : list (list Z)) : mem :=
  store_list ∅ a (concat ((fun s => s ++ [0]) <$> l)).

Lemma cstr_decide m a l :
  bool_decide (forall j : fin (S (length l)), m !! (a + Z.of_nat j) = (l ++ [0]) !! fin_to_nat j) = true ->
  Forall (fun b => 0 < b < 2 ^ 8) l -> cstr m a l.
Proof.
  intros H%bool_decide_eq_true HF. split; [|done]. intros j b Hj.
  assert (Hl : (j < S (length l))%nat) by (apply lookup_lt_Some in Hj; rewrite length_app in Hj; simpl in Hj; lia).
  specialize (H (nat_to_fin Hl)). rewrite fin_to_nat_to_fin in H. by rewrite H.
Qed.

(** Strings of a concrete memory. *)
Ltac is_cstr := apply cstr_decide; [vm_compute; reflexivity|repeat constructor; lia].

Lemma strcmp_compares_witness :
  let m := str_mem 16 [[97; 98]; [97; 99; 100]] in
  cstr m 16 [97; 98] /\ cstr m 19 [97; 99; 100] /\
  exists r, strcmp 16 19 m = Some r /\ (r = 0 <-> [97; 98] = [97; 99; 100]) /\
    (ascii [97; 98] -> ascii [97; 99; 100] -> (r ?= 0) = Lt).
Proof.
  intros m. assert (H1 : cstr m 16 [97; 98]) by is_cstr.
  assert (H2 : cstr m 19 [97; 99; 100]) by is_cstr.
  split; [done|]. split; [done|]. exact (strcmp_compares m 16 19 _ _ H1 H2).
Defined.

(** Outside ASCII the sign follows neither the order of the characters as
    unsigned bytes (200 and 60) nor that as signed ones (127 and 129): the
    difference is cut to a [signed char]. *)
Lemma strcmp_sign_wrong :
  strcmp 16 18 (str_mem 16 [[200]; [60]]) = Some (-116) /\
  strcmp 16 18 (str_mem 16 [[127]; [129]]) = Some (-2) /\ s8 127 > s8 129.
Proof. by vm_compute. Qed.

(** ** Searching a substring *)

Lemma memcmp_run m a b l1 l2 :
  block m a l1 -> block m b l2 -> length l1 = length l2 ->
  exists r, memcmp (length l2) m a b = Some r /\ (r = 0 <-> l1 = l2).
Proof.
  revert a b l2. induction l1 as [|x l1 IH]; intros a b [|y l2] H1 H2 Hl; try done; [by exists 0|].
  apply block_cons in H1 as [E1 H1]. apply block_cons in H2 as [E2 H2].
  simpl. rewrite E1, E2. cbn [mbind option_bind]. case_decide as Hd.
  - eexists. split; [done|]. split; [lia|]. intros [= ->]. lia.
  - destruct (IH (a + 1) (b + 1) l2) as (r & -> & Hr); [done..|by simplify_eq/=|].
    exists r. split; [done|]. replace y with x by lia. rewrite Hr. by split; [intros ->|intros [= ->]].
Qed.

(** The place of the first occurrence of [l2] in [l1]. *)
Definition first_occurrence (l1 l2 : list Z) (i : nat) : Prop :=
  l2 `prefix_of` drop i l1 /\ (forall j, (j < i)%nat -> ~ l2 `prefix_of` drop j l1).

Lemma prefix_take (l1 l2 : list Z) :
  (length l2 <= length l1)%nat -> l2 `prefix_of` l1 <-> take (length l2) l1 = l2.
Proof.
  intros Hl. split.
  - intros [k ->]. by rewrite take_app_length.
  - intros H. exists (drop (length l2) l1). rewrite <-H at 1. by rewrite take_drop.
Qed.

Lemma strstr_loop_run k m s1 s2 l1 l2 :
  cstr m s1 l1 -> block m s2 l2 -> k = (S (length l1) - length l2)%nat -> l2 <> [] ->
  (exists i, strstr_loop k m s1 s2 (Z.of_nat (length l2)) = Some (s1 + Z.of_nat i) /\
    first_occurrence l1 l2 i) \/
  (strstr_loop k m s1 s2 (Z.of_nat (length l2)) = Some 0 /\ forall j, ~ l2 `prefix_of` drop j l1).
Proof.
  intros H1 H2 Hk Hne. revert s1 l1 H1 Hk. induction k as [|k IH]; intros s1 l1 H1 Hk.
  - right. split; [done|]. intros j [t Ht]. apply (f_equal length) in Ht.
    rewrite length_app, length_drop in Ht. destruct l2; simpl in *; [done|lia].
  - cbn [strstr_loop]. rewrite Nat2Z.id.
    destruct (memcmp_run m s1 s2 (take (length l2) l1) l2) as (r & -> & Hr);
      [|done|rewrite length_take; lia|].
    { destruct H1 as [H1 _]. rewrite <-(take_drop (length l2) l1), <-app_assoc in H1.
      by apply block_app in H1 as [? _]. }
    rewrite <-prefix_take in Hr by lia. cbn [mbind option_bind]. case_decide as Hd.
    + left. exists 0%nat. rewrite Z.add_0_r. split; [done|]. split; [tauto|lia].
    + destruct l1 as [|b l1]; [destruct l2; simpl in *; [done|lia]|].
      apply cstr_cons in H1 as (_ & _ & H1).
      destruct (IH (s1 + 1) l1) as [(i & E & Hi & Hf)|(E & Hf)]; [done|simpl in *; lia|left|right].
      * exists (S i). rewrite E. split; [f_equal; lia|]. split; [done|]. intros [|j] Hj; [tauto|].
        apply Hf. lia.
      * split; [done|]. intros [|j]; [tauto|apply Hf].
Qed.

(** [strstr] returns the address of the first occurrence of the second string
    in the first one, or NULL when there is none; the empty string occurs at the
    start. *)
Theorem strstr_finds_first m s1 s2 l1 l2 :
  cstr m s1 l1 -> cstr m s2 l2 ->
  (exists i, strstr s1 s2 m = Some (s1 + Z.of_nat i) /\ first_occurrence l1 l2 i) \/
  (strstr s1 s2 m = Some 0 /\ forall j, ~ l2 `prefix_of` drop j l1).
Proof.
  intros H1 H2. unfold strstr. rewrite (strlen_run m s2 l2) by done.
  cbn [mbind option_bind]. destruct (decide (l2 = [])) as [->|Hne].
  { left. exists 0%nat. rewrite Z.add_0_r. split; [done|]. split; [apply prefix_nil|lia]. }
  rewrite decide_False by (destruct l2; simpl; [done|lia]).
  rewrite (strlen_run m s1 l1) by done. cbn [mbind option_bind].
  apply strstr_loop_run; [done| |lia|done]. destruct H2 as [H2 _]. by apply block_app in H2 as [? _].
Qed.

Lemma strstr_finds_first_witness :
  let m := str_mem 16 [[97; 97; 98; 97; 98]; [97; 98]] in
  cstr m 16 [97; 97; 98; 97; 98] /\ cstr m 22 [97; 98] /\
  ((exists i, strstr 16 22 m = Some (16 + Z.of_nat i) /\
      first_occurrence [97; 97; 98; 97; 98] [97; 98] i) \/
   (strstr 16 22 m = Some 0 /\ forall j, ~ [97; 98] `prefix_of` drop j [97; 97; 98; 97; 98])) /\
  strstr 16 22 m = Some 17.
Proof.
  intros m. assert (H1 : cstr m 16 [97; 97; 98; 97; 98]) by is_cstr.
  assert (H2 : cstr m 22 [97; 98]) by is_cstr.
  split; [done|]. split; [done|]. split; [|by vm_compute].
  exact (strstr_finds_first m 16 22 _ _ H1 H2).
Defined.

(** ** Tokens *)

Lemma in_set_run m a d c :
  cstr m a d -> in_set (str_fuel m) m a c = Some (bool_decide (c ∈ d)).
Proof.
  intros H. pose proof (cstr_fuel _ _ _ H) as Hn. revert Hn H. generalize (str_fuel m).
  intros n. revert n a. induction d as [|b d IH]; intros [|n] a Hn H; cbn [in_set length] in *; try lia.
  - apply cstr_nil in H. rewrite H. done.
  - apply cstr_cons in H as (Hb & ? & H). rewrite Hb. cbn [mbind option_bind].
    rewrite decide_False by lia. destruct (decide (c = b)) as [Hc|Hc].
    + rewrite bool_decide_eq_true_2; [done|]. rewrite Hc. left.
    + rewrite IH by (done || lia). f_equal. apply bool_decide_ext. rewrite elem_of_cons. tauto.
Qed.

(** The number of characters of [l] up to the first one outside [P]. *)
Fixpoint span (P : Z -> bool) (l : list Z) : nat :=
  match l with
  | [] => 0
  | b :: l => if P b then S (span P l) else 0
  end.

Lemma span_spec P l :
  (span P l <= length l)%nat /\ Forall (fun b => P b = true) (take (span P l) l) /\
  (forall b l', drop (span P l) l = b :: l' -> P b = false).
Proof.
  induction l as [|b l (IH1 & IH2 & IH3)]; simpl; [split_and!; [lia|done|done]|].
  destruct (P b) eqn:E; simpl; (split; [lia|split]); [by constructor|done|done|by intros ? ? [= -> ->]].
Qed.

Section Tokens.
  Context (m : mem) (ct : Z) (d : list Z) (Hct : cstr m ct d).

Definition delim (b : Z) : bool := bool_decide (b ∈ d).

Lemma strspn_run s l : cstr m s l -> strspn s ct m = Some (Z.of_nat (span delim l)).
Proof using Hct.
  intros H. unfold strspn.
  assert (HL : forall n count, (length l < n)%nat ->
    strspn_loop n m s ct count = Some (count + Z.of_nat (span delim l))); cycle 1.
  { rewrite HL by eauto using cstr_fuel. f_equal. }
  revert s H. induction l as [|b l IH]; intros s H [|n] count Hn; cbn [strspn_loop span length] in *; try lia.
  - apply cstr_nil in H. rewrite H. cbn. f_equal. lia.
  - apply cstr_cons in H as (Hb & ? & H). rewrite Hb. cbn [mbind option_bind].
    rewrite decide_False by lia. rewrite (in_set_run _ _ d) by done. cbn [mbind option_bind].
    change (bool_decide (b ∈ d)) with (delim b). destruct (delim b); [|f_equal; lia].
    rewrite IH by (done || lia). f_equal. lia.
Qed.

(** The place of the first delimiter, or NULL. *)
Lemma strpbrk_run s l :
  cstr m s l ->
  strpbrk s ct m = Some (match drop (span (fun b => negb (delim b)) l) l with
                         | [] => 0
                         | _ => s + Z.of_nat (span (fun b => negb (delim b)) l)
                         end).
Proof using Hct.
  intros H. unfold strpbrk. pose proof (cstr_fuel _ _ _ H) as Hn. revert Hn H.
  generalize (str_fuel m). intros n. revert n s.
  induction l as [|b l IH]; intros [|n] s Hn H; cbn [strpbrk_loop span length] in *; try lia.
  - apply cstr_nil in H. by rewrite H.
  - apply cstr_cons in H as (Hb & ? & H). rewrite Hb. cbn [mbind option_bind].
    rewrite decide_False by lia. rewrite (in_set_run _ _ d) by done. cbn [mbind option_bind].
    change (bool_decide (b ∈ d)) with (delim b). destruct (delim b); cbn [negb drop]; [f_equal; lia|].
    rewrite IH by (done || lia). f_equal. destruct (drop _ l); [done|lia].
Qed.

End Tokens.

(** The tokens of a text: its non-empty pieces between delimiters; [cur] is the
    piece that has been read so far. *)
Fixpoint tokens_from (d cur l : list Z) : list (list Z) :=
  match l with
  | [] => if decide (cur = []) then [] else [cur]
  | b :: l =>
    if decide (b ∈ d) then (if decide (cur = []) then [] else [cur]) ++ tokens_from d [] l
    else tokens_from d (cur ++ [b]) l
  end.
Definition tokens (d l : list Z) : list (list Z) := tokens_from d [] l.

Lemma tokens_skip d l1 l2 : Forall (fun b => delim d b = true) l1 -> tokens d (l1 ++ l2) = tokens d l2.
Proof.
  unfold tokens. induction 1 as [|b l1 Hb _ IH]; [done|]. cbn [app tokens_from].
  rewrite decide_True by (by apply bool_decide_eq_true in Hb). by rewrite decide_True.
Qed.

Lemma tokens_piece d cur l1 l2 :
  Forall (fun b => negb (delim d b) = true) l1 ->
  tokens_from d cur (l1 ++ l2) = tokens_from d (cur ++ l1) l2.
Proof.
  intros H. revert cur. induction H as [|b l1 Hb _ IH]; intros cur; cbn [app]; [by rewrite app_nil_r|].
  cbn [tokens_from]. rewrite decide_False.
  - by rewrite IH, <-app_assoc.
  - by apply negb_true_iff, bool_decide_eq_false in Hb.
Qed.

(** What one call leaves of the text: nothing, or a rest behind the token that
    holds the tokens still to come. *)
Definition rest_ok (d : list Z) (m : mem) (e r : Z) (len : Z) (ts : list (list Z)) : Prop :=
  (r = 0 /\ ts = []) \/
  (exists l', e < r /\ cstr m r l' /\ tokens d l' = ts /\ r + Z.of_nat (length l') = len).

(** One call of [strtok] on the text [l] at [p]. *)
Lemma strtok_run m p ct d l s st :
  cstr m p l -> cstr m ct d -> 0 < p -> (ct + Z.of_nat (length d) < p \/ p + Z.of_nat (length l) < ct) ->
  (if decide (s = 0) then st else s) = p ->
  (tokens d l = [] /\ strtok s ct st m = Some (0, 0, m)) \/
  (exists t ts q r m',
    tokens d l = t :: ts /\ strtok s ct st m = Some (q, r, m') /\ p <= q /\ cstr m' q t /\
    q + Z.of_nat (length t) <= p + Z.of_nat (length l) /\ cstr m' ct d /\
    rest_ok d m' (q + Z.of_nat (length t)) r (p + Z.of_nat (length l)) ts /\
    (forall x, x < p -> m' !! x = m !! x)).
Proof.
  intros Hl Hct Hp Ho Hs. unfold strtok. rewrite Hs, decide_False by lia.
  rewrite (strspn_run _ _ d Hct _ l) by done. cbn [mbind option_bind].
  destruct (span_spec (delim d) l) as (Hi & Hskip & Hstop). set (i := span (delim d) l) in *.
  rewrite <-(take_drop i l) in Hl.
  assert (Hlen : length (take i l) = i) by (rewrite length_take; lia).
  pose proof (tokens_skip d (take i l) (drop i l) Hskip) as Hts. rewrite take_drop in Hts.
  apply cstr_app in Hl as [Hl _]. rewrite Hlen in Hl. set (q := p + Z.of_nat i) in *.
  assert (Hq : q + Z.of_nat (length (drop i l)) = p + Z.of_nat (length l)) by (rewrite length_drop; lia).
  rewrite Hts. clearbody i. destruct (drop i l) as [|b l0] eqn:El.
  { left. apply cstr_nil in Hl. rewrite Hl. by cbn. }
  right. pose proof (Hstop b l0 eq_refl) as Hb. pose proof Hl as Hl'.
  apply cstr_cons in Hl' as (Eb & Hb0 & _). rewrite Eb. cbn [mbind option_bind].
  rewrite decide_False by lia. rewrite (strpbrk_run _ _ d Hct _ (b :: l0)) by done.
  destruct (span_spec (fun b => negb (delim d b)) (b :: l0)) as (Hj & Hpiece & Hend).
  assert (Hj0 : (0 < span (fun b => negb (delim d b)) (b :: l0))%nat) by (simpl; rewrite Hb; simpl; lia).
  set (j := span _ (b :: l0)) in *. clearbody j. cbn [mbind option_bind].
  pose proof (tokens_piece d [] _ (drop j (b :: l0)) Hpiece) as Htok. rewrite take_drop in Htok.
  unfold tokens. rewrite Htok. rewrite <-(take_drop j (b :: l0)) in Hl. cbn [app] in *.
  set (t := take j (b :: l0)) in *.
  assert (Ht : length t = j) by (unfold t; rewrite length_take; lia).
  assert (Htne : t <> []) by (intros E; rewrite E in Ht; simpl in Ht; lia).
  rewrite <-(take_drop j (b :: l0)), length_app in Hq. fold t in Hq.
  destruct (drop j (b :: l0)) as [|c l2] eqn:Er; cbn [mbind option_bind].
  - cbn [tokens_from]. rewrite !decide_False by done. rewrite decide_True by done.
    rewrite app_nil_r in Hl. simpl in Hq.
    exists t, [], q, 0, m. do 2 (split; [done|]). split; [lia|]. split; [done|].
    split; [lia|]. split; [done|]. split; [by left|done].
  - pose proof (Hend c l2 eq_refl) as Hc. apply negb_false_iff, bool_decide_eq_true in Hc.
    cbn [tokens_from]. rewrite (decide_True _ _ Hc), (decide_False (P := t = [])) by done. cbn [app].
    pose proof (cstr_app _ _ _ _ Hl) as [Hr _]. rewrite Ht in Hr. apply cstr_cons in Hr as (Ec & ? & Hr).
    rewrite decide_False by lia. rewrite Ec. cbn [mbind option_bind]. rewrite decide_False by lia.
    rewrite store_byte_mapped by (by eexists). cbn [mbind option_bind]. simpl in Hq.
    eexists t, (tokens d l2), q, _, _. split; [done|]. split; [done|]. split; [lia|].
    split; [rewrite <-Ht at 1; by eapply cstr_cut|]. split; [lia|].
    split; [apply cstr_insert; [lia|done]|]. split.
    + right. exists l2. split; [lia|]. split; [apply cstr_insert; [lia|done]|]. split; [done|lia].
    + intros x Hx. by rewrite lookup_insert_ne by lia.
Qed.

Lemma cstr_ext m m' a l :
  (forall x, x <= a + Z.of_nat (length l) -> m' !! x = m !! x) -> cstr m a l -> cstr m' a l.
Proof.
  intros Hx [H Hl]. split; [|done]. intros j b Hj. rewrite Hx; [auto|].
  apply lookup_lt_Some in Hj. rewrite length_app in Hj. simpl in Hj. lia.
Qed.

(** The use of [strtok]: it is called with the text once and then with NULL until
    it returns NULL.  The results are the addresses it returned. *)
Fixpoint strtok_all (n : nat) (s ct ___strtok : Z) (m : mem) : option (list Z * mem) :=
  match n with
  | O => None
  | S n =>
    '(t, ___strtok, m) ← strtok s ct ___strtok m;
    if decide (t = 0) then Some ([], m)
    else '(ts, m) ← strtok_all n 0 ct ___strtok m; Some (t :: ts, m)
  end.

Lemma strtok_all_run n s ct st m p d l :
  cstr m p l -> cstr m ct d -> 0 < p -> (ct + Z.of_nat (length d) < p \/ p + Z.of_nat (length l) < ct) ->
  (if decide (s = 0) then st else s) = p -> (length l < n)%nat ->
  exists ps m', strtok_all n s ct st m = Some (ps, m') /\ Forall2 (cstr m') ps (tokens d l) /\
    (forall x, x < p -> m' !! x = m !! x).
Proof.
  revert s st m p l. induction n as [|n IH]; intros s st m p l Hl Hct Hp Ho Hs Hn; [lia|].
  cbn [strtok_all].
  destruct (strtok_run m p ct d l s st Hl Hct Hp Ho Hs)
    as [[-> ->]|(t & ts & q & r & m1 & Ht & -> & Hq & Hqt & Hlen & Hct1 & Hr & Hf)].
  { exists [], m. split; [done|]. by split; [constructor|]. }
  rewrite Ht. cbn [mbind option_bind]. rewrite decide_False by lia.
  destruct Hr as [[-> ->]|(l' & Hr & Hl' & <- & Hlr)].
  - destruct n as [|n]; [destruct l; [done|simpl in Hn; lia]|]. cbn.
    exists [q], m1. split; [done|]. split; [by constructor; [|constructor]|done].
  - destruct (IH 0 r m1 r l') as (ps & m2 & -> & Hps & Hf2); [done..|lia|lia|done|lia|].
    exists (q :: ps), m2. split; [done|]. split.
    + constructor; [|done]. apply (cstr_ext m1); [|done]. intros x Hx. apply Hf2. lia.
    + intros x Hx. rewrite Hf2 by lia. auto.
Qed.

(** C30: Calling [strtok] until it returns NULL gives exactly the tokens of the
    text, its non-empty pieces between delimiters, in order: each result is the
    address of a string of its own, and no call disturbs the tokens before it. *)
Theorem strtok_gives_tokens m p ct d l st :
  cstr m p l -> cstr m ct d -> 0 < p -> (ct + Z.of_nat (length d) < p \/ p + Z.of_nat (length l) < ct) ->
  exists ps m', strtok_all (S (length l)) p ct st m = Some (ps, m') /\ Forall2 (cstr m') ps (tokens d l).
Proof.
  intros Hl Hct Hp Ho.
  destruct (strtok_all_run (S (length l)) p ct st m p d l) as (ps & m' & E & H & _); eauto.
  by rewrite decide_False by lia.
Qed.

(** The text [",ab,,c"] with the delimiter [","]. *)
Lemma strtok_gives_tokens_witness :
  let m := str_mem 16 [[44; 97; 98; 44; 44; 99]; [44]] in
  cstr m 16 [44; 97; 98; 44; 44; 99] /\ cstr m 23 [44] /\
  exists ps m', strtok_all 7 16 23 0 m = Some (ps, m') /\ Forall2 (cstr m') ps [[97; 98]; [99]].
Proof.
  intros m. assert (H1 : cstr m 16 [44; 97; 98; 44; 44; 99]) by is_cstr.
  assert (H2 : cstr m 23 [44]) by is_cstr.
  split; [done|]. split; [done|].
  exact (strtok_gives_tokens m 16 23 [44] _ 0 H1 H2 eq_refl (or_intror eq_refl)).
Defined.

(** ** Single characters and white space *)

(** [strchr] returns the address of the first [c], or NULL. *)
Lemma strchr_finds_first m s c l :
  cstr m s l -> 0 < c < 2 ^ 8 ->
  strchr s c m = Some (match drop (span (fun b => negb (b =? c)) l) l with
                       | [] => 0
                       | _ => s + Z.of_nat (span (fun b => negb (b =? c)) l)
                       end).
Proof.
  intros H Hc. unfold strchr. pose proof (cstr_fuel _ _ _ H) as Hn. revert Hn H.
  generalize (str_fuel m). intros n. revert n s.
  induction l as [|b l IH]; intros [|n] s Hn H; cbn [strchr_loop span length] in *; try lia.
  - apply cstr_nil in H. rewrite H. cbn [mbind option_bind]. rewrite Z.mod_small by lia.
    by rewrite decide_False by lia.
  - apply cstr_cons in H as (Hb & ? & H). rewrite Hb. cbn [mbind option_bind].
    rewrite Z.mod_small by lia. case_decide as Hd.
    + subst. rewrite Z.eqb_refl. cbn. f_equal. lia.
    + rewrite decide_False by lia. rewrite (proj2 (Z.eqb_neq b c)) by done. cbn [negb drop].
      rewrite IH by (done || lia). f_equal. destruct (drop _ l); [done|lia].
Qed.

(** [skip_spaces] goes to the first character that is no white space. *)
Lemma skip_spaces_run m s l :
  cstr m s l -> skip_spaces s m = Some (s + Z.of_nat (span isspace l)).
Proof.
  intros H. unfold skip_spaces. pose proof (cstr_fuel _ _ _ H) as Hn. revert Hn H.
  generalize (str_fuel m). intros n. revert n s.
  induction l as [|b l IH]; intros [|n] s Hn H; cbn [skip_spaces_loop span length] in *; try lia.
  - apply cstr_nil in H. rewrite H. cbn [mbind option_bind]. rewrite isspace_0. f_equal. lia.
  - apply cstr_cons in H as (Hb & ? & H). rewrite Hb. cbn [mbind option_bind].
    destruct (isspace b); [|f_equal; lia]. rewrite IH by (done || lia). f_equal. lia.
Qed.
