(* ===== verification/Bounded.v ===== *)
(** * Strings up to a length, from the end, and cut to pieces (src/lib/string.c)

    What the functions of Str.v do that take a number of bytes at most, search from the
    end of a string, or cut it. *)

From stdpp Require Import base gmap list.
From Stdlib Require Import ZArith Lia.
From S2P Require Import Prelude Ctype Mem Str.
#[local] Open Scope Z_scope.

(** ** Copies of at most [count] bytes *)

Lemma strncpy_loop_run n m d s l count :
  cstr m s l -> mapped m d (Nat.min count (S (length l))) ->
  (d <= s \/ s + Z.of_nat (length l) < d) -> (length l < n)%nat ->
  strncpy_loop n m d s (Z.of_nat count) = Some (store_list m d (take count (l ++ [0]))).
Proof.
  revert n m d s count. induction l as [|b l IH]; intros [|n] m d s [|count] H Hm Ho Hn; simpl in *; try lia; try done.
  - apply cstr_nil in H. apply mapped_S in Hm as [Hd _]. rewrite H. cbn [mbind option_bind].
    rewrite store_byte_mapped by done. cbn [mbind option_bind]. by rewrite take_nil.
  - apply cstr_cons in H as (Hb & ? & H). apply mapped_S in Hm as [Hd Hm]. rewrite Hb. cbn [mbind option_bind].
    rewrite store_byte_mapped by done. cbn [mbind option_bind]. rewrite decide_False by lia.
    replace (Z.of_nat (S count) - 1) with (Z.of_nat count) by lia.
    apply IH; [|by apply mapped_insert|lia..]. apply cstr_insert; [lia|done].
Qed.

(** [strncpy] copies the first [count] bytes of the string with its NUL: the copy is a
    string only if the NUL is among them, and no byte behind is touched. *)
Theorem strncpy_copies m d s l count :
  cstr m s l -> mapped m d (Nat.min count (S (length l))) -> (d <= s \/ s + Z.of_nat (length l) < d) ->
  exists m', strncpy d s (Z.of_nat count) m = Some m' /\ block m' d (take count (l ++ [0])) /\
    ((length l < count)%nat -> cstr m' d l) /\
    (forall x, x < d \/ d + Z.of_nat (Nat.min count (S (length l))) <= x -> m' !! x = m !! x).
Proof.
  intros H Hm Ho. unfold strncpy. rewrite (strncpy_loop_run _ _ _ _ l) by eauto using cstr_fuel.
  eexists. split; [done|]. split; [apply store_list_block|]. split.
  - intros Hc. rewrite take_ge by (rewrite length_app; simpl; lia). apply store_cstr, H.
  - intros x Hx. apply store_list_out. rewrite length_take, length_app. simpl. lia.
Qed.

Lemma strncat_loop_run n m d s l count :
  cstr m s l -> mapped m d (S (Nat.min (S count) (length l))) ->
  (d + Z.of_nat (length l) < s \/ s + Z.of_nat (length l) < d) -> (length l < n)%nat ->
  strncat_loop n m d s (Z.of_nat (S count)) = Some (store_list m d (take (S count) l ++ [0])).
Proof.
  revert n m d s count. induction l as [|b l IH]; intros [|n] m d s count H Hm Ho Hn; cbn [strncat_loop length] in *; try lia.
  - apply cstr_nil in H. apply mapped_S in Hm as [Hd _]. rewrite H. cbn [mbind option_bind].
    rewrite store_byte_mapped by done. done.
  - apply cstr_cons in H as (Hb & ? & H). apply mapped_S in Hm as [Hd Hm]. rewrite Hb. cbn [mbind option_bind].
    rewrite store_byte_mapped by done. cbn [mbind option_bind]. rewrite decide_False by lia.
    destruct count as [|count].
    + rewrite decide_True by lia. apply mapped_S in Hm as [Hd' _]. rewrite store_byte_mapped; [done|].
      by apply lookup_insert_is_Some'; right.
    + rewrite decide_False by lia. replace (Z.of_nat (S (S count)) - 1) with (Z.of_nat (S count)) by lia.
      rewrite IH; [done|apply cstr_insert; [lia|done]| |lia..]. apply mapped_insert. exact Hm.
Qed.

(** [strncat] appends the first [count] bytes of the string and a NUL. *)
Theorem strncat_appends m d s l1 l2 count :
  cstr m d l1 -> cstr m s l2 -> (0 < count)%nat -> mapped m d (length l1 + S (Nat.min count (length l2))) ->
  (d + Z.of_nat (length l1) + Z.of_nat (length l2) < s \/ s + Z.of_nat (length l2) < d) ->
  exists m', strncat d s (Z.of_nat count) m = Some m' /\ cstr m' d (l1 ++ take count l2) /\
    (forall x, x < d \/ d + Z.of_nat (length l1 + Nat.min count (length l2)) < x -> m' !! x = m !! x).
Proof.
  intros H1 H2 Hc Hm Ho. destruct count as [|count]; [lia|]. unfold strncat. rewrite decide_False by lia.
  rewrite (strlen_loop_run _ _ _ l1) by eauto using cstr_fuel. cbn [mbind option_bind].
  rewrite (strncat_loop_run _ _ _ _ l2); [|done| |lia|by eapply cstr_fuel].
  2:{ intros j Hj. specialize (Hm (length l1 + j)%nat ltac:(lia)).
      by replace (d + Z.of_nat (length l1) + Z.of_nat j) with (d + Z.of_nat (length l1 + j)) by lia. }
  eexists. split; [done|]. destruct H1 as [H1 HF1]. destruct H2 as [_ HF2]. split.
  - split; [|apply Forall_app; split; [done|by apply Forall_take]].
    rewrite <- app_assoc. apply block_app. split; [|apply store_list_block].
    apply store_list_keeps; [lia|]. by apply block_app in H1 as [? _].
  - intros x Hx. apply store_list_out. rewrite length_app, length_take. cbn [length]. lia.
Qed.

(** ** Comparisons of at most [count] bytes *)

Lemma strncmp_loop_run n m cs ct l1 l2 count :
  cstr m cs l1 -> cstr m ct l2 -> (length l1 < n)%nat ->
  exists r, strncmp_loop n m cs ct (Z.of_nat count) 0 = Some r /\ (r = 0 <-> take count l1 = take count l2) /\
    (ascii l1 -> ascii l2 -> (r ?= 0) = str_compare (take count l1) (take count l2)).
Proof.
  revert n cs ct l2 count. induction l1 as [|x l1 IH]; intros [|n] cs ct l2 [|count] H1 H2 Hn;
    cbn [strncmp_loop length take] in *; try lia.
  1,3: by exists 0.
  - rewrite decide_False by lia. apply cstr_nil in H1. rewrite H1. cbn [mbind option_bind]. destruct l2 as [|y l2].
    + apply cstr_nil in H2. rewrite H2. cbn [mbind option_bind]. rewrite decide_True by (by right). by exists 0.
    + apply cstr_cons in H2 as (H2 & ? & _). rewrite H2. cbn [mbind option_bind].
      rewrite decide_True by (by right). eexists. split; [done|]. rewrite s8_diff_zero by lia.
      split; [split; [lia|done]|]. intros _ [? _]%Forall_cons. rewrite s8_diff_ascii by lia. apply Z.compare_lt_iff. lia.
  - rewrite decide_False by lia. apply cstr_cons in H1 as (E1 & ? & H1). rewrite E1. cbn [mbind option_bind].
    destruct l2 as [|y l2].
    + apply cstr_nil in H2. rewrite H2. cbn [mbind option_bind].
      rewrite decide_True by (left; rewrite s8_diff_zero; lia). eexists. split; [done|]. rewrite s8_diff_zero by lia.
      split; [split; [lia|done]|]. intros [? _]%Forall_cons _. rewrite s8_diff_ascii by lia. apply Z.compare_gt_iff. lia.
    + apply cstr_cons in H2 as (E2 & ? & H2). rewrite E2. cbn [mbind option_bind]. destruct (decide (x = y)) as [->|Hxy].
      * replace (s8 (s8 y - s8 y)) with 0 by (symmetry; apply s8_diff_zero; [lia|lia|done]).
        rewrite decide_False by lia. replace (Z.of_nat (S count) - 1) with (Z.of_nat count) by lia.
        destruct (IH n (cs + 1) (ct + 1) l2 count) as (r & -> & Hr & Hs); [done..|lia|].
        exists r. split; [done|]. cbn [take]. split; [rewrite Hr; split; congruence|].
        intros [_ ?]%Forall_cons [_ ?]%Forall_cons. cbn. rewrite Z.compare_refl. auto.
      * rewrite decide_True by (left; rewrite s8_diff_zero; lia). eexists. split; [done|].
        rewrite s8_diff_zero by lia. cbn [take]. split; [split; congruence|].
        intros [? _]%Forall_cons [? _]%Forall_cons. rewrite s8_diff_ascii by lia. cbn.
        destruct (Z.compare_spec x y); [lia|apply Z.compare_lt_iff; lia|apply Z.compare_gt_iff; lia].
Qed.

(** [strncmp] compares the first [count] bytes as [strcmp] compares all. *)
Theorem strncmp_compares m cs ct l1 l2 count :
  cstr m cs l1 -> cstr m ct l2 ->
  exists r, strncmp cs ct (Z.of_nat count) m = Some r /\ (r = 0 <-> take count l1 = take count l2) /\
    (ascii l1 -> ascii l2 -> (r ?= 0) = str_compare (take count l1) (take count l2)).
Proof. intros H1 H2. apply strncmp_loop_run; eauto using cstr_fuel. Qed.

(** ** Searches *)

(** [memchr] and [memscan] find the first byte, or report that there is none: NULL and the
    end of the area. *)
Lemma memchr_run m a l c :
  block m a l -> bytes l -> 0 <= c < 2 ^ 8 ->
  memchr (length l) m a c = Some (if decide (c ∈ l) then a + Z.of_nat (span (fun b => negb (b =? c)) l) else 0) /\
  memscan (length l) m a c = Some (a + Z.of_nat (span (fun b => negb (b =? c)) l)).
Proof.
  intros H Hb Hc. revert a H. induction l as [|b l IH]; intros a H; cbn [memchr memscan span length].
  - rewrite decide_False by apply not_elem_of_nil. split; [done|]. f_equal. lia.
  - apply block_cons in H as [Ha H]. apply Forall_cons in Hb as [? Hb]. rewrite Ha. cbn [mbind option_bind].
    rewrite Z.mod_small by lia. destruct (decide (b = c)) as [->|Hne].
    + rewrite Z.eqb_refl. cbn [negb]. rewrite !decide_True by (done || left). split; f_equal; lia.
    + rewrite decide_False by congruence. rewrite (proj2 (Z.eqb_neq b c)) by done. cbn [negb].
      destruct (IH Hb (a + 1) H) as [-> ->]. split; f_equal; [|lia]. destruct (decide (c ∈ l)).
      * rewrite decide_True by by right. lia.
      * rewrite decide_False by set_solver. done.
Qed.

(** [strrchr] finds the last one: none of the characters behind it is [c]. *)
Theorem strrchr_finds_last m s c l :
  cstr m s l -> 0 < c < 2 ^ 8 -> s <> 0 ->
  exists r, strrchr s c m = Some r /\
    ((c ∉ l /\ r = 0) \/ exists l1 l2, l = l1 ++ c :: l2 /\ c ∉ l2 /\ r = s + Z.of_nat (length l1)).
Proof.
  intros H Hc Hs. unfold strrchr. rewrite (strlen_run _ _ l) by done. cbn [mbind option_bind].
  pose proof (cstr_fuel _ _ _ H) as Hn. destruct (str_fuel m) as [|n]; [lia|]. cbn [strrchr_loop].
  assert (Hnul : m !! (s + Z.of_nat (length l)) = Some 0).
  { destruct (cstr_app m s l []) as [H0 _]; [by rewrite app_nil_r|]. by apply cstr_nil in H0. }
  rewrite Hnul. cbn [mbind option_bind]. rewrite Z.mod_small, decide_False by lia.
  assert (Hl : forall k, (S k <= length l)%nat -> exists b, l !! k = Some b /\ m !! (s + Z.of_nat k) = Some b).
  { intros k Hk. destruct (lookup_lt_is_Some_2 l k) as [b Hb]; [lia|]. exists b. split; [done|].
    destruct H as [H _]. apply H. by rewrite lookup_app_l. }
  assert (HL : forall k n, (k <= length l)%nat -> (k <= n)%nat -> c ∉ drop k l ->
    exists r, (if decide (s + Z.of_nat k - 1 >= s) then strrchr_loop n m (s + Z.of_nat k - 1) s c else Some 0) = Some r /\
      ((c ∉ l /\ r = 0) \/ exists l1 l2, l = l1 ++ c :: l2 /\ c ∉ l2 /\ r = s + Z.of_nat (length l1))).
  { induction k as [|k IH]; intros n' Hk Hkn Hni.
    - rewrite decide_False by lia. exists 0. split; [done|]. by left.
    - destruct n' as [|n']; [lia|]. rewrite decide_True by lia. cbn [strrchr_loop].
      destruct (Hl k Hk) as (b & Hb & Hmb). replace (s + Z.of_nat (S k) - 1) with (s + Z.of_nat k) by lia.
      rewrite Hmb. cbn [mbind option_bind]. rewrite Z.mod_small by lia. destruct (decide (b = c)) as [->|Hne].
      + exists (s + Z.of_nat k). split; [done|]. right. exists (take k l), (drop (S k) l).
        split; [by rewrite take_drop_middle|]. split; [done|]. rewrite length_take. f_equal. lia.
      + apply IH; [lia..|]. rewrite (drop_S l b k Hb). set_solver. }
  apply (HL (length l) n); [done|lia|]. rewrite drop_all. set_solver.
Qed.

(** ** Cutting *)

(** The longest beginning without trailing white space. *)
Fixpoint trimmed (l : list Z) : list Z :=
  match l with
  | [] => []
  | b :: l => match trimmed l with
              | [] => if isspace b then [] else [b]
              | l' => b :: l'
              end
  end.

Lemma trimmed_snoc l b : trimmed (l ++ [b]) = if isspace b then trimmed l else l ++ [b].
Proof.
  induction l as [|x l IH]; cbn; [by destruct (isspace b)|]. rewrite IH. destruct (isspace b); [done|].
  by destruct (l ++ [b]) eqn:E; [destruct l|].
Qed.

Lemma trimmed_prefix l : exists k, trimmed l ++ k = l.
Proof.
  induction l as [|b l [k IH]] using rev_ind; [by exists []|]. rewrite trimmed_snoc. destruct (isspace b).
  - exists (k ++ [b]). by rewrite app_assoc, IH.
  - exists []. by rewrite app_nil_r.
Qed.

Lemma trim_loop_run n m s l :
  block m s l -> (length l < n)%nat -> trim_loop n m (s + Z.of_nat (length l) - 1) s = Some (s + Z.of_nat (length (trimmed l)) - 1).
Proof.
  revert n. induction l as [|b l IH] using rev_ind; intros [|n] H Hn; cbn [trim_loop]; try lia.
  - rewrite decide_False by (simpl; lia). done.
  - apply block_app in H as [H [Hb _]%block_cons]. rewrite length_app in *. simpl in Hn |- *.
    rewrite decide_True by lia. replace (s + Z.of_nat (length l + 1) - 1) with (s + Z.of_nat (length l)) by lia.
    rewrite Hb. cbn [mbind option_bind]. rewrite trimmed_snoc. destruct (isspace b).
    + rewrite IH by (done || lia). done.
    + rewrite length_app. simpl. f_equal. lia.
Qed.

(** [strim] returns the address of the string without the white space at its beginning,
    and ends it before the white space at its end. *)
Theorem strim_trims m s l :
  cstr m s l ->
  let k := span isspace l in
  exists m', strim s m = Some (s + Z.of_nat k, m') /\ cstr m' (s + Z.of_nat k) (trimmed (drop k l)) /\
    (forall x, x < s + Z.of_nat k \/ s + Z.of_nat (length l) < x -> m' !! x = m !! x).
Proof.
  intros H k. unfold strim. rewrite (skip_spaces_run _ _ l) by done. cbn [mbind option_bind]. fold k.
  destruct (span_spec isspace l) as [Hk _]. fold k in Hk.
  assert (Hd : cstr m (s + Z.of_nat k) (drop k l)).
  { rewrite <- (take_drop k l) in H. apply cstr_app in H as [H _]. by rewrite length_take, Nat.min_l in H. }
  set (r := s + Z.of_nat k) in *. assert (Hlen : length (drop k l) = (length l - k)%nat) by apply length_drop.
  rewrite (strlen_run _ _ (drop k l)) by done. cbn [mbind option_bind]. case_decide as E.
  - exists m. split; [done|]. destruct (drop k l) as [|b l']; [done|simpl in E; lia].
  - destruct (trimmed_prefix (drop k l)) as [k' Hk']. pose proof Hd as [Hb HF]. apply block_app in Hb as [Hb _].
    rewrite trim_loop_run; [|done|by eapply cstr_fuel]. cbn [mbind option_bind].
    replace (r + Z.of_nat (length (trimmed (drop k l))) - 1 + 1) with (r + Z.of_nat (length (trimmed (drop k l)))) by lia.
    assert (Hle : (length (trimmed (drop k l)) <= length (drop k l))%nat) by (rewrite <- Hk' at 2; rewrite length_app; lia).
    rewrite store_byte_mapped.
    2:{ destruct Hd as [Hd _]. destruct (lookup_lt_is_Some_2 (drop k l ++ [0]) (length (trimmed (drop k l)))) as [b Hb'];
        [rewrite length_app; simpl; lia|]. by exists b; apply Hd. }
    cbn [mbind option_bind]. eexists. split; [done|]. split.
    + destruct k' as [|b k']; [|apply (cstr_cut m r _ b k'); by rewrite Hk'].
      rewrite app_nil_r in Hk'. rewrite Hk'. split; [|done]. apply block_app. split; [apply block_insert; [lia|done]|].
      apply block_cons. split; [apply lookup_insert_eq|apply block_nil].
    + intros x Hx. apply lookup_insert_ne. lia.
Qed.

(** [strsep] cuts the string at the first separator: the piece before it, possibly empty,
    and the rest behind it; without a separator the whole string is the last piece. *)
Theorem strsep_cuts m s ct l d :
  cstr m s l -> cstr m ct d -> 0 < s -> (ct + Z.of_nat (length d) < s \/ s + Z.of_nat (length l) < ct) ->
  (strsep s ct m = Some (s, 0, m) /\ Forall (fun b => b ∉ d) l) \/
  exists l1 b l2 m', l = l1 ++ b :: l2 /\ Forall (fun b => b ∉ d) l1 /\ b ∈ d /\
    strsep s ct m = Some (s, s + Z.of_nat (length l1) + 1, m') /\
    cstr m' s l1 /\ cstr m' (s + Z.of_nat (length l1) + 1) l2 /\ cstr m' ct d.
Proof.
  intros H Hd Hs Ho. unfold strsep. rewrite decide_False by lia. rewrite (strpbrk_run _ _ d Hd s l H).
  cbn [mbind option_bind]. set (k := span _ l). destruct (span_spec (fun b => negb (delim d b)) l) as (Hk & Hf & Hb).
  fold k in Hk, Hf, Hb.
  assert (Hpre : Forall (fun b => b ∉ d) (take k l)).
  { eapply Forall_impl; [exact Hf|]. intros b E%negb_true_iff. by apply bool_decide_eq_false in E. }
  destruct (drop k l) as [|b l2] eqn:E.
  - left. rewrite decide_True by done. split; [done|]. by rewrite <- (take_drop k l), E, app_nil_r.
  - right. specialize (Hb b l2 eq_refl). apply negb_false_iff, bool_decide_eq_true in Hb.
    assert (Hl : l = take k l ++ b :: l2) by (by rewrite <- E, take_drop).
    assert (Hlen : length (take k l) = k) by (rewrite length_take; lia).
    exists (take k l), b, l2, (<[s + Z.of_nat k := 0]> m). rewrite Hlen. rewrite decide_False by lia.
    pose proof H as Hc. rewrite Hl in Hc. pose proof (cstr_cut _ _ _ _ _ Hc) as Hcut. rewrite Hlen in Hcut.
    apply cstr_app in Hc as [Hc _]. rewrite Hlen in Hc. apply cstr_cons in Hc as (Hmb & _ & Hc).
    rewrite store_byte_mapped by by eexists. cbn [mbind option_bind].
    assert (length l = k + S (length l2))%nat by (rewrite Hl at 1; rewrite length_app, Hlen; done).
    split_and!; [done|done|done|done|done| |]; apply cstr_insert; [lia|done|lia|done].
Qed.

(** ** Swapping the bytes *)

Fixpoint swapped (l : list Z) : list Z :=
  match l with
  | x :: y :: l => y :: x :: swapped l
  | _ => l
  end.

Lemma swapped_twice l : swapped (swapped l) = l.
Proof.
  assert (H : swapped (swapped l) = l /\ forall x, swapped (swapped (x :: l)) = x :: l); [|apply H].
  induction l as [|y l [IH1 IH2]]; [done|]. split; [apply IH2|]. intros x. cbn. by rewrite IH1.
Qed.

Lemma strswab_loop_run n m p l :
  cstr m p l -> (length l < n)%nat ->
  exists m', strswab_loop n m p = Some m' /\ cstr m' p (swapped l) /\
    (forall x, x < p \/ p + Z.of_nat (length l) < x -> m' !! x = m !! x).
Proof.
  revert n m p l. induction n as [n IH] using (well_founded_induction lt_wf). intros m p [|x [|y l]] H Hn;
    (destruct n as [|n]; [simpl in *; lia|]); cbn [strswab_loop length swapped] in *.
  - pose proof H as H0. apply cstr_nil in H0. rewrite H0. by exists m.
  - pose proof H as H0. apply cstr_cons in H0 as (Hx & ? & Hy%cstr_nil). rewrite Hx, Hy. cbn [mbind option_bind].
    rewrite decide_False by lia. by exists m.
  - apply cstr_cons in H as (Hx & ? & H). apply cstr_cons in H as (Hy & ? & H). rewrite Hx, Hy. cbn [mbind option_bind].
    rewrite !decide_False by lia. rewrite store_byte_mapped by by eexists. cbn [mbind option_bind].
    rewrite store_byte_mapped by (rewrite lookup_insert_ne by lia; by eexists). cbn [mbind option_bind].
    replace (p + 1 + 1) with (p + 2) in H by lia.
    destruct (IH n ltac:(lia) (<[p + 1 := x]> (<[p := y]> m)) (p + 2) l) as (m' & -> & Hc & Hout);
      [apply cstr_insert; [lia|]; by apply cstr_insert; [lia|]|lia|].
    exists m'. split; [done|]. split.
    + apply cstr_cons. rewrite Hout by lia. rewrite lookup_insert_ne, lookup_insert_eq by lia. split; [done|]. split; [lia|].
      apply cstr_cons. rewrite Hout by lia. rewrite lookup_insert_eq. split; [done|]. split; [lia|].
      by replace (p + 1 + 1) with (p + 2) by lia.
    + intros z Hz. rewrite Hout by lia. by rewrite !lookup_insert_ne by lia.
Qed.

(** [strswab] exchanges the bytes of each pair, and a second call brings the string back. *)
Theorem strswab_swaps m s l :
  cstr m s l -> l <> [] -> s <> 0 ->
  exists m1 m2, strswab s m = Some (s, m1) /\ cstr m1 s (swapped l) /\
    strswab s m1 = Some (s, m2) /\ cstr m2 s l.
Proof.
  intros H Hl Hs. assert (Hrun : forall m l, cstr m s l -> l <> [] ->
    exists m', strswab s m = Some (s, m') /\ cstr m' s (swapped l)).
  { clear m l H Hl. intros m l H Hl. unfold strswab. rewrite decide_False by done.
    destruct l as [|b l]; [done|]. pose proof H as (Hb & ? & _)%cstr_cons. rewrite Hb. cbn [mbind option_bind].
    rewrite decide_False by lia.
    destruct (strswab_loop_run (str_fuel m) m s (b :: l) H) as (m' & -> & Hc & _); [by eapply cstr_fuel|].
    by exists m'. }
  destruct (Hrun m l H Hl) as (m1 & E1 & H1). destruct (Hrun m1 (swapped l) H1) as (m2 & E2 & H2).
  { destruct l as [|x [|y l]]; done. }
  exists m1, m2. rewrite swapped_twice in H2. done.
Qed.
