(* ===== verification/Strto.v ===== *)
(** * Reading numbers (src/lib/strto.c)

    The functions read a number from a string in memory: they return its value and
    the address of the first character they did not use, as the parameter [endp]
    does.  [unsigned long] has 32 bits, [unsigned long long] 64. *)

From stdpp Require Import base gmap list.
From Stdlib Require Import ZArith Lia.
From S2P Require Import Prelude Ctype Mem Str.
#[local] Open Scope Z_scope.

Definition EINVAL : Z := 22.

(** The characters 'x', '0', 'A', '-', NUL and newline. *)
Definition ch_x : Z := 120.
Definition ch_0 : Z := 48.
Definition ch_A : Z := 65.
Definition ch_minus : Z := 45.
Definition ch_nl : Z := 10.

Definition _parse_integer_fixup_radix (s base : Z) (m : mem) : option (Z * Z) :=
  base ←
    (if decide (base = 0) then
       c0 ← m !! s;
       if decide (c0 = ch_0) then
         c1 ← m !! (s + 1);
         if decide (tolower c1 = ch_x) then
           c2 ← m !! (s + 2); Some (if isxdigit c2 then 16 else 8)
         else Some 8
       else Some 10
     else Some base);
  if decide (base = 16) then
    c0 ← m !! s;
    if decide (c0 = ch_0) then
      c1 ← m !! (s + 1);
      if decide (tolower c1 = ch_x) then Some (s + 2, base) else Some (s, base)
    else Some (s, base)
  else Some (s, base).

(** The value of a digit: [isdigit( *cp) ? *cp-'0' : (islower( *cp) ? toupper( *cp)
    : *cp)-'A'+10]. *)
Definition digit_value (c : Z) : Z :=
  if isdigit c then c - ch_0 else (if islower c then toupper c else c) - ch_A + 10.

(** The loop, for the type of the result that [wrap] reduces to. *)
Fixpoint strto_loop (wrap : Z -> Z) (n : nat) (m : mem) (cp base result : Z) : option (Z * Z) :=
  match n with
  | O => None
  | S n =>
    c ← m !! cp;
    if decide (isxdigit c = true /\ wrap (digit_value c) < base)
    then strto_loop wrap n m (cp + 1) base (wrap (result * base + digit_value c))
    else Some (result, cp)
  end.

Definition simple_strtoul (cp base : Z) (m : mem) : option (Z * Z) :=
  '(cp, base) ← _parse_integer_fixup_radix cp base m;
  strto_loop u32 (str_fuel m) m cp base 0.

Definition simple_strtoull (cp base : Z) (m : mem) : option (Z * Z) :=
  '(cp, base) ← _parse_integer_fixup_radix cp base m;
  strto_loop u64 (str_fuel m) m cp base 0.

(** The return value and [*res]. *)
Definition strict_strtoul (cp base : Z) (m : mem) : option (Z * Z) :=
  len ← strlen cp m;
  if decide (len = 0) then Some (- EINVAL, 0)
  else
    '(val, tail) ← simple_strtoul cp base m;
    if decide (tail = cp) then Some (- EINVAL, 0)
    else
      c ← m !! tail;
      if decide (c = 0 \/ (len = tail - cp + 1 /\ c = ch_nl)) then Some (0, val)
      else Some (- EINVAL, 0).

Definition simple_strtol (cp base : Z) (m : mem) : option (Z * Z) :=
  c ← m !! cp;
  if decide (c = ch_minus) then
    '(v, e) ← simple_strtoul (cp + 1) base m; Some (s32 (u32 (- v)), e)
  else '(v, e) ← simple_strtoul cp base m; Some (s32 v, e).

(** The suffix at [e]: the factor and the new [*endp]; the cases of the [switch]
    fall through from 'G' to 'M' to 'K'. *)
Definition skip_ib (e : Z) (m : mem) : option Z :=
  c1 ← m !! (e + 1);
  if decide (c1 = 105) then
    c2 ← m !! (e + 2); Some (if decide (c2 = 66) then e + 3 else e + 2)
  else Some e.

Definition ustr_suffix (wrap : Z -> Z) (result e : Z) (m : mem) : option (Z * Z) :=
  c ← m !! e;
  let times (r : Z) := wrap (r * 1024) in
  if decide (c = 71) then e ← skip_ib e m; Some (times (times (times result)), e)
  else if decide (c = 77) then e ← skip_ib e m; Some (times (times result), e)
  else if decide (c = 75 \/ c = 107) then e ← skip_ib e m; Some (times result, e)
  else Some (result, e).

Definition ustrtoul (cp base : Z) (m : mem) : option (Z * Z) :=
  '(result, e) ← simple_strtoul cp base m; ustr_suffix u32 result e m.

Definition ustrtoull (cp base : Z) (m : mem) : option (Z * Z) :=
  '(result, e) ← simple_strtoull cp base m; ustr_suffix u64 result e m.

(** [for (p = end - 1; p > str; p--) if (!isdigit( *p)) return ...]. *)
Fixpoint trailing_loop (n : nat) (m : mem) (p str : Z) : option Z :=
  match n with
  | O => None
  | S n =>
    if decide (p > str) then
      c ← m !! p;
      if isdigit c then trailing_loop n m (p - 1) str
      else '(v, _) ← simple_strtoul (p + 1) 10 m; Some (s32 v)
    else Some (-1)
  end.

(** [end_] is [end]; 0 is NULL. *)
Definition trailing_strtoln (str end_ : Z) (m : mem) : option Z :=
  end_ ← (if decide (end_ = 0) then len ← strlen str m; Some (str + len) else Some end_);
  c ← m !! (end_ - 1);
  if isdigit c then trailing_loop (str_fuel m) m (end_ - 1) str else Some (-1).

Definition trailing_strtol (str : Z) (m : mem) : option Z := trailing_strtoln str 0 m.

(** ** The number at the start of a text *)

(** Is [c] a digit of the base? *)
Definition digit_of (base c : Z) : bool := isxdigit c && (digit_value c <? base).

(** The value of a list of digits. *)
Definition num_value (base : Z) (l : list Z) : Z :=
  foldl (fun acc c => acc * base + digit_value c) 0 l.

(** The digits at the start of a text. *)
Definition digits_of (base : Z) (l : list Z) : list Z := take (span (digit_of base) l) l.

(** The base that is meant and the length of its prefix. *)
Definition has_0x (l : list Z) : bool :=
  match l with c0 :: c1 :: _ => (c0 =? ch_0) && (tolower c1 =? ch_x) | _ => false end.
Definition radix (base : Z) (l : list Z) : nat * Z :=
  let b := if base =? 0 then
      (if bool_decide (head l = Some ch_0)
       then (if has_0x l && match l !! 2%nat with Some c => isxdigit c | None => false end then 16 else 8)
       else 10)
    else base in
  (if (b =? 16) && has_0x l then 2%nat else 0%nat, b).

(** Digits have a value below 16. *)
Lemma digit_value_range : forall c, 0 <= c < 2 ^ 8 ->
  (implb (isxdigit c) ((0 <=? digit_value c) && (digit_value c <? 16))) = true.
Proof. apply byte_enum. vm_compute. reflexivity. Qed.

Lemma digit_of_value base c : 0 <= c < 2 ^ 8 -> digit_of base c = true -> 0 <= digit_value c < Z.min 16 base.
Proof.
  intros Hc [H1 H2]%andb_true_iff. pose proof (digit_value_range c Hc) as H.
  rewrite H1 in H. cbn in H. apply andb_true_iff in H as [? ?]. lia.
Qed.

(** Reading the first characters of a string. *)
Lemma cstr_first m s l : cstr m s l -> m !! s = Some (default 0 (head l)).
Proof. destruct l; [by intros ?%cstr_nil|by intros (? & _)%cstr_cons]. Qed.

Lemma cstr_tail m s c l : cstr m s (c :: l) -> cstr m (s + 1) l.
Proof. by intros (_ & _ & ?)%cstr_cons. Qed.

Lemma cstr_drop m s l k : cstr m s l -> (k <= length l)%nat -> cstr m (s + Z.of_nat k) (drop k l).
Proof.
  intros H Hk. rewrite <-(take_drop k l) in H. apply cstr_app in H as [H _].
  by rewrite length_take_le in H.
Qed.

(** The test for the prefix "0x" in memory. *)
Lemma has_0x_run {A} m s l (yes no : A) :
  cstr m s l ->
  (c0 ← m !! s;
   if decide (c0 = ch_0) then
     c1 ← m !! (s + 1); if decide (tolower c1 = ch_x) then Some yes else Some no
   else Some no) = Some (if has_0x l then yes else no).
Proof.
  intros H. rewrite (cstr_first _ _ _ H). cbn [mbind option_bind].
  destruct l as [|c0 l]; [done|]. cbn [head default from_option id has_0x]. case_decide as H0.
  - apply cstr_tail in H. rewrite (cstr_first _ _ _ H). cbn [mbind option_bind]. subst c0.
    destruct l as [|c1 l]; [done|]. cbn [head default from_option id]. rewrite Z.eqb_refl. cbn [andb].
    case_decide; [by rewrite (proj2 (Z.eqb_eq _ _))|by rewrite (proj2 (Z.eqb_neq _ _))].
  - destruct l; [done|]. by rewrite (proj2 (Z.eqb_neq c0 ch_0)).
Qed.

Lemma radix_run m s base l :
  cstr m s l -> _parse_integer_fixup_radix s base m =
    Some (s + Z.of_nat (fst (radix base l)), snd (radix base l)).
Proof.
  intros H. unfold _parse_integer_fixup_radix. set (first := if decide (base = 0) then _ else _).
  assert (E : first = Some (snd (radix base l))).
  { unfold first, radix. cbn [snd]. case_decide as Hb; [|by rewrite (proj2 (Z.eqb_neq base 0))].
    rewrite Hb, Z.eqb_refl, (cstr_first _ _ _ H). cbn [mbind option_bind].
    destruct l as [|c0 l]; [done|]. cbn [head default from_option id]. case_decide as H0.
    - rewrite bool_decide_eq_true_2 by congruence. apply cstr_tail in H.
      rewrite (cstr_first _ _ _ H). cbn [mbind option_bind]. subst c0.
      destruct l as [|c1 l]; [done|]. cbn [head default from_option id has_0x]. case_decide as H1.
      + apply cstr_tail in H. replace (s + 1 + 1) with (s + 2) in H by lia. rewrite (cstr_first _ _ _ H).
        rewrite H1, !Z.eqb_refl. by destruct l.
      + by rewrite (proj2 (Z.eqb_neq (tolower c1) ch_x)), andb_false_r by done.
    - by rewrite bool_decide_eq_false_2 by congruence. }
  rewrite E. cbn [mbind option_bind]. unfold radix. cbn [fst snd].
  set (b := if base =? 0 then _ else _). case_decide as Hb.
  - rewrite (has_0x_run m s l) by done. rewrite Hb. cbn [Z.eqb Pos.eqb andb].
    destruct (has_0x l); do 2 f_equal; lia.
  - rewrite (proj2 (Z.eqb_neq b 16)) by done. cbn. do 2 f_equal. lia.
Qed.

(** The loop reads the digits and computes their value modulo the type's range. *)
Lemma strto_loop_run wrap w n m cp base result l :
  4 <= w -> (forall x, wrap x = x mod 2 ^ w) -> cstr m cp l -> (length l < n)%nat ->
  strto_loop wrap n m cp base (wrap result) =
    Some (wrap (foldl (fun acc c => acc * base + digit_value c) result (digits_of base l)),
          cp + Z.of_nat (length (digits_of base l))).
Proof.
  intros Hw Hwrap. revert n cp result. induction l as [|c l IH]; intros [|n] cp result H Hn;
    cbn [strto_loop length] in *; try lia.
  - apply cstr_nil in H. rewrite H. cbn [mbind option_bind]. rewrite decide_False by (intros [? _]; done).
    unfold digits_of. cbn. by rewrite Z.add_0_r.
  - apply cstr_cons in H as (Hc & Hr & H). rewrite Hc. cbn [mbind option_bind]. unfold digits_of. cbn [span].
    pose proof (digit_value_range c ltac:(lia)) as Hv. pose proof (Z.pow_le_mono_r 2 4 w).
    assert (Hsm : isxdigit c = true -> wrap (digit_value c) = digit_value c).
    { intros E. rewrite E in Hv. cbn in Hv. apply andb_true_iff in Hv as [? ?].
      rewrite Hwrap. apply Z.mod_small. lia. }
    destruct (digit_of base c) eqn:Ed; unfold digit_of in Ed.
    + apply andb_true_iff in Ed as [E1 E2]. rewrite decide_True by (rewrite Hsm by done; split; [done|lia]).
      cbn [take foldl length]. fold (digits_of base l).
      assert (Ew : wrap (wrap result * base + digit_value c) = wrap (result * base + digit_value c)).
      { rewrite !Hwrap. by rewrite <-Zplus_mod_idemp_l, Zmult_mod_idemp_l, Zplus_mod_idemp_l. }
      rewrite Ew, IH by (done || lia). do 2 f_equal. lia.
    + rewrite decide_False.
      * cbn. by rewrite Z.add_0_r.
      * intros [E1 E2]. rewrite Hsm in E2 by done. rewrite E1 in Ed. cbn in Ed. lia.
Qed.

(** What [simple_strtoul] and [simple_strtoull] read from a text: the value and
    the number of characters. *)
Definition read_number (base : Z) (l : list Z) : Z * nat :=
  let '(k, b) := radix base l in
  let ds := digits_of b (drop k l) in
  (num_value b ds, k + length ds)%nat.

Lemma radix_length base l : (fst (radix base l) <= length l)%nat.
Proof.
  unfold radix. cbn [fst]. destruct (_ =? 16); cbn [andb]; [|lia].
  destruct l as [|c0 [|c1 l]]; cbn [has_0x]; [lia|simpl; lia|]. simpl. destruct (_ && _); lia.
Qed.

Lemma strtoul_run m s base l :
  cstr m s l -> simple_strtoul s base m =
    Some (u32 (fst (read_number base l)), s + Z.of_nat (snd (read_number base l))).
Proof.
  intros H. unfold simple_strtoul, read_number. rewrite (radix_run _ _ _ l) by done.
  pose proof (radix_length base l). destruct (radix base l) as [k b]. cbn [fst snd mbind option_bind] in *.
  change 0 with (u32 0). pose proof (cstr_drop _ _ _ k H ltac:(done)) as Hd.
  rewrite (strto_loop_run u32 32 _ _ _ _ _ (drop k l)); [|lia|done|done|by eapply cstr_fuel].
  cbn. do 2 f_equal. lia.
Qed.

Lemma strtoull_run m s base l :
  cstr m s l -> simple_strtoull s base m =
    Some (u64 (fst (read_number base l)), s + Z.of_nat (snd (read_number base l))).
Proof.
  intros H. unfold simple_strtoull, read_number. rewrite (radix_run _ _ _ l) by done.
  pose proof (radix_length base l). destruct (radix base l) as [k b]. cbn [fst snd mbind option_bind] in *.
  change 0 with (u64 0). pose proof (cstr_drop _ _ _ k H ltac:(done)) as Hd.
  rewrite (strto_loop_run u64 64 _ _ _ _ _ (drop k l)); [|lia|done|done|by eapply cstr_fuel].
  cbn. do 2 f_equal. lia.
Qed.

Lemma read_number_length base l : (snd (read_number base l) <= length l)%nat.
Proof.
  unfold read_number. pose proof (radix_length base l). destruct (radix base l) as [k b]. cbn [fst snd] in *.
  unfold digits_of. rewrite length_take, length_drop. lia.
Qed.



(** [simple_strtol] negates the value after a minus sign. *)
Lemma strtol_run m s base l :
  cstr m s l ->
  simple_strtol s base m =
    Some (if bool_decide (head l = Some ch_minus) then
            (s32 (- fst (read_number base (tail l))), s + 1 + Z.of_nat (snd (read_number base (tail l))))
          else (s32 (fst (read_number base l)), s + Z.of_nat (snd (read_number base l)))).
Proof.
  intros H. unfold simple_strtol. rewrite (cstr_first _ _ _ H). cbn [mbind option_bind].
  assert (Hs : forall x y, x mod 2 ^ 32 = y mod 2 ^ 32 -> s32 x = s32 y).
  { intros x y E. unfold s32. by rewrite <-Zplus_mod_idemp_l, E, Zplus_mod_idemp_l. }
  case_decide as H0.
  - destruct l as [|c l]; [done|]. cbn [head default from_option id] in *. subst c.
    rewrite bool_decide_eq_true_2 by done. apply cstr_tail in H. rewrite (strtoul_run _ _ _ l) by done.
    cbn. do 2 f_equal. apply Hs. unfold u32. rewrite Zmod_mod.
    rewrite <-!Z.sub_0_l. by rewrite Zminus_mod_idemp_r.
  - rewrite bool_decide_eq_false_2 by (destruct l; cbn in *; congruence).
    rewrite (strtoul_run _ _ _ l) by done. cbn [mbind option_bind]. do 2 f_equal. apply Hs.
    unfold u32. by rewrite Zmod_mod.
Qed.
