(* ===== verification/Charset.v ===== *)
(** * UTF-16 and UTF-8 (src/lib/charset.c)

    Strings of 16-bit units are in memory, two bytes each with the low one first.
    The conversions read an array and write another one: [src] is the list of the
    elements from the pointer on, the result is what they write at [dest], and
    [None] is a read behind the end of the array. *)

From stdpp Require Import base gmap list.
From Stdlib Require Import ZArith Lia.
From S2P Require Import Prelude Ctype Mem Str.
#[local] Open Scope Z_scope.

Definition load_u16 (m : mem) (a : Z) : option Z :=
  b0 ← m !! a; b1 ← m !! (a + 1); Some (b0 + 2 ^ 8 * b1).

Definition store_u16 (m : mem) (a u : Z) : option mem :=
  m ← store_byte m a (u mod 2 ^ 8); store_byte m (a + 1) (u / 2 ^ 8).

(** [i] counts units; the address of [in[i]] is [s + 2 * i]. *)
Fixpoint utf16_strlen_loop (n : nat) (m : mem) (s i : Z) : option Z :=
  match n with
  | O => None
  | S n =>
    u ← load_u16 m (s + 2 * i);
    if decide (u <> 0) then utf16_strlen_loop n m s (i + 1) else Some i
  end.

Definition utf16_strlen (s : Z) (m : mem) : option Z := utf16_strlen_loop (str_fuel m) m s 0.

Fixpoint utf16_strnlen_loop (n : nat) (m : mem) (s count i : Z) : option Z :=
  match n with
  | O => None
  | S n =>
    if decide (count = 0) then Some i
    else
      u ← load_u16 m (s + 2 * i);
      if decide (u <> 0) then utf16_strnlen_loop n m s (count - 1) (i + 1) else Some i
  end.

Definition utf16_strnlen (s count : Z) (m : mem) : option Z :=
  utf16_strnlen_loop (str_fuel m) m s count 0.

Fixpoint utf16_strcpy_loop (n : nat) (m : mem) (dest src : Z) : option mem :=
  match n with
  | O => None
  | S n =>
    u ← load_u16 m src; m ← store_u16 m dest u;
    if decide (u <> 0) then utf16_strcpy_loop n m (dest + 2) (src + 2) else Some m
  end.

Definition utf16_strcpy (dest src : Z) (m : mem) : option mem :=
  utf16_strcpy_loop (str_fuel m) m dest src.

(** ** UTF-16 to UTF-8 *)

(** The bytes that [*dest++ = ...] writes for a code point; [uint8_t] cuts them to
    eight bits. *)
Definition byte8 (x : Z) : Z := x mod 2 ^ 8.
Definition cont (x : Z) : Z := byte8 (Z.lor (Z.land x 0x3F) 0x80).
Definition utf8_2 (code : Z) : list Z := [byte8 (Z.lor (Z.shiftr code 6) 0xC0); cont code].
Definition utf8_3 (code : Z) : list Z :=
  [byte8 (Z.lor (Z.shiftr code 12) 0xE0); cont (Z.shiftr code 6); cont code].
Definition utf8_4 (code : Z) : list Z :=
  [byte8 (Z.lor (Z.shiftr code 18) 0xF0); cont (Z.shiftr code 12); cont (Z.shiftr code 6); cont code].

Definition question : Z := 63.

Fixpoint utf16_to_utf8_loop (size : nat) (code_high : Z) (src : list Z) : option (list Z) :=
  match size with
  | O => Some []
  | S size =>
    match src with
    | [] => None
    | code :: rest =>
      if decide (code_high <> 0) then
        if decide (code >= 0xDC00 /\ code <= 0xDFFF) then
          let code := u32 (Z.shiftl (code_high - 0xD800) 10 + (code - 0xDC00) + 0x10000) in
          out ← utf16_to_utf8_loop size 0 rest; Some (utf8_4 code ++ out)
        else
          (* the unit may be valid: it is read again *)
          out ← utf16_to_utf8_loop size 0 src; Some (question :: out)
      else if decide (code <= 0x007F) then
        out ← utf16_to_utf8_loop size 0 rest; Some (byte8 code :: out)
      else if decide (code <= 0x07FF) then
        out ← utf16_to_utf8_loop size 0 rest; Some (utf8_2 code ++ out)
      else if decide (code >= 0xD800 /\ code <= 0xDBFF) then
        utf16_to_utf8_loop size code rest
      else if decide (code >= 0xDC00 /\ code <= 0xDFFF) then
        out ← utf16_to_utf8_loop size 0 rest; Some (question :: out)
      else if decide (code < 0x10000) then
        out ← utf16_to_utf8_loop size 0 rest; Some (utf8_3 code ++ out)
      else
        out ← utf16_to_utf8_loop size 0 rest; Some (utf8_4 code ++ out)
    end
  end.

Definition utf16_to_utf8 (src : list Z) (size : nat) : option (list Z) :=
  utf16_to_utf8_loop size 0 src.

(** ** UTF-8 to UTF-16 *)

(** [for (; extension_bytes && size; --size, --extension_bytes) ...]: the code
    point, the rest of the source and the bytes that are left. *)
Fixpoint extension_loop (ext size : nat) (code : Z) (src : list Z) : option (Z * list Z * nat) :=
  match ext, size with
  | S ext, S size =>
    match src with
    | [] => None
    | b :: rest =>
      if decide (Z.land b 0xc0 = 0x80)
      then extension_loop ext size (Z.lor (u32 (Z.shiftl code 6)) (Z.land b 0x3f)) rest
      else Some (question, rest, size)
    end
  | _, _ => Some (code, src, size)
  end.

(** The first byte of a character: its bits, the number of extension bytes, the
    rest of the source and the new [size]. *)
Definition lead_byte (size : nat) (b : Z) (src rest : list Z) : Z * nat * list Z * nat :=
  if decide (b <= 0x7f) then (b, 0%nat, rest, if decide (b = 0) then 0%nat else size)
  else if decide (b <= 0xbf) then (question, 0%nat, src, size)
  else if decide (b <= 0xdf) then (Z.land b 0x1f, 1%nat, rest, size)
  else if decide (b <= 0xef) then (Z.land b 0x0f, 2%nat, rest, size)
  else if decide (b <= 0xf7) then (Z.land b 0x07, 3%nat, rest, size)
  else (question, 0%nat, src, size).

(** The units written for a code point. *)
Definition utf16_units (code : Z) : list Z :=
  if decide (code < 0x10000) then [code]
  else [(Z.shiftr code 10 + 0xd7c0) mod 2 ^ 16; Z.lor (Z.land code 0x3ff) 0xdc00].

(** [n] bounds the rounds; each uses at least one of the [size] bytes. *)
Fixpoint utf8_to_utf16_loop (n size : nat) (src : list Z) : option (list Z) :=
  match n, size with
  | _, O => Some []
  | O, _ => None
  | S n, S size =>
    match src with
    | [] => None
    | b :: rest =>
      let '(code, ext, src, size) := lead_byte size b src rest in
      '(code, src, size) ← extension_loop ext size code src;
      out ← utf8_to_utf16_loop n size src;
      Some (utf16_units code ++ out)
    end
  end.

Definition utf8_to_utf16 (src : list Z) (size : nat) : option (list Z) :=
  utf8_to_utf16_loop size size src.

(** ** The encodings of the Unicode standard *)

Definition scalar (c : Z) : Prop := 0 < c < 0x110000 /\ ~ (0xD800 <= c <= 0xDFFF).

Definition enc16 (c : Z) : list Z :=
  if decide (c < 0x10000) then [c]
  else [0xD800 + (c - 0x10000) / 2 ^ 10; 0xDC00 + (c - 0x10000) mod 2 ^ 10].

Definition enc8 (c : Z) : list Z :=
  if decide (c < 0x80) then [c]
  else if decide (c < 0x800) then [0xC0 + c / 2 ^ 6; 0x80 + c mod 2 ^ 6]
  else if decide (c < 0x10000) then
    [0xE0 + c / 2 ^ 12; 0x80 + (c / 2 ^ 6) mod 2 ^ 6; 0x80 + c mod 2 ^ 6]
  else
    [0xF0 + c / 2 ^ 18; 0x80 + (c / 2 ^ 12) mod 2 ^ 6; 0x80 + (c / 2 ^ 6) mod 2 ^ 6; 0x80 + c mod 2 ^ 6].

(** Setting bits above a number adds them. *)
Lemma lor_high x n k : 0 <= n -> 0 <= x < 2 ^ n -> Z.lor x (k * 2 ^ n) = x + k * 2 ^ n.
Proof.
  intros Hn Hx. rewrite <-Z.add_lor_land, <-Z.shiftl_mul_pow2 by done.
  assert (E : Z.land x (Z.shiftl k n) = 0).
  { apply Z.bits_inj'. intros i Hi. rewrite Z.land_spec, Z.bits_0.
    destruct (Z.lt_ge_cases i n).
    - rewrite Z.shiftl_spec_low by done. apply andb_false_r.
    - destruct (Z.eq_dec x 0) as [->|]; [by rewrite Z.bits_0|].
      rewrite Z.bits_above_log2; [done|lia|]. apply Z.lt_le_trans with n; [apply Z.log2_lt_pow2|]; lia. }
  rewrite E. lia.
Qed.

Lemma cont_spec x : cont x = 0x80 + x mod 2 ^ 6.
Proof.
  unfold cont, byte8. change 0x3F with (Z.ones 6). rewrite Z.land_ones by lia.
  pose proof (Z.mod_pos_bound x (2 ^ 6) ltac:(lia)). change 0x80 with (2 * 2 ^ 6).
  rewrite lor_high, Z.mod_small by lia. lia.
Qed.

Lemma lead_spec x n k : 0 <= n -> 0 <= x < 2 ^ n -> k * 2 ^ n + 2 ^ n <= 2 ^ 8 -> 0 <= k ->
  byte8 (Z.lor x (k * 2 ^ n)) = k * 2 ^ n + x.
Proof. intros. unfold byte8. rewrite lor_high, Z.mod_small by lia. lia. Qed.

Lemma utf8_codes c :
  scalar c ->
  (0x80 <= c < 0x800 -> utf8_2 c = enc8 c) /\
  (0x800 <= c < 0x10000 -> utf8_3 c = enc8 c) /\
  (0x10000 <= c -> utf8_4 c = enc8 c).
Proof.
  intros [Hc _]. unfold utf8_2, utf8_3, utf8_4, enc8. rewrite !cont_spec, !Z.shiftr_div_pow2 by lia.
  split_and!; intros Hr; repeat first [rewrite decide_True by lia|rewrite decide_False by lia].
  - change 0xC0 with (6 * 2 ^ 5) at 1. rewrite lead_spec; try lia.
    + f_equal; lia.
    + split; [apply Z.div_pos; lia|apply Z.div_lt_upper_bound; lia].
  - change 0xE0 with (14 * 2 ^ 4) at 1. rewrite lead_spec; try lia.
    + f_equal; lia.
    + split; [apply Z.div_pos; lia|apply Z.div_lt_upper_bound; lia].
  - change 0xF0 with (30 * 2 ^ 3) at 1. rewrite lead_spec; try lia.
    + f_equal; lia.
    + split; [apply Z.div_pos; lia|apply Z.div_lt_upper_bound; lia].
Qed.

(** One character is converted to UTF-8. *)
Lemma to_utf8_step c n rest :
  scalar c ->
  utf16_to_utf8_loop (length (enc16 c) + n) 0 (enc16 c ++ rest) =
    (out ← utf16_to_utf8_loop n 0 rest; Some (enc8 c ++ out)).
Proof.
  intros Hs. pose proof Hs as [Hc Hsur]. destruct (utf8_codes c Hs) as (H2 & H3 & H4).
  unfold enc16. case_decide as Hb; cbn [length plus app utf16_to_utf8_loop].
  - rewrite (decide_False (P := 0 <> 0)) by lia. case_decide as H1.
    { unfold byte8, enc8. rewrite decide_True, Z.mod_small by lia. done. }
    case_decide as Hd2; [by rewrite H2 by lia|].
    rewrite (decide_False (P := c >= 0xD800 /\ _)), (decide_False (P := c >= 0xDC00 /\ _)) by lia.
    rewrite decide_True by lia. by rewrite H3 by lia.
  - pose proof (Z.div_mod (c - 0x10000) (2 ^ 10) ltac:(lia)) as E.
    pose proof (Z.mod_pos_bound (c - 0x10000) (2 ^ 10) ltac:(lia)).
    assert (0 <= (c - 0x10000) / 2 ^ 10 < 2 ^ 10) by
      (split; [apply Z.div_pos; lia|apply Z.div_lt_upper_bound; lia]).
    set (h := (c - 0x10000) / 2 ^ 10) in *. set (l := (c - 0x10000) mod 2 ^ 10) in *.
    rewrite (decide_False (P := 0 <> 0)) by lia. rewrite (decide_False (P := 0xD800 + h <= 0x7F)) by lia.
    rewrite (decide_False (P := 0xD800 + h <= 0x7FF)) by lia.
    rewrite (decide_True (P := 0xD800 + h >= 0xD800 /\ _)) by lia.
    rewrite (decide_True (P := 0xD800 + h <> 0)) by lia. rewrite decide_True by lia.
    rewrite Z.shiftl_mul_pow2 by lia.
    replace (u32 _) with c by (rewrite u32_small; lia). by rewrite H4 by lia.
Qed.

(** An extension byte adds six bits. *)
Lemma ext_byte_bits : forall b, 0 <= b < 2 ^ 8 ->
  (Z.land b 0xc0 =? 0x80) && (Z.land b 0x3f =? b mod 2 ^ 6) = (b / 2 ^ 6 =? 2).
Proof. by_bytes. Qed.

Lemma extension_step ext size code y src :
  0 <= y < 2 ^ 6 -> 0 <= code < 2 ^ 26 ->
  extension_loop (S ext) (S size) code (0x80 + y :: src) = extension_loop ext size (code * 2 ^ 6 + y) src.
Proof.
  intros Hy Hc. cbn [extension_loop].
  assert (Hd : (0x80 + y) / 2 ^ 6 = 2) by (symmetry; apply (Z.div_unique_pos _ _ 2 y); lia).
  assert (Hm : (0x80 + y) mod 2 ^ 6 = y) by (symmetry; apply (Z.mod_unique_pos _ _ 2 y); lia).
  pose proof (ext_byte_bits (0x80 + y) ltac:(lia)) as H. rewrite Hd, Hm, Z.eqb_refl in H.
  apply andb_true_iff in H as [H1%Z.eqb_eq H2%Z.eqb_eq]. rewrite decide_True by done. rewrite H2.
  rewrite Z.shiftl_mul_pow2, u32_small, Z.lor_comm, lor_high by lia. f_equal. lia.
Qed.

(** The bits of the first byte. *)
Lemma lead_byte_bits : forall b, 0 <= b < 2 ^ 8 ->
  (implb ((0xC0 <=? b) && (b <=? 0xDF)) (Z.land b 0x1f =? b - 0xC0) &&
   implb ((0xE0 <=? b) && (b <=? 0xEF)) (Z.land b 0x0f =? b - 0xE0) &&
   implb ((0xF0 <=? b) && (b <=? 0xF7)) (Z.land b 0x07 =? b - 0xF0)) = true.
Proof. apply byte_enum. vm_compute. reflexivity. Qed.

Lemma lead2 x size src rest : 0 <= x < 2 ^ 5 ->
  lead_byte size (0xC0 + x) src rest = (x, 1%nat, rest, size).
Proof.
  intros Hx. unfold lead_byte. do 2 rewrite decide_False by lia. rewrite decide_True by lia.
  pose proof (lead_byte_bits (0xC0 + x) ltac:(lia)) as H. rewrite !andb_true_iff, !implb_true_iff in H.
  destruct H as [[H _] _]. rewrite (proj1 (Z.eqb_eq _ _) (H ltac:(lia))). do 3 f_equal. lia.
Qed.

Lemma lead3 x size src rest : 0 <= x < 2 ^ 4 ->
  lead_byte size (0xE0 + x) src rest = (x, 2%nat, rest, size).
Proof.
  intros Hx. unfold lead_byte. do 3 rewrite decide_False by lia. rewrite decide_True by lia.
  pose proof (lead_byte_bits (0xE0 + x) ltac:(lia)) as H. rewrite !andb_true_iff, !implb_true_iff in H.
  destruct H as [[_ H] _]. rewrite (proj1 (Z.eqb_eq _ _) (H ltac:(lia))). do 3 f_equal. lia.
Qed.

Lemma lead4 x size src rest : 0 <= x < 2 ^ 3 ->
  lead_byte size (0xF0 + x) src rest = (x, 3%nat, rest, size).
Proof.
  intros Hx. unfold lead_byte. do 4 rewrite decide_False by lia. rewrite decide_True by lia.
  pose proof (lead_byte_bits (0xF0 + x) ltac:(lia)) as H. rewrite !andb_true_iff, !implb_true_iff in H.
  destruct H as [_ H]. rewrite (proj1 (Z.eqb_eq _ _) (H ltac:(lia))). do 3 f_equal. lia.
Qed.

Lemma utf16_units_spec c : scalar c -> utf16_units c = enc16 c.
Proof.
  intros [Hc _]. unfold utf16_units, enc16. case_decide; [done|].
  rewrite Z.shiftr_div_pow2 by lia. change 0x3ff with (Z.ones 10). rewrite Z.land_ones by lia.
  pose proof (Z.mod_pos_bound c (2 ^ 10) ltac:(lia)).
  assert (E : c = c - 0x10000 + 64 * 2 ^ 10) by lia.
  assert (E1 : c / 2 ^ 10 = (c - 0x10000) / 2 ^ 10 + 64) by (rewrite E at 1; apply Z.div_add; lia).
  assert (E2 : c mod 2 ^ 10 = (c - 0x10000) mod 2 ^ 10) by (rewrite E at 1; apply Z.mod_add; lia).
  assert (0 <= (c - 0x10000) / 2 ^ 10 < 2 ^ 10) by
    (split; [apply Z.div_pos; lia|apply Z.div_lt_upper_bound; lia]).
  change 0xdc00 with (55 * 2 ^ 10). rewrite lor_high by lia.
  rewrite E1, E2, Z.mod_small by lia. f_equal; [lia|f_equal; lia].
Qed.

Lemma ext0 size code src : extension_loop 0 size code src = Some (code, src, size).
Proof. by destruct size. Qed.

(** One character is converted to UTF-16. *)
Lemma to_utf16_step c n size rest :
  scalar c -> (length (enc8 c) + size <= n)%nat ->
  exists n', (size <= n')%nat /\ utf8_to_utf16_loop n (length (enc8 c) + size) (enc8 c ++ rest) =
    (out ← utf8_to_utf16_loop n' size rest; Some (enc16 c ++ out)).
Proof.
  intros Hs Hn. pose proof Hs as [Hc _]. destruct n as [|n]; [unfold enc8 in Hn; repeat case_decide; simpl in Hn; lia|].
  exists n. rewrite <-(utf16_units_spec c Hs).
  pose proof (Z.mod_pos_bound c (2 ^ 6) ltac:(lia)). pose proof (Z.mod_pos_bound (c / 2 ^ 6) (2 ^ 6) ltac:(lia)).
  pose proof (Z.mod_pos_bound (c / 2 ^ 12) (2 ^ 6) ltac:(lia)).
  pose proof (Z.div_mod c (2 ^ 6) ltac:(lia)). pose proof (Z.div_mod (c / 2 ^ 6) (2 ^ 6) ltac:(lia)).
  pose proof (Z.div_mod (c / 2 ^ 12) (2 ^ 6) ltac:(lia)).
  assert (E12 : c / 2 ^ 12 = c / 2 ^ 6 / 2 ^ 6) by (rewrite Z.div_div by lia; done).
  assert (E18 : c / 2 ^ 18 = c / 2 ^ 12 / 2 ^ 6) by (rewrite Z.div_div by lia; done).
  assert (Hpos : 0 <= c / 2 ^ 18) by (apply Z.div_pos; lia).
  revert Hn. unfold enc8. repeat case_decide; cbn [length plus app utf8_to_utf16_loop]; intros Hn; (split; [lia|]).
  - unfold lead_byte. rewrite decide_True, decide_False by lia. by rewrite ext0.
  - rewrite lead2, extension_step, ext0 by lia. cbn [mbind option_bind].
    replace (c / 2 ^ 6 * 2 ^ 6 + c mod 2 ^ 6) with c by lia. done.
  - rewrite lead3, !extension_step, ext0 by lia. cbn [mbind option_bind].
    replace ((c / 2 ^ 12 * 2 ^ 6 + (c / 2 ^ 6) mod 2 ^ 6) * 2 ^ 6 + c mod 2 ^ 6) with c by lia. done.
  - rewrite lead4, !extension_step, ext0 by lia. cbn [mbind option_bind].
    replace (((c / 2 ^ 18 * 2 ^ 6 + (c / 2 ^ 12) mod 2 ^ 6) * 2 ^ 6 + (c / 2 ^ 6) mod 2 ^ 6) * 2 ^ 6 + c mod 2 ^ 6)
      with c by lia. done.
Qed.

(** C29: Converting a text to UTF-8 and back is the identity: [utf16_to_utf8] of the
    UTF-16 form of a sequence of Unicode characters is its UTF-8 form, and
    [utf8_to_utf16] of that gives the UTF-16 form again. *)
Theorem utf_roundtrip cs :
  Forall scalar cs ->
  let s16 := concat (enc16 <$> cs) in
  let s8 := concat (enc8 <$> cs) in
  utf16_to_utf8 s16 (length s16) = Some s8 /\ utf8_to_utf16 s8 (length s8) = Some s16.
Proof.
  intros H. cbn zeta. unfold utf16_to_utf8, utf8_to_utf16. split.
  - induction H as [|c cs Hc _ IH]; [done|]. rewrite !fmap_cons. cbn [concat].
    rewrite length_app, to_utf8_step by done. by rewrite IH.
  - set (n := length (concat (enc8 <$> cs))) at 1. assert (Hn : (length (concat (enc8 <$> cs)) <= n)%nat) by done.
    clearbody n. revert n Hn. induction H as [|c cs Hc _ IH]; intros n Hn; [by destruct n|].
    rewrite !fmap_cons in *. cbn [concat] in *. rewrite length_app in *.
    destruct (to_utf16_step c n (length (concat (enc8 <$> cs))) (concat (enc8 <$> cs)) Hc Hn) as (n' & Hn' & ->).
    by rewrite IH.
Qed.

(** U+0041, U+00E9, U+20AC and U+1F600. *)
Lemma utf_roundtrip_witness :
  Forall scalar [0x41; 0xE9; 0x20AC; 0x1F600] /\
  utf16_to_utf8 [0x41; 0xE9; 0x20AC; 0xD83D; 0xDE00] 5 =
    Some [0x41; 0xC3; 0xA9; 0xE2; 0x82; 0xAC; 0xF0; 0x9F; 0x98; 0x80] /\
  utf8_to_utf16 [0x41; 0xC3; 0xA9; 0xE2; 0x82; 0xAC; 0xF0; 0x9F; 0x98; 0x80] 10 =
    Some [0x41; 0xE9; 0x20AC; 0xD83D; 0xDE00].
Proof.
  assert (H : Forall scalar [0x41; 0xE9; 0x20AC; 0x1F600]) by (repeat constructor; lia).
  split; [done|]. exact (utf_roundtrip _ H).
Defined.

(** A byte that starts no character is not skipped: it is converted again and
    again until [size] is used up, and what follows it is lost. *)
Theorem utf8_illegal_stuck : utf8_to_utf16 [0x80; 0x41; 0x42] 3 = Some [question; question; question].
Proof. reflexivity. Qed.
