(* ===== verification/Vsprintf.v ===== *)
(** * Formatted output (src/lib/vsprintf.c)

    [vsnprintf_internal] reads a format in memory and writes the text into a buffer
    that ends at [end]; a character that does not fit is counted and not written.
    The state of the output is the pointer [str] and the memory.  The arguments of
    the variable argument list are a list; taking an argument of another type than
    the one that was passed has no defined result ([None]). *)

From stdpp Require Import base gmap list.
From Stdlib Require Import ZArith Znumtheory Lia.
From S2P Require Import Prelude Bitops Div64 Ctype Mem Str Strto Charset.
#[local] Open Scope Z_scope.

(** [int], [unsigned] and [long] have 32 bits and are passed alike; the other
    arguments are 64-bit numbers, strings and the targets of %n. *)
Inductive va_arg :=
  | A_int (x : Z)
  | A_llong (x : Z)
  | A_str (p : Z)
  | A_str16 (p : Z)
  | A_out (p : Z).

Definition is_digit (c : Z) : bool := (48 <=? c) && (c <=? 57).

(** The value and the place behind it: [i = i * 10 + *(( *s)++) - '0']. *)
Fixpoint skip_atoi (n : nat) (m : mem) (s i : Z) : option (Z * Z) :=
  match n with
  | O => None
  | S n => c ← m !! s; if is_digit c then skip_atoi n m (s + 1) (s32 (i * 10 + c - 48)) else Some (i, s)
  end.

(** ** Decimal digits

    The digits go to the array [tmp], the least significant first; it is the list
    of its elements. *)

(** Formats an integer in [[0, 99999]] with one to five digits. *)
Definition put_dec_trunc (buf : list Z) (q : Z) : list Z :=
  let d1 := Z.land (Z.shiftr q 4) 0xf in
  let d2 := Z.land (Z.shiftr q 8) 0xf in
  let d3 := Z.shiftr q 12 in
  let d0 := u32 (6 * (d3 + d2 + d1) + Z.land q 0xf) in
  let q := Z.shiftr (u32 (d0 * 0xcd)) 11 in
  let d0 := u32 (d0 - 10 * q) in
  let buf := buf ++ [d0 + 48] in
  let d1 := u32 (q + 9 * d3 + 5 * d2 + d1) in
  if decide (d1 <> 0) then
    let q := Z.shiftr (u32 (d1 * 0xcd)) 11 in
    let d1 := u32 (d1 - 10 * q) in
    let buf := buf ++ [d1 + 48] in
    let d2 := u32 (q + 2 * d2) in
    if decide (d2 <> 0 \/ d3 <> 0) then
      let q := Z.shiftr (u32 (d2 * 0xd)) 7 in
      let d2 := u32 (d2 - 10 * q) in
      let buf := buf ++ [d2 + 48] in
      let d3 := u32 (q + 4 * d3) in
      if decide (d3 <> 0) then
        let q := Z.shiftr (u32 (d3 * 0xcd)) 11 in
        let d3 := u32 (d3 - 10 * q) in
        let buf := buf ++ [d3 + 48] in
        if decide (q <> 0) then buf ++ [q + 48] else buf
      else buf
    else buf
  else buf.

(** The same with five digits in any case. *)
Definition put_dec_full (buf : list Z) (q : Z) : list Z :=
  let d1 := Z.land (Z.shiftr q 4) 0xf in
  let d2 := Z.land (Z.shiftr q 8) 0xf in
  let d3 := Z.shiftr q 12 in
  let d0 := u32 (6 * (d3 + d2 + d1) + Z.land q 0xf) in
  let q := Z.shiftr (u32 (d0 * 0xcd)) 11 in
  let d0 := u32 (d0 - 10 * q) in
  let buf := buf ++ [d0 + 48] in
  let d1 := u32 (q + 9 * d3 + 5 * d2 + d1) in
  let q := Z.shiftr (u32 (d1 * 0xcd)) 11 in
  let d1 := u32 (d1 - 10 * q) in
  let buf := buf ++ [d1 + 48] in
  let d2 := u32 (q + 2 * d2) in
  let q := Z.shiftr (u32 (d2 * 0xd)) 7 in
  let d2 := u32 (d2 - 10 * q) in
  let buf := buf ++ [d2 + 48] in
  let d3 := u32 (q + 4 * d3) in
  let q := Z.shiftr (u32 (d3 * 0xcd)) 11 in
  let d3 := u32 (d3 - 10 * q) in
  let buf := buf ++ [d3 + 48] in
  buf ++ [q + 48].

(** A 64-bit number is used up after four divisions by 100000. *)
Fixpoint put_dec (n : nat) (buf : list Z) (num : Z) : option (list Z) :=
  match n with
  | O => None
  | S n =>
    if decide (num < 100000) then Some (put_dec_trunc buf num)
    else '(num, rem) ← do_div true num 100000; put_dec n (put_dec_full buf rem) num
  end.

(** ** Numbers *)

Definition ZEROPAD : Z := 1.
Definition SIGN : Z := 2.
Definition PLUS : Z := 4.
Definition SPACE : Z := 8.
Definition LEFT : Z := 16.
Definition SMALL : Z := 32.
Definition SPECIAL : Z := 64.

Definition flag (type f : Z) : bool := negb (Z.land type f =? 0).

(** Where the text goes: the pointer and the memory. *)
Definition out : Type := Z * mem.

(** [ADDCH(str, ch)]. *)
Definition addch (e ch : Z) (o : out) : option out :=
  let '(str, m) := o in
  if decide (str < e) then m ← store_byte m str (ch mod 2 ^ 8); Some (str + 1, m)
  else Some (str + 1, m).

(** A loop that adds the same character [count] times. *)
Definition addrep (e count ch : Z) (o : out) : option out :=
  Nat.iter (Z.to_nat count) (fun r => o ← r; addch e ch o) (Some o).

(** A loop that adds the elements of an array. *)
Fixpoint addlist (e : Z) (l : list Z) (o : out) : option out :=
  match l with
  | [] => Some o
  | c :: l => o ← addch e c o; addlist e l o
  end.

(** [while (--size >= 0)] runs [size] times and leaves [size] negative. *)
Definition spent (size : Z) : Z := if decide (0 <= size) then -1 else size - 1.

Definition digits : list Z := [48; 49; 50; 51; 52; 53; 54; 55; 56; 57; 65; 66; 67; 68; 69; 70].

(** [do { tmp[i++] = digits[num & mask] | locase; num >>= shift; } while (num);] *)
Fixpoint put_pow (n : nat) (buf : list Z) (num mask shift locase : Z) : option (list Z) :=
  match n with
  | O => None
  | S n =>
    d ← digits !! Z.to_nat (Z.land (num mod 2 ^ 8) mask);
    let buf := buf ++ [Z.lor d locase] in
    let num := Z.shiftr num shift in
    if decide (num <> 0) then put_pow n buf num mask shift locase else Some buf
  end.

(** The string of digits in [tmp], in reverse order. *)
Definition num_tmp (num base locase : Z) : option (list Z) :=
  if decide (num = 0) then Some [48]
  else if decide (base <> 10) then
    let mask := base - 1 in
    let shift := if decide (base = 16) then 4 else 3 in
    put_pow 22 [] num mask shift locase
  else put_dec 5 [] num.

Definition number (e num base size precision type : Z) (o : out) : option out :=
  let need_pfx := flag type SPECIAL && negb (base =? 10) in
  let locase := Z.land type SMALL in
  let type := if flag type LEFT then Z.land type (Z.lnot ZEROPAD) else type in
  let '(sign, num, size) :=
    if flag type SIGN then
      if decide (s64 num < 0) then (45, u64 (- s64 num), size - 1)
      else if flag type PLUS then (43, num, size - 1)
      else if flag type SPACE then (32, num, size - 1)
      else (0, num, size)
    else (0, num, size) in
  let size := if need_pfx then (if decide (base = 16) then size - 2 else size - 1) else size in
  tmp ← num_tmp num base locase;
  let i := Z.of_nat (length tmp) in
  let precision := if decide (i > precision) then i else precision in
  let size := size - precision in
  '(size, o) ←
    (if flag type (ZEROPAD + LEFT) then Some (size, o)
     else o ← addrep e size 32 o; Some (spent size, o));
  o ← (if decide (sign <> 0) then addch e sign o else Some o);
  o ← (if need_pfx then
         o ← addch e 48 o;
         if decide (base = 16) then addch e (Z.lor 88 locase) o else Some o
       else Some o);
  '(size, o) ←
    (if flag type LEFT then Some (size, o)
     else
       let c := if flag type ZEROPAD then 48 else 32 in
       o ← addrep e size c o; Some (spent size, o));
  o ← addrep e (precision - i) 48 o;
  o ← addlist e (reverse tmp) o;
  addrep e size 32 o.

(** ** Strings *)

(** The text of a NULL pointer, ["<NULL>"]. *)
Definition null_text : list Z := [60; 78; 85; 76; 76; 62].

(** [for (i = 0; i < len; ++i) ADDCH(buf, *s++);]: each character is read from the
    memory as it is then. *)
Fixpoint addmem (e : Z) (len : nat) (s : Z) (o : out) : option out :=
  match len with
  | O => Some o
  | S len => c ← snd o !! s; o ← addch e c o; addmem e len (s + 1) o
  end.

Definition string (e s field_width precision flags : Z) (o : out) : option out :=
  len ← (if decide (s = 0) then Some (Z.min (u32 precision) 6) else strnlen s (u32 precision) (snd o));
  '(field_width, o) ←
    (if flag flags LEFT then Some (field_width, o)
     else o ← addrep e (field_width - len) 32 o; Some (Z.min field_width len - 1, o));
  o ← (if decide (s = 0) then addlist e (take (Z.to_nat len) null_text) o
       else addmem e (Z.to_nat len) s o);
  addrep e (field_width - len) 32 o.

(** The [n] units at [s]. *)
Fixpoint units (m : mem) (n : nat) (s : Z) : option (list Z) :=
  match n with
  | O => Some []
  | S n => u ← load_u16 m s; us ← units m n (s + 2); Some (u :: us)
  end.

(** The wide string of a NULL pointer is not modelled: its characters have four
    bytes and are read as units of two. *)
Definition string16 (e s field_width precision flags : Z) (o : out) : option out :=
  if decide (s = 0) then None
  else
    utf16_len ← utf16_strnlen s (u32 precision) (snd o);
    str ← units (snd o) (Z.to_nat utf16_len) s;
    utf8 ← utf16_to_utf8 str (Z.to_nat utf16_len);
    let utf8_len := Z.of_nat (length utf8) in
    '(field_width, o) ←
      (if flag flags LEFT then Some (field_width, o)
       else o ← addrep e (field_width - utf8_len) 32 o; Some (Z.min field_width utf8_len - 1, o));
    o ← addlist e utf8 o;
    addrep e (field_width - utf8_len) 32 o.

(** ** The format *)

Definition va_int (args : list va_arg) : option (Z * list va_arg) :=
  match args with A_int x :: args => Some (s32 x, args) | _ => None end.

(** The flags after '%': '-', '+', ' ', '#' and '0'. *)
Fixpoint fmt_flags (n : nat) (m : mem) (fmt flags : Z) : option (Z * Z) :=
  match n with
  | O => None
  | S n =>
    let fmt := fmt + 1 in
    c ← m !! fmt;
    if decide (c = 45) then fmt_flags n m fmt (Z.lor flags LEFT)
    else if decide (c = 43) then fmt_flags n m fmt (Z.lor flags PLUS)
    else if decide (c = 32) then fmt_flags n m fmt (Z.lor flags SPACE)
    else if decide (c = 35) then fmt_flags n m fmt (Z.lor flags SPECIAL)
    else if decide (c = 48) then fmt_flags n m fmt (Z.lor flags ZEROPAD)
    else Some (flags, fmt)
  end.

(** The field width, the flags, the place in the format and the arguments left. *)
Definition fmt_width (m : mem) (fmt flags : Z) (args : list va_arg) : option (Z * Z * Z * list va_arg) :=
  c ← m !! fmt;
  if is_digit c then '(w, fmt) ← skip_atoi (str_fuel m) m fmt 0; Some (w, flags, fmt, args)
  else if decide (c = 42) then
    '(w, args) ← va_int args;
    Some (if decide (w < 0) then (s32 (- w), Z.lor flags LEFT, fmt + 1, args) else (w, flags, fmt + 1, args))
  else Some (-1, flags, fmt, args).

Definition fmt_precision (m : mem) (fmt : Z) (args : list va_arg) : option (Z * Z * list va_arg) :=
  c ← m !! fmt;
  if decide (c = 46) then
    let fmt := fmt + 1 in
    c ← m !! fmt;
    '(p, fmt, args) ←
      (if is_digit c then '(p, fmt) ← skip_atoi (str_fuel m) m fmt 0; Some (p, fmt, args)
       else if decide (c = 42) then '(p, args) ← va_int args; Some (p, fmt + 1, args)
       else Some (-1, fmt, args));
    Some (Z.max p 0, fmt, args)
  else Some (-1, fmt, args).

(** The qualifier: a character, or -1. *)
Definition fmt_qualifier (m : mem) (fmt : Z) : option (Z * Z) :=
  c ← m !! fmt;
  if decide (c ∈ [104; 108; 76; 90; 122; 116]) then
    let fmt := fmt + 1 in
    if decide (c = 108) then
      c2 ← m !! fmt; Some (if decide (c2 = 108) then (76, fmt + 1) else (108, fmt))
    else Some (c, fmt)
  else Some (-1, fmt).

(** The number of a numeric conversion, as a 64-bit unsigned one. *)
Definition va_num (qualifier flags : Z) (args : list va_arg) : option (Z * list va_arg) :=
  if decide (qualifier = 76) then
    match args with A_llong x :: args => Some (u64 x, args) | _ => None end
  else
    '(x, args) ← va_int args;
    let num :=
      if decide (qualifier = 90 \/ qualifier = 122) then u32 x
      else if decide (qualifier = 116) then u64 x
      else if decide (qualifier = 104) then
        if flag flags SIGN then u64 ((x + 2 ^ 15) mod 2 ^ 16 - 2 ^ 15) else x mod 2 ^ 16
      else if flag flags SIGN then u64 x else u32 x in
    Some (num, args).

(** One conversion, from the conversion character [c] at [fmt]: the output, the
    place of the last character used, and the arguments left. *)
Definition convert (e buf fmt c flags field_width precision qualifier : Z) (args : list va_arg) (o : out)
    : option (out * Z * list va_arg) :=
  let numeric (base flags : Z) :=
    '(num, args) ← va_num qualifier flags args;
    o ← number e num base field_width precision flags o;
    Some (o, fmt, args) in
  if decide (c = 99) then
    '(w, o) ←
      (if flag flags LEFT then Some (field_width, o)
       else o ← addrep e (field_width - 1) 32 o; Some (Z.min (field_width - 1) 0, o));
    '(x, args) ← va_int args;
    o ← addch e x o;
    o ← addrep e (w - 1) 32 o;
    Some (o, fmt, args)
  else if decide (c = 115) then
    if decide (qualifier = 108) then
      match args with
      | A_str16 p :: args => o ← string16 e p field_width precision flags o; Some (o, fmt, args)
      | _ => None
      end
    else
      match args with
      | A_str p :: args => o ← string e p field_width precision flags o; Some (o, fmt, args)
      | _ => None
      end
  else if decide (c = 110) then
    match args with
    | A_out p :: args => m ← store_word (snd o) p (u32 (fst o - buf)); Some ((fst o, m), fmt, args)
    | _ => None
    end
  else if decide (c = 37) then o ← addch e 37 o; Some (o, fmt, args)
  else if decide (c = 111) then numeric 8 flags
  else if decide (c = 120) then numeric 16 (Z.lor flags SMALL)
  else if decide (c = 88) then numeric 16 flags
  else if decide (c = 100 \/ c = 105) then numeric 10 (Z.lor flags SIGN)
  else if decide (c = 117) then numeric 10 flags
  else
    o ← addch e 37 o;
    if decide (c <> 0) then o ← addch e c o; Some (o, fmt, args) else Some (o, fmt - 1, args).

(** The fields between the '%' and the conversion character: the flags, the width,
    the precision, the qualifier, the place and the arguments left. *)
Definition fmt_spec (m : mem) (fmt : Z) (args : list va_arg) : option (Z * Z * Z * Z * Z * list va_arg) :=
  '(flags, fmt) ← fmt_flags (str_fuel m) m fmt 0;
  '(field_width, flags, fmt, args) ← fmt_width m fmt flags args;
  '(precision, fmt, args) ← fmt_precision m fmt args;
  '(qualifier, fmt) ← fmt_qualifier m fmt;
  Some (flags, field_width, precision, qualifier, fmt, args).

(** A conversion specification, from its '%' on. *)
Definition specifier (e buf fmt : Z) (args : list va_arg) (o : out) : option (out * Z * list va_arg) :=
  '(flags, field_width, precision, qualifier, fmt, args) ← fmt_spec (snd o) fmt args;
  c ← snd o !! fmt;
  convert e buf fmt c flags field_width precision qualifier args o.

Fixpoint vs_loop (n : nat) (e buf fmt : Z) (args : list va_arg) (o : out) : option out :=
  match n with
  | O => None
  | S n =>
    c ← snd o !! fmt;
    if decide (c = 0) then Some o
    else if decide (c <> 37) then o ← addch e c o; vs_loop n e buf (fmt + 1) args o
    else '(o, fmt, args) ← specifier e buf fmt args o; vs_loop n e buf (fmt + 1) args o
  end.

(** The result is the length of the text and the memory.  An [end] that wraps
    around is moved to the last address. *)
Definition vsnprintf_internal (buf size fmt : Z) (args : list va_arg) (m : mem) : option (Z * mem) :=
  let e := u32 (buf + size) in
  let '(e, size) := if decide (e < buf) then (2 ^ 32 - 1, 2 ^ 32 - 1 - buf) else (e, size) in
  '(str, m) ← vs_loop (str_fuel m) e buf fmt args (buf, m);
  if decide (size > 0) then
    '(str, m) ← addch e 0 (str, m);
    m ← (if decide (str > e) then store_byte m (e - 1) 0 else Some m);
    Some (str - 1 - buf, m)
  else Some (str - buf, m).

Definition vsnprintf (buf size fmt : Z) (args : list va_arg) (m : mem) : option (Z * mem) :=
  vsnprintf_internal buf size fmt args m.

(** The comparison [i < size] is unsigned. *)
Definition vscnprintf (buf size fmt : Z) (args : list va_arg) (m : mem) : option (Z * mem) :=
  '(i, m) ← vsnprintf buf size fmt args m;
  Some (if decide (u32 i < size) then i else if decide (size <> 0) then s32 (size - 1) else 0, m).

Definition snprintf (buf size fmt : Z) (args : list va_arg) (m : mem) : option (Z * mem) :=
  vsnprintf buf size fmt args m.

Definition scnprintf (buf size fmt : Z) (args : list va_arg) (m : mem) : option (Z * mem) :=
  vscnprintf buf size fmt args m.

Definition INT_MAX : Z := 2 ^ 31 - 1.

Definition vsprintf (buf fmt : Z) (args : list va_arg) (m : mem) : option (Z * mem) :=
  vsnprintf_internal buf INT_MAX fmt args m.

Definition sprintf (buf fmt : Z) (args : list va_arg) (m : mem) : option (Z * mem) :=
  vsprintf buf fmt args m.

(** ** The rest *)

(** [do { *p-- = '0' + i % 10; i /= 10; } while (i > 0);] with the array [local] at
    its address; ten digits are enough for 32 bits. *)
Fixpoint itoa_loop (n : nat) (p i : Z) (m : mem) : option (Z * mem) :=
  match n with
  | O => None
  | S n =>
    m ← store_byte m p (48 + i mod 10);
    let i := i / 10 in
    if decide (i > 0) then itoa_loop n (p - 1) i m else Some (p, m)
  end.

Definition simple_itoa (local i : Z) (m : mem) : option (Z * mem) :=
  m ← store_byte m (local + 21) 0; itoa_loop 10 (local + 20) i m.

(** The result and [*num]. *)
Definition str2off (p : Z) (m : mem) : option (bool * Z) :=
  '(num, endptr) ← simple_strtoull p 16 m;
  c ← m !! p;
  if decide (c = 0) then Some (false, num) else c ← m !! endptr; Some (bool_decide (c = 0), num).

Definition str2long (p : Z) (m : mem) : option (bool * Z) :=
  '(num, endptr) ← simple_strtoul p 16 m;
  c ← m !! p;
  if decide (c = 0) then Some (false, num) else c ← m !! endptr; Some (bool_decide (c = 0), num).

(** ** A run: ["%5d|%-4x|%s"] with -42, 0xbe and "ok" into a buffer of 32 bytes. *)
Definition sample_fmt : list Z := [37; 53; 100; 124; 37; 45; 52; 120; 124; 37; 115].
Definition sample_vs : mem :=
  store_list (str_mem 16 [sample_fmt; [111; 107]]) 64 (replicate 32 0).

Example vsnprintf_runs :
  (fst <$> vsnprintf 64 32 16 [A_int (-42); A_int 0xbe; A_str 28] sample_vs) = Some 13 /\
  ('(_, m) ← vsnprintf 64 32 16 [A_int (-42); A_int 0xbe; A_str 28] sample_vs;
   mapM (fun i => m !! (64 + Z.of_nat i)) (seq 0 14)) =
    Some [32; 32; 45; 52; 50; 124; 98; 101; 32; 32; 124; 111; 107; 0].
Proof. split; vm_compute; reflexivity. Qed.

(** ** Digits

    A number and its digits, the least significant first. *)

Fixpoint rev_value (base : Z) (l : list Z) : Z :=
  match l with
  | [] => 0
  | c :: l => digit_value c + base * rev_value base l
  end.

Lemma rev_value_app base l1 l2 :
  rev_value base (l1 ++ l2) = rev_value base l1 + base ^ Z.of_nat (length l1) * rev_value base l2.
Proof.
  induction l1 as [|c l1 IH]; cbn [app rev_value length]; [rewrite Z.mul_1_l; lia|].
  rewrite IH, Nat2Z.inj_succ, Z.pow_succ_r by lia. lia.
Qed.

Lemma num_value_snoc base l c : num_value base (l ++ [c]) = num_value base l * base + digit_value c.
Proof. unfold num_value. by rewrite foldl_app. Qed.

Lemma num_value_reverse base l : num_value base (reverse l) = rev_value base l.
Proof.
  induction l as [|c l IH]; [done|]. rewrite reverse_cons, num_value_snoc, IH. cbn [rev_value]. lia.
Qed.

Lemma decimal_digit d : 0 <= d < 10 -> digit_value (d + 48) = d /\ digit_of 10 (d + 48) = true.
Proof.
  intros Hd. assert (E : isdigit (d + 48) = true) by (rewrite isdigit_spec; lia).
  assert (Hv : digit_value (d + 48) = d) by (unfold digit_value; rewrite E; unfold ch_0; lia).
  split; [done|]. unfold digit_of. rewrite Hv, isxdigit_spec, E by lia. cbn [orb andb]. lia.
Qed.

(** Division by ten with a multiplication and a shift. *)
Lemma div10_cd x : 0 <= x <= 1000 -> Z.shiftr (u32 (x * 0xcd)) 11 = x / 10.
Proof.
  intros Hx. rewrite u32_small by lia. rewrite Z.shiftr_div_pow2 by lia.
  pose proof (Z.div_mod x 10). pose proof (Z.mod_pos_bound x 10).
  symmetry. apply (Z.div_unique_pos _ _ (x / 10) (x * 205 - 2048 * (x / 10))); lia.
Qed.

Lemma div10_d x : 0 <= x <= 68 -> Z.shiftr (u32 (x * 0xd)) 7 = x / 10.
Proof.
  intros Hx. rewrite u32_small by lia. rewrite Z.shiftr_div_pow2 by lia.
  pose proof (Z.div_mod x 10). pose proof (Z.mod_pos_bound x 10).
  symmetry. apply (Z.div_unique_pos _ _ (x / 10) (x * 13 - 128 * (x / 10))); lia.
Qed.

Lemma sub10 x : 0 <= x < 2 ^ 32 -> u32 (x - 10 * (x / 10)) = x mod 10.
Proof.
  intros Hx. pose proof (Z.mod_pos_bound x 10). rewrite <-Z.mod_eq by lia. apply u32_small. lia.
Qed.

(** The hexadecimal digits of a number below 100000. *)
Lemma nibbles q : 0 <= q < 100000 ->
  exists d3 d2 d1 d0, Z.land (Z.shiftr q 4) 0xf = d1 /\ Z.land (Z.shiftr q 8) 0xf = d2 /\
    Z.shiftr q 12 = d3 /\ Z.land q 0xf = d0 /\
    q = 4096 * d3 + 256 * d2 + 16 * d1 + d0 /\
    0 <= d3 <= 24 /\ 0 <= d2 < 16 /\ 0 <= d1 < 16 /\ 0 <= d0 < 16.
Proof.
  intros Hq. change 0xf with (Z.ones 4). rewrite !Z.land_ones, !Z.shiftr_div_pow2 by lia.
  do 4 eexists. do 4 (split; [reflexivity|]).
  pose proof (Z.div_mod q (2 ^ 4)). pose proof (Z.mod_pos_bound q (2 ^ 4)).
  assert (E8 : q / 2 ^ 8 = q / 2 ^ 4 / 2 ^ 4) by (rewrite Z.div_div by lia; done).
  assert (E12 : q / 2 ^ 12 = q / 2 ^ 4 / 2 ^ 4 / 2 ^ 4) by (rewrite !Z.div_div by lia; done).
  rewrite E8, E12.
  pose proof (Z.div_mod (q / 2 ^ 4) (2 ^ 4)). pose proof (Z.mod_pos_bound (q / 2 ^ 4) (2 ^ 4)).
  pose proof (Z.div_mod (q / 2 ^ 4 / 2 ^ 4) (2 ^ 4)). pose proof (Z.mod_pos_bound (q / 2 ^ 4 / 2 ^ 4) (2 ^ 4)).
  lia.
Qed.

(** The digits that the two functions put. *)
Definition good_digits (base : Z) (l : list Z) (q : Z) : Prop :=
  rev_value base l = q /\ Forall (fun c => 0 < c < 2 ^ 8 /\ digit_of base c = true) l.

Lemma good_dec d : 0 <= d < 10 -> 0 < d + 48 < 2 ^ 8 /\ digit_of 10 (d + 48) = true.
Proof. intros Hd. split; [lia|]. by apply decimal_digit. Qed.

Lemma dec_list l :
  Forall (fun d => 0 <= d < 10) l -> good_digits 10 ((fun d => d + 48) <$> l) (foldr (fun d v => d + 10 * v) 0 l).
Proof.
  induction 1 as [|d l Hd _ [IH1 IH2]]; [by split|]. rewrite fmap_cons. split.
  - cbn [rev_value foldr]. rewrite IH1. destruct (decimal_digit d Hd) as [-> _]. done.
  - constructor; [by apply good_dec|done].
Qed.

(** One decimal step of the two functions. *)
Lemma put_dec_steps q :
  0 <= q < 100000 ->
  exists x0 x1 x2 x3 d2 d3,
    Z.land (Z.shiftr q 8) 0xf = d2 /\ Z.shiftr q 12 = d3 /\
    u32 (6 * (d3 + d2 + Z.land (Z.shiftr q 4) 0xf) + Z.land q 0xf) = x0 /\
    u32 (x0 / 10 + 9 * d3 + 5 * d2 + Z.land (Z.shiftr q 4) 0xf) = x1 /\
    u32 (x1 / 10 + 2 * d2) = x2 /\ u32 (x2 / 10 + 4 * d3) = x3 /\
    0 <= x0 <= 1000 /\ 0 <= x1 <= 1000 /\ 0 <= x2 <= 68 /\ 0 <= x3 <= 1000 /\ 0 <= d3 /\ 0 <= d2 /\
    x3 / 10 < 10 /\
    x0 mod 10 + 10 * (x1 mod 10 + 10 * (x2 mod 10 + 10 * (x3 mod 10 + 10 * (x3 / 10)))) = q /\
    9 * d3 + 5 * d2 <= x1 /\ x2 = x1 / 10 + 2 * d2 /\ x3 = x2 / 10 + 4 * d3.
Proof.
  intros Hq. destruct (nibbles q Hq) as (d3 & d2 & d1 & d0 & -> & -> & -> & -> & E & H3 & H2 & H1 & H0).
  remember (6 * (d3 + d2 + d1) + d0) as x0 eqn:Ex0.
  pose proof (Z.div_mod x0 10 ltac:(lia)). pose proof (Z.mod_pos_bound x0 10 ltac:(lia)).
  remember (x0 / 10 + 9 * d3 + 5 * d2 + d1) as x1 eqn:Ex1.
  pose proof (Z.div_mod x1 10 ltac:(lia)). pose proof (Z.mod_pos_bound x1 10 ltac:(lia)).
  remember (x1 / 10 + 2 * d2) as x2 eqn:Ex2.
  pose proof (Z.div_mod x2 10 ltac:(lia)). pose proof (Z.mod_pos_bound x2 10 ltac:(lia)).
  remember (x2 / 10 + 4 * d3) as x3 eqn:Ex3.
  pose proof (Z.div_mod x3 10 ltac:(lia)). pose proof (Z.mod_pos_bound x3 10 ltac:(lia)).
  exists x0, x1, x2, x3, d2, d3. do 2 (split; [done|]).
  rewrite <-Ex0, <-Ex1, <-Ex2, <-Ex3, !u32_small by lia. split_and!; lia.
Qed.

Lemma put_dec_full_run buf q :
  0 <= q < 100000 ->
  exists l, put_dec_full buf q = buf ++ l /\ length l = 5%nat /\ good_digits 10 l q.
Proof.
  intros Hq. destruct (put_dec_steps q Hq) as
    (x0 & x1 & x2 & x3 & d2 & d3 & E2 & E3 & E0 & E1 & E2' & E3' & H0 & H1 & H2 & H3 & Hd3 & Hd2 & Hlt & Ev & _).
  unfold put_dec_full. rewrite E2, E3, E0, (div10_cd x0), (sub10 x0), E1, (div10_cd x1), (sub10 x1) by lia.
  rewrite E2', (div10_d x2), (sub10 x2), E3', (div10_cd x3), (sub10 x3) by lia.
  pose proof (Z.mod_pos_bound x0 10 ltac:(lia)). pose proof (Z.mod_pos_bound x1 10 ltac:(lia)).
  pose proof (Z.mod_pos_bound x2 10 ltac:(lia)). pose proof (Z.mod_pos_bound x3 10 ltac:(lia)).
  pose proof (Z.div_pos x3 10 ltac:(lia) ltac:(lia)).
  exists ((fun d => d + 48) <$> [x0 mod 10; x1 mod 10; x2 mod 10; x3 mod 10; x3 / 10]).
  split; [by rewrite <-!app_assoc|]. split; [done|]. rewrite <-Ev.
  pose proof (dec_list [x0 mod 10; x1 mod 10; x2 mod 10; x3 mod 10; x3 / 10]) as HD. cbn [foldr] in HD.
  rewrite Z.mul_0_r, Z.add_0_r in HD. apply HD. repeat constructor; lia.
Qed.

Lemma put_dec_trunc_run buf q :
  0 <= q < 100000 ->
  exists l, put_dec_trunc buf q = buf ++ l /\ (length l <= 5)%nat /\ good_digits 10 l q.
Proof.
  intros Hq. destruct (put_dec_steps q Hq) as
    (x0 & x1 & x2 & x3 & d2 & d3 & E2 & E3 & E0 & E1 & E2' & E3' & H0 & H1 & H2 & H3 & Hd3 & Hd2 & Hlt & Ev & Hx).
  unfold put_dec_trunc. rewrite E2, E3, E0, (div10_cd x0), (sub10 x0), E1, (div10_cd x1), (sub10 x1) by lia.
  rewrite E2', (div10_d x2), (sub10 x2), E3', (div10_cd x3), (sub10 x3) by lia.
  pose proof (Z.mod_pos_bound x0 10 ltac:(lia)). pose proof (Z.mod_pos_bound x1 10 ltac:(lia)).
  pose proof (Z.mod_pos_bound x2 10 ltac:(lia)). pose proof (Z.mod_pos_bound x3 10 ltac:(lia)).
  pose proof (Z.div_pos x3 10 ltac:(lia) ltac:(lia)).
  pose proof (Z.div_mod x1 10 ltac:(lia)). pose proof (Z.div_mod x2 10 ltac:(lia)).
  pose proof (Z.div_mod x3 10 ltac:(lia)).
  assert (HD : forall l, Forall (fun d => 0 <= d < 10) l -> foldr (fun d v => d + 10 * v) 0 l = q ->
    (length l <= 5)%nat ->
    exists l', buf ++ ((fun d => d + 48) <$> l) = buf ++ l' /\ (length l' <= 5)%nat /\ good_digits 10 l' q).
  { intros l Hl Hv Hle. eexists. split; [done|]. split; [by rewrite length_fmap|]. rewrite <-Hv. by apply dec_list. }
  repeat case_decide; rewrite <-?app_assoc; cbn [app];
    first [ apply (HD [x0 mod 10; x1 mod 10; x2 mod 10; x3 mod 10; x3 / 10])
          | apply (HD [x0 mod 10; x1 mod 10; x2 mod 10; x3 mod 10])
          | apply (HD [x0 mod 10; x1 mod 10; x2 mod 10])
          | apply (HD [x0 mod 10; x1 mod 10])
          | apply (HD [x0 mod 10]) ]; first [ repeat constructor; lia | cbn [foldr length]; lia ].
Qed.

Lemma good_digits_app l1 l2 q1 q2 base :
  good_digits base l1 q1 -> good_digits base l2 q2 ->
  good_digits base (l1 ++ l2) (q1 + base ^ Z.of_nat (length l1) * q2).
Proof.
  intros [E1 F1] [E2 F2]. split; [by rewrite rev_value_app, E1, E2|by apply Forall_app].
Qed.

Lemma put_dec_run n buf num :
  0 <= num < 2 ^ 64 -> num < 100000 ^ Z.of_nat (S n) ->
  exists l, put_dec (S n) buf num = Some (buf ++ l) /\ (length l <= 5 * S n)%nat /\ good_digits 10 l num.
Proof.
  revert buf num. induction n as [|n IH]; intros buf num Hr Hn; cbn [put_dec]; case_decide as Hs.
  - destruct (put_dec_trunc_run buf num) as (l & -> & Hlen & Hl); [lia|]. exists l. split; [done|]. split; [lia|done].
  - change (100000 ^ Z.of_nat 1) with 100000 in Hn. lia.
  - destruct (put_dec_trunc_run buf num) as (l & -> & Hlen & Hl); [lia|]. exists l. split; [done|]. split; [lia|done].
  - rewrite do_div_run by lia. cbn [mbind option_bind].
    pose proof (Z.mod_pos_bound num 100000 ltac:(lia)). pose proof (Z.div_mod num 100000 ltac:(lia)) as E.
    destruct (put_dec_full_run buf (num mod 100000)) as (l1 & -> & Hlen & Hl1); [lia|].
    rewrite Nat2Z.inj_succ, Z.pow_succ_r in Hn by lia.
    destruct (IH (buf ++ l1) (num / 100000)) as (l2 & E2 & Hlen2 & Hl2).
    { split; [apply Z.div_pos; lia|apply Z.div_lt_upper_bound; lia]. }
    { apply Z.div_lt_upper_bound; [lia|done]. }
    cbn [put_dec] in E2. rewrite E2.
    exists (l1 ++ l2). rewrite app_assoc. split; [done|]. split; [rewrite length_app; lia|].
    pose proof (good_digits_app l1 l2 _ _ _ Hl1 Hl2) as Hg. rewrite Hlen in Hg.
    change (10 ^ Z.of_nat 5) with 100000 in Hg.
    by replace (num mod 100000 + 100000 * (num / 100000)) with num in Hg by lia.
Qed.

(** Octal and hexadecimal digits. *)
Lemma pow_digit d locase base :
  0 <= d < base -> base = 8 \/ base = 16 -> locase = 0 \/ locase = 32 ->
  exists c, digits !! Z.to_nat d = Some c /\ digit_value (Z.lor c locase) = d /\
    0 < Z.lor c locase < 2 ^ 8 /\ digit_of base (Z.lor c locase) = true.
Proof.
  intros Hd Hb Hl. assert (Hd16 : 0 <= d < 16) by lia.
  assert (HC : forallb (fun d => forallb (fun l => match digits !! Z.to_nat d with
    | Some c => (digit_value (Z.lor c l) =? d) && (0 <? Z.lor c l) && (Z.lor c l <? 2 ^ 8) &&
                isxdigit (Z.lor c l)
    | None => false end) [0; 32]) (Z.of_nat <$> seq 0 16) = true) by (vm_compute; reflexivity).
  rewrite forallb_forall in HC. specialize (HC d). rewrite forallb_forall in HC.
  specialize (HC ltac:(apply list_elem_of_In, list_elem_of_fmap; exists (Z.to_nat d); split; [lia|apply elem_of_seq; lia]) locase).
  specialize (HC ltac:(simpl; destruct Hl; auto)).
  destruct (digits !! Z.to_nat d) as [c|]; [|done]. exists c. rewrite !andb_true_iff in HC.
  destruct HC as [[[HC1 HC2] HC3] HC4]. split; [done|]. split; [lia|]. split; [lia|].
  unfold digit_of. rewrite HC4. cbn [andb]. lia.
Qed.

Lemma put_pow_run n buf num base shift locase :
  base = 2 ^ shift -> base = 8 \/ base = 16 -> locase = 0 \/ locase = 32 ->
  0 <= num < base ^ Z.of_nat (S n) ->
  exists l, put_pow (S n) buf num (base - 1) shift locase = Some (buf ++ l) /\ (length l <= S n)%nat /\
    good_digits base l num.
Proof.
  intros Hbase Hb Hl. assert (Hs : 0 <= shift) by (destruct (Z.lt_ge_cases shift 0); [|lia];
    rewrite Z.pow_neg_r in Hbase; lia).
  assert (Hdig : forall num, 0 <= num -> Z.land (num mod 2 ^ 8) (base - 1) = num mod base).
  { intros x Hx. rewrite Hbase, Z.sub_1_r, <-Z.ones_equiv, Z.land_ones by done.
    rewrite <-Hbase. symmetry. apply Zmod_div_mod; [lia..|]. destruct Hb as [->| ->]; [by exists 32|by exists 16]. }
  revert buf num. induction n as [|n IH]; intros buf num Hn; cbn [put_pow];
    pose proof (Z.mod_pos_bound num base ltac:(lia)) as Hm;
    pose proof (Z.div_mod num base ltac:(lia)) as Ed;
    destruct (pow_digit (num mod base) locase base Hm Hb Hl) as (c & Hc & Hv & Hr & Hd);
    rewrite (Hdig num (proj1 Hn)), Hc; cbn [mbind option_bind];
    (assert (Hgd : good_digits base [Z.lor c locase] (num mod base)) by
      (split; [cbn [rev_value]; rewrite Hv; lia|apply Forall_singleton; done]));
    rewrite Z.shiftr_div_pow2, <-Hbase by lia.
  - change (Z.of_nat 1) with 1 in Hn. rewrite Z.pow_1_r in Hn.
    rewrite Z.div_small in * by lia. rewrite decide_False by lia.
    exists [Z.lor c locase]. split; [done|]. split; [simpl; lia|]. by rewrite Z.mod_small in Hgd by lia.
  - rewrite Nat2Z.inj_succ, Z.pow_succ_r in Hn by lia. case_decide as H0.
    + destruct (IH (buf ++ [Z.lor c locase]) (num / base)) as (l & E & Hlen & Hg).
      { split; [apply Z.div_pos; lia|apply Z.div_lt_upper_bound; [lia|apply Hn]]. }
      cbn [put_pow] in E. rewrite E. exists (Z.lor c locase :: l). rewrite <-app_assoc. split; [done|].
      split; [simpl; lia|]. pose proof (good_digits_app _ _ _ _ _ Hgd Hg) as HG. cbn [length app] in HG.
      change (Z.of_nat 1) with 1 in HG. rewrite Z.pow_1_r in HG.
      by replace (num mod base + base * (num / base)) with num in HG by lia.
    + exists [Z.lor c locase]. split; [done|]. split; [simpl; lia|]. replace num with (num mod base) by lia. done.
Qed.

Lemma good_digits_nonempty base l num : good_digits base l num -> num <> 0 -> (0 < length l)%nat.
Proof. intros [Hv _] Hn. destruct l; [by destruct Hn|apply Nat.lt_0_succ]. Qed.

Lemma num_tmp_run num base type :
  0 <= num < 2 ^ 64 -> base = 8 \/ base = 10 \/ base = 16 ->
  exists l, num_tmp num base (Z.land type SMALL) = Some l /\ (0 < length l <= 25)%nat /\ good_digits base l num.
Proof.
  intros Hn Hb. unfold num_tmp.
  assert (Hl : Z.land type SMALL = 0 \/ Z.land type SMALL = 32).
  { unfold SMALL. change 32 with (2 ^ 5). destruct (Z.testbit type 5) eqn:E; [right|left];
      apply Z.bits_inj'; intros i Hi; rewrite Z.land_spec, ?Z.bits_0, ?Z.pow2_bits_eqb by lia;
      destruct (Z.eqb_spec 5 i) as [<-|]; rewrite ?E, ?andb_true_r, ?andb_false_r; done. }
  case_decide as H0.
  { exists [48]. rewrite H0. split; [done|]. split; [simpl; lia|].
    destruct Hb as [->|[->| ->]]; (split; [done|by apply Forall_singleton]). }
  case_decide as H1.
  - destruct Hb as [->|[->| ->]]; [|done|].
    + destruct (put_pow_run 21 [] num 8 3 (Z.land type SMALL)) as (l & E & Hlen & Hg); [done|by left|done|lia|].
      exists l. split; [done|]. split; [|done]. split; [by eapply good_digits_nonempty|lia].
    + destruct (put_pow_run 21 [] num 16 4 (Z.land type SMALL)) as (l & E & Hlen & Hg); [done|by right|done|lia|].
      exists l. split; [done|]. split; [|done]. split; [by eapply good_digits_nonempty|lia].
  - assert (base = 10) as -> by lia. destruct (put_dec_run 4 [] num) as (l & E & Hlen & Hg); [lia|lia|].
    exists l. split; [done|]. split; [|done]. split; [by eapply good_digits_nonempty|lia].
Qed.

(** ** The output *)

Definition chars (l : list Z) : list Z := (fun c => c mod 2 ^ 8) <$> l.

Lemma addlist_app e l1 l2 o : addlist e (l1 ++ l2) o = (o ← addlist e l1 o; addlist e l2 o).
Proof.
  revert o. induction l1 as [|c l1 IH]; intros o; [done|]. cbn [app addlist].
  destruct (addch e c o) as [o'|]; [apply IH|done].
Qed.

Lemma addch_list e c o : addch e c o = addlist e [c] o.
Proof. cbn. by destruct (addch e c o). Qed.

Lemma addrep_list e count c o : addrep e count c o = addlist e (replicate (Z.to_nat count) c) o.
Proof.
  unfold addrep. induction (Z.to_nat count) as [|n IH]; [done|]. rewrite replicate_S_end, addlist_app, <-IH.
  rewrite Nat.iter_succ. destruct (Nat.iter n _ _) as [o'|]; [apply addch_list|done].
Qed.

(** The characters that fit are written, the others are counted. *)
Lemma addlist_run e l str m :
  mapped m str (Z.to_nat (Z.min (e - str) (Z.of_nat (length l)))) ->
  addlist e l (str, m) =
    Some (str + Z.of_nat (length l), store_list m str (chars (take (Z.to_nat (e - str)) l))).
Proof.
  revert str m. induction l as [|c l IH]; intros str m Hm; cbn [addlist length].
  { rewrite take_nil, Z.add_0_r. done. }
  unfold addch at 1. case_decide as Hd.
  - cbn [length] in Hm.
    replace (Z.to_nat (Z.min (e - str) (Z.of_nat (S (length l))))) with
      (S (Z.to_nat (Z.min (e - (str + 1)) (Z.of_nat (length l))))) in Hm by lia.
    apply mapped_S in Hm as [H0 Hm]. rewrite store_byte_mapped by done. cbn [mbind option_bind].
    rewrite IH by (by apply mapped_insert). replace (Z.to_nat (e - str)) with (S (Z.to_nat (e - (str + 1)))) by lia.
    cbn [take]. unfold chars. rewrite fmap_cons. cbn [store_list]. do 2 f_equal. lia.
  - cbn [mbind option_bind]. rewrite IH.
    + replace (Z.to_nat (e - str)) with 0%nat by lia. replace (Z.to_nat (e - (str + 1))) with 0%nat by lia.
      cbn. do 2 f_equal. lia.
    + intros j Hj. lia.
Qed.

(** ** The layout of a number *)

Definition sign_text (num type : Z) : list Z :=
  if flag type SIGN then
    if decide (s64 num < 0) then [45] else if flag type PLUS then [43]
    else if flag type SPACE then [32] else []
  else [].
Definition magnitude (num type : Z) : Z :=
  if flag type SIGN && bool_decide (s64 num < 0) then u64 (- s64 num) else num.
Definition prefix_text (base type : Z) : list Z :=
  if flag type SPECIAL && negb (base =? 10)
  then 48 :: (if decide (base = 16) then [Z.lor 88 (Z.land type SMALL)] else []) else [].

(** The sign, the prefix and the digits, with zeros up to the precision, in a
    field of [size] characters: left-justified, filled with zeros behind the
    prefix, or right-justified. *)
Definition number_text (num base size precision type : Z) (tmp : list Z) : list Z :=
  let head := sign_text num type ++ prefix_text base type in
  let body := replicate (Z.to_nat (precision - Z.of_nat (length tmp))) 48 ++ reverse tmp in
  let pad := Z.to_nat (size - Z.of_nat (length (head ++ body))) in
  if flag type LEFT then head ++ body ++ replicate pad 32
  else if flag type ZEROPAD then head ++ replicate pad 48 ++ body
  else replicate pad 32 ++ head ++ body.

(** Clearing [ZEROPAD] clears no other flag. *)
Lemma flag_clear type k :
  0 < k -> flag (Z.land type (Z.lnot ZEROPAD)) (2 ^ k) = flag type (2 ^ k).
Proof.
  intros Hk. unfold flag. do 2 f_equal. rewrite <-Z.land_assoc. f_equal.
  apply Z.bits_inj'. intros i Hi. rewrite Z.land_spec, Z.lnot_spec, Z.pow2_bits_eqb by lia.
  change ZEROPAD with (2 ^ 0). rewrite Z.pow2_bits_eqb by lia.
  destruct (Z.eqb_spec k i) as [<-|]; [|apply andb_false_r].
  by rewrite (proj2 (Z.eqb_neq 0 k)) by lia.
Qed.

Lemma flag_two type : flag type (ZEROPAD + LEFT) = flag type ZEROPAD || flag type LEFT.
Proof.
  unfold flag. change (ZEROPAD + LEFT) with (Z.lor ZEROPAD LEFT). rewrite Z.land_lor_distr_r.
  destruct (Z.eqb_spec (Z.land type ZEROPAD) 0) as [->|H1]; [done|].
  destruct (Z.eqb_spec (Z.land type LEFT) 0) as [->|H2]; [by rewrite Z.lor_0_r, (proj2 (Z.eqb_neq _ _))|].
  rewrite (proj2 (Z.eqb_neq _ _)); [done|]. rewrite Z.lor_eq_0_iff. tauto.
Qed.

Lemma flag_zeropad_clear type : flag (Z.land type (Z.lnot ZEROPAD)) ZEROPAD = false.
Proof. unfold flag. by rewrite <-Z.land_assoc, (Z.land_comm (Z.lnot _)), Z.land_lnot_diag, Z.land_0_r. Qed.

Lemma spent_none e size c o : addrep e (spent size) c o = Some o.
Proof.
  rewrite addrep_list. replace (Z.to_nat (spent size)) with 0%nat; [done|]. unfold spent. case_decide; lia.
Qed.

(** The sign, the magnitude and what is left of the field. *)
Lemma number_sign num size type :
  exists sign,
    (if flag type SIGN then
       if decide (s64 num < 0) then (45, u64 (- s64 num), size - 1)
       else if flag type PLUS then (43, num, size - 1)
       else if flag type SPACE then (32, num, size - 1)
       else (0, num, size)
     else (0, num, size)) =
      (sign, magnitude num type, size - Z.of_nat (length (sign_text num type))) /\
    (forall e o, (if decide (sign <> 0) then addch e sign o else Some o) = addlist e (sign_text num type) o).
Proof.
  unfold magnitude, sign_text. destruct (flag type SIGN); cbn [andb].
  - case_decide as Hs.
    + rewrite bool_decide_eq_true_2 by done. exists 45. split; [done|]. intros. apply addch_list.
    + rewrite bool_decide_eq_false_2 by done. destruct (flag type PLUS).
      { exists 43. split; [done|]. intros. apply addch_list. }
      destruct (flag type SPACE); [exists 32; split; [done|]; intros; apply addch_list|].
      exists 0. split; [cbn; by rewrite Z.sub_0_r|done].
  - exists 0. split; [cbn; by rewrite Z.sub_0_r|done].
Qed.

Lemma number_prefix e base type o :
  (if flag type SPECIAL && negb (base =? 10) then
     o ← addch e 48 o;
     if decide (base = 16) then addch e (Z.lor 88 (Z.land type SMALL)) o else Some o
   else Some o) = addlist e (prefix_text base type) o.
Proof.
  unfold prefix_text. destruct (_ && _); [|done]. cbn [addlist]. destruct (addch e 48 o) as [o'|]; [|done].
  cbn [mbind option_bind]. case_decide; [apply addch_list|done].
Qed.

Lemma prefix_size size base type :
  (if flag type SPECIAL && negb (base =? 10) then (if decide (base = 16) then size - 2 else size - 1) else size) =
    size - Z.of_nat (length (prefix_text base type)).
Proof. unfold prefix_text. destruct (_ && _); [case_decide; cbn; lia|cbn; lia]. Qed.

(** Steps of an option computation that both sides begin with. *)
Ltac option_steps :=
  repeat match goal with
  | |- (mbind _ (mbind _ ?x)) = _ => destruct x; cbn [mbind option_bind]; [|done]
  | |- (mbind _ ?x) = _ => destruct x; cbn [mbind option_bind]; [|done]
  end.

Lemma number_emits e num base size precision type o :
  number e num base size precision type o =
    (tmp ← num_tmp (magnitude num type) base (Z.land type SMALL);
     addlist e (number_text num base size precision type tmp) o).
Proof.
  unfold number. set (type' := if flag type LEFT then _ else type).
  assert (Hf : forall k, 0 < k -> flag type' (2 ^ k) = flag type (2 ^ k)).
  { intros k Hk. unfold type'. destruct (flag type LEFT); [by apply flag_clear|done]. }
  pose proof (Hf 1 ltac:(lia)) as H1. pose proof (Hf 2 ltac:(lia)) as H2.
  pose proof (Hf 3 ltac:(lia)) as H3. pose proof (Hf 4 ltac:(lia)) as H4.
  change (2 ^ 1) with SIGN in H1. change (2 ^ 2) with PLUS in H2. change (2 ^ 3) with SPACE in H3.
  change (2 ^ 4) with LEFT in H4. rewrite H1, H2, H3.
  destruct (number_sign num size type) as (sign & -> & Hsign). rewrite prefix_size.
  destruct (num_tmp _ _ _) as [tmp|]; [|done]. cbn [mbind option_bind].
  set (P := if decide (_ > precision) then _ else precision).
  set (pad := _ - P). unfold number_text.
  set (body := replicate _ 48 ++ reverse tmp). set (hd := sign_text num type ++ prefix_text base type).
  assert (EP : P = Z.max (Z.of_nat (length tmp)) precision) by
    (unfold P; destruct (decide (Z.of_nat (length tmp) > precision)); lia).
  assert (Hpad : Z.to_nat (size - Z.of_nat (length (hd ++ body))) = Z.to_nat pad).
  { unfold pad, hd, body. rewrite EP, !length_app, length_replicate, length_reverse. lia. }
  assert (Hbody : forall o, (o ← addrep e (P - Z.of_nat (length tmp)) 48 o; addlist e (reverse tmp) o) =
    addlist e body o).
  { intros o'. unfold body. rewrite addlist_app, addrep_list.
    replace (Z.to_nat (P - Z.of_nat (length tmp))) with (Z.to_nat (precision - Z.of_nat (length tmp)))
      by (rewrite EP; lia). done. }
  assert (Hhead : forall o, (o ← (if decide (sign <> 0) then addch e sign o else Some o);
      if flag type SPECIAL && negb (base =? 10) then
        o ← addch e 48 o; if decide (base = 16) then addch e (Z.lor 88 (Z.land type SMALL)) o else Some o
      else Some o) = addlist e hd o).
  { intros o'. unfold hd. rewrite Hsign, addlist_app. destruct (addlist e _ o'); [apply number_prefix|done]. }
  rewrite Hpad, flag_two, H4. clearbody pad body hd. clear Hpad Hsign H1 H2 H3 Hf.
  destruct (flag type LEFT) eqn:HL; cbn [orb].
  - rewrite orb_true_r. cbn [mbind option_bind]. rewrite !addlist_app, <-Hhead. option_steps.
    rewrite addlist_app, <-Hbody. option_steps. apply addrep_list.
  - rewrite orb_false_r. unfold type'. rewrite <-HL in H4. unfold type' in H4. rewrite HL in H4.
    destruct (flag type ZEROPAD); cbn [mbind option_bind].
    + rewrite !addlist_app, <-Hhead. option_steps. rewrite addlist_app, <-addrep_list. option_steps.
      rewrite <-Hbody. option_steps. apply spent_none.
    + rewrite !addlist_app, <-addrep_list. option_steps. rewrite addlist_app, <-Hhead. option_steps.
      rewrite spent_none. cbn [mbind option_bind]. rewrite <-Hbody. option_steps. apply spent_none.
Qed.

(** ** Printing and reading back *)

(** The text of a number without flags is its digits. *)
Lemma number_text_plain num base type tmp :
  type = 0 \/ type = SMALL -> tmp <> [] -> number_text num base (-1) (-1) type tmp = reverse tmp.
Proof.
  intros Ht Hne. unfold number_text.
  assert (E : sign_text num type = [] /\ prefix_text base type = [] /\ flag type LEFT = false /\
    flag type ZEROPAD = false) by (destruct Ht as [->| ->]; done).
  destruct E as (-> & -> & -> & ->). cbn [app].
  replace (Z.to_nat (-1 - _)) with 0%nat by lia. replace (Z.to_nat (-1 - _)) with 0%nat by lia. done.
Qed.

Lemma digits_all base l : Forall (fun c => digit_of base c = true) l -> digits_of base l = l.
Proof.
  intros H. unfold digits_of. assert (E : span (digit_of base) l = length l).
  { induction H as [|c l Hc _ IH]; [done|]. cbn [span length]. by rewrite Hc, IH. }
  rewrite E. apply firstn_all.
Qed.

(** No digit is an 'x'. *)
Lemma digit_not_x : forall c, 0 <= c < 2 ^ 8 -> implb (isxdigit c) (negb (tolower c =? ch_x)) = true.
Proof. apply byte_enum. vm_compute. reflexivity. Qed.

Lemma no_prefix base l :
  base <> 0 -> Forall (fun c => 0 < c < 2 ^ 8 /\ digit_of base c = true) l -> radix base l = (0%nat, base).
Proof.
  intros Hb H. unfold radix. rewrite (proj2 (Z.eqb_neq base 0)) by done. f_equal.
  assert (E : has_0x l = false); [|by rewrite E, andb_false_r].
  destruct l as [|c0 [|c1 l]]; [done|done|]. cbn [has_0x].
  apply Forall_cons in H as [_ H]. apply Forall_cons in H as [[Hc Hd] _].
  pose proof (digit_not_x c1 ltac:(lia)) as Hx. apply andb_true_iff in Hd as [Hd _]. rewrite Hd in Hx.
  cbn [implb] in Hx. apply negb_true_iff in Hx. by rewrite Hx, andb_false_r.
Qed.

(** C27: Printing and reading a number back is the identity: what [number] writes
    for a 32-bit number in base 8, 10 or 16, in either case of letters, is read by
    [simple_strtoul] in that base as the number, to the end of the text.  A buffer
    of 26 bytes is large enough. *)
Theorem print_read_roundtrip m buf e num base type :
  0 <= num < 2 ^ 32 -> base = 8 \/ base = 10 \/ base = 16 -> type = 0 \/ type = SMALL ->
  mapped m buf 26 -> buf + 26 <= e ->
  exists n m', 0 < n <= 25 /\ number e num base (-1) (-1) type (buf, m) = Some (buf + n, m') /\
    exists m'', store_byte m' (buf + n) 0 = Some m'' /\ simple_strtoul buf base m'' = Some (num, buf + n).
Proof.
  intros Hn Hb Ht Hm He. rewrite number_emits.
  assert (Emag : magnitude num type = num) by (unfold magnitude; destruct Ht as [->| ->]; done). rewrite Emag.
  destruct (num_tmp_run num base type) as (tmp & -> & Hlen & Hval & Hdig); [lia|done|].
  cbn [mbind option_bind].
  rewrite number_text_plain by (done || by destruct tmp; [simpl in Hlen; lia|]).
  set (l := reverse tmp). assert (Ell : length l = length tmp) by apply length_reverse.
  assert (HF : Forall (fun c => 0 < c < 2 ^ 8 /\ digit_of base c = true) l) by (by apply Forall_reverse).
  assert (Ech : chars l = l).
  { unfold chars. rewrite <-(map_id l) at 2. apply map_ext_Forall. eapply Forall_impl; [exact HF|].
    intros c [? _]. apply Z.mod_small. lia. }
  exists (Z.of_nat (length l)), (store_list m buf l). split; [lia|]. split.
  { rewrite addlist_run; [|intros j Hj; apply Hm; lia].
    rewrite firstn_all2 by lia. by rewrite Ech. }
  rewrite store_byte_mapped by (apply store_list_mapped with (n := 26%nat); [done|lia]).
  eexists. split; [done|]. set (m2 := <[_ := 0]> _).
  assert (Hc : cstr m2 buf l).
  { split; [|by eapply Forall_impl; [exact HF|]; intros c [? _]]. apply block_app. split.
    - apply block_insert; [lia|]. apply store_list_block.
    - apply block_cons. split; [apply lookup_insert_eq|apply block_nil]. }
  rewrite (strtoul_run _ _ _ l) by done. unfold read_number. rewrite no_prefix by (done || lia).
  rewrite drop_0, digits_all by (eapply Forall_impl; [exact HF|]; by intros c [_ ?]). cbn [fst snd plus].
  unfold l at 1. rewrite num_value_reverse, Hval, u32_small by lia. done.
Qed.

Lemma print_read_roundtrip_witness :
  let m := store_list ∅ 64 (replicate 26 0) in
  exists n m', 0 < n <= 25 /\ number 90 0xdeadbeef 16 (-1) (-1) SMALL (64, m) = Some (64 + n, m') /\
    exists m'', store_byte m' (64 + n) 0 = Some m'' /\ simple_strtoul 64 16 m'' = Some (0xdeadbeef, 64 + n).
Proof.
  intros m. apply (print_read_roundtrip m 64 90 0xdeadbeef 16 SMALL); [lia|auto|by right| |lia].
  apply (block_mapped m 64 (replicate 26 0)); [by simpl|apply store_list_block].
Defined.
