(* ===== verification/Format.v ===== *)
(** * What a format means (src/lib/vsprintf.c)

    The text a format and its arguments stand for, as a function of the memory that
    is read and of nothing else ([render]), and the refinement theorem: whatever the
    size of the buffer, [vsnprintf] writes the beginning of that text that fits, ends
    it with a zero, and returns the length of the whole text. *)

From stdpp Require Import base gmap list.
From Stdlib Require Import ZArith Lia.
From S2P Require Import Prelude Bitops Div64 Ctype Mem Str Strto Charset Vsprintf.
#[local] Open Scope Z_scope.

(** ** Reading a larger memory

    [x ≼ y]: what [x] computes, [y] computes too. *)

Definition opt_le {A} (x y : option A) : Prop := forall r, x = Some r -> y = Some r.
#[local] Infix "≼" := opt_le (at level 70).

#[export] Instance opt_le_preorder A : PreOrder (@opt_le A).
Proof. split; [by intros x r|]. intros x y z H1 H2 r H. by apply H2, H1. Qed.

Lemma opt_le_none {A} (y : option A) : None ≼ y.
Proof. done. Qed.
Lemma opt_le_bind {A B} (x y : option A) (f g : A -> option B) :
  x ≼ y -> (forall r, f r ≼ g r) -> (x ≫= f) ≼ (y ≫= g).
Proof. intros Hx Hf r (a & Ha & Hr)%bind_Some. apply bind_Some. exists a. split; [by apply Hx|by apply Hf]. Qed.
Lemma opt_le_lookup (m0 m : mem) a : m0 ⊆ m -> m0 !! a ≼ m !! a.
Proof. intros H r Hr. by eapply lookup_weaken. Qed.

Create HintDb reads.
#[export] Hint Resolve opt_le_lookup : reads.

(** Follows a program that only reads. *)
Ltac reads :=
  repeat first
    [ apply opt_le_none | reflexivity | solve [eauto with reads lia]
    | apply opt_le_bind; [|intros ?]
    | match goal with
      | |- context [match ?x with _ => _ end] => is_var x; destruct x
      | |- context [decide ?P] => destruct (decide P)
      | |- context [if ?b then _ else _] => destruct b
      end ].

Section mono.
Context (m0 m : mem) (Hm : m0 ⊆ m).

Lemma str_fuel_mono : (str_fuel m0 <= str_fuel m)%nat.
Proof using Hm. unfold str_fuel. apply le_n_S. by apply map_subseteq_size. Qed.

Lemma skip_atoi_mono n0 n s i : (n0 <= n)%nat -> skip_atoi n0 m0 s i ≼ skip_atoi n m s i.
Proof using Hm.
  revert n s i. induction n0 as [|n0 IH]; intros [|n] s i Hn; [done|done|lia|]. cbn [skip_atoi]. reads.
Qed.

Lemma fmt_flags_mono n0 n s f : (n0 <= n)%nat -> fmt_flags n0 m0 s f ≼ fmt_flags n m s f.
Proof using Hm.
  revert n s f. induction n0 as [|n0 IH]; intros [|n] s f Hn; [done|done|lia|]. cbn [fmt_flags]. cbv zeta. reads.
Qed.

Lemma strnlen_mono s count : strnlen s count m0 ≼ strnlen s count m.
Proof using Hm.
  unfold strnlen. apply opt_le_bind; [|reads]. pose proof str_fuel_mono as Hn. revert Hn.
  generalize (str_fuel m0) (str_fuel m). intros n0. revert s count.
  induction n0 as [|n0 IH]; intros s count [|n] Hn; [done|done|lia|]. cbn [strnlen_loop]. reads.
Qed.

Lemma load_u16_mono a : load_u16 m0 a ≼ load_u16 m a.
Proof using Hm. unfold load_u16. reads. Qed.
#[local] Hint Resolve load_u16_mono : reads.

Lemma utf16_strnlen_mono s count : utf16_strnlen s count m0 ≼ utf16_strnlen s count m.
Proof using Hm.
  unfold utf16_strnlen. pose proof str_fuel_mono as Hn. revert Hn.
  generalize (str_fuel m0) (str_fuel m) 0. intros n0. revert count.
  induction n0 as [|n0 IH]; intros count [|n] i Hn; [done|done|lia|]. cbn [utf16_strnlen_loop]. reads.
Qed.

Lemma units_mono n s : units m0 n s ≼ units m n s.
Proof using Hm. revert s. induction n as [|n IH]; intros s; cbn [units]; reads. Qed.
End mono.
#[export] Hint Resolve str_fuel_mono skip_atoi_mono fmt_flags_mono strnlen_mono load_u16_mono
  utf16_strnlen_mono units_mono : reads.

Lemma fmt_spec_mono m0 m fmt args : m0 ⊆ m -> fmt_spec m0 fmt args ≼ fmt_spec m fmt args.
Proof.
  intros Hm. unfold fmt_spec, fmt_width, fmt_precision, fmt_qualifier. reads.
Qed.
#[export] Hint Resolve fmt_spec_mono : reads.

(** ** The text of a conversion *)

(** A field of [w] characters, left- or right-justified. *)
Definition justify (left : bool) (w : Z) (l : list Z) : list Z :=
  let pad := replicate (Z.to_nat (w - Z.of_nat (length l))) 32 in
  if left then l ++ pad else pad ++ l.

(** The [n] bytes at [s]. *)
Fixpoint bytes_at (m : mem) (n : nat) (s : Z) : option (list Z) :=
  match n with
  | O => Some []
  | S n => b ← m !! s; l ← bytes_at m n (s + 1); Some (b :: l)
  end.

(** The characters of %s: at most [precision] of them. *)
Definition string_chars (m : mem) (s precision : Z) : option (list Z) :=
  if decide (s = 0) then Some (take (Z.to_nat (u32 precision)) null_text)
  else len ← strnlen s (u32 precision) m; bytes_at m (Z.to_nat len) s.

(** The characters of %ls, in UTF-8. *)
Definition string16_chars (m : mem) (s precision : Z) : option (list Z) :=
  if decide (s = 0) then None
  else
    len ← utf16_strnlen s (u32 precision) m;
    us ← units m (Z.to_nat len) s;
    utf16_to_utf8 us (Z.to_nat len).

Definition numeric_text (base flags w precision qualifier : Z) (args : list va_arg)
    : option (list Z * list va_arg) :=
  '(num, args) ← va_num qualifier flags args;
  tmp ← num_tmp (magnitude num flags) base (Z.land flags SMALL);
  Some (number_text num base w precision flags tmp, args).

(** The text of one conversion and the arguments left; %n writes to the memory and
    stands for no text. *)
Definition convert_text (m : mem) (c flags w precision qualifier : Z) (args : list va_arg)
    : option (list Z * list va_arg) :=
  if decide (c = 99) then
    '(x, args) ← va_int args; Some (justify (flag flags LEFT) w [x], args)
  else if decide (c = 115) then
    if decide (qualifier = 108) then
      match args with
      | A_str16 p :: args => l ← string16_chars m p precision; Some (justify (flag flags LEFT) w l, args)
      | _ => None
      end
    else
      match args with
      | A_str p :: args => l ← string_chars m p precision; Some (justify (flag flags LEFT) w l, args)
      | _ => None
      end
  else if decide (c = 110) then None
  else if decide (c = 37) then Some ([37], args)
  else if decide (c = 111) then numeric_text 8 flags w precision qualifier args
  else if decide (c = 120) then numeric_text 16 (Z.lor flags SMALL) w precision qualifier args
  else if decide (c = 88) then numeric_text 16 flags w precision qualifier args
  else if decide (c = 100 \/ c = 105) then numeric_text 10 (Z.lor flags SIGN) w precision qualifier args
  else if decide (c = 117) then numeric_text 10 flags w precision qualifier args
  else Some (if decide (c = 0) then [37] else [37; c], args).

(** The text of a format: an incomplete conversion at its end stands for a '%'. *)
Fixpoint render (n : nat) (m : mem) (fmt : Z) (args : list va_arg) : option (list Z) :=
  match n with
  | O => None
  | S n =>
    c ← m !! fmt;
    if decide (c = 0) then Some []
    else if decide (c <> 37) then l ← render n m (fmt + 1) args; Some (c :: l)
    else
      '(flags, w, precision, qualifier, fmt, args) ← fmt_spec m fmt args;
      c ← m !! fmt;
      '(t, args) ← convert_text m c flags w precision qualifier args;
      l ← render n m (if decide (c = 0) then fmt else fmt + 1) args;
      Some (t ++ l)
  end.

(** ** The code emits the text *)

Lemma strnlen_nonneg s count m len : strnlen s count m = Some len -> 0 <= len.
Proof.
  unfold strnlen. intros (sc & H & [= <-])%bind_Some. assert (s <= sc); [|lia].
  revert s count H. induction (str_fuel m) as [|n IH]; intros s count H; [done|]. cbn [strnlen_loop] in H.
  destruct (decide (count = 0)); [simplify_eq; lia|]. apply bind_Some in H as (b & _ & H).
  destruct (decide (b = 0)); [simplify_eq; lia|]. apply IH in H. lia.
Qed.

Lemma bytes_at_length m n s l : bytes_at m n s = Some l -> length l = n.
Proof.
  revert s l. induction n as [|n IH]; intros s l; cbn [bytes_at]; [by intros [= <-]|].
  intros (b & _ & (l' & H & [= <-])%bind_Some)%bind_Some. simpl. f_equal. by eapply IH.
Qed.

Section emits.
(** The memory [m0] that is read does not meet the part of the buffer, from [buf] to
    [lim], in which the text has its place: either the buffer ends there, or the text
    is not longer. *)
Context (m0 : mem) (buf e lim : Z) (Hfree : forall a, buf <= a < lim -> m0 !! a = None).

Definition ready (o : out) (l : list Z) : Prop :=
  m0 ⊆ snd o /\ buf <= fst o /\ (e <= lim \/ fst o + Z.of_nat (length l) <= lim).

Lemma ready_part o l1 l2 : ready o (l1 ++ l2) -> ready o l1.
Proof. unfold ready. rewrite length_app. intuition lia. Qed.

Lemma ready_addlist l1 l2 o o' : ready o (l1 ++ l2) -> addlist e l1 o = Some o' -> ready o' l2.
Proof using Hfree.
  revert o. induction l1 as [|c l1 IH]; intros [str m] Ho; cbn [addlist app]; [by intros [= <-]|].
  intros (o1 & H1 & H)%bind_Some. apply IH in H; [done|]. clear H IH. destruct Ho as (Hm & Hb & Hf).
  cbn [fst snd app length] in *. unfold addch in H1. destruct (decide (str < e)) as [Hs|].
  - apply bind_Some in H1 as (m1 & H1 & [= <-]). unfold store_byte in H1. destruct (m !! str); [|done]. simplify_eq.
    split; [|cbn [fst]; lia]. apply insert_subseteq_r; [apply Hfree; lia|done].
  - simplify_eq. split; [done|]. cbn [fst]. lia.
Qed.

(** A part of the code that emits [l]. *)
Definition emits (f : out -> option out) (l : list Z) : Prop := forall o, ready o l -> f o = addlist e l o.

Lemma emits_bind f g l1 l2 : emits f l1 -> emits g l2 -> emits (fun o => o ← f o; g o) (l1 ++ l2).
Proof using Hfree.
  intros Hf Hg o Ho. rewrite (Hf o) by (by eapply ready_part). rewrite addlist_app.
  destruct (addlist e l1 o) as [o'|] eqn:E; [|done]. cbn [mbind option_bind]. apply Hg. by eapply ready_addlist.
Qed.

Lemma emits_rep count c : emits (addrep e count c) (replicate (Z.to_nat count) c).
Proof. intros o _. apply addrep_list. Qed.

Lemma emits_field (left : bool) w w' len f l :
  len = Z.of_nat (length l) -> w' <= len -> emits f l ->
  emits (fun o =>
    '(w, o) ← (if left then Some (w, o) else o ← addrep e (w - len) 32 o; Some (w', o));
    o ← f o; addrep e (w - len) 32 o) (justify left w l).
Proof using Hfree.
  intros -> Hw Hf. unfold justify. destruct left.
  - intros o Ho. cbn [mbind option_bind]. revert o Ho. apply emits_bind; [done|apply emits_rep].
  - intros o Ho. set (pad := replicate _ _) in Ho |- *.
    assert (E : pad ++ l = pad ++ l ++ replicate (Z.to_nat (w' - Z.of_nat (length l))) 32).
    { replace (Z.to_nat (w' - _)) with 0%nat by lia. by rewrite app_nil_r. }
    rewrite E in Ho |- *. unfold pad in *.
    rewrite <-(emits_bind (addrep e (w - Z.of_nat (length l)) 32)
      (fun o => o ← f o; addrep e (w' - Z.of_nat (length l)) 32 o)); [|apply emits_rep| |done].
    + by destruct (addrep _ _ _ o).
    + apply emits_bind; [done|apply emits_rep].
Qed.

Lemma emits_mem n s l : bytes_at m0 n s = Some l -> emits (addmem e n s) l.
Proof using Hfree.
  revert s l. induction n as [|n IH]; intros s l; cbn [bytes_at addmem]; [by intros [= <-]|].
  intros (b & Hb & (l' & Hl & [= <-])%bind_Some)%bind_Some o Ho.
  rewrite (lookup_weaken _ _ _ _ Hb (proj1 Ho)). cbn [mbind option_bind addlist].
  destruct (addch e b o) as [o'|] eqn:E; [|done]. cbn [mbind option_bind]. apply (IH _ _ Hl).
  rewrite addch_list in E. by apply (ready_addlist [b] l' o).
Qed.

Lemma string_emits s w precision flags l :
  string_chars m0 s precision = Some l ->
  emits (string e s w precision flags) (justify (flag flags LEFT) w l).
Proof using Hfree.
  unfold string_chars, string. intros H o Ho. pose proof (u32_range precision) as Hp.
  destruct (decide (s = 0)).
  - simplify_eq. cbn [mbind option_bind]. revert o Ho.
    apply (emits_field _ w _ _ (addlist e (take (Z.to_nat (Z.min (u32 precision) 6)) null_text))); [|lia|].
    + rewrite length_take. change (length null_text) with 6%nat. lia.
    + intros o _. f_equal. destruct (decide (u32 precision <= 6)) as [Hle|Hle]; [by rewrite Z.min_l by lia|].
      rewrite Z.min_r by lia. by rewrite !firstn_all2 by (change (length null_text) with 6%nat; lia).
  - apply bind_Some in H as (len & Hlen & Hl). pose proof (strnlen_nonneg _ _ _ _ Hlen).
    rewrite (strnlen_mono _ _ (proj1 Ho) _ _ _ Hlen). cbn [mbind option_bind]. revert o Ho.
    pose proof (bytes_at_length _ _ _ _ Hl).
    apply (emits_field _ w _ _ (addmem e (Z.to_nat len) s)); [lia|lia|by apply emits_mem].
Qed.

Lemma string16_emits s w precision flags l :
  string16_chars m0 s precision = Some l ->
  emits (string16 e s w precision flags) (justify (flag flags LEFT) w l).
Proof using Hfree.
  unfold string16_chars, string16. intros H o Ho. destruct (decide (s = 0)); [done|].
  apply bind_Some in H as (len & Hlen & (us & Hus & Hl)%bind_Some).
  rewrite (utf16_strnlen_mono _ _ (proj1 Ho) _ _ _ Hlen). cbn [mbind option_bind].
  rewrite (units_mono _ _ (proj1 Ho) _ _ _ Hus). cbn [mbind option_bind]. rewrite Hl.
  cbn [mbind option_bind]. revert o Ho. by apply (emits_field _ w _ _ (addlist e l)); [|lia|].
Qed.

(** What a conversion leaves behind the text it emits. *)
Definition converts (f : out -> option (out * Z * list va_arg)) (t : list Z) (fmt : Z) (args : list va_arg) : Prop :=
  forall o, ready o t -> f o = (o ← addlist e t o; Some (o, fmt, args)).

Lemma converts_emits f t fmt args : emits f t -> converts (fun o => o ← f o; Some (o, fmt, args)) t fmt args.
Proof. intros Hf o Ho. by rewrite Hf. Qed.

Lemma numeric_emits base flags w precision qualifier args t args' fmt :
  numeric_text base flags w precision qualifier args = Some (t, args') ->
  converts (fun o => '(num, args) ← va_num qualifier flags args;
    o ← number e num base w precision flags o; Some (o, fmt, args)) t fmt args'.
Proof.
  unfold numeric_text. intros ([num args1] & Hv & (tmp & Ht & [= <- <-])%bind_Some)%bind_Some o Ho.
  rewrite Hv. cbn [mbind option_bind]. by rewrite number_emits, Ht.
Qed.

Lemma char_emits w flags x :
  emits (fun o => '(w, o) ← (if flag flags LEFT then Some (w, o)
      else o ← addrep e (w - 1) 32 o; Some (Z.min (w - 1) 0, o));
    o ← addch e x o; addrep e (w - 1) 32 o) (justify (flag flags LEFT) w [x]).
Proof using Hfree.
  apply (emits_field _ w _ _ (addch e x)); [done|lia|]. intros o _. apply addch_list.
Qed.

Lemma convert_emits fmt c flags w precision qualifier args t args' :
  convert_text m0 c flags w precision qualifier args = Some (t, args') ->
  converts (convert e buf fmt c flags w precision qualifier args) t
    (if decide (c = 0) then fmt - 1 else fmt) args'.
Proof using Hfree.
  unfold convert_text. intros H o Ho. unfold convert. cbv zeta.
  assert (Hc : c <> 0 -> (if decide (c = 0) then fmt - 1 else fmt) = fmt) by (intros Hne; by rewrite decide_False by done).
  destruct (decide (c = 99)) as [->|].
  { apply bind_Some in H as ([x args1] & Hv & [= <- <-]). rewrite <-(char_emits w flags x o Ho), Hc by done.
    rewrite Hv. destruct (flag flags LEFT); cbn [mbind option_bind];
      [|destruct (addrep e (w - 1) 32 o); cbn [mbind option_bind]; [|done]];
      (destruct (addch e x _) as [o1|]; cbn [mbind option_bind]; [|done]); by destruct (addrep e _ 32 o1). }
  destruct (decide (c = 115)) as [->|].
  { rewrite Hc by done. destruct (decide (qualifier = 108)), args as [|[] args]; try done;
      apply bind_Some in H as (l & Hl & [= <- <-]).
    - by apply (converts_emits _ _ _ _ (string16_emits _ w precision flags _ Hl)).
    - by apply (converts_emits _ _ _ _ (string_emits _ w precision flags _ Hl)). }
  destruct (decide (c = 110)) as [->|]; [done|].
  destruct (decide (c = 37)) as [->|]; [simplify_eq; rewrite Hc, addch_list by done; done|].
  destruct (decide (c = 111)) as [->|]; [rewrite Hc by done; by apply (numeric_emits _ _ _ _ _ _ _ _ _ H)|].
  destruct (decide (c = 120)) as [->|]; [rewrite Hc by done; by apply (numeric_emits _ _ _ _ _ _ _ _ _ H)|].
  destruct (decide (c = 88)) as [->|]; [rewrite Hc by done; by apply (numeric_emits _ _ _ _ _ _ _ _ _ H)|].
  destruct (decide (c = 100 \/ c = 105)); [rewrite Hc by lia; by apply (numeric_emits _ _ _ _ _ _ _ _ _ H)|].
  destruct (decide (c = 117)) as [->|]; [rewrite Hc by done; by apply (numeric_emits _ _ _ _ _ _ _ _ _ H)|].
  simplify_eq. destruct (decide (c = 0)) as [->|].
  - by rewrite addch_list.
  - cbn [addlist]. destruct (addch e 37 o) as [o1|]; [|done].
    cbn [mbind option_bind]. rewrite decide_True by done. by destruct (addch e c o1).
Qed.

Lemma vs_loop_emits n0 n fmt args t :
  (n0 <= n)%nat -> render n0 m0 fmt args = Some t -> emits (vs_loop n e buf fmt args) t.
Proof using Hfree.
  revert n fmt args t. induction n0 as [|n0 IH]; intros [|n] fmt args t Hn; [done|done|lia|].
  cbn [render vs_loop]. intros (c & Hc & H)%bind_Some o Ho.
  rewrite (lookup_weaken _ _ _ _ Hc (proj1 Ho)). cbn [mbind option_bind].
  destruct (decide (c = 0)); [by simplify_eq|]. destruct (decide (c <> 37)).
  - apply bind_Some in H as (l & Hl & [= <-]). cbn [addlist].
    destruct (addch e c o) as [o'|] eqn:E; [|done]. cbn [mbind option_bind].
    apply (IH n); [lia|done|]. rewrite addch_list in E. by apply (ready_addlist [c] l o).
  - apply bind_Some in H as ([[[[[flags w] precision] qualifier] fmt1] args1] & Hs & H).
    apply bind_Some in H as (c1 & Hc1 & ([t1 args2] & Ht & (l & Hl & [= <-])%bind_Some)%bind_Some).
    unfold specifier. rewrite (fmt_spec_mono _ _ _ _ (proj1 Ho) _ Hs). cbn [mbind option_bind].
    rewrite (lookup_weaken _ _ _ _ Hc1 (proj1 Ho)). cbn [mbind option_bind].
    rewrite (convert_emits _ _ _ _ _ _ _ _ _ Ht o), addlist_app by (by eapply ready_part).
    destruct (addlist e t1 o) as [o'|] eqn:E; [|done]. cbn [mbind option_bind].
    apply (IH n); [lia| |by eapply ready_addlist]. rewrite <-Hl. f_equal. case_decide; lia.
Qed.
End emits.

(** ** The refinement *)

(** The memory after the text [t] was put into a buffer of [size] bytes. *)
Definition put_text (m : mem) (buf size : Z) (t : list Z) : mem :=
  if decide (size = 0) then m
  else store_list m buf (chars (take (Z.to_nat (size - 1)) t) ++ [0]).

Lemma length_chars l : length (chars l) = length l.
Proof. apply length_fmap. Qed.

(** The end of [vsnprintf_internal]: the terminating zero behind the text, or in the
    place of its last character. *)
Lemma terminate m buf size t :
  0 < size -> mapped m buf (Z.to_nat size) ->
  ('(str, m) ← addch (buf + size) 0
     (buf + Z.of_nat (length t), store_list m buf (chars (take (Z.to_nat size) t)));
   m ← (if decide (str > buf + size) then store_byte m (buf + size - 1) 0 else Some m);
   Some (str - 1 - buf, m)) = Some (Z.of_nat (length t), put_text m buf size t).
Proof.
  intros Hs Hm. unfold put_text. rewrite decide_False by lia. unfold addch.
  assert (Hst : forall x, buf <= x < buf + size -> forall l, is_Some (store_list m buf l !! x)).
  { intros x Hx l. replace x with (buf + Z.of_nat (Z.to_nat (x - buf))) by lia.
    by apply (store_list_mapped _ _ _ _ _ Hm); lia. }
  destruct (decide (buf + Z.of_nat (length t) < buf + size)).
  - rewrite store_byte_mapped by (apply Hst; lia). cbn [mbind option_bind].
    rewrite decide_False by lia. cbn [mbind option_bind]. rewrite !firstn_all2 by lia.
    rewrite store_list_snoc, length_chars. do 2 f_equal. lia.
  - cbn [mbind option_bind]. rewrite decide_True by lia. rewrite store_byte_mapped by (apply Hst; lia).
    cbn [mbind option_bind]. do 2 f_equal; [lia|].
    destruct (lookup_lt_is_Some_2 t (Z.to_nat (size - 1))) as [x Hx]; [lia|].
    replace (Z.to_nat size) with (S (Z.to_nat (size - 1))) by lia. erewrite take_S_r by done.
    unfold chars. rewrite fmap_app. change ((fun c => c mod 2 ^ 8) <$> [x]) with [x mod 2 ^ 8].
    rewrite !store_list_snoc, length_fmap, length_take.
    replace (buf + Z.of_nat (Z.to_nat (size - 1) `min` length t)) with (buf + size - 1) by lia.
    by rewrite insert_insert_eq.
Qed.

(** The call before it is split into its uses: [m0] is the part of the memory that
    holds the format and the strings. *)
Definition reads_outside (m0 m : mem) (buf size : Z) : Prop :=
  m0 ⊆ m /\ forall a, buf <= a < buf + size -> m0 !! a = None.

Lemma vsnprintf_run m0 m buf size fmt args t :
  0 <= buf -> 0 <= size -> buf + size < 2 ^ 32 -> mapped m buf (Z.to_nat size) ->
  reads_outside m0 m buf size -> render (str_fuel m0) m0 fmt args = Some t ->
  vsnprintf_internal buf size fmt args m = Some (Z.of_nat (length t), put_text m buf size t).
Proof.
  intros Hb Hs He Hm [Hsub Hfree] Ht. unfold vsnprintf_internal. rewrite u32_small by lia.
  rewrite decide_False by lia.
  rewrite (vs_loop_emits m0 buf (buf + size) (buf + size) Hfree (str_fuel m0) _ _ _ t);
    [|by apply str_fuel_mono|done|by split; [|split; [simpl; lia|left; lia]]].
  rewrite addlist_run.
  2: { intros j Hj. apply Hm. lia. }
  replace (buf + size - buf) with size by lia. cbn [mbind option_bind].
  destruct (decide (size > 0)); [by apply terminate; [lia|]|].
  replace size with 0 by lia. cbn. do 2 f_equal. lia.
Qed.

(** [vsprintf] trusts the buffer: a text that ends below the last address is written
    with its zero, and only there. *)
Lemma vsprintf_run m0 m buf fmt args t :
  let n := Z.of_nat (length t) + 1 in
  0 <= buf -> n <= INT_MAX -> buf + n < 2 ^ 32 -> mapped m buf (Z.to_nat n) ->
  reads_outside m0 m buf n -> render (str_fuel m0) m0 fmt args = Some t ->
  vsprintf buf fmt args m = Some (Z.of_nat (length t), store_list m buf (chars t ++ [0])).
Proof.
  intros n Hb Hn He Hm [Hsub Hfree] Ht. unfold vsprintf, vsnprintf_internal.
  set (e := if decide (u32 (buf + INT_MAX) < buf) then 2 ^ 32 - 1 else u32 (buf + INT_MAX)).
  set (size := if decide (u32 (buf + INT_MAX) < buf) then 2 ^ 32 - 1 - buf else INT_MAX).
  assert (Hend : buf + n <= e /\ 0 < size).
  { unfold e, size, INT_MAX in *. destruct (decide (buf + (2 ^ 31 - 1) < 2 ^ 32)).
    - rewrite u32_small by lia. rewrite !decide_False by lia. lia.
    - replace (u32 (buf + (2 ^ 31 - 1))) with (buf + (2 ^ 31 - 1) - 2 ^ 32); [rewrite !decide_True by lia; lia|].
      unfold u32. apply (Z.mod_unique_pos _ _ 1); lia. }
  replace (if decide (u32 (buf + INT_MAX) < buf) then (2 ^ 32 - 1, 2 ^ 32 - 1 - buf)
    else (u32 (buf + INT_MAX), INT_MAX)) with (e, size) by (unfold e, size; by case_decide).
  clearbody e size. cbv iota beta.
  rewrite (vs_loop_emits m0 buf e (buf + n) Hfree (str_fuel m0) _ _ _ t);
    [|by apply str_fuel_mono|done|by split; [|split; [simpl; lia|right; simpl; lia]]].
  rewrite addlist_run by (intros j Hj; apply Hm; lia).
  cbn [mbind option_bind]. rewrite decide_True by lia. unfold addch. rewrite decide_True by lia.
  rewrite firstn_all2 by lia.
  rewrite store_byte_mapped by (apply store_list_mapped with (n := Z.to_nat n); [done|lia]).
  cbn [mbind option_bind]. rewrite decide_False by lia. cbn [mbind option_bind].
  rewrite store_list_snoc, length_chars. do 2 f_equal. lia.
Qed.

(** [vscnprintf] returns what was written. *)
Lemma vscnprintf_run m0 m buf size fmt args t :
  0 <= buf -> 0 <= size -> buf + size < 2 ^ 32 -> mapped m buf (Z.to_nat size) ->
  reads_outside m0 m buf size -> render (str_fuel m0) m0 fmt args = Some t -> Z.of_nat (length t) < 2 ^ 31 ->
  vscnprintf buf size fmt args m =
    Some (Z.of_nat (length (take (Z.to_nat (size - 1)) t)), put_text m buf size t).
Proof.
  intros Hb Hs He Hm Hr Ht Hl. unfold vscnprintf, vsnprintf. rewrite (vsnprintf_run m0 m _ _ _ _ t) by done.
  cbn [mbind option_bind]. rewrite u32_small, length_take by lia. do 2 f_equal.
  destruct (decide (Z.of_nat (length t) < size)); [lia|]. destruct (decide (size <> 0)); [|lia].
  rewrite s32_small by lia. lia.
Qed.


(** The format of [sample_fmt] and its arguments. *)
Definition sample_args : list va_arg := [A_int (-42); A_int 0xbe; A_str 28].
Definition sample_read : mem := str_mem 16 [sample_fmt; [111; 107]].

Lemma sample_read_low a : 64 <= a -> sample_read !! a = None.
Proof.
  assert (Hlow : map_Forall (fun k _ => k < 64) sample_read) by (apply (bool_decide_unpack _); vm_compute; exact I).
  intros Ha. apply eq_None_not_Some. intros [x Hx]. specialize (Hlow a x Hx). cbn in Hlow. lia.
Qed.

