(* ===== verification/Rbtree.v ===== *)
(** * Red-black trees (src/lib/rbtree.c, src/include/rosx/rbtree.h)

    The nodes of a tree are embedded in other objects; a node holds the addresses of
    its children and one word with the address of its parent and its colour.  The
    nodes are the values of a store indexed by their addresses, which are multiples
    of [sizeof(long)]; 0 is NULL.  The state has one root.  Every loop climbs or
    descends one tree of the store: it ends within one more round than the store has
    nodes. *)

From stdpp Require Import base gmap list.
From Stdlib Require Import ZArith Lia.
From S2P Require Import Prelude.
#[local] Open Scope Z_scope.
#[local] Open Scope rosx_scope.

(** ** The data *)

Record rb_node := mk_rb_node { rb_parent_color : Z; rb_right : Z; rb_left : Z }.
(** [rb_aux] is the data that the callbacks of an augmented tree keep in the objects around
    the nodes, one word for each. *)
Record rb_state := mk_rb_state { rb_heap : gmap Z rb_node; rb_root : Z; rb_aux : gmap Z Z }.

Definition RB_RED : Z := 0.
Definition RB_BLACK : Z := 1.

Definition rb_parent (r : rb_node) : Z := Z.land (rb_parent_color r) (Z.lnot 3).
Definition rb_color (r : rb_node) : Z := Z.land (rb_parent_color r) 1.
Definition rb_is_red (r : rb_node) : bool := rb_color r =? 0.
Definition rb_is_black (r : rb_node) : bool := negb (rb_color r =? 0).

Definition set_parent_color (x : Z) (n : rb_node) : rb_node := mk_rb_node x (rb_right n) (rb_left n).
Definition set_right (x : Z) (n : rb_node) : rb_node := mk_rb_node (rb_parent_color n) x (rb_left n).
Definition set_left (x : Z) (n : rb_node) : rb_node := mk_rb_node (rb_parent_color n) (rb_right n) x.
Definition set_root (x : Z) (s : rb_state) : rb_state := mk_rb_state (rb_heap s) x (rb_aux s).

Definition rb_fuel (s : rb_state) : nat := S (size (rb_heap s)).

(** Reading a node and assigning to it. *)
Definition ld (a : Z) : proc rb_state rb_node :=
  fun s => match rb_heap s !! a with
           | Some n => Done n s
           | None => Crash (if decide (a = 0) then NullDeref else WildPtr)
           end.
Definition on_node (a : Z) (f : rb_node -> rb_node) : proc rb_state unit :=
  let! n := ld a in
  upd (fun s => mk_rb_state (<[a := f n]> (rb_heap s)) (rb_root s) (rb_aux s)).

Definition rb_set_red (r : Z) : proc rb_state unit :=
  on_node r (fun n => set_parent_color (Z.land (rb_parent_color n) (Z.lnot 1)) n).
Definition rb_set_black (r : Z) : proc rb_state unit :=
  on_node r (fun n => set_parent_color (Z.lor (rb_parent_color n) 1) n).
Definition rb_set_parent (rb p : Z) : proc rb_state unit :=
  on_node rb (fun n => set_parent_color (Z.lor (Z.land (rb_parent_color n) 3) p) n).
Definition rb_set_color (rb color : Z) : proc rb_state unit :=
  on_node rb (fun n => set_parent_color (Z.lor (Z.land (rb_parent_color n) (Z.lnot 1)) color) n).

Definition RB_EMPTY_ROOT : proc rb_state bool := gets (fun s => bool_decide (rb_root s = 0)).
Definition RB_EMPTY_NODE (node : Z) : proc rb_state bool :=
  let! n := ld node in ret (bool_decide (rb_parent n = node)).
Definition RB_CLEAR_NODE (node : Z) : proc rb_state unit := rb_set_parent node node.

Definition rb_init_node (rb : Z) : proc rb_state unit :=
  on_node rb (set_parent_color 0) ;;;
  on_node rb (set_right 0) ;;;
  on_node rb (set_left 0) ;;;
  RB_CLEAR_NODE rb.

(** The place a pointer [rb_link] points to. *)
Inductive link := RootLink | LeftLink (p : Z) | RightLink (p : Z).

Definition set_link (l : link) (x : Z) : proc rb_state unit :=
  match l with
  | RootLink => upd (set_root x)
  | LeftLink p => on_node p (set_left x)
  | RightLink p => on_node p (set_right x)
  end.

Definition rb_link_node (node parent : Z) (rb_link : link) : proc rb_state unit :=
  on_node node (set_parent_color parent) ;;;
  on_node node (set_right 0) ;;;
  on_node node (set_left 0) ;;;
  set_link rb_link node.

(** ** Rotations *)

Definition __rb_rotate_left (node : Z) : proc rb_state unit :=
  let! n := ld node in
  let right := rb_right n in
  let parent := rb_parent n in
  let! r := ld right in
  on_node node (set_right (rb_left r)) ;;;
  (if decide (rb_left r <> 0) then let! r := ld right in rb_set_parent (rb_left r) node else ret tt) ;;;
  on_node right (set_left node) ;;;
  rb_set_parent right parent ;;;
  (if decide (parent <> 0) then
     let! p := ld parent in
     if decide (node = rb_left p) then on_node parent (set_left right)
     else on_node parent (set_right right)
   else upd (set_root right)) ;;;
  rb_set_parent node right.

Definition __rb_rotate_right (node : Z) : proc rb_state unit :=
  let! n := ld node in
  let left := rb_left n in
  let parent := rb_parent n in
  let! l := ld left in
  on_node node (set_left (rb_right l)) ;;;
  (if decide (rb_right l <> 0) then let! l := ld left in rb_set_parent (rb_right l) node else ret tt) ;;;
  on_node left (set_right node) ;;;
  rb_set_parent left parent ;;;
  (if decide (parent <> 0) then
     let! p := ld parent in
     if decide (node = rb_right p) then on_node parent (set_right left)
     else on_node parent (set_left left)
   else upd (set_root left)) ;;;
  rb_set_parent node left.

(** ** Insertion *)

(** [node && rb_is_red(node)] and [!node || rb_is_black(node)]. *)
Definition is_red_node (a : Z) : proc rb_state bool :=
  if decide (a = 0) then ret false else let! n := ld a in ret (rb_is_red n).
Definition black_or_null (a : Z) : proc rb_state bool :=
  if decide (a = 0) then ret true else let! n := ld a in ret (rb_is_black n).

Fixpoint insert_loop (fuel : nat) (node : Z) : proc rb_state unit :=
  match fuel with
  | O => crash NoFuel
  | S fuel =>
    let! n := ld node in
    let parent := rb_parent n in
    let! red := is_red_node parent in
    if red : bool then
      let! p := ld parent in
      let gparent := rb_parent p in
      let! g := ld gparent in
      if decide (parent = rb_left g) then
        let uncle := rb_right g in
        let! red := is_red_node uncle in
        if red : bool then
          rb_set_black uncle ;;;
          rb_set_black parent ;;;
          rb_set_red gparent ;;;
          insert_loop fuel gparent
        else
          let! p := ld parent in
          let! pn := (if decide (rb_right p = node)
                      then __rb_rotate_left parent ;;; ret (node, parent) else ret (parent, node)) in
          rb_set_black (fst pn) ;;;
          rb_set_red gparent ;;;
          __rb_rotate_right gparent ;;;
          insert_loop fuel (snd pn)
      else
        let uncle := rb_left g in
        let! red := is_red_node uncle in
        if red : bool then
          rb_set_black uncle ;;;
          rb_set_black parent ;;;
          rb_set_red gparent ;;;
          insert_loop fuel gparent
        else
          let! p := ld parent in
          let! pn := (if decide (rb_left p = node)
                      then __rb_rotate_right parent ;;; ret (node, parent) else ret (parent, node)) in
          rb_set_black (fst pn) ;;;
          rb_set_red gparent ;;;
          __rb_rotate_left gparent ;;;
          insert_loop fuel (snd pn)
    else ret tt
  end.

Definition rb_insert_color (node : Z) : proc rb_state unit :=
  let! fuel := gets rb_fuel in
  insert_loop fuel node ;;;
  let! root := gets rb_root in
  rb_set_black root.

(** ** Removal *)

(** The loop of [__rb_erase_color]; its result is [node] at the end. *)
Fixpoint erase_loop (fuel : nat) (node parent : Z) : proc rb_state Z :=
  match fuel with
  | O => crash NoFuel
  | S fuel =>
    let! black := black_or_null node in
    let! root := gets rb_root in
    if decide (black = true /\ node <> root) then
      let! p := ld parent in
      if decide (rb_left p = node) then
        let other := rb_right p in
        let! o := ld other in
        let! other := (if rb_is_red o then
                         rb_set_black other ;;;
                         rb_set_red parent ;;;
                         __rb_rotate_left parent ;;;
                         let! p := ld parent in ret (rb_right p)
                       else ret other) in
        let! o := ld other in
        let! black_l := black_or_null (rb_left o) in
        let! both := (if black_l : bool then black_or_null (rb_right o) else ret false) in
        if both : bool then
          rb_set_red other ;;;
          let! n := ld parent in
          erase_loop fuel parent (rb_parent n)
        else
          let! black_r := black_or_null (rb_right o) in
          let! other := (if black_r : bool then
                           rb_set_black (rb_left o) ;;;
                           rb_set_red other ;;;
                           __rb_rotate_right other ;;;
                           let! p := ld parent in ret (rb_right p)
                         else ret other) in
          let! p := ld parent in
          rb_set_color other (rb_color p) ;;;
          rb_set_black parent ;;;
          let! o := ld other in
          rb_set_black (rb_right o) ;;;
          __rb_rotate_left parent ;;;
          gets rb_root
      else
        let other := rb_left p in
        let! o := ld other in
        let! other := (if rb_is_red o then
                         rb_set_black other ;;;
                         rb_set_red parent ;;;
                         __rb_rotate_right parent ;;;
                         let! p := ld parent in ret (rb_left p)
                       else ret other) in
        let! o := ld other in
        let! black_l := black_or_null (rb_left o) in
        let! both := (if black_l : bool then black_or_null (rb_right o) else ret false) in
        if both : bool then
          rb_set_red other ;;;
          let! n := ld parent in
          erase_loop fuel parent (rb_parent n)
        else
          let! black_l := black_or_null (rb_left o) in
          let! other := (if black_l : bool then
                           rb_set_black (rb_right o) ;;;
                           rb_set_red other ;;;
                           __rb_rotate_left other ;;;
                           let! p := ld parent in ret (rb_left p)
                         else ret other) in
          let! p := ld parent in
          rb_set_color other (rb_color p) ;;;
          rb_set_black parent ;;;
          let! o := ld other in
          rb_set_black (rb_left o) ;;;
          __rb_rotate_right parent ;;;
          gets rb_root
    else ret node
  end.

Definition __rb_erase_color (node parent : Z) : proc rb_state unit :=
  let! fuel := gets rb_fuel in
  let! node := erase_loop fuel node parent in
  if decide (node <> 0) then rb_set_black node else ret tt.

(** [while ((left = node->rb_left) != NULL) node = left;] and its mirror image. *)
Fixpoint leftmost (fuel : nat) (node : Z) : proc rb_state Z :=
  match fuel with
  | O => crash NoFuel
  | S fuel =>
    let! n := ld node in
    if decide (rb_left n <> 0) then leftmost fuel (rb_left n) else ret node
  end.
Fixpoint rightmost (fuel : nat) (node : Z) : proc rb_state Z :=
  match fuel with
  | O => crash NoFuel
  | S fuel =>
    let! n := ld node in
    if decide (rb_right n <> 0) then rightmost fuel (rb_right n) else ret node
  end.

(** A node with at most one child is unlinked: the child, the parent and the colour
    of the node. *)
Definition erase_simple (node child : Z) : proc rb_state (Z * Z * Z) :=
  let! n := ld node in
  let parent := rb_parent n in
  let color := rb_color n in
  (if decide (child <> 0) then rb_set_parent child parent else ret tt) ;;;
  (if decide (parent <> 0) then
     let! p := ld parent in
     if decide (node = rb_left p) then on_node parent (set_left child)
     else on_node parent (set_right child)
   else upd (set_root child)) ;;;
  ret (child, parent, color).

(** The successor [node] of [old] leaves its place, with its child in it, and gets
    the children and the colour of [old]. *)
Definition splice_successor (old node : Z) : proc rb_state (Z * Z * Z) :=
  let! n := ld node in
  let child := rb_right n in
  let parent := rb_parent n in
  let color := rb_color n in
  let! parent :=
    (if decide (parent = old) then ret node
     else
       (if decide (child <> 0) then rb_set_parent child parent else ret tt) ;;;
       on_node parent (set_left child) ;;;
       let! o := ld old in
       on_node node (set_right (rb_right o)) ;;;
       rb_set_parent (rb_right o) node ;;;
       ret parent) in
  let! o := ld old in
  on_node node (set_parent_color (rb_parent_color o)) ;;;
  on_node node (set_left (rb_left o)) ;;;
  rb_set_parent (rb_left o) node ;;;
  ret (child, parent, color).

(** A node with two children gives its place to its successor. *)
Definition erase_successor (old : Z) : proc rb_state (Z * Z * Z) :=
  let! o := ld old in
  let! fuel := gets rb_fuel in
  let! node := leftmost fuel (rb_right o) in
  (if decide (rb_parent o <> 0) then
     let! p := ld (rb_parent o) in
     if decide (old = rb_left p) then on_node (rb_parent o) (set_left node)
     else on_node (rb_parent o) (set_right node)
   else upd (set_root node)) ;;;
  splice_successor old node.

Definition rb_erase (node : Z) : proc rb_state unit :=
  let! n := ld node in
  let! r :=
    (if decide (rb_left n = 0) then erase_simple node (rb_right n)
     else if decide (rb_right n = 0) then erase_simple node (rb_left n)
     else erase_successor node) in
  let '(child, parent, color) := r in
  if decide (color = RB_BLACK) then __rb_erase_color child parent else ret tt.

(** ** Walking through a tree *)

Definition rb_first : proc rb_state Z :=
  let! n := gets rb_root in
  if decide (n = 0) then ret 0 else let! fuel := gets rb_fuel in leftmost fuel n.
Definition rb_last : proc rb_state Z :=
  let! n := gets rb_root in
  if decide (n = 0) then ret 0 else let! fuel := gets rb_fuel in rightmost fuel n.

(** [while ((parent = rb_parent(node)) && node == parent->rb_right) node = parent;] *)
Fixpoint up_from_right (fuel : nat) (node : Z) : proc rb_state Z :=
  match fuel with
  | O => crash NoFuel
  | S fuel =>
    let! n := ld node in
    let parent := rb_parent n in
    if decide (parent = 0) then ret parent
    else
      let! p := ld parent in
      if decide (node = rb_right p) then up_from_right fuel parent else ret parent
  end.
Fixpoint up_from_left (fuel : nat) (node : Z) : proc rb_state Z :=
  match fuel with
  | O => crash NoFuel
  | S fuel =>
    let! n := ld node in
    let parent := rb_parent n in
    if decide (parent = 0) then ret parent
    else
      let! p := ld parent in
      if decide (node = rb_left p) then up_from_left fuel parent else ret parent
  end.

Definition rb_next (node : Z) : proc rb_state Z :=
  let! n := ld node in
  let! fuel := gets rb_fuel in
  if decide (rb_parent n = node) then ret 0
  else if decide (rb_right n <> 0) then leftmost fuel (rb_right n)
  else up_from_right fuel node.
Definition rb_prev (node : Z) : proc rb_state Z :=
  let! n := ld node in
  let! fuel := gets rb_fuel in
  if decide (rb_parent n = node) then ret 0
  else if decide (rb_left n <> 0) then rightmost fuel (rb_left n)
  else up_from_left fuel node.

Definition rb_replace_node (victim new : Z) : proc rb_state unit :=
  let! v := ld victim in
  let parent := rb_parent v in
  (if decide (parent <> 0) then
     let! p := ld parent in
     if decide (victim = rb_left p) then on_node parent (set_left new)
     else on_node parent (set_right new)
   else upd (set_root new)) ;;;
  let! v := ld victim in
  (if decide (rb_left v <> 0) then rb_set_parent (rb_left v) new else ret tt) ;;;
  let! v := ld victim in
  (if decide (rb_right v <> 0) then rb_set_parent (rb_right v) new else ret tt) ;;;
  let! v := ld victim in
  on_node new (fun _ => v).

(** ** Augmented trees

    The callback works on the node it is given and is here any procedure on the state;
    its argument [data] is part of it. *)

Fixpoint augment_path (fuel : nat) (func : Z -> proc rb_state unit) (node : Z) : proc rb_state unit :=
  match fuel with
  | O => crash NoFuel
  | S fuel =>
    func node ;;;
    let! n := ld node in
    let parent := rb_parent n in
    if decide (parent = 0) then ret tt
    else
      let! p := ld parent in
      (if decide (node = rb_left p /\ rb_right p <> 0) then func (rb_right p)
       else if decide (rb_left p <> 0) then func (rb_left p) else ret tt) ;;;
      augment_path fuel func parent
  end.

Definition rb_augment_path (node : Z) (func : Z -> proc rb_state unit) : proc rb_state unit :=
  let! fuel := gets rb_fuel in augment_path fuel func node.

Definition rb_augment_insert (node : Z) (func : Z -> proc rb_state unit) : proc rb_state unit :=
  let! n := ld node in
  let node := if decide (rb_left n <> 0) then rb_left n
              else if decide (rb_right n <> 0) then rb_right n else node in
  rb_augment_path node func.

Definition rb_augment_erase_begin (node : Z) : proc rb_state Z :=
  let! n := ld node in
  if decide (rb_right n = 0 /\ rb_left n = 0) then ret (rb_parent n)
  else if decide (rb_right n = 0) then ret (rb_left n)
  else if decide (rb_left n = 0) then ret (rb_right n)
  else
    let! deepest := rb_next node in
    let! d := ld deepest in
    if decide (rb_right d <> 0) then ret (rb_right d)
    else if decide (rb_parent d <> node) then ret (rb_parent d) else ret deepest.

Definition rb_augment_erase_end (node : Z) (func : Z -> proc rb_state unit) : proc rb_state unit :=
  if decide (node <> 0) then rb_augment_path node func else ret tt.
