(* ===== verification/RbShape.v ===== *)
(** * The shape of a red-black tree in the store

    [rep s T]: the nodes reachable from the root of [s] are those of the tree [T],
    with its colours and all parent links.  A node inside a tree is given by the tree
    below it and the path above it, a list of frames.  Each primitive of
    src/lib/rbtree.c is shown to be an operation on such trees: reading a node,
    colouring it, a rotation, putting another tree in the place of a subtree. *)

From stdpp Require Import base gmap list.
From Stdlib Require Import ZArith Lia.
From S2P Require Import Prelude Rbtree.
#[local] Open Scope Z_scope.
#[local] Open Scope rosx_scope.

(** ** Trees *)

Inductive color := Red | Black.
#[export] Instance color_eq_dec : EqDecision color.
Proof. solve_decision. Defined.

Inductive dir := L | R.
#[export] Instance dir_eq_dec : EqDecision dir.
Proof. solve_decision. Defined.
Definition op (d : dir) : dir := match d with L => R | R => L end.

Inductive tree :=
  | Leaf
  | Node (c : color) (l : tree) (a : Z) (r : tree).
#[export] Instance tree_eq_dec : EqDecision tree.
Proof. solve_decision. Defined.

(** The node with [x] on the side [d] and [y] on the other one. *)
Definition nd (d : dir) (c : color) (x : tree) (a : Z) (y : tree) : tree :=
  match d with L => Node c x a y | R => Node c y a x end.

Definition addr (t : tree) : Z := match t with Leaf => 0 | Node _ _ a _ => a end.
Definition col (t : tree) : color := match t with Leaf => Black | Node c _ _ _ => c end.
Fixpoint inorder (t : tree) : list Z :=
  match t with Leaf => [] | Node _ l a r => inorder l ++ a :: inorder r end.

(** A frame: the parent, its colour, its other child, and the side the hole is on. *)
Record frame := Fr { f_dir : dir; f_col : color; f_addr : Z; f_sib : tree }.

Fixpoint plug (K : list frame) (t : tree) : tree :=
  match K with
  | [] => t
  | Fr d c p s :: K => plug K (nd d c t p s)
  end.

(** The address of the parent of the hole, and of the root. *)
Definition parentk (K : list frame) : Z := match K with [] => 0 | f :: _ => f_addr f end.
Fixpoint top (K : list frame) (a : Z) : Z := match K with [] => a | f :: K => top K (f_addr f) end.
(** The nodes of the path and beside it. *)
Fixpoint keysk (K : list frame) : list Z :=
  match K with [] => [] | f :: K => f_addr f :: inorder (f_sib f) ++ keysk K end.

(** The nodes before and behind the hole in the order of the tree. *)
Fixpoint before (K : list frame) : list Z :=
  match K with
  | [] => []
  | Fr L _ _ _ :: K => before K
  | Fr R _ p s :: K => before K ++ inorder s ++ [p]
  end.
Fixpoint after (K : list frame) : list Z :=
  match K with
  | [] => []
  | Fr L _ p s :: K => p :: inorder s ++ after K
  | Fr R _ _ _ :: K => after K
  end.

Lemma op_op d : op (op d) = d.
Proof. by destruct d. Qed.
Lemma nd_op d c x a y : nd (op d) c x a y = nd d c y a x.
Proof. by destruct d. Qed.
Lemma addr_nd d c x a y : addr (nd d c x a y) = a.
Proof. by destruct d. Qed.
Lemma col_nd d c x a y : col (nd d c x a y) = c.
Proof. by destruct d. Qed.
Lemma nd_cases d t : t = Leaf \/ exists c x a y, t = nd d c x a y.
Proof. destruct t as [|c l a r]; [by left|right]. destruct d; eauto 10. Qed.
Lemma node_nd c l a r : Node c l a r = nd L c l a r.
Proof. done. Qed.

Lemma inorder_plug K t : inorder (plug K t) = before K ++ inorder t ++ after K.
Proof.
  revert t. induction K as [|[[] c p s] K IH]; intros t; cbn [plug before after].
  - by rewrite app_nil_r.
  - rewrite IH. cbn. by rewrite <-!app_assoc.
  - rewrite IH. cbn. by rewrite <-!app_assoc.
Qed.

Lemma inorder_nd_perm d c x a y : inorder (nd d c x a y) ≡ₚ a :: inorder x ++ inorder y.
Proof. destruct d; cbn; [by rewrite Permutation_middle|]. rewrite <-Permutation_middle. by rewrite (Permutation_app_comm (inorder y)). Qed.

Lemma plug_perm K t : inorder (plug K t) ≡ₚ keysk K ++ inorder t.
Proof.
  revert t. induction K as [|[d c p s] K IH]; intros t; cbn [plug keysk f_addr f_sib]; [done|].
  rewrite IH, inorder_nd_perm. solve_Permutation.
Qed.

(** ** The words of a node *)

Definition bit (c : color) : Z := match c with Red => RB_RED | Black => RB_BLACK end.
Definition mkd (d : dir) (p : Z) (c : color) (x y : Z) : rb_node :=
  match d with L => mk_rb_node (p + bit c) y x | R => mk_rb_node (p + bit c) x y end.
Definition child (d : dir) (n : rb_node) : Z := match d with L => rb_left n | R => rb_right n end.
Definition set_child (d : dir) (x : Z) (n : rb_node) : rb_node :=
  match d with L => set_left x n | R => set_right x n end.

Definition aligned (a : Z) : Prop := a mod 4 = 0.

Lemma low_bits p c i : aligned p -> 0 <= i ->
  Z.testbit (p + bit c) i = if decide (i = 0) then bool_decide (c = Black) else Z.testbit p i.
Proof.
  intros Hp Hi. apply Z.mod_divide in Hp as [k ->]; [|done].
  replace (k * 4) with (2 * (2 * k)) by lia. case_decide as H0.
  - subst i. destruct c; cbn [bit RB_RED RB_BLACK]; unfold RB_RED, RB_BLACK; [by rewrite Z.add_0_r, Z.testbit_even_0|by rewrite Z.testbit_odd_0].
  - replace i with (Z.succ (i - 1)) by lia. destruct c; unfold bit, RB_RED, RB_BLACK.
    + by rewrite Z.add_0_r.
    + by rewrite Z.testbit_odd_succ, Z.testbit_even_succ by lia.
Qed.

Lemma aligned_bit p i : aligned p -> 0 <= i < 2 -> Z.testbit p i = false.
Proof.
  intros Hp Hi. apply Z.mod_divide in Hp as [k ->]; [|done].
  replace (k * 4) with (2 * (2 * k)) by lia.
  assert (i = 0 \/ i = 1) as [->| ->] by lia; [apply Z.testbit_even_0|].
  change 1 with (Z.succ 0). rewrite Z.testbit_even_succ by lia. apply Z.testbit_even_0.
Qed.

Lemma bit_bits c i : 0 <= i -> Z.testbit (bit c) i = bool_decide (c = Black) && (i =? 0).
Proof.
  intros Hi. destruct c; unfold bit, RB_RED, RB_BLACK; [by rewrite Z.bits_0|].
  change 1 with (2 ^ 0). rewrite Z.pow2_bits_eqb by lia. by rewrite Z.eqb_sym.
Qed.

(** Equations between words, bit by bit. *)
Ltac by_bits :=
  apply Z.bits_inj'; intros i Hi; change 3 with (Z.ones 2); change 1 with (Z.ones 1);
  rewrite ?Z.lor_spec, ?Z.land_spec, ?Z.lnot_spec, ?Z.testbit_ones_nonneg, ?low_bits, ?bit_bits by (done || lia);
  repeat match goal with |- context [decide (?x = 0)] => destruct (decide (x = 0)) as [->|] end;
  repeat match goal with
  | |- context [?x <? ?y] => destruct (Z.ltb_spec x y)
  | |- context [?x =? ?y] => destruct (Z.eqb_spec x y)
  end;
  rewrite ?andb_true_r, ?andb_false_r, ?orb_false_r, ?orb_true_r, ?andb_true_l, ?orb_false_l;
  rewrite ?aligned_bit by (done || lia); rewrite ?orb_false_r; try done; try lia.

Section words.
  Context (p : Z) (c : color) (Hp : aligned p).

Lemma word_parent : Z.land (p + bit c) (Z.lnot 3) = p.
Proof using Hp. by_bits. Qed.
Lemma word_color : Z.land (p + bit c) 1 = bit c.
Proof using Hp. by_bits. Qed.
Lemma word_red : Z.land (p + bit c) (Z.lnot 1) = p + bit Red.
Proof using Hp. by_bits. Qed.
Lemma word_black : Z.lor (p + bit c) 1 = p + bit Black.
Proof using Hp. by_bits. Qed.
Lemma word_set_parent q : aligned q -> Z.lor (Z.land (p + bit c) 3) q = q + bit c.
Proof using Hp. intros Hq. by_bits. Qed.
Lemma word_set_color c' : Z.lor (Z.land (p + bit c) (Z.lnot 1)) (bit c') = p + bit c'.
Proof using Hp. by_bits. Qed.
End words.

Section nodes.
  Context (d : dir) (p : Z) (c : color) (x y : Z).

Lemma child_near : child d (mkd d p c x y) = x.
Proof. by destruct d. Qed.
Lemma child_far : child (op d) (mkd d p c x y) = y.
Proof. by destruct d. Qed.
Lemma set_child_near v : set_child d v (mkd d p c x y) = mkd d p c v y.
Proof. by destruct d. Qed.
Lemma set_child_far v : set_child (op d) v (mkd d p c x y) = mkd d p c x v.
Proof. by destruct d. Qed.

Context (Hp : aligned p).
Lemma parent_mkd : rb_parent (mkd d p c x y) = p.
Proof using Hp. destruct d; by apply word_parent. Qed.
Lemma color_mkd : rb_color (mkd d p c x y) = bit c.
Proof using Hp. destruct d; by apply word_color. Qed.
Lemma is_red_mkd : rb_is_red (mkd d p c x y) = bool_decide (c = Red).
Proof using Hp. unfold rb_is_red. rewrite color_mkd. by destruct c. Qed.
Lemma is_black_mkd : rb_is_black (mkd d p c x y) = bool_decide (c = Black).
Proof using Hp. unfold rb_is_black. rewrite color_mkd. by destruct c. Qed.
Lemma set_parent_mkd q : aligned q ->
  set_parent_color (Z.lor (Z.land (rb_parent_color (mkd d p c x y)) 3) q) (mkd d p c x y) = mkd d q c x y.
Proof using Hp. intros Hq. destruct d; unfold set_parent_color; cbn; by rewrite word_set_parent. Qed.
End nodes.

Lemma mkd_op d p c x y : mkd (op d) p c x y = mkd d p c y x.
Proof. by destruct d. Qed.

(** ** The store *)

(** The nodes of [t], whose root has the parent [p], are in the store. *)
Fixpoint repn (h : gmap Z rb_node) (p : Z) (t : tree) : Prop :=
  match t with
  | Leaf => True
  | Node c l a r => h !! a = Some (mkd L p c (addr l) (addr r)) /\ repn h a l /\ repn h a r
  end.
(** The nodes above and beside a hole that holds the address [a]. *)
Fixpoint repk (h : gmap Z rb_node) (K : list frame) (a : Z) : Prop :=
  match K with
  | [] => True
  | Fr d c p s :: K => h !! p = Some (mkd d (parentk K) c a (addr s)) /\ repn h p s /\ repk h K p
  end.

Definition ok_addr (a : Z) : Prop := 0 < a /\ aligned a.

Definition rep (s : rb_state) (T : tree) : Prop :=
  rb_root s = addr T /\ repn (rb_heap s) 0 T /\ NoDup (inorder T) /\ Forall ok_addr (inorder T).

Lemma repn_nd h p d c x a y :
  repn h p (nd d c x a y) <-> h !! a = Some (mkd d p c (addr x) (addr y)) /\ repn h a x /\ repn h a y.
Proof. destruct d; cbn; tauto. Qed.

Lemma repn_plug h K t : repn h 0 (plug K t) <-> repk h K (addr t) /\ repn h (parentk K) t.
Proof.
  revert t. induction K as [|[d c p s] K IH]; intros t; cbn [plug repk parentk f_addr]; [tauto|].
  rewrite IH, repn_nd, addr_nd. tauto.
Qed.

Lemma addr_plug K t : addr (plug K t) = top K (addr t).
Proof.
  revert t. induction K as [|[d c p s] K IH]; intros t; cbn [plug top f_addr]; [done|]. by rewrite IH, addr_nd.
Qed.

Lemma rep_plug s K t :
  rep s (plug K t) <->
    rb_root s = top K (addr t) /\ repk (rb_heap s) K (addr t) /\ repn (rb_heap s) (parentk K) t /\
    NoDup (keysk K ++ inorder t) /\ Forall ok_addr (keysk K ++ inorder t).
Proof. unfold rep. rewrite addr_plug, repn_plug, plug_perm. tauto. Qed.

(** The store and the nodes that were not touched. *)
Lemma repn_frame h h' p t :
  (forall a, a ∈ inorder t -> h' !! a = h !! a) -> repn h p t -> repn h' p t.
Proof.
  revert p. induction t as [|c l IHl a r IHr]; intros p Hf; cbn [repn inorder] in *; [done|].
  intros (Ha & Hl & Hr). rewrite Hf by set_solver. split; [done|]. split; [apply IHl|apply IHr]; set_solver.
Qed.

Lemma repk_frame h h' K a :
  (forall x, x ∈ keysk K -> h' !! x = h !! x) -> repk h K a -> repk h' K a.
Proof.
  revert a. induction K as [|[d c p s] K IH]; intros a Hf; cbn [repk keysk f_addr f_sib] in *; [done|].
  intros (Hp & Hs & HK). rewrite Hf by set_solver. split; [done|].
  split; [eapply repn_frame; [|done]|eapply IH; [|done]]; set_solver.
Qed.

(** ** Steps of the programs *)

Definition with_heap (s : rb_state) (h : gmap Z rb_node) : rb_state := mk_rb_state h (rb_root s) (rb_aux s).

Lemma ld_run a n s : rb_heap s !! a = Some n -> ld a s = Done n s.
Proof. unfold ld. by intros ->. Qed.
Lemma bind_ld {B} a n (k : rb_node -> proc rb_state B) s :
  rb_heap s !! a = Some n -> bind (ld a) k s = k n s.
Proof. intros H. by eapply bind_run, ld_run. Qed.
Lemma on_node_run a f n s :
  rb_heap s !! a = Some n -> on_node a f s = Done tt (with_heap s (<[a := f n]> (rb_heap s))).
Proof. intros H. unfold on_node. by rewrite (bind_ld _ n). Qed.
Lemma bind_on_node {B} a f n (k : unit -> proc rb_state B) s :
  rb_heap s !! a = Some n -> bind (on_node a f) k s = k tt (with_heap s (<[a := f n]> (rb_heap s))).
Proof. intros H. by eapply bind_run, on_node_run. Qed.

Lemma ok_aligned a : ok_addr a -> aligned a.
Proof. by intros [_ ?]. Qed.
Lemma aligned_0 : aligned 0.
Proof. done. Qed.
Lemma parentk_aligned K l : Forall ok_addr (keysk K ++ l) -> aligned (parentk K).
Proof. destruct K as [|[d c p s] K]; [done|]. cbn. intros [[_ ?] _]%Forall_cons. done. Qed.
Lemma parentk_ok K l : Forall ok_addr (keysk K ++ l) -> K <> [] -> parentk K <> 0.
Proof. destruct K as [|[d c p s] K]; [done|]. cbn. intros [[? _] _]%Forall_cons _. lia. Qed.
Lemma parentk_keys K : K <> [] -> parentk K ∈ keysk K.
Proof. destruct K as [|[d c p s] K]; [done|]. cbn. set_solver. Qed.

Create HintDb rb.
#[export] Hint Resolve ok_aligned aligned_0 parentk_aligned : rb.

(** The parent of a subtree changes. *)
Definition adopt (t : tree) (q : Z) (s : rb_state) : rb_state :=
  match t with
  | Leaf => s
  | Node c l a r => with_heap s (<[a := mkd L q c (addr l) (addr r)]> (rb_heap s))
  end.

Lemma set_parent_run d a p q c x y s :
  rb_heap s !! a = Some (mkd d p c x y) -> aligned p -> aligned q ->
  rb_set_parent a q s = Done tt (with_heap s (<[a := mkd d q c x y]> (rb_heap s))).
Proof. intros H Hp Hq. unfold rb_set_parent. rewrite (on_node_run _ _ _ _ H). by rewrite set_parent_mkd. Qed.

Lemma adopt_run t p q s :
  repn (rb_heap s) p t -> aligned p -> aligned q -> Forall ok_addr (inorder t) ->
  (if decide (addr t <> 0) then rb_set_parent (addr t) q else ret tt) s = Done tt (adopt t q s).
Proof.
  destruct t as [|c l a r]; cbn [addr adopt repn inorder]; [done|].
  intros (Ha & _) Hp Hq (_ & [[Hpos _] _]%Forall_cons)%Forall_app. rewrite decide_True by lia.
  by eapply set_parent_run.
Qed.

Lemma adopt_root t q s : rb_root (adopt t q s) = rb_root s.
Proof. by destruct t. Qed.
Lemma adopt_other t q s a : a ∉ inorder t -> rb_heap (adopt t q s) !! a = rb_heap s !! a.
Proof. destruct t as [|c l b r]; cbn; [done|]. intros H. rewrite lookup_insert_ne by set_solver. done. Qed.
Lemma repn_adopt t p q s :
  NoDup (inorder t) -> repn (rb_heap s) p t -> repn (rb_heap (adopt t q s)) q t.
Proof.
  destruct t as [|c l a r]; cbn [adopt repn inorder rb_heap with_heap]; [done|].
  intros Hn (_ & Hl & Hr). apply nodup_mid in Hn. split; [apply lookup_insert_eq|].
  split; (eapply repn_frame; [|done]); intros b Hb; rewrite lookup_insert_ne by set_solver; done.
Qed.

(** The hole of a path gets another tree. *)
Definition relinkd (d : dir) (parent node x : Z) : proc rb_state unit :=
  if decide (parent <> 0) then
    let! p := ld parent in
    if decide (node = child d p) then on_node parent (set_child d x)
    else on_node parent (set_child (op d) x)
  else upd (set_root x).

Definition relink (K : list frame) (x : Z) (s : rb_state) : rb_state :=
  match K with
  | [] => set_root x s
  | Fr d c p t :: K' => with_heap s (<[p := mkd d (parentk K') c x (addr t)]> (rb_heap s))
  end.

Lemma addr_in t : t <> Leaf -> addr t ∈ inorder t.
Proof. destruct t; [done|]. cbn. set_solver. Qed.

Lemma relink_run d K a x s l :
  repk (rb_heap s) K a -> Forall ok_addr (keysk K ++ l) -> ok_addr a -> a ∉ keysk K ->
  relinkd d (parentk K) a x s = Done tt (relink K x s).
Proof.
  intros HK Hok Ha Hn. unfold relinkd. destruct K as [|[d' c p t] K]; [done|].
  cbn [repk parentk keysk f_addr f_sib relink] in *. destruct HK as (Hp & Ht & HK).
  assert (Hne : a <> addr t).
  { destruct t as [|c' l' b r']; [destruct Ha; cbn; lia|]. intros ->. apply Hn. cbn. set_solver. }
  apply Forall_cons in Hok as [[Hpos _] _]. rewrite decide_True by lia. rewrite (bind_ld _ _ _ _ Hp).
  destruct (decide (d' = d)) as [->|Hd].
  - rewrite child_near, decide_True by done. rewrite (on_node_run _ _ _ _ Hp). by rewrite set_child_near.
  - assert (d = op d') as -> by (by destruct d, d'). rewrite child_far, decide_False by done.
    rewrite (on_node_run _ _ _ _ Hp), op_op. by rewrite set_child_near.
Qed.

Lemma relink_other K x s a : a ∉ keysk K -> rb_heap (relink K x s) !! a = rb_heap s !! a.
Proof.
  destruct K as [|[d c p t] K]; cbn; [done|]. intros Hn. rewrite lookup_insert_ne by set_solver. done.
Qed.
Lemma relink_root K a x s : rb_root s = top K a -> rb_root (relink K x s) = top K x.
Proof. by destruct K as [|[d c p t] K]. Qed.
Lemma repk_relink K a x s :
  NoDup (keysk K) -> repk (rb_heap s) K a -> repk (rb_heap (relink K x s)) K x.
Proof.
  destruct K as [|[d c p t] K]; cbn [repk keysk f_addr f_sib relink with_heap rb_heap]; [done|].
  intros (Hn & _)%NoDup_cons (_ & Ht & HK). split; [apply lookup_insert_eq|].
  split; [eapply repn_frame; [|done]|eapply repk_frame; [|done]]; intros b Hb;
    rewrite lookup_insert_ne by set_solver; done.
Qed.

(** ** Rotations *)

Definition rotate (d : dir) (node : Z) : proc rb_state unit :=
  let! n := ld node in
  let other := child (op d) n in
  let parent := rb_parent n in
  let! r := ld other in
  on_node node (set_child (op d) (child d r)) ;;;
  (if decide (child d r <> 0) then let! r := ld other in rb_set_parent (child d r) node else ret tt) ;;;
  on_node other (set_child d node) ;;;
  rb_set_parent other parent ;;;
  relinkd d parent node other ;;;
  rb_set_parent node other.

Lemma rotate_left : rotate L = __rb_rotate_left.
Proof. reflexivity. Qed.
Lemma rotate_right : rotate R = __rb_rotate_right.
Proof. reflexivity. Qed.

(** Nodes outside the tree are not touched. *)
Definition agree (l : list Z) (s s' : rb_state) : Prop :=
  forall a, a ∉ l -> rb_heap s' !! a = rb_heap s !! a.

Lemma agree_refl l s : agree l s s.
Proof. done. Qed.
Lemma agree_trans l s1 s2 s3 : agree l s1 s2 -> agree l s2 s3 -> agree l s1 s3.
Proof. intros H1 H2 a Ha. rewrite H2, H1 by done. done. Qed.
Lemma agree_mono l l' s s' : (forall a, a ∈ l -> a ∈ l') -> agree l s s' -> agree l' s s'.
Proof. intros Hl H a Ha. apply H. auto. Qed.

(** What a tree in a path and a tree below it have in common: nothing. *)
Ltac nodup :=
  repeat match goal with
  | H : NoDup (_ ++ _) |- _ => apply NoDup_app in H as (? & ? & ?)
  | H : NoDup (_ :: _) |- _ => apply NoDup_cons in H as (? & ?)
  | H : Forall _ (_ ++ _) |- _ => apply Forall_app in H as [? ?]
  | H : Forall _ (_ :: _) |- _ => apply Forall_cons in H as [? ?]
  end.

Lemma rotate_inorder d c c' x a y b z :
  inorder (nd d c' (nd d c x a y) b z) = inorder (nd d c x a (nd d c' y b z)).
Proof. destruct d; cbn; by rewrite <-app_assoc. Qed.

(** Lookups in a changed store. *)
Ltac look :=
  repeat first
    [ progress cbn [rb_heap with_heap set_root]
    | rewrite lookup_insert_eq
    | rewrite lookup_insert_ne by set_solver
    | rewrite adopt_other by set_solver
    | rewrite relink_other by set_solver ].

Lemma rotate_run d s K c x a c' y b z :
  rep s (plug K (nd d c x a (nd d c' y b z))) ->
  exists s', rotate d a s = Done tt s' /\ rep s' (plug K (nd d c' (nd d c x a y) b z)) /\
    agree (inorder (plug K (nd d c x a (nd d c' y b z)))) s s'.
Proof.
  intros (Hroot & HK & Hn & Hnd & Hok)%rep_plug. rewrite addr_nd in *.
  assert (Hnd' := Hnd). assert (Hok' := Hok). pose proof (parentk_aligned _ _ Hok) as HP.
  rewrite !inorder_nd_perm in Hnd, Hok. rewrite repn_nd, addr_nd in Hn. destruct Hn as (Ha & Hx & Hb).
  rewrite repn_nd in Hb. destruct Hb as (Hb & Hy & Hz).
  rewrite <-rotate_inorder in Hnd', Hok'. revert Hnd' Hok'. nodup. intros Hnd' Hok'.
  unfold rotate. rewrite (bind_ld _ _ _ _ Ha), child_far, (bind_ld _ _ _ _ Hb), parent_mkd, child_near by done.
  rewrite (bind_on_node _ _ _ _ _ Ha), set_child_far. set (s1 := with_heap _ _).
  assert (Hb1 : rb_heap s1 !! b = Some (mkd d a c' (addr y) (addr z))) by (unfold s1; by look).
  rewrite (bind_run _ _ s1 tt (adopt y a s1)); cycle 1.
  { rewrite <-(adopt_run y b); [|unfold s1; eapply repn_frame; [|done]; intros q Hq; by look|by eauto with rb..].
    destruct (decide _); [|done]. by rewrite (bind_ld _ _ _ _ Hb1), child_near. }
  set (s2 := adopt y a s1).
  assert (Hb2 : rb_heap s2 !! b = Some (mkd d a c' (addr y) (addr z))) by (unfold s2; by look).
  rewrite (bind_on_node _ _ _ _ _ Hb2), set_child_near. set (s3 := with_heap s2 _).
  rewrite (bind_run _ _ s3 tt (with_heap s3 (<[b := mkd d (parentk K) c' a (addr z)]> (rb_heap s3)))); cycle 1.
  { eapply set_parent_run; [unfold s3; by look|by eauto with rb..]. }
  set (s4 := with_heap s3 _).
  assert (HK4 : repk (rb_heap s4) K a).
  { eapply repk_frame; [|exact HK]. intros q Hq. unfold s4, s3, s2, s1. by look. }
  rewrite (bind_run _ _ s4 tt (relink K b s4)) by (eapply relink_run; [done|exact Hok'|done|set_solver]).
  set (s5 := relink K b s4).
  assert (Ha5 : rb_heap s5 !! a = Some (mkd d (parentk K) c (addr x) (addr y))).
  { unfold s5, s4, s3, s2, s1. by look. }
  rewrite (set_parent_run _ _ _ b _ _ _ _ Ha5) by eauto with rb. eexists. split; [done|].
  split; [|intros q Hq; rewrite plug_perm, !inorder_nd_perm in Hq; unfold s5, s4, s3, s2, s1; by look].
  apply rep_plug. rewrite addr_nd, !repn_nd, addr_nd. split.
  { unfold s5. cbn [with_heap rb_root]. apply relink_root with (a := a).
    unfold s4, s3, s2. cbn [with_heap rb_root]. by rewrite adopt_root. }
  split; [eapply repk_frame; [|by apply (repk_relink K a b s4)]; intros q Hq; cbn; by rewrite lookup_insert_ne by set_solver|].
  split; [|done]. split; [unfold s5, s4; by look|]. split; [split; [by look|split]|].
  - eapply repn_frame; [|exact Hx]. intros q Hq. unfold s5, s4, s3, s2, s1. by look.
  - eapply repn_frame; [|apply (repn_adopt y b a s1); [done|]].
    + intros q Hq. unfold s5, s4, s3. fold s2. by look.
    + eapply repn_frame; [|exact Hy]. intros q Hq. unfold s1. by look.
  - eapply repn_frame; [|exact Hz]. intros q Hq. unfold s5, s4, s3, s2, s1. by look.
Qed.

(** ** Reading and colouring *)

Section at_node.
  Context (s : rb_state) (K : list frame) (d : dir) (c : color) (x : tree) (a : Z) (y : tree).
  Context (Hrep : rep s (plug K (nd d c x a y))).

Lemma rep_parent_aligned : aligned (parentk K).
Proof using Hrep. apply rep_plug in Hrep as (_ & _ & _ & _ & H). by eapply parentk_aligned. Qed.

Lemma rep_ok : ok_addr a.
Proof using Hrep.
  apply rep_plug in Hrep as (_ & _ & _ & _ & H). rewrite inorder_nd_perm in H.
  apply Forall_app in H as [_ H]. by apply Forall_cons in H as [? _].
Qed.

Lemma rep_lookup : rb_heap s !! a = Some (mkd d (parentk K) c (addr x) (addr y)).
Proof using Hrep. apply rep_plug in Hrep as (_ & _ & H & _). by apply repn_nd in H as (? & _). Qed.

(** The children of a node are different, unless both are missing. *)
Lemma rep_children : addr x = addr y -> x = Leaf /\ y = Leaf.
Proof using Hrep.
  intros E. apply rep_plug in Hrep as (_ & _ & _ & Hnd & Hok). rewrite inorder_nd_perm in Hnd, Hok. nodup.
  destruct x as [|c1 l1 a1 r1], y as [|c2 l2 a2 r2]; cbn [addr inorder] in *; subst; nodup.
  - done.
  - match goal with H : ok_addr 0 |- _ => destruct H; lia end.
  - match goal with H : ok_addr 0 |- _ => destruct H; lia end.
  - set_solver.
Qed.

Lemma rep_paint c' :
  let s' := with_heap s (<[a := mkd d (parentk K) c' (addr x) (addr y)]> (rb_heap s)) in
  rep s' (plug K (nd d c' x a y)) /\ agree (inorder (plug K (nd d c x a y))) s s'.
Proof using Hrep.
  pose proof Hrep as H. apply rep_plug in H as (Hroot & HK & Hn & Hnd & Hok). rewrite addr_nd in *.
  assert (Hnd' : NoDup (keysk K ++ inorder (nd d c' x a y))) by (by rewrite inorder_nd_perm in Hnd |- * ).
  assert (Hok' : Forall ok_addr (keysk K ++ inorder (nd d c' x a y))) by (by rewrite inorder_nd_perm in Hok |- * ).
  apply repn_nd in Hn as (Ha & Hx & Hy). rewrite inorder_nd_perm in Hnd. clear Hok. revert Hnd' Hok'. nodup.
  intros Hnd' Hok'. cbv zeta. split.
  - apply rep_plug. rewrite addr_nd, repn_nd. cbn [with_heap rb_root rb_heap]. split; [done|].
    split; [eapply repk_frame; [|exact HK]; intros q Hq; by look|]. split; [|done].
    split; [by look|]. split; (eapply repn_frame; [|eassumption]); intros q Hq; by look.
  - intros q Hq. rewrite plug_perm, inorder_nd_perm in Hq. by look.
Qed.
End at_node.

(** What a call does to a tree: it ends, in a state that represents the tree [T'],
    which has the nodes of [T] in the same order; no other node is touched. *)
Definition becomes {A} (m : proc rb_state A) (s : rb_state) (T : tree) (v : A) (T' : tree) : Prop :=
  exists s', m s = Done v s' /\ rep s' T' /\ inorder T' = inorder T /\ agree (inorder T) s s'.

Lemma becomes_bind {A B} (m : proc rb_state A) (k : A -> proc rb_state B) s T v T' w T'' :
  becomes m s T v T' -> (forall s', rep s' T' -> becomes (k v) s' T' w T'') -> becomes (bind m k) s T w T''.
Proof.
  intros (s1 & E1 & H1 & I1 & A1) Hk. destruct (Hk s1 H1) as (s2 & E2 & H2 & I2 & A2).
  exists s2. split; [by rewrite (bind_run _ _ _ _ _ E1)|]. split; [done|]. split; [congruence|].
  eapply agree_trans; [done|]. by rewrite <-I1.
Qed.

Lemma becomes_ret {A} (v : A) s T : rep s T -> becomes (ret v) s T v T.
Proof. intros H. exists s. split; [done|]. split; [done|]. split; [done|apply agree_refl]. Qed.

Lemma becomes_read {A B} (m : proc rb_state A) (k : A -> proc rb_state B) s T v w T' :
  m s = Done v s -> becomes (k v) s T w T' -> becomes (bind m k) s T w T'.
Proof. intros E (s' & E' & H). exists s'. by rewrite (bind_run _ _ _ _ _ E). Qed.

(** The same for a call whose result is only described. *)
Definition leads {A} (m : proc rb_state A) (s : rb_state) (T : tree) (P : A -> tree -> Prop) : Prop :=
  exists v T', becomes m s T v T' /\ P v T'.

Lemma leads_bind {A B} (m : proc rb_state A) (k : A -> proc rb_state B) s T v T' P :
  becomes m s T v T' -> (forall s', rep s' T' -> leads (k v) s' T' P) -> leads (bind m k) s T P.
Proof.
  intros (s1 & E1 & H1 & I1 & A1) Hk. destruct (Hk s1 H1) as (w & T'' & (s2 & E2 & H2 & I2 & A2) & HP).
  exists w, T''. split; [|done]. exists s2. split; [by rewrite (bind_run _ _ _ _ _ E1)|]. split; [done|].
  split; [congruence|]. eapply agree_trans; [done|]. by rewrite <-I1.
Qed.

Lemma leads_read {A B} (m : proc rb_state A) (k : A -> proc rb_state B) s T v P :
  m s = Done v s -> leads (k v) s T P -> leads (bind m k) s T P.
Proof. intros E (w & T' & H & HP). exists w, T'. split; [by eapply becomes_read|done]. Qed.

Lemma leads_ret {A} (v : A) s T (P : A -> tree -> Prop) : rep s T -> P v T -> leads (ret v) s T P.
Proof. intros H HP. exists v, T. split; [by apply becomes_ret|done]. Qed.

Lemma inorder_recolor K d c c' x a y : inorder (plug K (nd d c' x a y)) = inorder (plug K (nd d c x a y)).
Proof. rewrite !inorder_plug. by destruct d. Qed.

Lemma becomes_rotate d s K c x a c' y b z :
  rep s (plug K (nd d c x a (nd d c' y b z))) ->
  becomes (rotate d a) s (plug K (nd d c x a (nd d c' y b z))) tt (plug K (nd d c' (nd d c x a y) b z)).
Proof.
  intros H. destruct (rotate_run _ _ _ _ _ _ _ _ _ _ H) as (s' & E & H' & HA). exists s'.
  do 2 (split; [done|]). split; [by rewrite !inorder_plug, rotate_inorder|done].
Qed.

Lemma becomes_paint s K d c x a y c' :
  rep s (plug K (nd d c x a y)) ->
  let s' := with_heap s (<[a := mkd d (parentk K) c' (addr x) (addr y)]> (rb_heap s)) in
  rep s' (plug K (nd d c' x a y)) /\ inorder (plug K (nd d c' x a y)) = inorder (plug K (nd d c x a y)) /\
    agree (inorder (plug K (nd d c x a y))) s s'.
Proof.
  intros H. cbv zeta. pose proof (rep_paint _ _ _ _ _ _ _ H c') as [H1 H2].
  split; [done|]. split; [apply inorder_recolor|done].
Qed.

Section paint.
  Context (s : rb_state) (K : list frame) (d : dir) (c : color) (x : tree) (a : Z) (y : tree).
  Context (Hrep : rep s (plug K (nd d c x a y))).
  #[local] Notation T := (plug K (nd d c x a y)).

Lemma set_black_run : becomes (rb_set_black a) s T tt (plug K (nd d Black x a y)).
Proof using Hrep.
  eexists. split; [|by apply becomes_paint]. unfold rb_set_black. rewrite (on_node_run _ _ _ _ (rep_lookup _ _ _ _ _ _ _ Hrep)).
  do 2 f_equal. f_equal. pose proof (rep_parent_aligned _ _ _ _ _ _ _ Hrep) as HP.
  destruct d; unfold set_parent_color; cbn; by rewrite word_black.
Qed.
Lemma set_red_run : becomes (rb_set_red a) s T tt (plug K (nd d Red x a y)).
Proof using Hrep.
  eexists. split; [|by apply becomes_paint]. unfold rb_set_red. rewrite (on_node_run _ _ _ _ (rep_lookup _ _ _ _ _ _ _ Hrep)).
  do 2 f_equal. f_equal. pose proof (rep_parent_aligned _ _ _ _ _ _ _ Hrep) as HP.
  destruct d; unfold set_parent_color; cbn [mkd rb_parent_color rb_right rb_left]; by rewrite word_red.
Qed.
Lemma set_color_run c' : becomes (rb_set_color a (bit c')) s T tt (plug K (nd d c' x a y)).
Proof using Hrep.
  eexists. split; [|by apply becomes_paint]. unfold rb_set_color. rewrite (on_node_run _ _ _ _ (rep_lookup _ _ _ _ _ _ _ Hrep)).
  do 2 f_equal. f_equal. pose proof (rep_parent_aligned _ _ _ _ _ _ _ Hrep) as HP.
  destruct d; unfold set_parent_color; cbn [mkd rb_parent_color rb_right rb_left]; by rewrite word_set_color.
Qed.
End paint.

Lemma is_red_run s K t :
  rep s (plug K t) -> is_red_node (addr t) s = Done (bool_decide (col t = Red)) s.
Proof.
  intros H. unfold is_red_node. destruct t as [|c l a r]; [done|]. rewrite node_nd in H.
  pose proof (rep_ok _ _ _ _ _ _ _ H) as [Hpos _]. cbn [addr col]. rewrite decide_False by lia.
  rewrite (bind_ld _ _ _ _ (rep_lookup _ _ _ _ _ _ _ H)), is_red_mkd; [done|by eapply rep_parent_aligned].
Qed.
Lemma black_or_null_run s K t :
  rep s (plug K t) -> black_or_null (addr t) s = Done (bool_decide (col t = Black)) s.
Proof.
  intros H. unfold black_or_null. destruct t as [|c l a r]; [done|]. rewrite node_nd in H.
  pose proof (rep_ok _ _ _ _ _ _ _ H) as [Hpos _]. cbn [addr col]. rewrite decide_False by lia.
  rewrite (bind_ld _ _ _ _ (rep_lookup _ _ _ _ _ _ _ H)), is_black_mkd; [done|by eapply rep_parent_aligned].
Qed.
