(* ===== verification/RbBalance.v ===== *)
(** * Balance of red-black trees (src/lib/rbtree.c)

    A tree is red-black when its root is black, no red node has a red child and all
    paths from the root to a leaf have the same number of black nodes.
    [rb_insert_color] restores this after a red leaf was linked, [rb_erase] keeps it;
    both keep the order of the nodes. *)

From stdpp Require Import base gmap list.
From Stdlib Require Import ZArith Lia.
From S2P Require Import Prelude Rbtree RbShape.
#[local] Open Scope Z_scope.
#[local] Open Scope rosx_scope.

(** ** The invariant *)

(** No red node has a red child; every path has [n] black nodes. *)
Fixpoint rbt (n : nat) (t : tree) : Prop :=
  match t with
  | Leaf => n = 0%nat
  | Node Red l _ r => (col l = Black /\ col r = Black) /\ rbt n l /\ rbt n r
  | Node Black l _ r => match n with O => False | S n => rbt n l /\ rbt n r end
  end.

Definition red_black (T : tree) : Prop := col T = Black /\ exists n, rbt n T.

(** A path whose hole takes a subtree with [n] black nodes on every path. *)
Fixpoint rbk (n : nat) (K : list frame) : Prop :=
  match K with
  | [] => True
  | Fr _ Black _ s :: K => rbt n s /\ rbk (S n) K
  | Fr _ Red _ s :: K =>
    rbt n s /\ col s = Black /\ (exists d p s' K', K = Fr d Black p s' :: K') /\ rbk n K
  end.

(** The parent of the hole is black or missing. *)
Definition blackk (K : list frame) : Prop := match K with Fr _ Red _ _ :: _ => False | _ => True end.

Lemma rbt_nd_red n d x a y :
  rbt n (nd d Red x a y) <-> (col x = Black /\ col y = Black) /\ rbt n x /\ rbt n y.
Proof. destruct d; cbn; tauto. Qed.
Lemma rbt_nd_black n d x a y : rbt (S n) (nd d Black x a y) <-> rbt n x /\ rbt n y.
Proof. destruct d; cbn; tauto. Qed.
Lemma rbt_black_inv n d x a y : rbt n (nd d Black x a y) -> exists m, n = S m /\ rbt m x /\ rbt m y.
Proof. destruct n; [by destruct d|]. rewrite rbt_nd_black. eauto. Qed.

Lemma rbt_plug n K t :
  rbt n t -> rbk n K -> (col t = Red -> blackk K) ->
  exists m, rbt m (plug K t) /\ (K <> [] -> col (plug K t) = Black).
Proof.
  revert n t. induction K as [|[d [] p s] K IH]; intros n t Ht HK Hc; cbn [plug rbk] in *.
  - by exists n.
  - destruct HK as (Hs & Hcs & (d' & p' & s' & K' & ->) & HK).
    destruct (IH n (nd d Red t p s)) as (m & Hm & Hcol); [|done|done|].
    { apply rbt_nd_red. split; [|done]. split; [|done]. destruct (col t); [by destruct Hc|done]. }
    exists m. split; [done|]. intros _. by apply Hcol.
  - destruct HK as (Hs & HK). destruct (IH (S n) (nd d Black t p s)) as (m & Hm & Hcol).
    { by apply rbt_nd_black. } { done. } { by rewrite col_nd. }
    exists m. split; [done|]. intros _. destruct K; [by destruct d|]. by apply Hcol.
Qed.

(** ** Insertion *)

(** One side of the loop body. *)
Definition insert_branch (d : dir) (k : Z -> proc rb_state unit) (node parent gparent : Z) (g : rb_node)
    : proc rb_state unit :=
  let uncle := child (op d) g in
  let! red := is_red_node uncle in
  if red : bool then
    rb_set_black uncle ;;;
    rb_set_black parent ;;;
    rb_set_red gparent ;;;
    k gparent
  else
    let! p := ld parent in
    let! pn := (if decide (child (op d) p = node)
                then rotate d parent ;;; ret (node, parent) else ret (parent, node)) in
    rb_set_black (fst pn) ;;;
    rb_set_red gparent ;;;
    rotate (op d) gparent ;;;
    k (snd pn).

Lemma insert_loop_S fuel node :
  insert_loop (S fuel) node =
    (let! n := ld node in
     let parent := rb_parent n in
     let! red := is_red_node parent in
     if red : bool then
       let! p := ld parent in
       let gparent := rb_parent p in
       let! g := ld gparent in
       if decide (parent = rb_left g) then insert_branch L (insert_loop fuel) node parent gparent g
       else insert_branch R (insert_loop fuel) node parent gparent g
     else ret tt).
Proof. reflexivity. Qed.

(** Reads at the start of a round. *)
Lemma ld_at s K d c x a y :
  rep s (plug K (nd d c x a y)) -> ld a s = Done (mkd d (parentk K) c (addr x) (addr y)) s.
Proof. intros H. apply ld_run. by eapply rep_lookup. Qed.

Lemma parent_at s K d c x a y :
  rep s (plug K (nd d c x a y)) -> rb_parent (mkd d (parentk K) c (addr x) (addr y)) = parentk K.
Proof. intros H. apply parent_mkd. by eapply rep_parent_aligned. Qed.

(** A black parent, or none, ends the loop. *)
Lemma insert_exit fuel s K c l a r :
  rep s (plug K (Node c l a r)) -> blackk K -> insert_loop (S fuel) a s = Done tt s.
Proof.
  intros H HK. rewrite insert_loop_S. rewrite node_nd in H.
  rewrite (bind_run _ _ _ _ _ (ld_at _ _ _ _ _ _ _ H)). cbv zeta. rewrite (parent_at _ _ _ _ _ _ _ H).
  destruct K as [|[d [] p u] K]; [done|done|].
  cbn [parentk f_addr]. change p with (f_addr (Fr d Black p u)). cbn [plug] in H.
  pose proof (is_red_run s K _ H) as E. rewrite addr_nd, col_nd in E.
  by rewrite (bind_run _ _ _ _ _ E).
Qed.

(** The two children of a node as holes. *)
Lemma plug_near d c x a y K : plug K (nd d c x a y) = plug (Fr d c a y :: K) x.
Proof. done. Qed.
Lemma plug_far d c x a y K : plug K (nd d c x a y) = plug (Fr (op d) c a x :: K) y.
Proof. cbn [plug]. by rewrite nd_op. Qed.

(** The near child of a node is, seen from the other side, the far one. *)
Lemma nd_flip d c c' x a y b z : nd d c (nd d c' x a y) b z = nd (op d) c z b (nd (op d) c' y a x).
Proof. by rewrite !nd_op. Qed.

(** A red uncle: the colours move up. *)
Lemma branch_red_uncle d' d k s K t p u g w1 wa w2 P :
  let T1 := plug K (nd d' Red (nd d Black t p u) g (nd d' Black w1 wa w2)) in
  let T := plug K (nd d' Black (nd d Red t p u) g (nd d' Red w1 wa w2)) in
  rep s T -> (forall s', rep s' T1 -> leads (k g) s' T1 P) ->
  leads (insert_branch d' k (addr t) p g (mkd d' (parentk K) Black p wa)) s T P.
Proof.
  intros T1 T H Hk. unfold insert_branch. cbv zeta. rewrite child_far. unfold T in *.
  pose proof H as Hw. rewrite plug_far in Hw. pose proof (is_red_run _ _ _ Hw) as E. rewrite addr_nd, col_nd in E.
  eapply leads_read; [exact E|]. cbn [bool_decide].
  rewrite plug_far. eapply leads_bind; [by apply set_black_run|]. intros s1 H1.
  rewrite <-plug_far, plug_near in *. eapply leads_bind; [by apply set_black_run|]. intros s2 H2.
  rewrite <-plug_near in *. eapply leads_bind; [by apply set_red_run|]. intros s3 H3. by apply Hk.
Qed.

(** A black uncle and a node on the outside: one rotation. *)
Lemma branch_outer d' k s K t p u g w P :
  let T1 := plug K (nd d' Black t p (nd d' Red u g w)) in
  let T := plug K (nd d' Black (nd d' Red t p u) g w) in
  rep s T -> t <> Leaf -> col w = Black -> (forall s', rep s' T1 -> leads (k (addr t)) s' T1 P) ->
  leads (insert_branch d' k (addr t) p g (mkd d' (parentk K) Black p (addr w))) s T P.
Proof.
  intros T1 T H Ht Hw Hk. unfold insert_branch. cbv zeta. rewrite child_far. unfold T in *.
  pose proof H as HW. rewrite plug_far in HW. pose proof (is_red_run _ _ _ HW) as E. rewrite Hw in E.
  eapply leads_read; [exact E|]. cbn [bool_decide].
  pose proof H as HP. rewrite plug_near in HP.
  eapply leads_read; [by eapply ld_at|]. rewrite child_far.
  rewrite decide_False by (intros Eq; by destruct (rep_children _ _ _ _ _ _ _ HP (eq_sym Eq))).
  eapply leads_read; [done|]. cbn [fst snd].
  rewrite plug_near. eapply leads_bind; [by apply set_black_run|]. intros s1 H1.
  rewrite <-plug_near in *. eapply leads_bind; [by apply set_red_run|]. intros s2 H2.
  rewrite (nd_flip d' Red) in *. eapply leads_bind; [by apply becomes_rotate|].
  intros s3 H3. rewrite !nd_op in *. by apply Hk.
Qed.

(** A black uncle and a node on the inside: two rotations. *)
Lemma branch_inner d' k s K t1 a t2 p u g w P :
  let T1 := plug K (nd d' Black (nd d' Red u p t1) a (nd d' Red t2 g w)) in
  let T := plug K (nd d' Black (nd d' Red u p (nd d' Red t1 a t2)) g w) in
  rep s T -> col w = Black -> (forall s', rep s' T1 -> leads (k p) s' T1 P) ->
  leads (insert_branch d' k a p g (mkd d' (parentk K) Black p (addr w))) s T P.
Proof.
  intros T1 T H Hw Hk. unfold insert_branch. cbv zeta. rewrite child_far. unfold T in *.
  pose proof H as HW. rewrite plug_far in HW. pose proof (is_red_run _ _ _ HW) as E. rewrite Hw in E.
  eapply leads_read; [exact E|]. cbn [bool_decide].
  pose proof H as HP. rewrite plug_near in HP.
  eapply leads_read; [by eapply ld_at|]. rewrite child_far, addr_nd, decide_True by done.
  rewrite plug_near in H |- *. eapply leads_bind.
  { eapply becomes_bind; [by apply becomes_rotate|]. intros s1 H1. by apply becomes_ret. }
  intros s1 H1. cbn [fst snd]. eapply leads_bind; [by apply set_black_run|]. intros s2 H2.
  rewrite <-plug_near in *. eapply leads_bind; [by apply set_red_run|]. intros s3 H3.
  rewrite (nd_flip d' Red) in *. eapply leads_bind; [by apply becomes_rotate|].
  intros s4 H4. rewrite !nd_op in *. by apply Hk.
Qed.

(** A round of the loop below a red parent takes the branch of the parent's side. *)
Lemma insert_round fuel s d p u d' g w K c l a r P :
  let T := plug (Fr d Red p u :: Fr d' Black g w :: K) (Node c l a r) in
  rep s T ->
  leads (insert_branch d' (insert_loop fuel) a p g (mkd d' (parentk K) Black p (addr w))) s T P ->
  leads (insert_loop (S fuel) a) s T P.
Proof.
  intros T H Hb. rewrite insert_loop_S.
  assert (Ha : rep s (plug (Fr d Red p u :: Fr d' Black g w :: K) (nd L c l a r))) by done.
  eapply leads_read; [by eapply ld_at|]. cbv zeta. rewrite (parent_at _ _ _ _ _ _ _ Ha). cbn [parentk f_addr].
  assert (Hp : rep s (plug (Fr d' Black g w :: K) (nd d Red (Node c l a r) p u))) by done.
  pose proof (is_red_run _ _ _ Hp) as E. rewrite addr_nd, col_nd in E.
  eapply leads_read; [exact E|]. cbn [bool_decide]. eapply leads_read; [by eapply ld_at|].
  rewrite (parent_at _ _ _ _ _ _ _ Hp). cbn [parentk f_addr].
  assert (Hg : rep s (plug K (nd d' Black (nd d Red (Node c l a r) p u) g w))) by done.
  eapply leads_read; [by eapply ld_at|]. rewrite addr_nd. destruct d'.
  - by rewrite decide_True.
  - rewrite decide_False; [done|]. intros Eq. cbn [rb_left mkd] in Eq.
    destruct (rep_children _ _ _ _ _ _ _ Hg) as [E1 _]; [by rewrite addr_nd|]. by destruct d.
Qed.

Lemma rbt_blacken n d x a y : rbt n (nd d Red x a y) -> rbt (S n) (nd d Black x a y).
Proof. rewrite rbt_nd_red, rbt_nd_black. tauto. Qed.

(** What the loop leaves is red-black up to the colour of the root. *)
Definition almost (_ : unit) (T : tree) : Prop := T <> Leaf /\ exists n, rbt n T.

Lemma plug_node K t : t <> Leaf -> plug K t <> Leaf.
Proof. revert t. induction K as [|[d c p u] K IH]; intros t Ht; [done|]. apply IH. by destruct d. Qed.

(** The loop keeps any property [I] of a path and the tree below it that moving the colours
    up keeps, and leaves a tree with the property [P], when that follows from [I] at the end
    and by the rotations. *)
Section Loop.
  Context (I : list frame -> tree -> Prop) (P : tree -> Prop).
  Context (Hexit : forall K t, I K t -> P (plug K t)).
  Context (Hred : forall d d' p u g K t w1 wa w2,
    I (Fr d Red p u :: Fr d' Black g (nd d' Red w1 wa w2) :: K) t ->
    I K (nd d' Red (nd d Black t p u) g (nd d' Black w1 wa w2))).
  Context (Houter : forall d p u g w K t,
    I (Fr d Red p u :: Fr d Black g w :: K) t -> P (plug K (nd d Black t p (nd d Red u g w)))).
  Context (Hinner : forall d p u g w K t1 a t2,
    I (Fr (op d) Red p u :: Fr d Black g w :: K) (nd d Red t1 a t2) ->
    P (plug K (nd d Black (nd d Red u p t1) a (nd d Red t2 g w)))).

Definition almost_with (_ : unit) (T : tree) : Prop := almost tt T /\ P T.

Lemma insert_done fuel K d c l a r n s :
  rep s (plug K (nd d c l a r)) -> rbt n (nd d c l a r) -> rbk n K -> blackk K -> P (plug K (nd d c l a r)) ->
  leads (insert_loop (S fuel) a) s (plug K (nd d c l a r)) almost_with.
Proof using Type.
  intros H Ht HK HB HP. exists tt, (plug K (nd d c l a r)). split.
  - exists s. split; [destruct d; by eapply insert_exit|]. split; [done|]. split; [done|apply agree_refl].
  - split; [|done]. split; [apply plug_node; by destruct d|]. destruct (rbt_plug n K (nd d c l a r)) as (m & Hm & _); eauto.
Qed.

Lemma insert_loop_with fuel K d0 l a r n s :
  rep s (plug K (nd d0 Red l a r)) -> rbt n (nd d0 Red l a r) -> rbk n K -> (length K < fuel)%nat ->
  I K (nd d0 Red l a r) -> leads (insert_loop fuel a) s (plug K (nd d0 Red l a r)) almost_with.
Proof using Hexit Hred Houter Hinner.
  revert K d0 l a r n s. induction (lt_wf fuel) as [fuel _ IH]. intros K d0 l a r n s H Ht HK Hf HI.
  destruct fuel as [|fuel]; [lia|].
  destruct K as [|[d [] p u] K']; [eapply insert_done; eauto| |eapply insert_done; eauto; done].
  cbn [rbk] in HK. destruct HK as (Hu & Hcu & (d' & g & w & K & ->) & Hw & HK).
  destruct fuel as [|fuel]; [simpl in Hf; lia|].
  assert (Hb : leads (insert_branch d' (insert_loop (S fuel)) a p g (mkd d' (parentk K) Black p (addr w))) s
    (plug (Fr d Red p u :: Fr d' Black g w :: K) (nd d0 Red l a r)) almost_with); [|destruct d0; by apply insert_round].
  cbn [plug] in *. destruct (col w) eqn:Hcw.
  - destruct (nd_cases d' w) as [->|(cw & w1 & wa & w2 & ->)]; [done|]. rewrite col_nd in Hcw. subst cw.
    rewrite addr_nd. rewrite <-(addr_nd d0 Red l a r) at 1. apply branch_red_uncle; [done|]. intros s' H'.
    apply (IH (S fuel) ltac:(lia)) with (n := S n); [done| |done|simpl in *; lia|by apply Hred].
    apply rbt_nd_red. rewrite !col_nd. split; [done|]. split; [by apply rbt_nd_black|by apply rbt_blacken].
  - destruct (decide (d = d')) as [->|Hd].
    + rewrite <-(addr_nd d0 Red l a r) at 1. apply branch_outer; [done|by destruct d0|done|]. intros s' H'.
      apply Houter in HI. rewrite plug_near in H', HI |- *. rewrite addr_nd.
      eapply insert_done; [done|done|cbn [rbk]|done|done]. split; [by apply rbt_nd_red|done].
    + assert (d = op d') as -> by (by destruct d, d'). rewrite nd_op in *.
      destruct (nd_cases d' (nd d0 Red l a r)) as [E|(ct & t1 & a' & t2 & E)]; [by destruct d0|].
      assert (ct = Red /\ a' = a) as [-> ->] by (destruct d0, d'; by inversion E). rewrite E in *.
      apply rbt_nd_red in Ht as ([Hc1 Hc2] & Ht1 & Ht2).
      apply branch_inner; [done|done|]. intros s' H'. apply Hinner in HI. rewrite plug_near in H', HI |- *.
      eapply insert_done; [done|by apply rbt_nd_red|cbn [rbk]|done|done].
      split; [by apply rbt_nd_red|done].
Qed.
End Loop.

(** ** The bound of the loops *)

Lemma repn_dom h p t a : repn h p t -> a ∈ inorder t -> is_Some (h !! a).
Proof.
  revert p. induction t as [|c l IHl b r IHr]; intros p; cbn [repn inorder]; [set_solver|].
  intros (Hb & Hl & Hr) [Ha|[->|Ha]%elem_of_cons]%elem_of_app; eauto.
Qed.

Lemma rep_size s T : rep s T -> (length (inorder T) <= size (rb_heap s))%nat.
Proof.
  intros (_ & Hn & Hnd & _). rewrite <-(size_dom (D := gset Z)), <-(size_list_to_set (C := gset Z)) by done.
  apply subseteq_size. intros a Ha. apply elem_of_list_to_set in Ha. apply elem_of_dom. by eapply repn_dom.
Qed.

Lemma length_keysk K : (length K <= length (keysk K))%nat.
Proof. induction K as [|f K IH]; cbn; [done|]. rewrite length_app. lia. Qed.

Lemma rep_fuel s K t : rep s (plug K t) -> (length K + length (inorder t) < rb_fuel s)%nat.
Proof.
  intros H. apply rep_size in H. rewrite plug_perm, length_app in H. pose proof (length_keysk K).
  unfold rb_fuel. lia.
Qed.

(** ** Linking a node *)

(** The place of the hole. *)
Definition linkk (K : list frame) : link :=
  match K with
  | [] => RootLink
  | Fr L _ p _ :: _ => LeftLink p
  | Fr R _ p _ :: _ => RightLink p
  end.

Lemma set_link_run K a x s : repk (rb_heap s) K a -> set_link (linkk K) x s = Done tt (relink K x s).
Proof.
  destruct K as [|[[] c p u] K]; cbn [linkk set_link repk]; [done| |];
    intros (Hp & _); by rewrite (on_node_run _ _ _ _ Hp).
Qed.

Lemma link_node_run K a s :
  rep s (plug K Leaf) -> ok_addr a -> a ∉ inorder (plug K Leaf) -> is_Some (rb_heap s !! a) ->
  exists s', rb_link_node a (parentk K) (linkk K) s = Done tt s' /\ rep s' (plug K (Node Red Leaf a Leaf)) /\
    agree (a :: inorder (plug K Leaf)) s s'.
Proof.
  rewrite plug_perm, app_nil_r. intros (Hroot & HK & _ & Hnd & Hok)%rep_plug Ha Hn [v Hv].
  cbn [inorder addr] in *. rewrite app_nil_r in *. unfold rb_link_node.
  rewrite (bind_on_node _ _ v) by done. rewrite (bind_on_node _ _ _ _ _ (lookup_insert_eq _ _ _)).
  rewrite (bind_on_node _ _ _ _ _ (lookup_insert_eq _ _ _)). cbn [with_heap rb_heap].
  rewrite !insert_insert_eq. unfold set_left, set_right, set_parent_color. cbn [rb_parent_color rb_right rb_left].
  set (s1 := with_heap _ _).
  assert (HK1 : repk (rb_heap s1) K 0).
  { eapply repk_frame; [|exact HK]. intros q Hq. cbn. rewrite lookup_insert_ne; [done|set_solver]. }
  rewrite (set_link_run _ _ _ _ HK1). eexists. split; [done|]. split.
  - apply rep_plug. cbn [addr]. split; [by eapply relink_root|]. split; [by eapply repk_relink|].
    cbn [repn inorder app]. split.
    { split; [|done]. rewrite relink_other by done. cbn. rewrite lookup_insert_eq. cbn [bit]. by rewrite Z.add_0_r. }
    split; [|apply Forall_app; split; [done|by apply Forall_singleton]].
    apply NoDup_app. split; [done|]. split; [set_solver|apply NoDup_singleton].
  - intros q Hq. rewrite plug_perm in Hq. cbn [inorder] in Hq. rewrite app_nil_r in Hq.
    rewrite relink_other by set_solver. cbn. by rewrite lookup_insert_ne by set_solver.
Qed.

Lemma rbt_unplug m K t :
  rbt m (plug K t) -> col (plug K t) = Black ->
  exists n, rbt n t /\ rbk n K /\ (col t = Red -> blackk K) /\ (col t = Red -> K <> []).
Proof.
  revert t. induction K as [|[d c p u] K IH]; intros t Ht Hc; cbn [plug] in *.
  { exists m. split; [done|]. split; [done|]. split; [done|]. by rewrite Hc. }
  destruct (IH _ Ht Hc) as (n & Hn & HK & Hb & Hne). rewrite col_nd in Hb, Hne. destruct c.
  - apply rbt_nd_red in Hn as ([Hct Hcu] & Hnt & Hnu). exists n. split; [done|]. rewrite Hct.
    split; [|split; done]. cbn [rbk]. split; [done|]. split; [done|]. split; [|done].
    specialize (Hb eq_refl). specialize (Hne eq_refl). destruct K as [|[d' [] p' u'] K]; [done|done|eauto].
  - apply rbt_black_inv in Hn as (k & -> & Hnt & Hnu). exists k. split; [done|]. cbn [rbk blackk]. done.
Qed.

(** The same for the whole of [rb_insert_color], when [P] does not depend on the colour of
    the root. *)
Lemma insert_color_with (I : list frame -> tree -> Prop) (P : tree -> Prop) s K l a r n :
  (forall K t, I K t -> P (plug K t)) ->
  (forall d d' p u g K t w1 wa w2,
     I (Fr d Red p u :: Fr d' Black g (nd d' Red w1 wa w2) :: K) t ->
     I K (nd d' Red (nd d Black t p u) g (nd d' Black w1 wa w2))) ->
  (forall d p u g w K t,
     I (Fr d Red p u :: Fr d Black g w :: K) t -> P (plug K (nd d Black t p (nd d Red u g w)))) ->
  (forall d p u g w K t1 a t2,
     I (Fr (op d) Red p u :: Fr d Black g w :: K) (nd d Red t1 a t2) ->
     P (plug K (nd d Black (nd d Red u p t1) a (nd d Red t2 g w)))) ->
  (forall c l a r, P (Node c l a r) -> P (Node Black l a r)) ->
  rep s (plug K (Node Red l a r)) -> rbt n (Node Red l a r) -> rbk n K -> I K (Node Red l a r) ->
  leads (rb_insert_color a) s (plug K (Node Red l a r)) (fun _ T' => red_black T' /\ P T').
Proof.
  intros He Hr Ho Hi Hp H Ht HK HI. unfold rb_insert_color. eapply leads_read; [done|].
  destruct (insert_loop_with I P He Hr Ho Hi (rb_fuel s) K L l a r n s) as (v & T' & Hb & (Hne & m & Hm) & HP); [done|done|done| |done|].
  { pose proof (rep_fuel _ _ _ H). lia. }
  eapply leads_bind; [exact Hb|]. intros s' H'. eapply leads_read; [done|].
  destruct T' as [|c' l' a' r']; [done|]. rewrite (proj1 H'). cbn [addr].
  exists tt, (Node Black l' a' r'). split; [by apply (set_black_run s' [] L c')|]. split; [|by eapply Hp].
  split; [done|]. destruct c'; [|by exists m]. exists (S m). by apply (rbt_blacken m L).
Qed.

Lemma insert_color_run s K l a r n :
  rep s (plug K (Node Red l a r)) -> rbt n (Node Red l a r) -> rbk n K ->
  leads (rb_insert_color a) s (plug K (Node Red l a r)) (fun _ T' => red_black T').
Proof.
  intros H Ht HK. destruct (insert_color_with (fun _ _ => True) (fun _ => True) s K l a r n) as (v & T' & Hb & HT & _);
    try done. by exists v, T'.
Qed.

(** Linking a new node at a free place of a red-black tree and calling
    [rb_insert_color] ends, and gives a red-black tree that has the nodes of the old
    one in the same order with the new node at its place; all parent links are right
    and nodes outside the tree are not touched. *)
Theorem insert_rebalances s K a :
  rep s (plug K Leaf) -> red_black (plug K Leaf) ->
  ok_addr a -> a ∉ inorder (plug K Leaf) -> is_Some (rb_heap s !! a) ->
  exists s' T', (rb_link_node a (parentk K) (linkk K) ;;; rb_insert_color a) s = Done tt s' /\
    rep s' T' /\ red_black T' /\ inorder T' = before K ++ a :: after K /\
    forall b, b ∉ before K ++ a :: after K -> rb_heap s' !! b = rb_heap s !! b.
Proof.
  intros H [Hc [m Hm]] Ha Hn Hs. destruct (rbt_unplug _ _ _ Hm Hc) as (n & Hn0 & HK & _).
  destruct (link_node_run K a s H Ha Hn Hs) as (s1 & E1 & H1 & A1). cbn in Hn0. subst n.
  destruct (insert_color_run s1 K Leaf a Leaf 0 H1) as (v & T' & (s2 & E2 & H2 & I2 & A2) & HT); [done|done|].
  destruct v. exists s2, T'. rewrite (bind_run _ _ _ _ _ E1). split; [done|]. split; [done|]. split; [done|].
  rewrite inorder_plug in I2. cbn [inorder app] in I2. split; [done|]. intros b Hb. rewrite A2, A1; [done| |].
  - rewrite inorder_plug. cbn. set_solver.
  - rewrite inorder_plug. cbn. set_solver.
Qed.

(** Inserting 4 below 8, a red node below the black root 16. *)
Definition sample_path : list frame := [Fr L Red 8 Leaf; Fr L Black 16 Leaf].
Definition sample_rb : rb_state :=
  mk_rb_state (list_to_map [(16, mkd L 0 Black 8 0); (8, mkd L 16 Red 0 0); (4, mk_rb_node 0 0 0)]) 16 ∅.

Lemma sample_rb_rep : rep sample_rb (plug sample_path Leaf) /\ red_black (plug sample_path Leaf).
Proof.
  split.
  - split; [done|]. split; [by repeat split|]. split; [|by repeat constructor].
    apply (bool_decide_unpack _). by vm_compute.
  - split; [done|]. exists 1%nat. by repeat split.
Qed.

Lemma insert_rebalances_witness :
  exists s' T', (rb_link_node 4 8 (LeftLink 8) ;;; rb_insert_color 4) sample_rb = Done tt s' /\
    rep s' T' /\ red_black T' /\ inorder T' = [4; 8; 16] /\
    forall b, b ∉ [4; 8; 16] -> rb_heap s' !! b = rb_heap sample_rb !! b.
Proof.
  destruct sample_rb_rep as [H HT]. apply (insert_rebalances sample_rb sample_path 4 H HT).
  - done.
  - by apply (bool_decide_unpack _).
  - by eexists.
Defined.
