(* ===== verification/RbWalk.v ===== *)
(** * Walking through a red-black tree (src/lib/rbtree.c)

    [rb_first], [rb_last], [rb_next] and [rb_prev] follow the order of the tree;
    [rb_replace_node] puts a node in the place of another one. *)

From stdpp Require Import base gmap list.
From Stdlib Require Import ZArith Lia.
From S2P Require Import Prelude Rbtree RbShape RbBalance.
#[local] Open Scope Z_scope.
#[local] Open Scope rosx_scope.

(** ** Down to the first and the last node *)

Lemma length_inorder c l a r : length (inorder (Node c l a r)) = S (length (inorder l) + length (inorder r)).
Proof. cbn. rewrite length_app. simpl. lia. Qed.

Lemma leftmost_run fuel s K t :
  rep s (plug K t) -> t <> Leaf -> (length (inorder t) < fuel)%nat ->
  leftmost fuel (addr t) s = Done (default 0 (head (inorder t))) s.
Proof.
  revert K t. induction fuel as [|fuel IH]; intros K t H Ht Hf; [lia|].
  destruct t as [|c l a r]; [done|]. cbn [leftmost addr]. pose proof H as Ha. rewrite node_nd in Ha.
  rewrite (bind_run _ _ _ _ _ (ld_at _ _ _ _ _ _ _ Ha)). cbn [mkd rb_left]. rewrite node_nd, plug_near in H.
  destruct l as [|cl ll la lr]; [done|]. rewrite node_nd in H.
  pose proof (rep_ok _ _ _ _ _ _ _ H) as [Hpos _]. rewrite decide_True by (cbn; lia).
  rewrite <-node_nd in H. rewrite (IH _ _ H); [|done|rewrite length_inorder in Hf; lia].
  do 2 f_equal. cbn. by destruct (inorder ll).
Qed.

Lemma rightmost_run fuel s K t :
  rep s (plug K t) -> t <> Leaf -> (length (inorder t) < fuel)%nat ->
  rightmost fuel (addr t) s = Done (default 0 (last (inorder t))) s.
Proof.
  revert K t. induction fuel as [|fuel IH]; intros K t H Ht Hf; [lia|].
  destruct t as [|c l a r]; [done|]. cbn [rightmost addr]. pose proof H as Ha. rewrite node_nd in Ha.
  rewrite (bind_run _ _ _ _ _ (ld_at _ _ _ _ _ _ _ Ha)). cbn [mkd rb_right]. rewrite node_nd, plug_far in H.
  destruct r as [|cr rl ra rr]; [cbn; by rewrite last_snoc|]. rewrite node_nd in H.
  pose proof (rep_ok _ _ _ _ _ _ _ H) as [Hpos _]. rewrite decide_True by (cbn; lia).
  rewrite <-node_nd in H. rewrite (IH _ _ H); [|done|rewrite length_inorder in Hf; lia].
  f_equal. cbn [inorder]. change (a :: inorder rl ++ ra :: inorder rr) with ([a] ++ inorder rl ++ ra :: inorder rr).
  by rewrite !app_assoc, !last_app_cons.
Qed.

(** ** Up to the next and the previous node *)

Lemma up_from_right_run fuel s K t :
  rep s (plug K t) -> t <> Leaf -> (length K < fuel)%nat ->
  up_from_right fuel (addr t) s = Done (default 0 (head (after K))) s.
Proof.
  revert K t. induction fuel as [|fuel IH]; intros K t H Ht Hf; [lia|].
  destruct t as [|c l a r]; [done|]. cbn [up_from_right addr]. pose proof H as Ha. rewrite node_nd in Ha.
  rewrite (bind_run _ _ _ _ _ (ld_at _ _ _ _ _ _ _ Ha)). cbv zeta. rewrite (parent_at _ _ _ _ _ _ _ Ha).
  destruct K as [|[d ck p u] K]; [done|]. cbn [parentk f_addr]. pose proof H as Hp. cbn [plug] in Hp.
  pose proof (rep_ok _ _ _ _ _ _ _ Hp) as [Hpos _]. rewrite decide_False by lia.
  rewrite (bind_run _ _ _ _ _ (ld_at _ _ _ _ _ _ _ Hp)). destruct d.
  - rewrite decide_False; [done|]. intros E. cbn [mkd rb_right] in E.
    by destruct (rep_children _ _ _ _ _ _ _ Hp E).
  - rewrite decide_True by done. rewrite <-(addr_nd R ck (Node c l a r) p u).
    by rewrite (IH K) by (done || simpl in *; lia).
Qed.

Lemma up_from_left_run fuel s K t :
  rep s (plug K t) -> t <> Leaf -> (length K < fuel)%nat ->
  up_from_left fuel (addr t) s = Done (default 0 (last (before K))) s.
Proof.
  revert K t. induction fuel as [|fuel IH]; intros K t H Ht Hf; [lia|].
  destruct t as [|c l a r]; [done|]. cbn [up_from_left addr]. pose proof H as Ha. rewrite node_nd in Ha.
  rewrite (bind_run _ _ _ _ _ (ld_at _ _ _ _ _ _ _ Ha)). cbv zeta. rewrite (parent_at _ _ _ _ _ _ _ Ha).
  destruct K as [|[d ck p u] K]; [done|]. cbn [parentk f_addr]. pose proof H as Hp. cbn [plug] in Hp.
  pose proof (rep_ok _ _ _ _ _ _ _ Hp) as [Hpos _]. rewrite decide_False by lia.
  rewrite (bind_run _ _ _ _ _ (ld_at _ _ _ _ _ _ _ Hp)). destruct d.
  - rewrite decide_True by done. rewrite <-(addr_nd L ck (Node c l a r) p u).
    by rewrite (IH K) by (done || simpl in *; lia).
  - rewrite decide_False.
    + cbn [before]. by rewrite app_assoc, last_snoc.
    + intros E. cbn [mkd rb_left] in E. by destruct (rep_children _ _ _ _ _ _ _ Hp E).
Qed.

(** A node is not its own parent. *)
Lemma parent_ne s K d c x a y : rep s (plug K (nd d c x a y)) -> parentk K <> a.
Proof.
  intros H. pose proof (rep_ok _ _ _ _ _ _ _ H) as [Hpos _].
  apply rep_plug in H as (_ & _ & _ & Hn & _). destruct K as [|[d' c' p u] K]; cbn; [lia|].
  intros ->. cbn [keysk f_addr f_sib app] in Hn. rewrite inorder_nd_perm in Hn.
  apply NoDup_cons in Hn as [Hn _]. apply Hn. set_solver.
Qed.

(** ** Every node is somewhere in the tree *)

Lemma plug_app K K' t : plug (K ++ K') t = plug K' (plug K t).
Proof. revert t. induction K as [|[] K IH]; intros t; cbn [plug app]; [done|apply IH]. Qed.

Lemma find_node t a : a ∈ inorder t -> exists K c l r, t = plug K (Node c l a r).
Proof.
  induction t as [|c l IHl b r IHr]; cbn [inorder]; [set_solver|].
  intros [Ha|[->|Ha]%elem_of_cons]%elem_of_app.
  - destruct (IHl Ha) as (K & c' & l' & r' & ->). exists (K ++ [Fr L c b r]), c', l', r'. by rewrite plug_app.
  - by exists [], c, l, r.
  - destruct (IHr Ha) as (K & c' & l' & r' & ->). exists (K ++ [Fr R c b l]), c', l', r'. by rewrite plug_app.
Qed.

(** The nodes on both sides of a node are determined by its place. *)
Lemma split_at K c l a r l1 l2 :
  NoDup (inorder (plug K (Node c l a r))) -> inorder (plug K (Node c l a r)) = l1 ++ a :: l2 ->
  l1 = before K ++ inorder l /\ l2 = inorder r ++ after K.
Proof.
  rewrite inorder_plug. cbn [inorder]. rewrite <-app_assoc, app_assoc. cbn [app]. intros Hn E.
  rewrite E in Hn. apply nodup_mid in Hn as Hn'. rewrite <-E in Hn. apply nodup_mid in Hn.
  assert (H : forall (x1 x2 y1 y2 : list Z), x1 ++ a :: x2 = y1 ++ a :: y2 -> a ∉ x1 -> a ∉ y1 -> x1 = y1 /\ x2 = y2).
  { clear. intros x1. induction x1 as [|z x1 IH]; intros x2 [|w y1] y2 H H1 H2; simplify_eq/=.
    - done.
    - set_solver.
    - set_solver.
    - destruct (IH x2 y1 y2) as [-> ->]; [done|set_solver|set_solver|done]. }
  destruct (H _ _ _ _ E) as [<- <-]; [set_solver|set_solver|done].
Qed.

(** ** The walks *)

Lemma next_run s K c l a r :
  rep s (plug K (Node c l a r)) -> rb_next a s = Done (default 0 (head (inorder r ++ after K))) s.
Proof.
  intros H. pose proof H as Ha. rewrite node_nd in Ha. pose proof (rep_fuel _ _ _ H) as Hf.
  rewrite length_inorder in Hf.
  unfold rb_next. rewrite (bind_run _ _ _ _ _ (ld_at _ _ _ _ _ _ _ Ha)), bind_gets, (parent_at _ _ _ _ _ _ _ Ha).
  rewrite decide_False by (by eapply parent_ne). cbn [mkd rb_right]. destruct r as [|cr rl ra rr].
  - rewrite decide_False by (intros E; by apply E). change a with (addr (Node c l a Leaf)).
    rewrite (up_from_right_run _ _ _ _ H) by (done || lia). done.
  - rewrite plug_far in Ha. pose proof Ha as Hr. rewrite node_nd in Hr.
    pose proof (rep_ok _ _ _ _ _ _ _ Hr) as [Hpos _]. rewrite decide_True by (cbn; lia).
    rewrite (leftmost_run _ _ _ _ Ha) by (done || lia). cbn. by destruct (inorder rl).
Qed.

Lemma prev_run s K c l a r :
  rep s (plug K (Node c l a r)) -> rb_prev a s = Done (default 0 (last (before K ++ inorder l))) s.
Proof.
  intros H. pose proof H as Ha. rewrite node_nd in Ha. pose proof (rep_fuel _ _ _ H) as Hf.
  rewrite length_inorder in Hf.
  unfold rb_prev. rewrite (bind_run _ _ _ _ _ (ld_at _ _ _ _ _ _ _ Ha)), bind_gets, (parent_at _ _ _ _ _ _ _ Ha).
  rewrite decide_False by (by eapply parent_ne). cbn [mkd rb_left]. destruct l as [|cl ll la lr].
  - rewrite decide_False by (intros E; by apply E). change a with (addr (Node c Leaf a r)).
    rewrite (up_from_left_run _ _ _ _ H) by (done || lia). cbn [inorder]. by rewrite app_nil_r.
  - rewrite plug_near in Ha. pose proof Ha as Hl. rewrite node_nd in Hl.
    pose proof (rep_ok _ _ _ _ _ _ _ Hl) as [Hpos _]. rewrite decide_True by (cbn; lia).
    rewrite (rightmost_run _ _ _ _ Ha) by (done || lia). cbn [inorder]. by rewrite app_assoc, !last_app_cons.
Qed.

(** A walk visits the nodes in order: [rb_first] and [rb_last] return the ends of
    the tree, [rb_next] and [rb_prev] of any node its neighbours, NULL behind the ends
    and for an empty tree; nothing is changed. *)
Theorem walk_in_order s T :
  rep s T ->
  rb_first s = Done (default 0 (head (inorder T))) s /\
  rb_last s = Done (default 0 (last (inorder T))) s /\
  forall l1 a l2, inorder T = l1 ++ a :: l2 ->
    rb_next a s = Done (default 0 (head l2)) s /\ rb_prev a s = Done (default 0 (last l1)) s.
Proof.
  intros H. pose proof (rep_fuel s [] T H) as Hf. simpl in Hf. split; [|split].
  - unfold rb_first. rewrite bind_gets, (proj1 H). destruct T as [|c l a r]; [done|]. cbn [addr].
    pose proof (rep_ok s [] L c l a r H) as [Hpos _]. rewrite decide_False by lia.
    rewrite bind_gets. by apply (leftmost_run _ s [] (Node c l a r)).
  - unfold rb_last. rewrite bind_gets, (proj1 H). destruct T as [|c l a r]; [done|]. cbn [addr].
    pose proof (rep_ok s [] L c l a r H) as [Hpos _]. rewrite decide_False by lia.
    rewrite bind_gets. by apply (rightmost_run _ s [] (Node c l a r)).
  - intros l1 a l2 E. destruct (find_node T a) as (K & c & l & r & ->); [rewrite E; set_solver|].
    destruct (split_at _ _ _ _ _ _ _ (proj1 (proj2 (proj2 H))) E) as [-> ->].
    split; [by eapply next_run|by eapply prev_run].
Qed.

(** ** Replacing a node *)

Lemma replace_node_run s K c l v r new :
  rep s (plug K (Node c l v r)) -> ok_addr new -> new ∉ inorder (plug K (Node c l v r)) ->
  is_Some (rb_heap s !! new) ->
  exists s', rb_replace_node v new s = Done tt s' /\ rep s' (plug K (Node c l new r)) /\
    agree (new :: inorder (plug K (Node c l v r))) s s'.
Proof.
  rewrite plug_perm. intros (Hroot & HK & Hn & Hnd & Hok)%rep_plug Hnew Hni [n0 Hn0].
  rewrite node_nd, inorder_nd_perm in Hnd, Hok, Hni. cbn [addr] in *. destruct Hn as (Hv & Hl & Hr).
  pose proof (parentk_aligned _ _ Hok) as HP. assert (Hok' := Hok). revert Hok'. nodup. intros Hok'.
  unfold rb_replace_node. rewrite (bind_ld _ _ _ _ Hv), parent_mkd by done.
  change (if decide (parentk K <> 0) then _ else _) with (relinkd L (parentk K) v new).
  rewrite (bind_run _ _ _ _ _ (relink_run L K v new s _ HK Hok' ltac:(done) ltac:(set_solver))).
  set (s1 := relink K new s).
  assert (Hv1 : rb_heap s1 !! v = Some (mkd L (parentk K) c (addr l) (addr r))) by (unfold s1; by look).
  rewrite (bind_ld _ _ _ _ Hv1). change (rb_left (mkd L (parentk K) c (addr l) (addr r))) with (addr l).
  rewrite (bind_run _ _ _ _ _ (adopt_run l v new s1 ltac:(eapply repn_frame; [|exact Hl]; intros q Hq; unfold s1; by look)
    ltac:(eauto with rb) ltac:(eauto with rb) ltac:(done))).
  set (s2 := adopt l new s1).
  assert (Hv2 : rb_heap s2 !! v = Some (mkd L (parentk K) c (addr l) (addr r))) by (unfold s2; by look).
  rewrite (bind_ld _ _ _ _ Hv2). change (rb_right (mkd L (parentk K) c (addr l) (addr r))) with (addr r).
  rewrite (bind_run _ _ _ _ _ (adopt_run r v new s2 ltac:(eapply repn_frame; [|exact Hr]; intros q Hq; unfold s2, s1; by look)
    ltac:(eauto with rb) ltac:(eauto with rb) ltac:(done))).
  set (s3 := adopt r new s2).
  assert (Hv3 : rb_heap s3 !! v = Some (mkd L (parentk K) c (addr l) (addr r))) by (unfold s3; by look).
  rewrite (bind_ld _ _ _ _ Hv3).
  assert (Hn3 : rb_heap s3 !! new = Some n0) by (unfold s3, s2, s1; by look).
  rewrite (on_node_run _ _ _ _ Hn3). eexists. split; [done|]. split.
  2: { intros q Hq. rewrite plug_perm, node_nd, inorder_nd_perm in Hq. unfold s3, s2, s1. by look. }
  apply rep_plug. rewrite node_nd, repn_nd, addr_nd, inorder_nd_perm. cbn [with_heap rb_root rb_heap]. split.
  { unfold s3, s2. rewrite !adopt_root. by eapply relink_root. }
  split; [eapply repk_frame; [|by apply (repk_relink K v new s)]; intros q Hq; fold s1|].
  { unfold s3, s2. rewrite lookup_insert_ne, !adopt_other by set_solver. done. }
  split.
  - split; [by look|]. split.
    + eapply repn_frame; [|apply (repn_adopt l v new s1); [done|eapply repn_frame; [|exact Hl]]];
        intros q Hq; fold s2; unfold s3, s1; by look.
    + eapply repn_frame; [|apply (repn_adopt r v new s2); [done|eapply repn_frame; [|exact Hr]]];
        intros q Hq; fold s3; unfold s2, s1; by look.
  - split.
    + apply NoDup_app. split; [done|]. split; [set_solver|]. apply NoDup_cons. split; [set_solver|].
      by apply NoDup_app.
    + apply Forall_app. split; [done|]. apply Forall_cons. split; [done|]. by apply Forall_app.
Qed.

Lemma walk_in_order_witness :
  rb_first sample_rb = Done 8 sample_rb /\ rb_last sample_rb = Done 16 sample_rb /\
  rb_next 8 sample_rb = Done 16 sample_rb /\ rb_prev 8 sample_rb = Done 0 sample_rb.
Proof.
  destruct (walk_in_order sample_rb _ (proj1 sample_rb_rep)) as (Hf & Hl & Hw).
  split; [exact Hf|]. split; [exact Hl|]. exact (Hw [] 8 [16] eq_refl).
Defined.
