(* ===== verification/RbErase.v ===== *)
(** * Removal from red-black trees (src/lib/rbtree.c)

    [rb_erase] unlinks a node, or puts its successor in its place, and
    [__rb_erase_color] repairs the paths that have lost a black node. *)

From stdpp Require Import base gmap list.
From Stdlib Require Import ZArith Lia.
From S2P Require Import Prelude Rbtree RbShape RbBalance RbWalk.
#[local] Open Scope Z_scope.
#[local] Open Scope rosx_scope.

(** ** The loop of __rb_erase_color, one side *)

Definition erase_tail (d : dir) (k : Z -> Z -> proc rb_state Z) (parent other : Z) : proc rb_state Z :=
  let! o := ld other in
  let! black_l := black_or_null (rb_left o) in
  let! both := (if black_l : bool then black_or_null (rb_right o) else ret false) in
  if both : bool then
    rb_set_red other ;;;
    let! n := ld parent in
    k parent (rb_parent n)
  else
    let! black_far := black_or_null (child (op d) o) in
    let! other := (if black_far : bool then
                     rb_set_black (child d o) ;;;
                     rb_set_red other ;;;
                     rotate (op d) other ;;;
                     let! p := ld parent in ret (child (op d) p)
                   else ret other) in
    let! p := ld parent in
    rb_set_color other (rb_color p) ;;;
    rb_set_black parent ;;;
    let! o := ld other in
    rb_set_black (child (op d) o) ;;;
    rotate d parent ;;;
    gets rb_root.

Definition erase_branch (d : dir) (k : Z -> Z -> proc rb_state Z) (parent : Z) (p : rb_node) : proc rb_state Z :=
  let other := child (op d) p in
  let! o := ld other in
  let! other := (if rb_is_red o then
                   rb_set_black other ;;;
                   rb_set_red parent ;;;
                   rotate d parent ;;;
                   let! p := ld parent in ret (child (op d) p)
                 else ret other) in
  erase_tail d k parent other.

Lemma erase_loop_S fuel node parent :
  erase_loop (S fuel) node parent =
    (let! black := black_or_null node in
     let! root := gets rb_root in
     if decide (black = true /\ node <> root) then
       let! p := ld parent in
       if decide (rb_left p = node) then erase_branch L (erase_loop fuel) parent p
       else erase_branch R (erase_loop fuel) parent p
     else ret node).
Proof. reflexivity. Qed.

(** Whether both children of a node are black. *)
Lemma both_black {B} s T K d c y b z (k : bool -> proc rb_state B) P :
  rep s (plug K (nd d c y b z)) ->
  leads (k (bool_decide (col y = Black) && bool_decide (col z = Black))) s T P ->
  leads (let! black_l := black_or_null (rb_left (mkd d (parentk K) c (addr y) (addr z))) in
         let! both := (if black_l : bool then black_or_null (rb_right (mkd d (parentk K) c (addr y) (addr z)))
                       else ret false) in k both) s T P.
Proof.
  intros H Hk. pose proof H as Hy. pose proof H as Hz. rewrite plug_near in Hy. rewrite plug_far in Hz.
  apply black_or_null_run in Hy, Hz. destruct d; cbn [mkd rb_left rb_right].
  - eapply leads_read; [exact Hy|]. destruct (bool_decide (col y = Black)).
    + eapply leads_read; [exact Hz|]. done.
    + by eapply leads_read.
  - eapply leads_read; [exact Hz|]. rewrite andb_comm in Hk. destruct (bool_decide (col z = Black)).
    + eapply leads_read; [exact Hy|]. done.
    + by eapply leads_read.
Qed.

(** ** A black sibling *)

Section tail.
  Context (d : dir) (k : Z -> Z -> proc rb_state Z) (P : Z -> tree -> Prop).

(** Two black nephews: the sibling becomes red and the loss moves up. *)
Lemma tail_both s K c t p y b z :
  let T := plug K (nd d c t p (nd d Black y b z)) in
  let T1 := plug K (nd d c t p (nd d Red y b z)) in
  rep s T -> col y = Black -> col z = Black ->
  (forall s', rep s' T1 -> leads (k p (parentk K)) s' T1 P) -> leads (erase_tail d k p b) s T P.
Proof.
  intros T T1 H Hy Hz Hk. unfold erase_tail. pose proof H as Hb. unfold T in Hb. rewrite plug_far in Hb.
  eapply leads_read; [by eapply ld_at|]. eapply both_black; [exact Hb|]. rewrite Hy, Hz. cbn [bool_decide andb].
  unfold T. rewrite plug_far. eapply leads_bind; [by apply set_red_run|]. intros s1 H1. rewrite <-plug_far in *.
  eapply leads_read; [by eapply ld_at|]. rewrite (parent_at _ _ _ _ _ _ _ H1). by apply Hk.
Qed.

(** The end of both other cases, with a red far nephew: a rotation adds a black node
    on the side of the loss. *)
Lemma tail_last s K c t p y b z1 e z2 :
  let T := plug K (nd d c t p (nd d Black y b (nd d Red z1 e z2))) in
  let T1 := plug K (nd d c (nd d Black t p y) b (nd d Black z1 e z2)) in
  rep s T -> P (addr T1) T1 ->
  leads (let! p' := ld p in
    rb_set_color b (rb_color p') ;;;
    rb_set_black p ;;;
    let! o := ld b in
    rb_set_black (child (op d) o) ;;;
    rotate d p ;;;
    gets rb_root) s T P.
Proof.
  intros T T1 H HP. unfold T in *. eapply leads_read; [by eapply ld_at|].
  rewrite color_mkd by (by eapply rep_parent_aligned).
  rewrite plug_far in *. eapply leads_bind; [by apply set_color_run|]. intros s1 H1. rewrite <-plug_far in *.
  eapply leads_bind; [by apply set_black_run|]. intros s2 H2. rewrite plug_far in *.
  eapply leads_read; [by eapply ld_at|]. rewrite child_far, addr_nd. rewrite plug_far in *.
  eapply leads_bind; [by apply set_black_run|]. intros s3 H3. rewrite <-!plug_far in *.
  eapply leads_bind; [by apply becomes_rotate|]. intros s4 H4. exists (addr T1), T1. split; [|done].
  exists s4. split; [unfold gets; by rewrite (proj1 H4)|]. split; [done|]. split; [done|apply agree_refl].
Qed.

Lemma tail_far s K c t p y b z1 e z2 :
  let T := plug K (nd d c t p (nd d Black y b (nd d Red z1 e z2))) in
  let T1 := plug K (nd d c (nd d Black t p y) b (nd d Black z1 e z2)) in
  rep s T -> P (addr T1) T1 -> leads (erase_tail d k p b) s T P.
Proof.
  intros T T1 H HP. unfold erase_tail. pose proof H as Hb. unfold T in Hb. rewrite plug_far in Hb.
  eapply leads_read; [by eapply ld_at|]. eapply both_black; [exact Hb|]. rewrite col_nd, andb_false_r.
  rewrite child_far. rewrite plug_far in Hb. eapply leads_read; [by eapply black_or_null_run|].
  rewrite col_nd. eapply leads_read; [done|]. by apply tail_last.
Qed.

(** A red near nephew: a rotation makes it the sibling, with a red far child. *)
Lemma tail_near s K c t p y1 e y2 b z :
  let T := plug K (nd d c t p (nd d Black (nd d Red y1 e y2) b z)) in
  let T1 := plug K (nd d c (nd d Black t p y1) e (nd d Black y2 b z)) in
  rep s T -> col z = Black -> P (addr T1) T1 -> leads (erase_tail d k p b) s T P.
Proof.
  intros T T1 H Hz HP. unfold erase_tail. pose proof H as Hb. unfold T in Hb. rewrite plug_far in Hb.
  eapply leads_read; [by eapply ld_at|]. eapply both_black; [exact Hb|]. rewrite col_nd. cbn [bool_decide andb].
  rewrite child_far, child_near, addr_nd. pose proof Hb as Hfar. rewrite plug_far in Hfar.
  eapply leads_read; [by eapply black_or_null_run|]. rewrite Hz. cbn [bool_decide].
  unfold T. rewrite plug_far. eapply leads_bind with (v := e).
  { rewrite (plug_near d Black (nd d Red y1 e y2)) in Hb |- *.
    eapply becomes_bind; [by apply set_black_run|]. intros s1 H1. rewrite <-plug_near in *.
    eapply becomes_bind; [by apply set_red_run|]. intros s2 H2. rewrite (nd_flip d Red) in *.
    eapply becomes_bind; [by apply becomes_rotate|]. intros s3 H3. rewrite !nd_op in *.
    rewrite <-plug_far in *. eapply becomes_read; [by eapply ld_at|]. rewrite child_far, addr_nd.
    by apply becomes_ret. }
  intros s1 H1. by apply tail_last.
Qed.
End tail.

(** ** A round *)

Lemma branch_black_sib d k P s K c t p y b z :
  let T := plug K (nd d c t p (nd d Black y b z)) in
  rep s T -> leads (erase_tail d k p b) s T P ->
  leads (erase_branch d k p (mkd d (parentk K) c (addr t) b)) s T P.
Proof.
  intros T H Hk. unfold erase_branch. cbv zeta. rewrite child_far. pose proof H as Hb. unfold T in Hb.
  rewrite plug_far in Hb. eapply leads_read; [by eapply ld_at|].
  rewrite is_red_mkd by (by eapply rep_parent_aligned). cbn [bool_decide]. by eapply leads_read.
Qed.

Lemma branch_red_sib d k P s K t p y b z :
  let T := plug K (nd d Black t p (nd d Red y b z)) in
  let T1 := plug K (nd d Black (nd d Red t p y) b z) in
  rep s T -> (forall s', rep s' T1 -> leads (erase_tail d k p (addr y)) s' T1 P) ->
  leads (erase_branch d k p (mkd d (parentk K) Black (addr t) b)) s T P.
Proof.
  intros T T1 H Hk. unfold erase_branch. cbv zeta. rewrite child_far. unfold T in *. pose proof H as Hb.
  rewrite plug_far in Hb. eapply leads_read; [by eapply ld_at|].
  rewrite is_red_mkd by (by eapply rep_parent_aligned). cbn [bool_decide]. eapply leads_bind with (v := addr y).
  { rewrite plug_far in *. eapply becomes_bind; [by apply set_black_run|]. intros s1 H1. rewrite <-plug_far in *.
    eapply becomes_bind; [by apply set_red_run|]. intros s2 H2.
    eapply becomes_bind; [by apply becomes_rotate|]. intros s3 H3. rewrite plug_near in *.
    eapply becomes_read; [by eapply ld_at|]. rewrite child_far. by apply becomes_ret. }
  intros s1 H1. by apply Hk.
Qed.

(** The root is on the path, not below the hole. *)
Lemma top_ne s K t : rep s (plug K t) -> K <> [] -> addr t <> rb_root s.
Proof.
  intros (-> & _ & _ & Hnd & Hok)%rep_plug HK E.
  assert (Htop : forall a, top K a ∈ keysk K).
  { clear -HK. destruct K as [|f K]; [done|]. revert f HK. induction K as [|f' K IH]; intros f _ a; cbn in *; [set_solver|].
    specialize (IH f' ltac:(done) a). set_solver. }
  specialize (Htop (addr t)). rewrite <-E in Htop. apply Forall_app in Hok as [Hok _].
  destruct t as [|c l a r].
  - cbn in Htop. rewrite Forall_forall in Hok. destruct (Hok _ Htop). lia.
  - cbn in *. apply NoDup_app in Hnd as (_ & Hd & _). apply (Hd _ Htop). set_solver.
Qed.

Lemma erase_exit fuel s K t par :
  rep s (plug K t) -> col t = Red \/ K = [] -> erase_loop (S fuel) (addr t) par s = Done (addr t) s.
Proof.
  intros H Hc. rewrite erase_loop_S, (bind_run _ _ _ _ _ (black_or_null_run _ _ _ H)), bind_gets.
  rewrite decide_False; [done|]. intros [E1 E2]. destruct Hc as [Hc| ->]; [by rewrite Hc in E1|].
  by rewrite (proj1 H) in E2.
Qed.

Lemma erase_round fuel s d c p u K t P :
  let T := plug K (nd d c t p u) in
  rep s T -> col t = Black -> u <> Leaf ->
  leads (erase_branch d (erase_loop fuel) p (mkd d (parentk K) c (addr t) (addr u))) s T P ->
  leads (erase_loop (S fuel) (addr t) p) s T P.
Proof.
  intros T H Hc Hu Hb. rewrite erase_loop_S. unfold T in *. pose proof H as Ht. rewrite plug_near in Ht.
  eapply leads_read; [by eapply black_or_null_run|]. eapply leads_read; [done|].
  rewrite decide_True by (split; [by rewrite Hc|by eapply top_ne]). eapply leads_read; [by eapply ld_at|].
  destruct d; cbn [mkd rb_left].
  - by rewrite decide_True.
  - rewrite decide_False; [done|]. intros E. by destruct (rep_children _ _ _ _ _ _ _ H (eq_sym E)).
Qed.

(** ** The loop *)

Definition blacken (t : tree) : tree := match t with Leaf => Leaf | Node _ l a r => Node Black l a r end.

(** What the loop leaves: the tree is red-black once the node it returns is black. *)
Definition erased (v : Z) (T : tree) : Prop :=
  exists K t, T = plug K t /\ v = addr t /\ red_black (plug K (blacken t)).

Lemma rbt_blacken_root n t : rbt n t -> red_black (blacken t).
Proof.
  destruct t as [|[] l a r]; cbn [blacken]; intros H; (split; [done|]); [by exists n| |by exists n].
  exists (S n). by apply (rbt_blacken n L).
Qed.

Lemma erased_root n T : rbt n T -> erased (addr T) T.
Proof. intros H. exists [], T. split; [done|]. split; [done|]. by eapply rbt_blacken_root. Qed.

Lemma rbk_replug n d c p s K d' x b y :
  rbk n (Fr d c p s :: K) -> rbt n x -> rbt n y -> (c = Red -> col x = Black /\ col y = Black) ->
  exists m, rbt m (plug K (nd d' c x b y)).
Proof.
  intros HK Hx Hy Hc. destruct c; cbn [rbk] in HK.
  - destruct HK as (_ & _ & (e & q & u & K' & ->) & HK).
    destruct (rbt_plug n (Fr e Black q u :: K') (nd d' Red x b y)) as (m & Hm & _); [|done|done|by exists m].
    apply rbt_nd_red. auto.
  - destruct HK as (_ & HK). destruct (rbt_plug (S n) K (nd d' Black x b y)) as (m & Hm & _); [|done| |by exists m].
    + by apply rbt_nd_black.
    + by rewrite col_nd.
Qed.

Lemma blacken_nd d c x a y : blacken (nd d c x a y) = nd d Black x a y.
Proof. by destruct d. Qed.

(** As the loop of the insertion, this one keeps any property [I] of the path and the tree
    below it that its steps keep, and leaves a tree with the property [P]. *)
Section Loop.
  Context (I : list frame -> tree -> Prop) (P : tree -> Prop).
  Context (Hend : forall K t, I K t -> t <> Leaf \/ K = [] -> P (plug K t)).
  Context (Hup : forall d c p y b z K t,
    I (Fr d c p (nd d Black y b z) :: K) t -> I K (nd d c t p (nd d Red y b z))).
  Context (Hfar : forall d c p y b z1 e z2 K t,
    I (Fr d c p (nd d Black y b (nd d Red z1 e z2)) :: K) t ->
    P (plug K (nd d c (nd d Black t p y) b (nd d Black z1 e z2)))).
  Context (Hnear : forall d c p y1 e y2 b z K t,
    I (Fr d c p (nd d Black (nd d Red y1 e y2) b z) :: K) t ->
    P (plug K (nd d c (nd d Black t p y1) e (nd d Black y2 b z)))).
  Context (Hsib : forall d p y b z K t,
    I (Fr d Black p (nd d Red y b z) :: K) t -> I (Fr d Red p y :: Fr d Black b z :: K) t).

Definition erased_with (v : Z) (T : tree) : Prop := erased v T /\ P T.

(** The statement of the induction: the loop repairs a hole whose subtree lacks one
    black node. *)
Definition repairs (fuel : nat) : Prop :=
  forall s K t n, (length K < fuel)%nat -> rep s (plug K t) -> rbt n t -> rbk (S n) K -> I K t ->
    leads (erase_loop fuel (addr t) (parentk K)) s (plug K t) erased_with.

Lemma tail_run fuel d s K c t p y b z n :
  repairs fuel -> (0 < fuel)%nat -> (c = Black -> length K < fuel)%nat ->
  rep s (plug K (nd d c t p (nd d Black y b z))) -> rbt n t -> rbt n y -> rbt n z -> col t = Black ->
  rbk (S n) (Fr d c p (nd d Black y b z) :: K) -> I (Fr d c p (nd d Black y b z) :: K) t ->
  leads (erase_tail d (erase_loop fuel) p b) s (plug K (nd d c t p (nd d Black y b z))) erased_with.
Proof using Hend Hup Hfar Hnear.
  intros IH Hf0 Hf H Ht Hy Hz Hct HK HI. destruct (col z) eqn:Hcz.
  { destruct (nd_cases d z) as [->|(cz & z1 & e & z2 & ->)]; [done|]. rewrite col_nd in Hcz. subst cz.
    apply tail_far; [done|]. destruct (rbk_replug _ _ _ _ _ _ d (nd d Black t p y) b (nd d Black z1 e z2) HK)
      as [m Hm]; [by apply rbt_nd_black|by apply rbt_blacken|by rewrite !col_nd|]. split; [by eapply erased_root|by apply Hfar]. }
  destruct (col y) eqn:Hcy.
  { destruct (nd_cases d y) as [->|(cy & y1 & e & y2 & ->)]; [done|]. rewrite col_nd in Hcy. subst cy.
    apply rbt_nd_red in Hy as (_ & Hy1 & Hy2). apply tail_near; [done|done|].
    destruct (rbk_replug _ _ _ _ _ _ d (nd d Black t p y1) e (nd d Black y2 b z) HK)
      as [m Hm]; [by apply rbt_nd_black|by apply rbt_nd_black|by rewrite !col_nd|]. split; [by eapply erased_root|by apply Hnear]. }
  apply tail_both; [done|done|done|]. intros s' H'. apply Hup in HI.
  assert (Hsb : rbt n (nd d Red y b z)) by (by apply rbt_nd_red).
  set (t' := nd d c t p (nd d Red y b z)) in *. rewrite <-(addr_nd d c t p (nd d Red y b z)). fold t'.
  destruct c; cbn [rbk] in HK.
  - destruct HK as (_ & _ & (e & q & u & K' & ->) & HK). exists (addr t'), (plug (Fr e Black q u :: K') t').
    destruct fuel as [|fuel]; [lia|]. split.
    + eexists. split; [apply (erase_exit _ _ _ _ _ H'); left; apply col_nd|]. split; [done|]. split; [done|apply agree_refl].
    + split; [|apply Hend; [done|left; unfold t'; by destruct d]].
      exists (Fr e Black q u :: K'), t'. split; [done|]. split; [done|]. unfold t'. rewrite blacken_nd.
      destruct (rbt_plug (S n) (Fr e Black q u :: K') (nd d Black t p (nd d Red y b z))) as (m & Hm & Hcol);
        [by apply rbt_nd_black|done|done|]. split; [by apply Hcol|by exists m].
  - destruct HK as (_ & HK). apply (IH s' K t' (S n)); [by apply Hf|done|by apply rbt_nd_black|done|done].
Qed.

Lemma erase_loop_run fuel : repairs fuel.
Proof using Hend Hup Hfar Hnear Hsib.
  induction fuel as [|fuel IH]; intros s K t n Hf H Ht HK HI; [lia|].
  assert (Hexit : col t = Red \/ K = [] -> leads (erase_loop (S fuel) (addr t) (parentk K)) s (plug K t) erased_with).
  { intros Hc. exists (addr t), (plug K t). split.
    - eexists. split; [by eapply erase_exit|]. split; [done|]. split; [done|apply agree_refl].
    - split; [|apply Hend; [done|]; destruct Hc; [left; by destruct t|by right]].
      exists K, t. split; [done|]. split; [done|]. destruct (decide (K = [])) as [->|Hne].
      + by eapply rbt_blacken_root.
      + destruct Hc as [Hc|]; [|done]. destruct t as [|[] l a r]; [done| |done].
        destruct (rbt_plug (S n) K (Node Black l a r)) as (m & Hm & Hcol); [by apply (rbt_blacken n L)|done|done|].
        split; [by apply Hcol|by exists m]. }
  destruct (col t) eqn:Hct; [by auto|]. destruct K as [|[d c p u] K]; [by auto|]. clear Hexit.
  assert (Hu : rbt (S n) u) by (destruct c; apply HK).
  destruct (nd_cases d u) as [->|(cu & y & b & z & ->)]; [done|]. cbn [plug parentk f_addr] in *.
  apply erase_round; [done|done|by destruct d|]. rewrite addr_nd. cbn [length] in Hf. destruct cu.
  - assert (c = Black) as ->.
    { destruct c; [|done]. cbn [rbk] in HK. destruct HK as (_ & E & _). by rewrite col_nd in E. }
    cbn [rbk] in HK. destruct HK as (_ & HK). apply rbt_nd_red in Hu as ([Hcy Hcz] & Hy & Hz).
    destruct (nd_cases d y) as [->|(cy & y1 & e & y2 & ->)]; [done|]. rewrite col_nd in Hcy. subst cy.
    apply rbt_nd_black in Hy as Hy'. destruct Hy' as [Hy1 Hy2]. apply Hsib in HI.
    apply branch_red_sib; [done|]. intros s' H'. rewrite plug_near in *. rewrite addr_nd.
    eapply tail_run; [exact IH|lia|done|exact H'|done|done|done|done| |exact HI]. cbn [rbk].
    split; [done|]. split; [by rewrite col_nd|]. split; [by eauto|]. done.
  - apply rbt_nd_black in Hu as [Hy Hz].
    apply branch_black_sib; [done|]. eapply tail_run; [exact IH|lia|lia|done|done|done|done|done|done|done].
Qed.

(** [P] does not depend on the colour of one node. *)
Context (Hpaint : forall K t, P (plug K t) -> P (plug K (blacken t))).

Lemma erase_color_run s K t n :
  rep s (plug K t) -> rbt n t -> rbk (S n) K -> I K t ->
  leads (__rb_erase_color (addr t) (parentk K)) s (plug K t) (fun _ T' => red_black T' /\ P T').
Proof using Hend Hup Hfar Hnear Hsib Hpaint.
  intros H Ht HK HI. unfold __rb_erase_color. eapply leads_read; [done|].
  destruct (erase_loop_run (rb_fuel s) s K t n) as (v & T' & Hb & (K' & t' & -> & -> & HT) & HP); [|done|done|done|done|].
  { pose proof (rep_fuel _ _ _ H). lia. }
  apply Hpaint in HP. eapply leads_bind; [exact Hb|]. intros s' H'. destruct t' as [|c' l' a' r'].
  - cbn [addr]. rewrite decide_False by (intros E; by apply E). by apply leads_ret.
  - pose proof (rep_ok s' K' L c' l' a' r' H') as [Hpos _]. cbn [addr]. rewrite decide_True by lia.
    eexists tt, _. split; [by apply (set_black_run s' K' L c')|done].
Qed.

(** After a node of the colour [c] with the one child [x] has left the path [K]. *)
Lemma finish_erase_with s K d c x a n :
  rep s (plug K x) -> rbt n (nd d c x a Leaf) -> rbk n K -> (c = Red -> K <> []) -> I K x -> P (plug K x) ->
  leads (if decide (bit c = RB_BLACK) then __rb_erase_color (addr x) (parentk K) else ret tt) s (plug K x)
    (fun _ T' => red_black T' /\ P T').
Proof using Hend Hup Hfar Hnear Hsib Hpaint.
  intros H Ht HK Hc HI HP. destruct c; cbn [bit].
  - rewrite decide_False by done. apply rbt_nd_red in Ht as ([Hx _] & Ht & _). apply leads_ret; [done|].
    destruct (rbt_plug n K x Ht HK) as (m & Hm & Hcol); [by rewrite Hx|].
    split; [split; [by apply Hcol, Hc|by exists m]|done].
  - rewrite decide_True by done. apply rbt_black_inv in Ht as (m & -> & Ht & _). by eapply erase_color_run.
Qed.
End Loop.

(** ** Unlinking a node with at most one child *)

Lemma erase_simple_run s K d c x a :
  rep s (plug K (nd d c x a Leaf)) ->
  exists s', erase_simple a (addr x) s = Done (addr x, parentk K, bit c) s' /\ rep s' (plug K x) /\
    agree (inorder (plug K (nd d c x a Leaf))) s s'.
Proof.
  intros H. pose proof (ld_at _ _ _ _ _ _ _ H) as Hld. pose proof (parent_at _ _ _ _ _ _ _ H) as Hpar.
  pose proof (rep_parent_aligned _ _ _ _ _ _ _ H) as HP.
  apply rep_plug in H as (Hroot & HK & Hn & Hnd & Hok). rewrite addr_nd in *. apply repn_nd in Hn as (Ha & Hx & _).
  rewrite inorder_nd_perm in Hnd, Hok. cbn [inorder] in Hnd, Hok. rewrite app_nil_r in Hnd, Hok.
  assert (Hok' := Hok). revert Hok'. nodup. intros Hok'.
  unfold erase_simple. rewrite (bind_run _ _ _ _ _ Hld). cbv zeta. rewrite Hpar, color_mkd by done.
  rewrite (bind_run _ _ _ _ _ (adopt_run x a (parentk K) s Hx ltac:(eauto with rb) HP ltac:(done))).
  set (s1 := adopt x (parentk K) s).
  assert (HK1 : repk (rb_heap s1) K a) by (eapply repk_frame; [|exact HK]; intros q Hq; unfold s1; by look).
  change (if decide (parentk K <> 0) then _ else _) with (relinkd L (parentk K) a (addr x)).
  rewrite (bind_run _ _ _ _ _ (relink_run L K a (addr x) s1 _ HK1 Hok' ltac:(done) ltac:(set_solver))).
  eexists. split; [done|]. split.
  2: { intros q Hq. rewrite plug_perm, inorder_nd_perm in Hq. unfold s1. by look. }
  apply rep_plug. split; [apply relink_root with (a := a); unfold s1; by rewrite adopt_root|].
  split; [by eapply repk_relink|]. split.
  - eapply repn_frame; [|by apply (repn_adopt x a)]. intros q Hq. fold s1. by look.
  - split; [apply NoDup_app; split; [done|]; split; [set_solver|done]|by apply Forall_app].
Qed.

(** ** The successor *)

Lemma min_split r :
  r <> Leaf -> exists J cb b y, r = plug J (Node cb Leaf b y) /\ Forall (fun f => f_dir f = L) J.
Proof.
  induction r as [|c l IHl a r _]; [done|]. intros _. destruct l as [|cl ll la lr]; [by exists [], c, a, r|].
  destruct IHl as (J & cb & b & y & E & HJ); [done|]. exists (J ++ [Fr L c a r]), cb, b, y.
  rewrite plug_app, <-E. split; [done|]. apply Forall_app. split; [done|by apply Forall_singleton].
Qed.

Lemma before_left J : Forall (fun f => f_dir f = L) J -> before J = [].
Proof. induction J as [|[[] c p s] J IH]; intros [H HJ]%Forall_cons || intros HJ; [done|by apply IH|done]. Qed.

(** The node [b], whose right child is already right, takes the place, the colour and
    the left child of [a]. *)
Lemma take_place {A} (v : A) s K c l a r b nb xr :
  rb_root s = top K b -> repk (rb_heap s) K b ->
  rb_heap s !! a = Some (mkd L (parentk K) c (addr l) xr) ->
  rb_heap s !! b = Some nb -> rb_right nb = addr r ->
  repn (rb_heap s) a l -> repn (rb_heap s) b r -> l <> Leaf -> a <> b -> ok_addr a ->
  NoDup (keysk K ++ b :: inorder l ++ inorder r) -> Forall ok_addr (keysk K ++ b :: inorder l ++ inorder r) ->
  exists s', (let! o := ld a in
      on_node b (set_parent_color (rb_parent_color o)) ;;;
      on_node b (set_left (rb_left o)) ;;;
      rb_set_parent (rb_left o) b ;;;
      ret v) s = Done v s' /\
    rep s' (plug K (Node c l b r)) /\ agree (b :: inorder l) s s'.
Proof.
  intros Hroot HK Ha Hb Hr Hl Hrr Hne Hab Hoka Hnd Hok. assert (Hok' := Hok). assert (Hnd' := Hnd).
  revert Hok' Hnd'. nodup. intros Hok' Hnd'. rewrite (bind_ld _ _ _ _ Ha).
  rewrite (bind_on_node _ _ _ _ _ Hb), (bind_on_node _ _ _ _ _ (lookup_insert_eq _ _ _)).
  cbn [with_heap rb_heap]. rewrite insert_insert_eq. destruct nb as [pc right left]. cbn in Hr. subst right.
  unfold set_left, set_parent_color. cbn [mkd rb_parent_color rb_right rb_left rb_root].
  change (mk_rb_node (parentk K + bit c) (addr r) (addr l)) with (mkd L (parentk K) c (addr l) (addr r)).
  set (s1 := with_heap _ _).
  assert (Hl1 : repn (rb_heap s1) a l) by (eapply repn_frame; [|exact Hl]; intros q Hq; cbn; by look).
  pose proof (adopt_run l a b s1 Hl1 ltac:(eauto with rb) ltac:(eauto with rb) ltac:(done)) as E.
  rewrite decide_True in E.
  2: { destruct l as [|cl ll la lr]; [done|]. cbn in *. nodup. match goal with H : ok_addr la |- _ => destruct H; lia end. }
  rewrite (bind_run _ _ _ _ _ E). eexists. split; [done|]. split.
  2: { intros q Hq. rewrite adopt_other by set_solver. cbn. by rewrite lookup_insert_ne by set_solver. }
  apply rep_plug. rewrite node_nd, repn_nd, addr_nd, inorder_nd_perm. split; [by rewrite adopt_root|].
  split; [eapply repk_frame; [|exact HK]; intros q Hq; rewrite adopt_other by set_solver; cbn; by look|].
  split; [|done]. split; [rewrite adopt_other by set_solver; cbn; by look|]. split; [by apply (repn_adopt l a)|].
  eapply repn_frame; [|exact Hrr]. intros q Hq. rewrite adopt_other by set_solver. cbn. by look.
Qed.

Section successor.
  Context (s : rb_state) (K : list frame) (c : color) (l : tree) (a : Z) (cb : color) (b : Z) (y : tree).

(** The successor is the right child. *)
Lemma splice_child :
  l <> Leaf -> rep s (plug K (Node c l a (Node cb Leaf b y))) ->
  exists s', splice_successor a b (relink K b s) = Done (addr y, b, bit cb) s' /\
    rep s' (plug K (Node c l b y)) /\ agree (inorder (plug K (Node c l a (Node cb Leaf b y)))) s s'.
Proof.
  intros Hne (Hroot & HK & Hn & Hnd & Hok)%rep_plug. rewrite !node_nd, !inorder_nd_perm in Hnd, Hok.
  cbn [inorder addr repn app] in *. destruct Hn as (Ha & Hl & Hb & _ & Hy).
  assert (Hnd' : NoDup (keysk K ++ b :: inorder l ++ inorder y)).
  { clear -Hnd. nodup. apply NoDup_app. split; [done|]. split; [set_solver|]. apply NoDup_cons.
    split; [set_solver|]. apply NoDup_app. split; [done|]. split; [set_solver|done]. }
  assert (Hok' : Forall ok_addr (keysk K ++ b :: inorder l ++ inorder y)).
  { clear -Hok. nodup. apply Forall_app. split; [done|]. apply Forall_cons. split; [done|by apply Forall_app]. }
  revert Hnd' Hok'. nodup. intros Hnd' Hok'. set (s1 := relink K b s).
  assert (Hf : forall q, q ∉ keysk K -> rb_heap s1 !! q = rb_heap s !! q) by (intros; by apply relink_other).
  unfold splice_successor. rewrite (bind_ld _ (mkd L a cb 0 (addr y))) by (rewrite Hf by set_solver; done).
  cbv zeta. rewrite parent_mkd, color_mkd by eauto with rb. rewrite decide_True by done. rewrite bind_ret.
  destruct (take_place (addr y, b, bit cb) s1 K c l a y b (mkd L a cb 0 (addr y)) b) as (s' & E & H' & HA).
  - by apply relink_root with (a := a).
  - by apply repk_relink with (a := a).
  - rewrite Hf by set_solver. done.
  - rewrite Hf by set_solver. done.
  - done.
  - eapply repn_frame; [|exact Hl]. intros q Hq. apply Hf. set_solver.
  - eapply repn_frame; [|exact Hy]. intros q Hq. apply Hf. set_solver.
  - done.
  - set_solver.
  - done.
  - done.
  - done.
  - exists s'. split; [exact E|]. split; [exact H'|]. intros q Hq.
    rewrite plug_perm, !node_nd, !inorder_nd_perm in Hq. rewrite HA, Hf by set_solver. done.
Qed.
End successor.

(** A path below the node [q]. *)
Definition parentj (q : Z) (J : list frame) : Z := match J with [] => q | f :: _ => f_addr f end.
Fixpoint repj (h : gmap Z rb_node) (q : Z) (J : list frame) (x : Z) : Prop :=
  match J with
  | [] => True
  | Fr d c p s :: J => h !! p = Some (mkd d (parentj q J) c x (addr s)) /\ repn h p s /\ repj h q J p
  end.

Lemma repn_plugj h q J t : repn h q (plug J t) <-> repj h q J (addr t) /\ repn h (parentj q J) t.
Proof.
  revert t. induction J as [|[d c p u] J IH]; intros t; cbn [plug repj parentj f_addr]; [tauto|].
  rewrite IH, repn_nd, addr_nd. tauto.
Qed.

Lemma repj_frame h h' q J x :
  (forall z, z ∈ keysk J -> h' !! z = h !! z) -> repj h q J x -> repj h' q J x.
Proof.
  revert x. induction J as [|[d c p u] J IH]; intros x Hf; cbn [repj keysk f_addr f_sib] in *; [done|].
  intros (Hp & Hu & HJ). rewrite Hf by set_solver. split; [done|].
  split; [eapply repn_frame; [|done]|eapply IH; [|done]]; set_solver.
Qed.

(** The least node [b] of a tree leaves its place to its child. *)
Lemma unlink_min s a cb b y cj p u J :
  let R := plug (Fr L cj p u :: J) y in
  let s' := with_heap (adopt y p s)
    (<[p := mkd L (parentj a J) cj (addr y) (addr u)]> (rb_heap (adopt y p s))) in
  repn (rb_heap s) a (plug (Fr L cj p u :: J) (Node cb Leaf b y)) ->
  NoDup (keysk (Fr L cj p u :: J) ++ b :: inorder y) ->
  repn (rb_heap s') a R /\ rb_heap s' !! b = Some (mkd L p cb 0 (addr y)) /\
    forall q, q ∉ p :: inorder y -> rb_heap s' !! q = rb_heap s !! q.
Proof.
  intros R s' H Hnd. apply repn_plugj in H as [HJ Hb]. cbn [repj keysk f_addr f_sib parentj addr repn app] in *.
  destruct HJ as (Hp & Hu & HJ), Hb as (Hb & _ & Hy). nodup.
  assert (Hf : forall q, q ∉ p :: inorder y -> rb_heap s' !! q = rb_heap s !! q).
  { intros q Hq. unfold s'. cbn. rewrite lookup_insert_ne, adopt_other by set_solver. done. }
  split; [|split; [by rewrite Hf by set_solver|exact Hf]].
  unfold R. apply repn_plugj. cbn [repj parentj f_addr]. split.
  - split; [unfold s'; apply lookup_insert_eq|]. split.
    + eapply repn_frame; [|exact Hu]. intros q Hq. apply Hf. set_solver.
    + eapply repj_frame; [|exact HJ]. intros q Hq. apply Hf. set_solver.
  - eapply repn_frame; [|by apply (repn_adopt y b p s)]. intros q Hq. unfold s'. cbn.
    by rewrite lookup_insert_ne by set_solver.
Qed.

(** A node of a tree has a proper address. *)
Lemma addr_ok t : Forall ok_addr (inorder t) -> t <> Leaf -> ok_addr (addr t).
Proof. intros H Ht. rewrite Forall_forall in H. by apply H, addr_in. Qed.

(** The nodes around the successor [b] of [a]. *)
Lemma nodup_split {A} (l l1 l2 : list A) :
  NoDup l -> l ≡ₚ l1 ++ l2 -> NoDup l1 /\ (forall q, q ∈ l1 -> q ∉ l2) /\ NoDup l2.
Proof. intros H E. rewrite E in H. by apply NoDup_app. Qed.

Lemma around_nodup (k l j y : list Z) a b :
  NoDup (k ++ a :: l ++ j ++ b :: y) ->
  NoDup (k ++ b :: l ++ j ++ y) /\ NoDup (j ++ b :: y) /\ NoDup k /\
  (forall q, q ∈ j ++ b :: y -> q ∉ k ++ a :: l) /\ a ∉ k /\ b ∉ l ++ j ++ y /\
  (forall q, q ∈ l -> q ∉ k ++ a :: j ++ y).
Proof.
  intros H.
  destruct (nodup_split _ [a] (k ++ b :: l ++ j ++ y) H) as (_ & Ha & H1); [solve_Permutation|].
  destruct (nodup_split _ (j ++ b :: y) (k ++ a :: l) H) as (H2 & H3 & _); [solve_Permutation|].
  destruct (nodup_split _ [b] (k ++ a :: l ++ j ++ y) H) as (_ & Hb & _); [solve_Permutation|].
  destruct (nodup_split _ l (k ++ a :: b :: j ++ y) H) as (_ & Hl & _); [solve_Permutation|].
  split; [done|]. split; [done|]. split; [by apply NoDup_app in H as (? & _)|]. split; [done|].
  specialize (Ha a). specialize (Hb b). split; [set_solver|]. split; [set_solver|].
  intros q Hq. specialize (Hl q Hq). set_solver.
Qed.

(** The block of [splice_successor] for a successor [b] below the right child of [a]:
    it leaves the tree below [a], which becomes its own right tree. *)
Lemma detach_min s a cb b y cj p u J c P xl :
  let KJ := keysk (Fr L cj p u :: J) in
  let r := plug (Fr L cj p u :: J) (Node cb Leaf b y) in
  let R := plug (Fr L cj p u :: J) y in
  repn (rb_heap s) a r -> rb_heap s !! a = Some (mkd L P c xl (addr r)) -> ok_addr a ->
  NoDup (KJ ++ b :: inorder y) -> a ∉ KJ ++ b :: inorder y -> Forall ok_addr (KJ ++ b :: inorder y) ->
  exists s', ((if decide (addr y <> 0) then rb_set_parent (addr y) p else ret tt) ;;;
      on_node p (set_left (addr y)) ;;;
      let! o := ld a in
      on_node b (set_right (rb_right o)) ;;;
      rb_set_parent (rb_right o) b ;;;
      ret p) s = Done p s' /\
    rb_root s' = rb_root s /\ repn (rb_heap s') b R /\ rb_heap s' !! b = Some (mkd L p cb 0 (addr R)) /\
    forall q, q ∉ KJ ++ b :: inorder y -> rb_heap s' !! q = rb_heap s !! q.
Proof.
  intros KJ r R Hr Ha Hoka Hnd HaJ Hok.
  assert (IR : inorder R ≡ₚ KJ ++ inorder y) by apply plug_perm.
  assert (Hpj : p ∈ KJ) by (unfold KJ; cbn; set_solver).
  assert (HR : addr r = addr R) by (unfold r, R; by rewrite !addr_plug).
  destruct (unlink_min s a cb b y cj p u J Hr Hnd) as (HR3 & Hb3 & Hf3). fold R in HR3.
  apply repn_plugj in Hr as [(Hp1 & _) (_ & _ & Hy1)]. cbn [parentj f_addr addr] in Hp1, Hy1.
  assert (Hokp : ok_addr p) by (rewrite Forall_forall in Hok; apply Hok; set_solver).
  apply NoDup_app in Hnd as (HndJ & Hdj & [Hby Hndy]%NoDup_cons). pose proof (Hdj p Hpj) as Hpb.
  apply Forall_app in Hok as [HokJ [Hokb Hoky]%Forall_cons].
  assert (HokR : Forall ok_addr (inorder R)) by (rewrite IR; by apply Forall_app).
  assert (HbR : b ∉ inorder R) by (rewrite IR; intros [Hb|Hb]%elem_of_app; [by apply (Hdj b Hb); left|done]).
  assert (HndR : NoDup (inorder R)) by (rewrite IR; apply NoDup_app; split; [done|]; split; [set_solver|done]).
  assert (HRne : R <> Leaf) by (by apply (plug_node J (nd L cj y p u))).
  set (s3 := with_heap (adopt y p s) _) in *.
  set (s4 := with_heap s3 (<[b := mkd L p cb 0 (addr R)]> (rb_heap s3))).
  assert (HR4 : repn (rb_heap s4) a R).
  { eapply repn_frame; [|exact HR3]. intros q Hq. cbn. rewrite lookup_insert_ne; [done|by intros ->]. }
  exists (adopt R b s4). split.
  { rewrite (bind_run _ _ _ _ _ (adopt_run y b p s Hy1 ltac:(eauto with rb) ltac:(eauto with rb) Hoky)).
    rewrite (bind_on_node _ _ (mkd L (parentj a J) cj b (addr u))) by (by rewrite adopt_other by set_solver).
    change (set_left (addr y) _) with (mkd L (parentj a J) cj (addr y) (addr u)). fold s3.
    rewrite (bind_ld _ (mkd L P c xl (addr R))) by (rewrite Hf3, Ha, HR by set_solver; done).
    rewrite (bind_on_node _ _ _ _ _ Hb3). cbn [mkd rb_right].
    change (set_right (addr R) _) with (mkd L p cb 0 (addr R)). fold s4.
    pose proof (adopt_run R a b s4 HR4 ltac:(eauto with rb) ltac:(eauto with rb) HokR) as E.
    rewrite decide_True in E by (destruct (addr_ok R HokR HRne); lia). by rewrite (bind_run _ _ _ _ _ E). }
  split; [unfold s4, s3; rewrite adopt_root; cbn [with_heap rb_root]; apply adopt_root|].
  split; [by apply (repn_adopt R a)|]. split; [rewrite adopt_other by done; apply lookup_insert_eq|].
  intros q Hq. rewrite adopt_other by (rewrite IR; set_solver). cbn [s4 with_heap rb_heap].
  rewrite lookup_insert_ne by set_solver. apply Hf3. set_solver.
Qed.

Lemma splice_deep s K c l a cb b y cj p u J :
  let r := plug (Fr L cj p u :: J) (Node cb Leaf b y) in
  let R := plug (Fr L cj p u :: J) y in
  l <> Leaf -> rep s (plug K (Node c l a r)) ->
  exists s', splice_successor a b (relink K b s) = Done (addr y, p, bit cb) s' /\
    rep s' (plug K (Node c l b R)) /\ agree (inorder (plug K (Node c l a r))) s s'.
Proof.
  intros r R Hne (Hroot & HK & Hn & Hnd & Hok)%rep_plug. rewrite node_nd, inorder_nd_perm in Hnd, Hok.
  set (KJ := keysk (Fr L cj p u :: J)).
  assert (Ir : inorder r ≡ₚ KJ ++ b :: inorder y) by apply plug_perm.
  assert (IR : inorder R ≡ₚ KJ ++ inorder y) by apply plug_perm.
  assert (Hpj : p ∈ KJ) by (unfold KJ; cbn; set_solver).
  rewrite Ir in Hnd, Hok. cbn [addr repn] in *. destruct Hn as (Ha & Hl & Hr).
  apply around_nodup in Hnd as (Hnd' & HndJ & HndK & Hdj & HaK & HbN & Hdl). rewrite <-IR in Hnd'.
  assert (HaJ : a ∉ KJ ++ b :: inorder y) by (intros Hin; apply (Hdj a Hin); set_solver).
  apply Forall_app in Hok as [HokK [Hoka [Hokl HokJ]%Forall_app]%Forall_cons].
  assert (Hok' : Forall ok_addr (keysk K ++ b :: inorder l ++ inorder R)).
  { apply Forall_app in HokJ as [HokJ [Hokb Hoky]%Forall_cons]. apply Forall_app. split; [done|].
    apply Forall_cons. split; [done|]. apply Forall_app. split; [done|]. rewrite IR. by apply Forall_app. }
  set (s1 := relink K b s).
  assert (Hf1 : forall q, q ∉ keysk K -> rb_heap s1 !! q = rb_heap s !! q) by (intros; by apply relink_other).
  assert (Hr1 : repn (rb_heap s1) a r).
  { eapply repn_frame; [|exact Hr]. intros q Hq. rewrite Ir in Hq. specialize (Hdj q Hq). apply Hf1. set_solver. }
  destruct (detach_min s1 a cb b y cj p u J c (parentk K) (addr l) Hr1) as (s5 & E5 & Hroot5 & HR5 & Hb5 & Hf5);
    [by rewrite Hf1|done|done|done|done|].
  assert (Hf : forall q, q ∈ keysk K ++ a :: inorder l -> rb_heap s5 !! q = rb_heap s1 !! q).
  { intros q Hq. apply Hf5. intros Hin. by apply (Hdj q Hin). }
  destruct (take_place (addr y, p, bit cb) s5 K c l a R b (mkd L p cb 0 (addr R)) (addr r)) as (s' & E & H' & HA);
    [..|exists s'; split; [|split; [exact H'|]]]; try done.
  - rewrite Hroot5. by eapply relink_root.
  - eapply repk_frame; [|by apply (repk_relink K a b s)]. intros q Hq. apply Hf. set_solver.
  - rewrite Hf, Hf1 by set_solver. done.
  - eapply repn_frame; [|exact Hl]. intros q Hq. specialize (Hdl q Hq). rewrite Hf, Hf1 by set_solver. done.
  - intros ->. apply HaJ. set_solver.
  - apply repn_plugj in Hr1 as [_ (Hb1 & _)]. unfold splice_successor. rewrite (bind_ld _ _ _ _ Hb1). cbv zeta.
    cbn [parentj f_addr addr]. rewrite Forall_forall in HokJ. pose proof (HokJ p ltac:(set_solver)) as Hokp.
    rewrite parent_mkd, color_mkd by eauto with rb. rewrite decide_False by (intros ->; set_solver).
    by rewrite (bind_run _ _ _ _ _ E5).
  - intros q Hq. rewrite plug_perm, node_nd, inorder_nd_perm, Ir in Hq.
    rewrite HA, Hf5, Hf1 by (clear -Hq; set_solver). done.
Qed.

(** ** rb_erase *)

Lemma finish_erase s K d c x a n :
  rep s (plug K x) -> rbt n (nd d c x a Leaf) -> rbk n K -> (c = Red -> K <> []) ->
  leads (if decide (bit c = RB_BLACK) then __rb_erase_color (addr x) (parentk K) else ret tt) s (plug K x)
    (fun _ T' => red_black T').
Proof.
  intros H Ht HK Hc. destruct (finish_erase_with (fun _ _ => True) (fun _ => True)) with (7 := H) (8 := Ht) (9 := HK)
    as (v & T' & Hb & HT & _); try done. by exists v, T'.
Qed.

Lemma rbk_addr n J d c a b s K : rbk n (J ++ Fr d c a s :: K) -> rbk n (J ++ Fr d c b s :: K).
Proof.
  revert n. induction J as [|[e ce p u] J IH]; intros n; [by destruct c|]. cbn [app rbk]. destruct ce.
  - intros (Hu & Hcu & (e' & q & u' & K' & E) & HK). split; [done|]. split; [done|]. split; [|by apply IH].
    destruct J as [|f J]; cbn [app] in *; simplify_eq; eauto.
  - intros (Hu & HK). split; [done|by apply IH].
Qed.

Lemma successor_run s K c l a J cb b y :
  let T := plug K (Node c l a (plug J (Node cb Leaf b y))) in
  rep s T -> l <> Leaf -> Forall (fun f => f_dir f = L) J ->
  exists s', erase_successor a s = Done (addr y, parentk (J ++ Fr R c b l :: K), bit cb) s' /\
    rep s' (plug (J ++ Fr R c b l :: K) y) /\ agree (inorder T) s s'.
Proof.
  intros T H Hl HJ. set (r := plug J (Node cb Leaf b y)) in *.
  assert (Ha : rep s (plug K (nd L c l a r))) by done.
  assert (Hrne : r <> Leaf) by (by apply plug_node).
  pose proof (rep_fuel _ _ _ H) as Hf. rewrite length_inorder in Hf.
  assert (Hmin : leftmost (rb_fuel s) (addr r) s = Done b s).
  { pose proof H as Hr. unfold T in Hr. rewrite node_nd, plug_far in Hr.
    rewrite (leftmost_run _ _ _ _ Hr Hrne) by lia. unfold r. rewrite inorder_plug, (before_left _ HJ). done. }
  unfold erase_successor. rewrite (bind_run _ _ _ _ _ (ld_at _ _ _ _ _ _ _ Ha)), bind_gets.
  rewrite (parent_at s K L c l a r Ha). change (rb_right (mkd L _ _ _ _)) with (addr r).
  rewrite (bind_run _ _ _ _ _ Hmin).
  change (if decide (parentk K <> 0) then _ else _) with (relinkd L (parentk K) a b).
  rewrite (bind_run _ _ s tt (relink K b s)); cycle 1.
  { apply rep_plug in H as (_ & HK & _ & Hnd & Hok). eapply relink_run; [exact HK|exact Hok|by eapply rep_ok|].
    rewrite node_nd, inorder_nd_perm in Hnd. apply NoDup_app in Hnd as (_ & Hnd & _). intros Hin.
    apply (Hnd a Hin). set_solver. }
  rewrite plug_app. destruct J as [|[[] cj p u] J].
  - destruct (splice_child s K c l a cb b y Hl H) as (s' & E & H' & HA). exists s'. done.
  - destruct (splice_deep s K c l a cb b y cj p u J Hl H) as (s' & E & H' & HA). exists s'. done.
  - by apply Forall_cons in HJ as [? _].
Qed.

(** Where the gap is when the node between [l] and [r] has left the path [K]: at its own
    place with its one child, or at the place of its successor. *)
Definition unlinked (K : list frame) (c : color) (l r : tree) (K' : list frame) (x : tree) : Prop :=
  (l = Leaf /\ K' = K /\ x = r) \/ (l <> Leaf /\ r = Leaf /\ K' = K /\ x = l) \/
  (l <> Leaf /\ exists J cb b, r = plug J (Node cb Leaf b x) /\ Forall (fun f => f_dir f = L) J /\
     K' = J ++ Fr R c b l :: K).

(** The node with both children, or one of them missing. *)
Lemma erase_unlink s K c l a r :
  rep s (plug K (Node c l a r)) -> red_black (plug K (Node c l a r)) ->
  exists K' x d c' a' n s',
    (let! n := ld a in
     if decide (rb_left n = 0) then erase_simple a (rb_right n)
     else if decide (rb_right n = 0) then erase_simple a (rb_left n)
     else erase_successor a) s = Done (addr x, parentk K', bit c') s' /\
    rep s' (plug K' x) /\ agree (inorder (plug K (Node c l a r))) s s' /\
    inorder (plug K' x) = before K ++ inorder l ++ inorder r ++ after K /\
    rbt n (nd d c' x a' Leaf) /\ rbk n K' /\ (c' = Red -> K' <> []) /\ unlinked K c l r K' x.
Proof.
  intros H [Hc [m Hm]]. rewrite (bind_run _ _ _ _ _ (ld_at s K L c l a r H)).
  change (rb_left (mkd L _ _ _ _)) with (addr l). change (rb_right (mkd L _ _ _ _)) with (addr r).
  destruct (rbt_unplug _ _ _ Hm Hc) as (n & Hn & HK & _ & Hne). cbn [col] in Hne.
  assert (Hz : forall t, rep s (plug K (Node c l a r)) -> t = l \/ t = r -> t <> Leaf -> addr t <> 0).
  { clear. intros t (_ & _ & _ & _ & Hok)%rep_plug Ht Htne. cbn [inorder] in Hok. nodup.
    destruct Ht as [->| ->]; [destruct (addr_ok l)|destruct (addr_ok r)]; done || lia. }
  destruct (decide (l = Leaf)) as [->|Hl].
  { rewrite decide_True by done. destruct (erase_simple_run s K R c r a H) as (s' & E & H' & HA).
    exists K, r, R, c, a, n, s'. split; [exact E|]. do 2 (split; [done|]). split; [by rewrite inorder_plug|].
    do 3 (split; [done|]). by left. }
  rewrite decide_False by eauto. destruct (decide (r = Leaf)) as [->|Hr].
  { rewrite decide_True by done. destruct (erase_simple_run s K L c l a H) as (s' & E & H' & HA).
    exists K, l, L, c, a, n, s'. split; [exact E|]. do 2 (split; [done|]).
    split; [by rewrite inorder_plug|]. do 3 (split; [done|]). right. by left. }
  rewrite decide_False by eauto. destruct (min_split r Hr) as (J & cb & b & y & -> & HJ).
  destruct (successor_run s K c l a J cb b y H Hl HJ) as (s' & E & H' & HA).
  assert (Eq : plug K (Node c l a (plug J (Node cb Leaf b y))) = plug (J ++ Fr R c a l :: K) (Node cb Leaf b y))
    by (by rewrite plug_app).
  rewrite Eq in Hm, Hc. destruct (rbt_unplug _ _ _ Hm Hc) as (n' & Hn' & HK' & _ & _).
  exists (J ++ Fr R c b l :: K), y, R, cb, b, n', s'. split; [exact E|]. do 2 (split; [done|]).
  split; [|split; [done|split; [by eapply rbk_addr|split; [by destruct J|]]]]; [|right; right; split; [done|by exists J, cb, b]].
  rewrite plug_app. cbn [plug nd]. rewrite inorder_plug. cbn [inorder]. rewrite !inorder_plug, (before_left _ HJ).
  rewrite <-!app_assoc. cbn [inorder app]. by rewrite <-!app_assoc.
Qed.

(** [rb_erase] unlinks and repairs. *)
Lemma erase_split s a child parent color s1 :
  (let! n := ld a in
   if decide (rb_left n = 0) then erase_simple a (rb_right n)
   else if decide (rb_right n = 0) then erase_simple a (rb_left n)
   else erase_successor a) s = Done (child, parent, color) s1 ->
  rb_erase a s = (if decide (color = RB_BLACK) then __rb_erase_color child parent else ret tt) s1.
Proof.
  unfold rb_erase, bind at 1 2. destruct (ld a s) as [v s0| |]; [|done|done].
  cbn [obind]. intros E1. by rewrite (bind_run _ _ _ _ _ E1).
Qed.

(** [rb_erase] of any node of a red-black tree ends, and gives a red-black tree
    of the other nodes in the same order, with all parent links right; nodes outside
    the tree are not touched. *)
Theorem erase_rebalances s T a l1 l2 :
  rep s T -> red_black T -> inorder T = l1 ++ a :: l2 ->
  exists s' T', rb_erase a s = Done tt s' /\ rep s' T' /\ red_black T' /\ inorder T' = l1 ++ l2 /\
    forall b, b ∉ inorder T -> rb_heap s' !! b = rb_heap s !! b.
Proof.
  intros H HT E. destruct (find_node T a) as (K & c & l & r & ->); [rewrite E; set_solver|].
  destruct (split_at _ _ _ _ _ _ _ (proj1 (proj2 (proj2 H))) E) as [-> ->].
  destruct (erase_unlink s K c l a r H HT) as (K' & x & d & c' & a' & n & s1 & E1 & H1 & A1 & I1 & Ht & HK & Hc & _).
  destruct (finish_erase s1 K' d c' x a' n H1 Ht HK Hc) as ([] & T' & (s2 & E2 & H2 & I2 & A2) & HT').
  exists s2, T'. split.
  - rewrite <-E2. by apply erase_split.
  - split; [done|]. split; [done|]. split; [rewrite I2, I1; by rewrite <-!app_assoc|].
    intros b Hb. rewrite A2, A1; [done|done|]. rewrite I1. rewrite inorder_plug in Hb. cbn [inorder] in Hb. set_solver.
Qed.

Lemma erase_rebalances_witness :
  exists s' T', rb_erase 16 sample_rb = Done tt s' /\ rep s' T' /\ red_black T' /\ inorder T' = [8] /\
    forall b, b ∉ [8; 16] -> rb_heap s' !! b = rb_heap sample_rb !! b.
Proof.
  destruct sample_rb_rep as [H HT]. exact (erase_rebalances sample_rb _ 16 [8] [] H HT eq_refl).
Defined.
