(* ===== verification/RbMap.v ===== *)
(** * A red-black tree as a map (src/include/rosx/rbtree.h, src/lib/rbtree.c)

    The library only links and rebalances; the search for a key is written by its users, as
    the header shows with a cache of pages that are found by their offset.  Here those
    functions are put on top of the library: searching, inserting with [rb_insert_color]
    and removing with [rb_erase] are the lookup, the insertion and the deletion of a finite
    map from keys to nodes. *)

From stdpp Require Import base gmap list sorting.
From Stdlib Require Import ZArith Lia.
From S2P Require Import Prelude Rbtree RbShape RbBalance RbWalk RbErase.
#[local] Open Scope Z_scope.
#[local] Open Scope rosx_scope.

Section Map.
  (** [rb_entry(n, struct page, rb_page_cache)->offset]: the key of the object around a
      node; the functions do not change it. *)
  Context (offset_of : Z -> Z).

(** ** The functions *)

Fixpoint search_loop (fuel : nat) (offset n : Z) : proc rb_state Z :=
  match fuel with
  | O => crash NoFuel
  | S fuel =>
    if decide (n <> 0) then
      let! r := ld n in
      if decide (offset < offset_of n) then search_loop fuel offset (rb_left r)
      else if decide (offset > offset_of n) then search_loop fuel offset (rb_right r)
      else ret n
    else ret 0
  end.

Definition rb_search_page_cache (offset : Z) : proc rb_state Z :=
  let! n := gets rb_root in
  let! fuel := gets rb_fuel in
  search_loop fuel offset n.

(** [*p]. *)
Definition ld_link (p : link) : proc rb_state Z :=
  match p with
  | RootLink => gets rb_root
  | LeftLink a => let! n := ld a in ret (rb_left n)
  | RightLink a => let! n := ld a in ret (rb_right n)
  end.

(** The loop of [__rb_insert_page_cache]: the place for the new node and its parent, or the
    node that has the key already. *)
Fixpoint descend (fuel : nat) (offset : Z) (p : link) (parent : Z) : proc rb_state (link * Z + Z) :=
  match fuel with
  | O => crash NoFuel
  | S fuel =>
    let! n := ld_link p in
    if decide (n <> 0) then
      if decide (offset < offset_of n) then descend fuel offset (LeftLink n) n
      else if decide (offset > offset_of n) then descend fuel offset (RightLink n) n
      else ret (inr n)
    else ret (inl (p, parent))
  end.

Definition __rb_insert_page_cache (offset node : Z) : proc rb_state Z :=
  let! fuel := gets rb_fuel in
  let! r := descend fuel offset RootLink 0 in
  match r with
  | inl (p, parent) => rb_link_node node parent p ;;; ret 0
  | inr page => ret page
  end.

Definition rb_insert_page_cache (offset node : Z) : proc rb_state Z :=
  let! r := __rb_insert_page_cache offset node in
  if decide (r <> 0) then ret r
  else
    rb_insert_color node ;;;
    ret r.

(** ** The map a tree stands for *)

Definition before_key (a b : Z) : Prop := offset_of a < offset_of b.
Definition ordered (l : list Z) : Prop := StronglySorted before_key l.
Definition view (l : list Z) : gmap Z Z := list_to_map ((fun a => (offset_of a, a)) <$> l).

Record map_rep (s : rb_state) (m : gmap Z Z) (T : tree) : Prop := {
  mr_rep : rep s T;
  mr_balanced : red_black T;
  mr_ordered : ordered (inorder T);
  mr_view : view (inorder T) = m;
}.

Lemma ordered_app l1 l2 :
  ordered (l1 ++ l2) <-> ordered l1 /\ ordered l2 /\ forall a b, a ∈ l1 -> b ∈ l2 -> offset_of a < offset_of b.
Proof using Type.
  unfold ordered. induction l1 as [|x l1 IH]; cbn [app].
  { split; [intros H; split_and!; [constructor|done|set_solver]|tauto]. }
  split.
  - intros [(H1 & H2 & H3)%IH Hx]%StronglySorted_inv. apply Forall_app in Hx as [Hx1 Hx2].
    split_and!; [by constructor|done|]. intros a b [->|Ha]%elem_of_cons Hb; [|by apply H3].
    rewrite Forall_forall in Hx2. by apply Hx2.
  - intros ([H1 Hx]%StronglySorted_inv & H2 & H3). constructor.
    + apply IH. split_and!; [done|done|]. intros a b Ha. apply H3. by right.
    + apply Forall_app. split; [done|]. apply Forall_forall. intros b Hb. apply H3; [by left|done].
Qed.

Lemma ordered_cons a l : ordered (a :: l) <-> ordered l /\ forall b, b ∈ l -> offset_of a < offset_of b.
Proof using Type.
  unfold ordered. split.
  - intros [? H]%StronglySorted_inv. by rewrite Forall_forall in H.
  - intros [? H]. constructor; [done|]. by apply Forall_forall.
Qed.

(** Keys occur once. *)
Lemma ordered_keys l : ordered l -> NoDup (((fun a => (offset_of a, a)) <$> l).*1).
Proof using Type.
  intros H. rewrite <-list_fmap_compose. induction l as [|a l IH]; [constructor|].
  apply ordered_cons in H as [Hl Ha]. cbn. constructor; [|by apply IH].
  intros (b & E & Hb)%list_elem_of_fmap. cbn in E. specialize (Ha b Hb). lia.
Qed.

Lemma view_lookup l a k : ordered l -> view l !! k = Some a <-> a ∈ l /\ offset_of a = k.
Proof using Type.
  intros H. unfold view. rewrite <-elem_of_list_to_map by (by apply ordered_keys). rewrite list_elem_of_fmap.
  split; [intros (b & E & Hb); by simplify_eq|intros [Ha <-]; by exists a].
Qed.

Lemma view_none l k : ordered l -> view l !! k = None <-> forall a, a ∈ l -> offset_of a <> k.
Proof using Type.
  intros H. rewrite eq_None_not_Some. split.
  - intros Hn a Ha E. apply Hn. exists a. by apply view_lookup.
  - intros Hn [a Ha]. apply view_lookup in Ha as [Ha E]; [|done]. by apply (Hn a Ha).
Qed.

Lemma view_ext l m : ordered l -> (forall k a, m !! k = Some a <-> a ∈ l /\ offset_of a = k) -> view l = m.
Proof using Type.
  intros H Hm. apply map_eq. intros k. apply option_eq. intros a. by rewrite (view_lookup l a k H), Hm.
Qed.

(** ** Searching *)

(** What a search below [t] returns. *)
Definition found (l : list Z) (k x : Z) : Prop :=
  (x ∈ l /\ offset_of x = k) \/ (x = 0 /\ forall a, a ∈ l -> offset_of a <> k).

Lemma search_run fuel k K t s :
  rep s (plug K t) -> ordered (inorder t) -> (length (inorder t) < fuel)%nat ->
  exists x, search_loop fuel k (addr t) s = Done x s /\ found (inorder t) k x.
Proof using Type.
  revert K t. induction fuel as [|fuel IH]; intros K t H Ho Hf; [lia|]. cbn [search_loop].
  destruct t as [|c l a r]; cbn [addr].
  { rewrite decide_False by (intros E; by apply E). exists 0. split; [done|]. right. split; [done|set_solver]. }
  pose proof (rep_ok _ _ L _ _ _ _ H) as [Hpos _]. rewrite decide_True by lia.
  rewrite (bind_run _ _ _ _ _ (ld_at _ _ L _ _ _ _ H)). cbn [mkd rb_left rb_right].
  rewrite length_inorder in Hf. cbn [inorder] in *. apply ordered_app in Ho as (Hl & Har & Hla).
  apply ordered_cons in Har as [Hr Har].
  destruct (decide (k < offset_of a)) as [Hlt|Hge].
  - destruct (IH (Fr L c a r :: K) l) as (x & -> & Hx); [done|done|lia|]. exists x. split; [done|].
    destruct Hx as [[? ?]|[-> Hn]]; [left; set_solver|right]. split; [done|].
    intros b [Hb|[->|Hb]%elem_of_cons]%elem_of_app; [by apply Hn|lia|]. specialize (Har b Hb). lia.
  - destruct (decide (k > offset_of a)) as [Hgt|Heq].
    + destruct (IH (Fr R c a l :: K) r) as (x & -> & Hx); [done|done|lia|]. exists x. split; [done|].
      destruct Hx as [[? ?]|[-> Hn]]; [left; set_solver|right]. split; [done|].
      intros b [Hb|[->|Hb]%elem_of_cons]%elem_of_app; [|lia|by apply Hn].
      specialize (Hla b a Hb ltac:(by left)). lia.
    + exists a. split; [done|]. left. split; [set_solver|lia].
Qed.

Lemma found_view l k x : ordered l -> found l k x -> x = default 0 (view l !! k).
Proof using Type.
  intros H [Hx|[-> Hn]].
  - apply view_lookup in Hx; [|done]. by rewrite Hx.
  - apply view_none in Hn; [|done]. by rewrite Hn.
Qed.

Lemma search_view s m T k : map_rep s m T -> rb_search_page_cache k s = Done (default 0 (m !! k)) s.
Proof using Type.
  intros [H _ Ho <-]. unfold rb_search_page_cache. rewrite !bind_gets, (proj1 H).
  destruct (search_run (rb_fuel s) k [] T s H Ho) as (x & -> & Hx).
  { pose proof (rep_fuel s [] T H). cbn in *. lia. }
  by rewrite (found_view _ _ _ Ho Hx).
Qed.

(** ** Inserting *)

Lemma ld_link_run K t s : rep s (plug K t) -> ld_link (linkk K) s = Done (addr t) s.
Proof using Type.
  intros (Hroot & HK & _)%rep_plug. destruct K as [|[[] c p u] K]; cbn [linkk ld_link repk] in *.
  - unfold gets. by rewrite Hroot.
  - destruct HK as (Hp & _). by rewrite (bind_ld _ _ _ _ Hp).
  - destruct HK as (Hp & _). by rewrite (bind_ld _ _ _ _ Hp).
Qed.

(** The hole [K] is where the key [k] belongs. *)
Definition place (k : Z) (K : list frame) : Prop :=
  (forall a, a ∈ before K -> offset_of a < k) /\ (forall a, a ∈ after K -> k < offset_of a).

Definition descended (T : tree) (k : Z) (r : link * Z + Z) : Prop :=
  match r with
  | inl (p, parent) => exists K, T = plug K Leaf /\ p = linkk K /\ parent = parentk K /\ place k K
  | inr x => x ∈ inorder T /\ offset_of x = k
  end.

Lemma descend_run fuel k K t s :
  rep s (plug K t) -> ordered (inorder t) -> place k K -> (length (inorder t) < fuel)%nat ->
  exists r, descend fuel k (linkk K) (parentk K) s = Done r s /\ descended (plug K t) k r.
Proof using Type.
  revert K t. induction fuel as [|fuel IH]; intros K t H Ho [Hb Ha] Hf; [lia|]. cbn [descend].
  rewrite (bind_run _ _ _ _ _ (ld_link_run _ _ _ H)). destruct t as [|c l a r]; cbn [addr].
  { rewrite decide_False by (intros E; by apply E). eexists. split; [done|]. by exists K. }
  pose proof (rep_ok _ _ L _ _ _ _ H) as [Hpos _]. rewrite decide_True by lia.
  rewrite length_inorder in Hf. cbn [inorder] in *. apply ordered_app in Ho as (Hl & Har & Hla).
  apply ordered_cons in Har as [Hr Har].
  destruct (decide (k < offset_of a)) as [Hlt|Hge].
  - apply (IH (Fr L c a r :: K) l); [done|done| |lia]. split; cbn [before after]; [done|].
    intros b [->|[Hbr|Hbk]%elem_of_app]%elem_of_cons; [done| |by apply Ha]. specialize (Har b Hbr). lia.
  - destruct (decide (k > offset_of a)) as [Hgt|Heq].
    + apply (IH (Fr R c a l :: K) r); [done|done| |lia]. split; cbn [before after]; [|done].
      intros b [Hbk|[Hbl|Hba]%elem_of_app]%elem_of_app; [by apply Hb| |].
      * specialize (Hla b a Hbl ltac:(by left)). lia.
      * apply list_elem_of_singleton in Hba as ->. lia.
    + eexists. split; [done|]. split; [rewrite inorder_plug; cbn; set_solver|lia].
Qed.

Lemma ordered_insert K a :
  ordered (before K ++ after K) -> place (offset_of a) K -> ordered (before K ++ a :: after K).
Proof using Type.
  intros (H1 & H2 & H3)%ordered_app [Hb Ha]. apply ordered_app. split_and!; [done| |].
  - by apply ordered_cons.
  - intros x y Hx [->|Hy]%elem_of_cons; [by apply Hb|by apply H3].
Qed.

Lemma insert_view s m T a :
  map_rep s m T -> ok_addr a -> is_Some (rb_heap s !! a) -> a ∉ inorder T ->
  match m !! offset_of a with
  | Some b => rb_insert_page_cache (offset_of a) a s = Done b s
  | None => exists s' T', rb_insert_page_cache (offset_of a) a s = Done 0 s' /\ map_rep s' (<[offset_of a := a]> m) T'
  end.
Proof using Type.
  intros [H Hb Ho <-] Hok Ha Hni. unfold rb_insert_page_cache, __rb_insert_page_cache.
  rewrite bind_bind, bind_gets.
  destruct (descend_run (rb_fuel s) (offset_of a) [] T s H Ho) as (r & E & Hr).
  { split; cbn; set_solver. }
  { pose proof (rep_fuel s [] T H). cbn in *. lia. }
  cbn [linkk parentk plug] in E, Hr. rewrite (bind_run _ _ _ _ _ E).
  destruct r as [[p parent]|x]; cbn [descended] in Hr.
  - destruct Hr as (K & -> & -> & -> & HK). rewrite inorder_plug in Ho |- *. cbn [inorder app] in Ho |- *.
    destruct (insert_rebalances s K a H Hb Hok Hni Ha) as (s' & T' & E' & H' & Hb' & HI & _).
    assert (Hn : view (before K ++ after K) !! offset_of a = None).
    { apply view_none; [done|]. destruct HK as [H1 H2]. intros b [Hx|Hx]%elem_of_app; [specialize (H1 b Hx)|specialize (H2 b Hx)]; lia. }
    rewrite Hn. exists s', T'. split.
    + revert E'. unfold bind. destruct (rb_link_node _ _ _ s) as [[] s1| |]; [|done|done]. cbn [obind].
      unfold ret at 1. cbn [obind]. rewrite decide_False by (intros E0; by apply E0). by intros ->.
    + assert (Ho' : ordered (inorder T')) by (rewrite HI; by apply ordered_insert).
      constructor; [done|done|done|]. apply view_ext; [done|]. intros k x. rewrite HI, lookup_insert_Some.
      rewrite (view_lookup _ _ _ Ho). rewrite !elem_of_app, elem_of_cons. split.
      * intros [[<- <-]|[_ [Hx Hk]]]; tauto.
      * intros [[Hx|[->|Hx]] Hk]; [|tauto|]; right; (split; [|tauto]); intros Hak;
          (apply (proj1 (view_none _ _ Ho) Hn x); [apply elem_of_app; tauto|congruence]).
  - rewrite (proj2 (view_lookup _ _ _ Ho) Hr). unfold ret. cbn [obind]. rewrite decide_True; [done|].
    destruct (find_node T x (proj1 Hr)) as (K & c & l & r & ->). pose proof (rep_ok _ _ L _ _ _ _ H) as [? _]. lia.
Qed.

(** ** Removing *)

Lemma erase_view s m T k a :
  map_rep s m T -> m !! k = Some a -> exists s' T', rb_erase a s = Done tt s' /\ map_rep s' (delete k m) T'.
Proof using Type.
  intros [H Hb Ho <-] Ha. apply view_lookup in Ha as [Ha <-]; [|done].
  apply list_elem_of_split in Ha as (l1 & l2 & E).
  destruct (erase_rebalances s T a l1 l2 H Hb E) as (s' & T' & E' & H' & Hb' & HI & _).
  exists s', T'. split; [done|]. rewrite E in Ho |- *. pose proof Ho as (H1 & H2 & H3)%ordered_app.
  apply ordered_cons in H2 as [H2 H4].
  assert (Ho' : ordered (inorder T')).
  { rewrite HI. apply ordered_app. split_and!; [done..|]. intros x y Hx Hy. apply H3; [done|by right]. }
  constructor; [done|done|done|]. apply view_ext; [done|]. intros j x.
  rewrite lookup_delete_Some, (view_lookup _ _ _ Ho), HI, !elem_of_app, elem_of_cons. split.
  - intros [Hj [[Hx|[->|Hx]] <-]]; tauto.
  - intros [Hx <-]. split; [|tauto]. destruct Hx as [Hx|Hx].
    + specialize (H3 x a Hx ltac:(by left)). lia.
    + specialize (H4 x Hx). lia.
Qed.

(** C18: The tree is a finite map from keys to nodes.  On a red-black tree that is ordered
    by its keys and stands for the map [m], searching for a key returns the node [m] has for
    it, or NULL, and changes nothing; inserting a node whose key is taken returns the node
    that has it and changes nothing; inserting any other node returns NULL and leaves a
    red-black tree that stands for [m] with the new node at its key; and erasing a node of
    [m] leaves one that stands for [m] without its key.  All of them end. *)
Theorem tree_is_map s m T :
  map_rep s m T ->
  (forall k, rb_search_page_cache k s = Done (default 0 (m !! k)) s) /\
  (forall a, ok_addr a -> is_Some (rb_heap s !! a) -> a ∉ inorder T ->
     match m !! offset_of a with
     | Some b => rb_insert_page_cache (offset_of a) a s = Done b s
     | None => exists s' T', rb_insert_page_cache (offset_of a) a s = Done 0 s' /\
                 map_rep s' (<[offset_of a := a]> m) T'
     end) /\
  (forall k a, m !! k = Some a -> exists s' T', rb_erase a s = Done tt s' /\ map_rep s' (delete k m) T').
Proof using Type.
  intros H. split_and!.
  - intros k. by eapply search_view.
  - intros a. by apply insert_view.
  - intros k a. by apply erase_view with (T := T).
Qed.

End Map.

(** The nodes 8 and 16 with the keys 80 and 160; 4 comes to them. *)
Lemma tree_is_map_witness :
  (forall k, rb_search_page_cache (fun a => a * 10) k sample_rb
     = Done (default 0 (list_to_map (M := gmap Z Z) [(80, 8); (160, 16)] !! k)) sample_rb) /\
  (exists s' T', rb_insert_page_cache (fun a => a * 10) 40 4 sample_rb = Done 0 s' /\
     map_rep (fun a => a * 10) s' (<[40 := 4]> (list_to_map [(80, 8); (160, 16)])) T') /\
  (exists s' T', rb_erase 16 sample_rb = Done tt s' /\
     map_rep (fun a => a * 10) s' (delete 160 (list_to_map [(80, 8); (160, 16)])) T').
Proof.
  destruct (tree_is_map (fun a => a * 10) sample_rb (list_to_map [(80, 8); (160, 16)]) (plug sample_path Leaf)) as (Hs & Hi & He).
  { destruct sample_rb_rep as [H HT]. constructor; [done|done| |done]. repeat constructor. }
  split; [exact Hs|]. split; [|exact (He 160 16 eq_refl)].
  apply (Hi 4); [done|by eexists|]. by apply (bool_decide_unpack _).
Defined.
