(* ===== verification/RbAugment.v ===== *)
(** * Augmented red-black trees (src/lib/rbtree.c)

    The user of a tree may keep data with each node that depends on the subtree below it,
    such as the largest end of the intervals in it; a callback computes the data of one node
    from its children.  Linking, rotating and removing nodes leave the data of some nodes
    wrong.  [rb_augment_insert] and [rb_augment_erase_end] call the callback for the nodes of
    a path up to the root and for those beside it, and the data is right again everywhere:
    every node whose subtree has changed is one of them. *)

From stdpp Require Import base gmap list.
From Stdlib Require Import ZArith Lia.
From S2P Require Import Prelude Rbtree RbShape RbBalance RbWalk RbErase.
#[local] Open Scope Z_scope.
#[local] Open Scope rosx_scope.

(** ** The trees without their colours *)

Fixpoint bare (t : tree) : tree :=
  match t with Leaf => Leaf | Node _ l a r => Node Black (bare l) a (bare r) end.
Definition bare_frame (fr : frame) : frame := Fr (f_dir fr) Black (f_addr fr) (bare (f_sib fr)).

Lemma bare_nd d c x a y : bare (nd d c x a y) = nd d Black (bare x) a (bare y).
Proof. by destruct d. Qed.
Lemma bare_plug K t : bare (plug K t) = plug (bare_frame <$> K) (bare t).
Proof. revert t. induction K as [|[d c p u] K IH]; intros t; cbn; [done|]. by rewrite IH, bare_nd. Qed.
Lemma addr_bare t : addr (bare t) = addr t.
Proof. by destruct t. Qed.
Lemma inorder_bare t : inorder (bare t) = inorder t.
Proof. induction t as [|c l IHl a r IHr]; cbn; [done|]. by rewrite IHl, IHr. Qed.

Lemma plug_snoc K d c p u t : plug (K ++ [Fr d c p u]) t = nd d c (plug K t) p u.
Proof. by rewrite plug_app. Qed.

(** A path of the bare tree is one of the tree. *)
Lemma unbare K t T : bare T = plug K t -> exists K0 t0, T = plug K0 t0 /\ bare_frame <$> K0 = K /\ bare t0 = t.
Proof.
  revert T. induction K as [|[d c p u] K IH] using rev_ind; intros T E.
  { by exists [], T. }
  rewrite plug_snoc in E. destruct T as [|cT l a r]; [by destruct d|]. destruct d; cbn in E; injection E as <- El <- Er.
  - destruct (IH l El) as (K0 & t0 & -> & <- & <-). exists (K0 ++ [Fr L cT a r]), t0.
    rewrite plug_snoc, fmap_app. cbn. by subst u.
  - destruct (IH r Er) as (K0 & t0 & -> & <- & <-). exists (K0 ++ [Fr R cT a l]), t0.
    rewrite plug_snoc, fmap_app. cbn. by subst u.
Qed.

(** ** The library leaves the data alone *)

Definition keeps {A} (m : proc rb_state A) : Prop :=
  forall s, match m s with Done _ s' => rb_aux s' = rb_aux s | Crash _ => True | Switch _ _ => False end.

Lemma keeps_ret {A} (a : A) : keeps (ret a).
Proof. by intros s. Qed.
Lemma keeps_gets {A} (g : rb_state -> A) : keeps (gets g).
Proof. by intros s. Qed.
Lemma keeps_crash {A} e : keeps (A := A) (crash e).
Proof. by intros s. Qed.
Lemma keeps_ld a : keeps (ld a).
Proof. intros s. unfold ld. by destruct (rb_heap s !! a). Qed.
Lemma keeps_root x : keeps (upd (set_root x)).
Proof. by intros s. Qed.
Lemma keeps_bind {A B} (m : proc rb_state A) (k : A -> proc rb_state B) :
  keeps m -> (forall a, keeps (k a)) -> keeps (bind m k).
Proof.
  intros Hm Hk s. specialize (Hm s). unfold bind. destruct (m s) as [a s1|e|]; cbn [obind]; [|done|done].
  specialize (Hk a s1). rewrite <-Hm. done.
Qed.
Lemma keeps_if {A} (b : bool) (m1 m2 : proc rb_state A) : keeps m1 -> keeps m2 -> keeps (if b then m1 else m2).
Proof. by destruct b. Qed.
Lemma keeps_decide {A P} `{Decision P} (m1 m2 : proc rb_state A) :
  keeps m1 -> keeps m2 -> keeps (if decide P then m1 else m2).
Proof. by destruct (decide P). Qed.
Lemma keeps_on_node a g : keeps (on_node a g).
Proof. apply keeps_bind; [apply keeps_ld|]. by intros n s. Qed.
Lemma keeps_run {A} (m : proc rb_state A) s a s' : keeps m -> m s = Done a s' -> rb_aux s' = rb_aux s.
Proof. intros Hm E. specialize (Hm s). by rewrite E in Hm. Qed.

Create HintDb rb_keeps.
#[export] Hint Resolve keeps_ret keeps_gets keeps_crash keeps_ld keeps_root keeps_on_node : rb_keeps.

(** By the structure of the code. *)
Ltac keeps :=
  repeat first
    [ progress cbv zeta
    | solve [auto with rb_keeps]
    | apply keeps_bind; [|intros]
    | apply keeps_if
    | apply keeps_decide ].

Lemma keeps_set_red a : keeps (rb_set_red a).
Proof. apply keeps_on_node. Qed.
Lemma keeps_set_black a : keeps (rb_set_black a).
Proof. apply keeps_on_node. Qed.
Lemma keeps_set_parent a p : keeps (rb_set_parent a p).
Proof. apply keeps_on_node. Qed.
Lemma keeps_set_color a c : keeps (rb_set_color a c).
Proof. apply keeps_on_node. Qed.
#[export] Hint Resolve keeps_set_red keeps_set_black keeps_set_parent keeps_set_color : rb_keeps.
Lemma keeps_rotate_left a : keeps (__rb_rotate_left a).
Proof. unfold __rb_rotate_left. keeps. Qed.
Lemma keeps_rotate_right a : keeps (__rb_rotate_right a).
Proof. unfold __rb_rotate_right. keeps. Qed.
Lemma keeps_is_red a : keeps (is_red_node a).
Proof. unfold is_red_node. keeps. Qed.
Lemma keeps_black_or_null a : keeps (black_or_null a).
Proof. unfold black_or_null. keeps. Qed.
#[export] Hint Resolve keeps_rotate_left keeps_rotate_right keeps_is_red keeps_black_or_null : rb_keeps.

Lemma keeps_link_node a p l : keeps (rb_link_node a p l).
Proof. unfold rb_link_node. keeps. destruct l; cbn [set_link]; auto with rb_keeps. Qed.
Lemma keeps_insert_loop fuel a : keeps (insert_loop fuel a).
Proof. revert a. induction fuel as [|fuel IH]; intros a; cbn [insert_loop]; keeps. Qed.
Lemma keeps_insert_color a : keeps (rb_insert_color a).
Proof. unfold rb_insert_color. pose proof keeps_insert_loop. keeps. Qed.

Lemma keeps_erase_loop fuel a p : keeps (erase_loop fuel a p).
Proof. revert a p. induction fuel as [|fuel IH]; intros a p; cbn [erase_loop]; keeps. Qed.
Lemma keeps_leftmost fuel a : keeps (leftmost fuel a).
Proof. revert a. induction fuel as [|fuel IH]; intros a; cbn [leftmost]; keeps. Qed.
Lemma keeps_erase_simple a x : keeps (erase_simple a x).
Proof. unfold erase_simple. keeps. Qed.
Lemma keeps_erase_successor a : keeps (erase_successor a).
Proof. pose proof keeps_leftmost. unfold erase_successor, splice_successor. keeps. Qed.
Lemma keeps_erase a : keeps (rb_erase a).
Proof.
  pose proof keeps_erase_loop. pose proof keeps_erase_simple. pose proof keeps_erase_successor.
  unfold rb_erase. keeps. match goal with r : (Z * Z * Z)%type |- _ => destruct r as [[child parent] color] end.
  unfold __rb_erase_color. keeps.
Qed.

(** ** The node a removal begins at *)

(** The node [rb_augment_erase_begin] finds for the gap: its root, or the parent of an empty
    one. *)
Definition deepest (K : list frame) (x : tree) : Z := match x with Leaf => parentk K | _ => addr x end.

Lemma erase_begin_run s K c l a r K' x :
  rep s (plug K (Node c l a r)) -> unlinked K c l r K' x ->
  rb_augment_erase_begin a s = Done (deepest K' x) s.
Proof.
  intros H Hu. unfold rb_augment_erase_begin. rewrite (bind_run _ _ _ _ _ (ld_at _ _ L _ _ _ _ H)).
  rewrite (parent_at s K L c l a r H). cbn [mkd rb_left rb_right].
  assert (Hz : forall K0 t, rep s (plug K0 t) -> t <> Leaf -> addr t <> 0).
  { intros K0 [|c0 l0 b r0] H0 Hn; [done|]. pose proof (rep_ok _ _ L _ _ _ _ H0) as [? _]. cbn. lia. }
  assert (Hl : l <> Leaf -> addr l <> 0) by apply (Hz (Fr L c a r :: K) l H).
  assert (Hr : r <> Leaf -> addr r <> 0) by apply (Hz (Fr R c a l :: K) r H).
  destruct Hu as [(-> & -> & ->)|[(Hnl & -> & -> & ->)|(Hnl & J & cb & b & -> & HJ & ->)]].
  - destruct r as [|cr rl ra rr]; [by rewrite decide_True|]. specialize (Hr ltac:(done)). cbn [addr] in *.
    rewrite !decide_False by tauto. by rewrite decide_True.
  - rewrite decide_False by (intros [_ ?]; by apply Hl). rewrite decide_True by done. by destruct l.
  - assert (Hnr : addr (plug J (Node cb Leaf b x)) <> 0) by (apply Hr; by apply plug_node).
    specialize (Hl Hnl). do 3 rewrite decide_False by tauto. rewrite (bind_run _ _ _ _ _ (next_run _ _ _ _ _ _ H)).
    rewrite inorder_plug, (before_left _ HJ). cbn [inorder app head default from_option id].
    assert (Hb : rep s (plug (J ++ Fr R c a l :: K) (Node cb Leaf b x))) by (by rewrite plug_app).
    rewrite (bind_run _ _ _ _ _ (ld_at _ _ L _ _ _ _ Hb)), (parent_at s _ L cb Leaf b x Hb). cbn [mkd rb_right].
    assert (Hx : x <> Leaf -> addr x <> 0) by apply (Hz (Fr R cb b Leaf :: J ++ Fr R c a l :: K) x Hb).
    destruct x as [|cx xl xa xr]; [|rewrite decide_True by (by apply Hx); done].
    rewrite decide_False by (intros E; by apply E). destruct J as [|[dj cj pj uj] J]; cbn [app parentk f_addr deepest].
    + by rewrite decide_False by (intros E; by apply E).
    + rewrite decide_True; [done|]. intros ->. apply rep_plug in Hb as (_ & _ & _ & Hnd & _).
      cbn [app keysk f_addr f_sib] in Hnd. apply NoDup_cons in Hnd as [Hnd _].
      apply Hnd. apply elem_of_app. left. apply elem_of_app. right. clear. induction J as [|fr J IH]; cbn; set_solver.
Qed.

(** ** The data of a tree *)

(** The data of the child at [x], if there is one. *)
Definition data_at (s : rb_state) (x : Z) : option Z := if decide (x = 0) then None else rb_aux s !! x.
Definition set_aux (m : gmap Z Z) (s : rb_state) : rb_state := mk_rb_state (rb_heap s) (rb_root s) m.

Definition data_of (m : gmap Z Z) (t : tree) : option Z :=
  match t with Leaf => None | Node _ _ a _ => m !! a end.

Lemma data_bare m t : data_of m (bare t) = data_of m t.
Proof. by destruct t. Qed.
Lemma data_frame m m' t : (forall a, a ∈ inorder t -> m' !! a = m !! a) -> data_of m' t = data_of m t.
Proof. destruct t as [|c l a r]; [done|]. intros H. apply H. cbn. set_solver. Qed.
Lemma rep_aux s m T : rep (set_aux m s) T <-> rep s T.
Proof. done. Qed.

Section Augment.
  (** The data of a node, from its address and the data of its children. *)
  Context (f : Z -> option Z -> option Z -> Z).

(** The callback. *)
Definition recompute (a : Z) : proc rb_state unit :=
  let! n := ld a in
  upd (fun s => set_aux (<[a := f a (data_at s (rb_left n)) (data_at s (rb_right n))]> (rb_aux s)) s).

(** The data of every node is right. *)
Fixpoint augmented (m : gmap Z Z) (t : tree) : Prop :=
  match t with
  | Leaf => True
  | Node _ l a r => m !! a = Some (f a (data_of m l) (data_of m r)) /\ augmented m l /\ augmented m r
  end.
(** It is right below the root. *)
Definition kids (m : gmap Z Z) (t : tree) : Prop :=
  match t with Leaf => True | Node _ l _ r => augmented m l /\ augmented m r end.

Lemma augmented_bare m t : augmented m (bare t) <-> augmented m t.
Proof using Type. induction t as [|c l IHl a r IHr]; cbn; [done|]. by rewrite !data_bare, IHl, IHr. Qed.
Lemma kids_bare m t : kids m (bare t) <-> kids m t.
Proof using Type. destruct t as [|c l a r]; cbn; [done|]. by rewrite !augmented_bare. Qed.
Lemma kids_nd m d c x a y : kids m (nd d c x a y) <-> augmented m x /\ augmented m y.
Proof using Type. destruct d; cbn; tauto. Qed.
Lemma augmented_kids m t : augmented m t -> kids m t.
Proof using Type. destruct t; cbn; tauto. Qed.

Lemma augmented_frame m m' t :
  (forall a, a ∈ inorder t -> m' !! a = m !! a) -> augmented m t -> augmented m' t.
Proof using Type.
  induction t as [|c l IHl a r IHr]; cbn [augmented inorder]; [done|]. intros H (Ha & Hl & Hr).
  rewrite H by set_solver. rewrite (data_frame m m' l), (data_frame m m' r) by set_solver.
  split; [done|]. split; [apply IHl|apply IHr]; set_solver.
Qed.
Lemma kids_frame m m' t : (forall a, a ∈ inorder t -> a <> addr t -> m' !! a = m !! a) -> NoDup (inorder t) ->
  kids m t -> kids m' t.
Proof using Type.
  destruct t as [|c l a r]; cbn [kids inorder addr]; [done|]. intros H Hn [Hl Hr].
  apply nodup_mid in Hn. split; (eapply augmented_frame; [|eassumption]); intros b Hb; apply H; set_solver.
Qed.

(** ** The walk up *)

(** The callback on the root of [t]. *)
Lemma recompute_run s K t :
  rep s (plug K t) -> t <> Leaf -> kids (rb_aux s) t ->
  exists m, recompute (addr t) s = Done tt (set_aux m s) /\ augmented m t /\
    forall b, b <> addr t -> m !! b = rb_aux s !! b.
Proof using Type.
  intros H Ht Hk. destruct t as [|c l a r]; [done|]. cbn [addr kids] in *. unfold recompute.
  rewrite (bind_run _ _ _ _ _ (ld_at _ _ L _ _ _ _ H)). cbn [mkd rb_left rb_right].
  apply rep_plug in H as (_ & _ & _ & Hnd & Hok). apply NoDup_app in Hnd as (_ & _ & Hnd). cbn [inorder] in Hnd, Hok.
  apply nodup_mid in Hnd. nodup.
  assert (Hd : forall t, Forall ok_addr (inorder t) -> data_at s (addr t) = data_of (rb_aux s) t).
  { intros [|c' l' b r'] Hb; [done|]. cbn in *. nodup. unfold data_at. rewrite decide_False; [done|].
    match goal with H : ok_addr b |- _ => destruct H end. lia. }
  unfold upd. rewrite !Hd by done. eexists. split; [done|].
  assert (Hf : forall t m0, (forall b, b ∈ inorder t -> b <> a) -> forall b, b ∈ inorder t -> <[a := m0]> (rb_aux s) !! b = rb_aux s !! b).
  { intros t m0 Hb b Hbt. rewrite lookup_insert_ne; [done|]. intros <-. by apply (Hb a). }
  split; [|intros b Hb; by rewrite lookup_insert_ne]. cbn [augmented]. rewrite lookup_insert_eq.
  assert (Hl : forall b, b ∈ inorder l -> b <> a) by set_solver. assert (Hr : forall b, b ∈ inorder r -> b <> a) by set_solver.
  split; [f_equal; f_equal; symmetry; apply data_frame; by apply Hf|].
  destruct Hk as [Hkl Hkr]. split; (eapply augmented_frame; [|eassumption]); by apply Hf.
Qed.

(** The callback on the other child of the parent; where there is none, it is called again
    for the node itself, if that is the left one. *)
Lemma beside_run s d c p u K t :
  rep s (plug (Fr d c p u :: K) t) -> t <> Leaf -> augmented (rb_aux s) t -> kids (rb_aux s) u ->
  exists m,
    (let! n := ld p in
     if decide (addr t = rb_left n /\ rb_right n <> 0) then recompute (rb_right n)
     else if decide (rb_left n <> 0) then recompute (rb_left n) else ret tt) s = Done tt (set_aux m s) /\
    augmented m t /\ augmented m u /\
    forall b, b ∉ inorder t -> b ∉ inorder u -> m !! b = rb_aux s !! b.
Proof using Type.
  intros H Ht Ha Hu. pose proof H as Hp. cbn [plug] in Hp.
  rewrite (bind_run _ _ _ _ _ (ld_at _ _ _ _ _ _ _ Hp)).
  assert (Hz : forall t', t' = t \/ t' = u -> addr t' = 0 -> t' = Leaf).
  { intros [|c' l' b r'] Hin E; [done|]. apply rep_plug in H as (_ & _ & _ & _ & Hok).
    cbn [keysk f_addr f_sib] in Hok. nodup. destruct Hin as [<-|<-]; cbn in *; nodup;
      match goal with H : ok_addr b |- _ => destruct H; lia end. }
  assert (Hd : forall b, b ∈ inorder t -> b ∉ inorder u).
  { apply rep_plug in H as (_ & _ & _ & Hnd & _). cbn [keysk f_addr f_sib] in Hnd. nodup. set_solver. }
  assert (Hne : addr t <> addr u).
  { intros E. destruct (rep_children _ _ _ _ _ _ _ Hp E) as [-> _]. done. }
  assert (Hself : u = Leaf -> exists m, recompute (addr t) s = Done tt (set_aux m s) /\ augmented m t /\ augmented m u /\
    forall b, b ∉ inorder t -> b ∉ inorder u -> m !! b = rb_aux s !! b).
  { intros ->. destruct (recompute_run s _ t H Ht (augmented_kids _ _ Ha)) as (m & E & Hm & Hf). exists m.
    split_and!; [done|done|done|]. intros b Hb _. apply Hf. intros ->. by apply Hb, addr_in. }
  assert (Hother : u <> Leaf -> exists m, recompute (addr u) s = Done tt (set_aux m s) /\ augmented m t /\ augmented m u /\
    forall b, b ∉ inorder t -> b ∉ inorder u -> m !! b = rb_aux s !! b).
  { intros Hul. rewrite plug_far in Hp. destruct (recompute_run s _ u Hp Hul Hu) as (m & E & Hm & Hf). exists m.
    split_and!; [done| |done|].
    - eapply augmented_frame; [|exact Ha]. intros b Hb. apply Hf. intros ->. by apply (Hd _ Hb), addr_in.
    - intros b _ Hb. apply Hf. intros ->. by apply Hb, addr_in. }
  assert (Ht0 : addr t <> 0) by (intros E; apply Ht, Hz; auto).
  destruct d; cbn [mkd rb_left rb_right].
  - destruct (decide (u = Leaf)) as [->|Hul].
    + rewrite decide_False by (cbn; tauto). rewrite decide_True by done. by apply Hself.
    + rewrite decide_True by (split; [done|]; intros E; apply Hul, Hz; auto). by apply Hother.
  - rewrite decide_False by tauto. destruct (decide (u = Leaf)) as [->|Hul].
    + rewrite decide_False by (cbn; tauto). exists (rb_aux s). split_and!; [|done..]. by destruct s.
    + rewrite decide_True by (intros E; apply Hul, Hz; auto). by apply Hother.
Qed.

(** From [t] up to the root: the data is right everywhere when it was right below [t] and
    below the nodes beside the path. *)
Lemma augment_path_run fuel s K t :
  rep s (plug K t) -> t <> Leaf -> kids (rb_aux s) t -> Forall (fun fr => kids (rb_aux s) (f_sib fr)) K ->
  (length K < fuel)%nat ->
  exists m, augment_path fuel recompute (addr t) s = Done tt (set_aux m s) /\ augmented m (plug K t).
Proof using Type.
  revert s t K. induction fuel as [|fuel IH]; intros s t K H Ht Hk HK Hf; [lia|]. cbn [augment_path].
  destruct (recompute_run s K t H Ht Hk) as (m1 & E1 & Ha1 & Hf1). rewrite (bind_run _ _ _ _ _ E1).
  set (s1 := set_aux m1 s). assert (H1 : rep s1 (plug K t)) by done.
  assert (E2 : exists n, ld (addr t) s1 = Done n s1 /\ rb_parent n = parentk K).
  { destruct t as [|c l a r]; [done|]. eexists. split; [by apply (ld_at s1 K L c l a r)|by apply (parent_at s1 K L c l a r)]. }
  destruct E2 as (n & E2 & En). rewrite (bind_run _ _ _ _ _ E2). cbv zeta. rewrite En.
  destruct K as [|[d c p u] K]; cbn [parentk f_addr].
  { rewrite decide_True by done. by exists m1. }
  pose proof H as (_ & _ & _ & Hnd & Hok)%rep_plug. cbn [keysk f_addr f_sib] in Hnd, Hok.
  assert (Hp : p <> 0) by (apply Forall_cons in Hok as [[? _] _]; lia). rewrite decide_False by done.
  apply Forall_cons in HK as [Hu HK]. cbn [f_sib] in Hu.
  assert (Hdu : forall b, b ∈ inorder u -> b <> addr t).
  { intros b Hb ->. apply addr_in in Ht. nodup. set_solver. }
  destruct (beside_run s1 d c p u K t H1 Ht Ha1) as (m2 & E3 & Ha2 & Hu2 & Hf2).
  { eapply kids_frame; [|by nodup|exact Hu]. intros b Hb _. apply Hf1. by apply Hdu. }
  pose proof (ld_at _ _ _ _ _ _ _ H1) as Elp. rewrite (bind_run _ _ _ _ _ Elp) in E3. rewrite (bind_run _ _ _ _ _ Elp).
  rewrite (bind_run _ _ _ _ _ E3). set (s2 := set_aux m2 s1).
  destruct (IH s2 (nd d c t p u) K) as (m3 & E4 & Ha3); [done|by destruct d|by apply kids_nd| |cbn in Hf; lia|].
  { apply Forall_forall. intros fr Hfr. rewrite Forall_forall in HK.
    assert (Hin : forall b, b ∈ inorder (f_sib fr) -> b ∈ keysk K).
    { clear -Hfr. intros b Hb. induction K as [|fr' K IH]; [by apply not_elem_of_nil in Hfr|]. cbn.
      apply elem_of_cons in Hfr as [->|Hfr]; [set_solver|]. specialize (IH Hfr). set_solver. }
    assert (Hnf : NoDup (inorder (f_sib fr))).
    { clear -Hfr Hnd. apply NoDup_app in Hnd as [Hnd _]. apply NoDup_cons in Hnd as [_ Hnd]. apply NoDup_app in Hnd as (_ & _ & Hnd).
      induction K as [|fr' K IH]; [by apply not_elem_of_nil in Hfr|]. cbn in Hnd. nodup.
      apply elem_of_cons in Hfr as [->|Hfr]; [done|by apply IH]. }
    eapply kids_frame; [|exact Hnf|by apply HK]. intros b Hb _. specialize (Hin b Hb). cbn [s2 set_aux rb_aux].
    nodup. rewrite Hf2 by set_solver. apply Hf1. intros ->. apply addr_in in Ht. set_solver. }
  rewrite addr_nd in E4. exists m3. by split.
Qed.

(** ** Insertion *)

(** Below the children of [a], and below the nodes beside the path from [a] to the root,
    the data is right. *)
Definition mend (m : gmap Z Z) (a : Z) (T : tree) : Prop :=
  exists K l r, bare T = plug K (Node Black l a r) /\ kids m l /\ kids m r /\ Forall (fun fr => kids m (f_sib fr)) K.

(** [a] has no children, and the data beside its path is right. *)
Definition fresh (m : gmap Z Z) (a : Z) (t : tree) : Prop :=
  exists J, bare t = plug J (Node Black Leaf a Leaf) /\ Forall (fun fr => augmented m (f_sib fr)) J.

Lemma kids_frames m K : Forall (fun fr => augmented m (f_sib fr)) K -> Forall (fun fr => kids m (f_sib fr)) K.
Proof using Type. intros H. eapply Forall_impl; [exact H|]. intros fr. apply augmented_kids. Qed.
Lemma bare_frames m K :
  Forall (fun fr => augmented m (f_sib fr)) K -> Forall (fun fr => augmented m (f_sib fr)) (bare_frame <$> K).
Proof using Type. rewrite Forall_fmap. intros H. eapply Forall_impl; [exact H|]. intros fr. apply augmented_bare. Qed.

(** The path goes on above. *)
Lemma fresh_plug m a K t : fresh m a t -> Forall (fun fr => augmented m (f_sib fr)) K -> fresh m a (plug K t).
Proof using Type.
  intros (J & E & HJ) HK. exists (J ++ (bare_frame <$> K)). rewrite bare_plug, E, plug_app. split; [done|].
  apply Forall_app. split; [done|by apply bare_frames].
Qed.
Lemma fresh_mend m a T : fresh m a T -> mend m a T.
Proof using Type. intros (J & E & HJ). exists J, Leaf, Leaf. split_and!; [done|done|done|by apply kids_frames]. Qed.
Lemma mend_plug m a K t : mend m a t -> Forall (fun fr => augmented m (f_sib fr)) K -> mend m a (plug K t).
Proof using Type.
  intros (J & l & r & E & Hl & Hr & HJ) HK. exists (J ++ (bare_frame <$> K)), l, r.
  rewrite bare_plug, E, plug_app. split_and!; [done..|]. apply Forall_app. split; [done|by apply kids_frames, bare_frames].
Qed.

(** The children of a node with [a] below it, or at it. *)
Lemma fresh_nd m a d c x b y :
  fresh m a (nd d c x b y) ->
  (b = a /\ x = Leaf /\ y = Leaf) \/ (fresh m a x /\ augmented m y) \/ (fresh m a y /\ augmented m x).
Proof using Type.
  intros (J & E & HJ). rewrite bare_nd in E. destruct J as [|[d' c' p u] J _] using rev_ind.
  - left. cbn in E. destruct d; cbn in E; injection E; destruct x, y; naive_solver.
  - right. rewrite plug_snoc in E. apply Forall_app in HJ as [HJ [Hu _]%Forall_cons]. cbn [f_sib] in Hu.
    assert (Hx : forall t, bare t = u -> augmented m t) by (intros t <-; by apply augmented_bare).
    destruct d, d'; cbn in E; injection E as E1 E2 E3; [left|right|right|left]; (split; [by exists J|by apply Hx]).
Qed.

(** One rotation, of the grandparent [g]. *)
Lemma mend_outer m a d c c' t p u g w :
  fresh m a t -> augmented m u -> augmented m w -> mend m a (nd d c t p (nd d c' u g w)).
Proof using Type.
  intros (J & E & HJ) Hu Hw. exists (J ++ [Fr d Black p (nd d Black (bare u) g (bare w))]), Leaf, Leaf.
  rewrite plug_snoc, !bare_nd, E. split_and!; [done..|]. apply Forall_app. split; [by apply kids_frames|].
  apply Forall_singleton. cbn [f_sib]. apply kids_nd. by rewrite !augmented_bare.
Qed.

(** Two rotations bring the node [n] above [p] and [g]. *)
Lemma mend_inner m a d c cp cg cn t1 n t2 p u g w :
  fresh m a (nd d cn t1 n t2) -> augmented m u -> augmented m w ->
  mend m a (nd d c (nd d cp u p t1) n (nd d cg t2 g w)).
Proof using Type.
  intros [(-> & -> & ->)|[[(J & E & HJ) H2]|[(J & E & HJ) H1]]]%fresh_nd Hu Hw.
  - destruct d; cbn [nd].
    + exists [], (Node Black (bare u) p Leaf), (Node Black Leaf g (bare w)). cbn. by rewrite !augmented_bare.
    + exists [], (Node Black (bare w) g Leaf), (Node Black Leaf p (bare u)). cbn. by rewrite !augmented_bare.
  - exists (J ++ [Fr (op d) Black p (bare u)] ++ [Fr d Black n (nd d Black (bare t2) g (bare w))]), Leaf, Leaf.
    rewrite app_assoc, !plug_snoc, !bare_nd, E, nd_op. split_and!; [done..|].
    rewrite !Forall_app, !Forall_singleton. cbn [f_sib]. rewrite kids_nd, !augmented_bare.
    split_and!; [by apply kids_frames|by apply augmented_kids, augmented_bare|done|done].
  - exists (J ++ [Fr d Black g (bare w)] ++ [Fr (op d) Black n (nd d Black (bare u) p (bare t1))]), Leaf, Leaf.
    rewrite app_assoc, !plug_snoc, !bare_nd, E, nd_op. split_and!; [done..|].
    rewrite !Forall_app, !Forall_singleton. cbn [f_sib]. rewrite kids_nd, !augmented_bare.
    split_and!; [by apply kids_frames|by apply augmented_kids, augmented_bare|done|done].
Qed.

Lemma augmented_frames m K t : augmented m (plug K t) -> Forall (fun fr => augmented m (f_sib fr)) K /\ augmented m t.
Proof using Type.
  revert t. induction K as [|[d c p u] K IH]; intros t H; [by split|]. apply IH in H as [HK H].
  apply augmented_kids, kids_nd in H as [Ht Hu]. split; [by constructor|done].
Qed.

(** What [rb_insert_color] leaves is mended by the walk. *)
Lemma insert_mends m s K a n :
  rep s (plug K (Node Red Leaf a Leaf)) -> rbt n (Node Red Leaf a Leaf) -> rbk n K ->
  Forall (fun fr => augmented m (f_sib fr)) K ->
  leads (rb_insert_color a) s (plug K (Node Red Leaf a Leaf)) (fun _ T' => red_black T' /\ mend m a T').
Proof using Type.
  intros H Ht HK Hm.
  apply (insert_color_with (fun K t => fresh m a t /\ Forall (fun fr => augmented m (f_sib fr)) K) (mend m a) s K Leaf a Leaf n);
    [| | | |done|done|done|done|].
  - intros K0 t [H1 H2]. by apply fresh_mend, fresh_plug.
  - intros d d' p u g K0 t w1 wa w2 [H1 [Hu [Hw HK0]%Forall_cons]%Forall_cons]. split; [|done].
    apply (fresh_plug m a [Fr d Black p u; Fr d' Red g (nd d' Black w1 wa w2)]); [done|].
    constructor; [done|]. constructor; [|done]. cbn [f_sib] in *. by destruct d'.
  - intros d p u g w K0 t [H1 [Hu [Hw HK0]%Forall_cons]%Forall_cons]. apply mend_plug; [|done]. by apply mend_outer.
  - intros d p u g w K0 t1 n0 t2 [H1 [Hu [Hw HK0]%Forall_cons]%Forall_cons]. apply mend_plug; [|done].
    by eapply mend_inner.
  - split; [|done]. exists []. split; [done|constructor].
Qed.

Lemma augment_insert_run s T a :
  rep s T -> mend (rb_aux s) a T ->
  exists m, rb_augment_insert a recompute s = Done tt (set_aux m s) /\ augmented m T.
Proof using Type.
  intros H (K' & l' & r' & E & Hl & Hr & HK). apply unbare in E as (K & t & -> & <- & Et).
  destruct t as [|c l a' r]; [done|]. cbn in Et. injection Et as <- -> <-. rewrite kids_bare in Hl, Hr.
  assert (HK' : Forall (fun fr => kids (rb_aux s) (f_sib fr)) K).
  { rewrite Forall_fmap in HK. eapply Forall_impl; [exact HK|]. intros fr. apply kids_bare. }
  unfold rb_augment_insert. rewrite (bind_run _ _ _ _ _ (ld_at _ _ L _ _ _ _ H)). cbn [mkd rb_left rb_right].
  unfold rb_augment_path. cbv zeta. rewrite bind_gets. pose proof (rep_fuel _ _ _ H) as Hf. rewrite length_inorder in Hf.
  assert (Hz : forall K0 t, rep s (plug K0 t) -> t <> Leaf -> addr t <> 0).
  { intros K0 [|c0 l0 b r0] H0 Hn; [done|]. pose proof (rep_ok _ _ L _ _ _ _ H0) as [? _]. cbn. lia. }
  destruct (decide (l = Leaf)) as [->|Hnl]; [|].
  - rewrite decide_False by (cbn; tauto). destruct (decide (r = Leaf)) as [->|Hnr].
    + rewrite decide_False by (cbn; tauto). apply (augment_path_run _ s K (Node c Leaf a Leaf)); [done..|lia].
    + assert (H1 : rep s (plug (Fr R c a Leaf :: K) r)) by done. rewrite decide_True by (by eapply Hz).
      apply (augment_path_run _ s (Fr R c a Leaf :: K) r); [done|done|done|by constructor|]. cbn in *. lia.
  - assert (H1 : rep s (plug (Fr L c a r :: K) l)) by done. rewrite decide_True by (by eapply Hz).
    apply (augment_path_run _ s (Fr L c a r :: K) l); [done|done|done|by constructor|]. cbn in *.
    destruct l; [done|]. cbn in *. rewrite ?length_app in *. cbn in *. lia.
Qed.

(** C19: The data of an augmented tree is right after an insertion.  In a red-black tree in
    which every node has the data that the callback computes from its children, linking a
    node at a free place, [rb_insert_color] and [rb_augment_insert] end with a red-black
    tree of the same order in which every node, the new one and those that were rotated
    included, has the data that belongs to its subtree. *)
Theorem augment_insert_restores s K a :
  rep s (plug K Leaf) -> red_black (plug K Leaf) -> augmented (rb_aux s) (plug K Leaf) ->
  ok_addr a -> a ∉ inorder (plug K Leaf) -> is_Some (rb_heap s !! a) ->
  exists s' T',
    (rb_link_node a (parentk K) (linkk K) ;;; rb_insert_color a ;;; rb_augment_insert a recompute) s = Done tt s' /\
    rep s' T' /\ red_black T' /\ inorder T' = before K ++ a :: after K /\ augmented (rb_aux s') T'.
Proof using Type.
  intros H [Hc [m Hm]] Haug Ha Hn Hs. destruct (rbt_unplug _ _ _ Hm Hc) as (n & Hn0 & HK & _). cbn in Hn0. subst n.
  destruct (link_node_run K a s H Ha Hn Hs) as (s1 & E1 & H1 & _). apply augmented_frames in Haug as [HF _].
  destruct (insert_mends (rb_aux s) s1 K a 0 H1) as (v & T' & (s2 & E2 & H2 & I2 & _) & HT & HM); [done|done|done|].
  assert (Ex : rb_aux s2 = rb_aux s).
  { rewrite (keeps_run _ _ _ _ (keeps_insert_color a) E2). exact (keeps_run _ _ _ _ (keeps_link_node _ _ _) E1). }
  rewrite <-Ex in HM. destruct (augment_insert_run s2 T' a H2 HM) as (m3 & E3 & H3).
  exists (set_aux m3 s2), T'. rewrite (bind_run _ _ _ _ _ E1), (bind_run _ _ _ _ _ E2). split; [done|].
  split; [done|]. split; [done|]. split; [|done]. by rewrite inorder_plug in I2.
Qed.

(** ** Removal *)

(** As [mend], for a walk that starts at the node [e]. *)
Definition mend_from (m : gmap Z Z) (e : Z) (T : tree) : Prop :=
  exists K t, bare T = plug K t /\ t <> Leaf /\ addr t = e /\ kids m t /\ Forall (fun fr => kids m (f_sib fr)) K.

(** The node [e] is below the gap, or is its parent. *)
Definition below_gap (m : gmap Z Z) (e : Z) (K : list frame) (t : tree) : Prop :=
  Forall (fun fr => augmented m (f_sib fr)) K /\ (mend_from m e t \/ (t = Leaf /\ e = parentk K)).

Definition mended (m : gmap Z Z) (e : Z) (T : tree) : Prop := (T = Leaf /\ e = 0) \/ mend_from m e T.

Lemma mend_from_self m t : t <> Leaf -> augmented m t -> mend_from m (addr t) t.
Proof using Type.
  intros Ht Ha. exists [], (bare t). split_and!; [done|by destruct t|by rewrite addr_bare| |constructor].
  by apply kids_bare, augmented_kids.
Qed.
Lemma mend_from_plug m e K t : mend_from m e t -> Forall (fun fr => kids m (f_sib fr)) K -> mend_from m e (plug K t).
Proof using Type.
  intros (J & t' & E & Ht & He & Hk & HJ) HK. exists (J ++ (bare_frame <$> K)), t'.
  rewrite bare_plug, E, plug_app. split_and!; [done..|]. apply Forall_app. split; [done|].
  rewrite Forall_fmap. eapply Forall_impl; [exact HK|]. intros fr. apply kids_bare.
Qed.

(** With another tree beside it the gap is below its parent. *)
Lemma gap_parent m e d c p u K t c' u' :
  below_gap m e (Fr d c p u :: K) t -> augmented m u' -> mend_from m e (nd d c' t p u').
Proof using Type.
  intros [_ [H|[-> ->]]] Hu.
  - apply (mend_from_plug m e [Fr d c' p u'] t H). constructor; [by apply augmented_kids|done].
  - exists [], (nd d Black Leaf p (bare u')). rewrite bare_nd. split_and!; [done|by destruct d|by rewrite addr_nd| |constructor].
    apply kids_nd. by rewrite augmented_bare.
Qed.

Lemma augmented_paint m d c c' x a y : augmented m (nd d c x a y) -> augmented m (nd d c' x a y).
Proof using Type. by destruct d. Qed.
Lemma augmented_parts m d c x a y : augmented m (nd d c x a y) -> augmented m x /\ augmented m y.
Proof using Type. intros H. by apply augmented_kids, kids_nd in H. Qed.

(** What the repair of the gap leaves is mended by the walk. *)
Lemma erase_mends m e s K d c x a n :
  rep s (plug K x) -> rbt n (nd d c x a Leaf) -> rbk n K -> (c = Red -> K <> []) -> below_gap m e K x ->
  leads (if decide (bit c = RB_BLACK) then __rb_erase_color (addr x) (parentk K) else ret tt) s (plug K x)
    (fun _ T' => red_black T' /\ mended m e T').
Proof using Type.
  intros H Ht HK Hc Hg.
  assert (Hup : forall d c p u K t u', below_gap m e (Fr d c p u :: K) t -> augmented m u' ->
    forall c' K', Forall (fun fr => kids m (f_sib fr)) K' -> mended m e (plug (K' ++ K) (nd d c' t p u'))).
  { intros d0 c0 p u K0 t u' H0 Hu c' K' HK'. right. apply mend_from_plug; [by eapply gap_parent|].
    apply Forall_app. split; [done|]. destruct H0 as [[_ H0]%Forall_cons _]. by apply kids_frames. }
  apply (finish_erase_with (below_gap m e) (mended m e)) with (d := d) (a := a) (n := n); try done.
  - intros K0 t [HF [H0|[-> ->]]] Hor.
    + right. apply mend_from_plug; [done|by apply kids_frames].
    + destruct Hor as [?| ->]; [done|by left].
  - intros d0 c0 p y b z K0 t H0. pose proof H0 as [[Hu HF]%Forall_cons _]. split; [done|]. left.
    eapply gap_parent; [exact H0|]. by eapply augmented_paint.
  - intros d0 c0 p y b z1 e0 z2 K0 t H0. pose proof H0 as [[Hu _]%Forall_cons _]. apply augmented_parts in Hu as [Hy Hz].
    apply (Hup _ _ _ _ _ _ y H0 Hy Black [Fr d0 c0 b (nd d0 Black z1 e0 z2)]). constructor; [|done].
    by apply augmented_kids, augmented_paint with (c := Red).
  - intros d0 c0 p y1 e0 y2 b z K0 t H0. pose proof H0 as [[Hu _]%Forall_cons _]. apply augmented_parts in Hu as [Hy Hz].
    apply augmented_parts in Hy as [Hy1 Hy2].
    apply (Hup _ _ _ _ _ _ y1 H0 Hy1 Black [Fr d0 c0 e0 (nd d0 Black y2 b z)]). constructor; [|done]. by apply kids_nd.
  - intros d0 p y b z K0 t [[Hu HF]%Forall_cons H0]. apply augmented_parts in Hu as [Hy Hz]. split; [|done]. by do 2 (constructor; [done|]).
  - intros K0 t [[E ->]|H0]; [left|right].
    + split; [|done]. destruct K0 as [|[d0 c0 p u] K0]; cbn in *; [by subst|]. exfalso. revert E. apply plug_node. by destruct d0.
    + destruct H0 as (J & t' & E & H0). exists J, t'. split; [|done]. rewrite <-E, !bare_plug. f_equal. by destruct t.
  - destruct Hg as [HF [Hg|[-> ->]]]; [right; apply mend_from_plug; [done|by apply kids_frames]|].
    destruct K as [|[d0 c0 p u] K]; [by left|]. apply (Hup d0 c0 p u K Leaf u) with (K' := []); [|by apply Forall_cons in HF as [? _]|done].
    split; [done|by right].
Qed.

(** The data around the gap. *)
Lemma unlinked_gap m K c l a r K' x :
  augmented m (plug K (Node c l a r)) -> unlinked K c l r K' x -> below_gap m (deepest K' x) K' x.
Proof using Type.
  intros [HK Hn]%augmented_frames Hu. apply (augmented_parts m L) in Hn as [Hl Hr].
  assert (Hgap : forall K0 t, Forall (fun fr => augmented m (f_sib fr)) K0 -> augmented m t -> below_gap m (deepest K0 t) K0 t).
  { intros K0 t HK0 Ht. split; [done|]. destruct t as [|ct lt at' rt]; [by right|left]. by apply mend_from_self. }
  destruct Hu as [(-> & -> & ->)|[(_ & -> & -> & ->)|(_ & J & cb & b & -> & HJ & ->)]]; [by apply Hgap|by apply Hgap|].
  apply augmented_frames in Hr as [HJ' Hb]. apply (augmented_parts m L) in Hb as [_ Hx].
  apply Hgap; [|done]. apply Forall_app. split; [done|by constructor].
Qed.

(** C20: The data of an augmented tree is right after a removal.  In a red-black tree in
    which every node has the data the callback computes from its children, the three calls
    [rb_augment_erase_begin], [rb_erase] and [rb_augment_erase_end] for any node end with a
    red-black tree of the other nodes, in their order, in which every node has the data that
    belongs to its subtree. *)
Theorem augment_erase_restores s T a l1 l2 :
  rep s T -> red_black T -> augmented (rb_aux s) T -> inorder T = l1 ++ a :: l2 ->
  exists s' T',
    (let! e := rb_augment_erase_begin a in rb_erase a ;;; rb_augment_erase_end e recompute) s = Done tt s' /\
    rep s' T' /\ red_black T' /\ inorder T' = l1 ++ l2 /\ augmented (rb_aux s') T'.
Proof using Type.
  intros H HT Ha E. destruct (find_node T a) as (K & c & l & r & ->); [rewrite E; set_solver|].
  destruct (split_at _ _ _ _ _ _ _ (proj1 (proj2 (proj2 H))) E) as [-> ->].
  destruct (erase_unlink s K c l a r H HT) as (K' & x & d & c' & a' & n & s1 & E1 & H1 & _ & I1 & Ht & HK & Hc & Hu).
  destruct (erase_mends (rb_aux s) (deepest K' x) s1 K' d c' x a' n H1 Ht HK Hc)
    as ([] & T' & (s2 & E2 & H2 & I2 & _) & HT' & HM); [by eapply unlinked_gap|].
  rewrite (bind_run _ _ _ _ _ (erase_begin_run _ _ _ _ _ _ _ _ H Hu)).
  assert (E3 : rb_erase a s = Done tt s2) by (by rewrite (erase_split _ _ _ _ _ _ E1)).
  rewrite (bind_run _ _ _ _ _ E3). unfold rb_augment_erase_end.
  assert (Ex : rb_aux s2 = rb_aux s) by exact (keeps_run _ _ _ _ (keeps_erase a) E3). rewrite <-Ex in HM.
  assert (HI : inorder T' = (before K ++ inorder l) ++ inorder r ++ after K) by (rewrite I2, I1; by rewrite <-!app_assoc).
  destruct HM as [[-> He]|(J & t & Eb & Hne & <- & Hk & HJ)].
  - rewrite decide_False by (intros Hn; by apply Hn). by exists s2, Leaf.
  - apply unbare in Eb as (J0 & t0 & -> & <- & <-). rewrite addr_bare in *. rewrite kids_bare in Hk.
    destruct (augment_path_run (rb_fuel s2) s2 J0 t0 H2) as (m3 & E4 & H4); [intros ->; by apply Hne|done| | |].
    { rewrite Forall_fmap in HJ. eapply Forall_impl; [exact HJ|]. intros fr. apply kids_bare. }
    { pose proof (rep_fuel _ _ _ H2). lia. }
    exists (set_aux m3 s2), (plug J0 t0). rewrite decide_True; [split; [exact E4|done]|].
    destruct t0 as [|c0 l0 b0 r0]; [done|]. pose proof (rep_ok _ _ L _ _ _ _ H2) as [? _]. cbn. lia.
Qed.
End Augment.

(** The data of a node is the number of nodes of its subtree. *)
Definition count_nodes (a : Z) (l r : option Z) : Z := 1 + default 0 l + default 0 r.
Definition sample_counted : rb_state := set_aux (list_to_map [(8, 1); (16, 2)]) sample_rb.

(** Inserting 4 rotates: 8 is the root then, with 3 nodes, and 16 has one. *)
Lemma augment_insert_restores_witness :
  exists s' T',
    (rb_link_node 4 8 (LeftLink 8) ;;; rb_insert_color 4 ;;; rb_augment_insert 4 (recompute count_nodes)) sample_counted
      = Done tt s' /\
    rep s' T' /\ red_black T' /\ inorder T' = [4; 8; 16] /\ augmented count_nodes (rb_aux s') T'.
Proof.
  destruct sample_rb_rep as [H HT]. apply (augment_insert_restores count_nodes sample_counted sample_path 4); try done.
  by apply (bool_decide_unpack _).
Defined.

Lemma augment_erase_restores_witness :
  exists s' T',
    (let! e := rb_augment_erase_begin 8 in rb_erase 8 ;;; rb_augment_erase_end e (recompute count_nodes)) sample_counted
      = Done tt s' /\
    rep s' T' /\ red_black T' /\ inorder T' = [16] /\ augmented count_nodes (rb_aux s') T'.
Proof.
  destruct sample_rb_rep as [H HT]. by apply (augment_erase_restores count_nodes sample_counted (plug sample_path Leaf) 8 [] [16]).
Defined.
