(* ===== verification/State.v ===== *)
(** * The kernel's data: structures, global variables and access to them

    The structures of [src/kernel/include] as records with the fields the
    headers declare, the global variables as the fields of [kst], and the two
    primitives every kernel function is made of: [load], which reads the object
    a pointer points to, and [modify], which assigns to its fields.  Both fault
    on a NULL pointer and on a pointer to no object.

    An object's address is a [positive]; a pointer is an [option positive],
    with [None] for NULL.  Pointers to code and to raw memory (stacks, message
    buffers, block pools) are integers. *)

From stdpp Require Import base gmap.
From Stdlib Require Import ZArith.
From S2P Require Import Prelude.
#[local] Open Scope Z_scope.
#[local] Open Scope rosx_scope.

Notation ptr := (option positive).

(** ** Enumerations *)

(** [RX_TASK_STATE] of rx_task.h. *)
Inductive task_state :=
  | RX_TASK_SUSPEND
  | RX_TASK_READY
  | RX_TASK_RUNNING
  | RX_TASK_COMPLETE
  | RX_TASK_ABORT
  | RX_TASK_INTERRUPTIBLE
  | RX_TASK_UNINTERRUPTIBLE.

#[export] Instance task_state_eq_dec : EqDecision task_state.
Proof. solve_decision. Defined.

(** [_RX_MUTEX_LOCK] of rx_mutex.h. *)
Inductive mutex_lock := RX_MUTEX_LOCKED | RX_MUTEX_UNLOCKED.

#[export] Instance mutex_lock_eq_dec : EqDecision mutex_lock.
Proof. solve_decision. Defined.

(** The functions a [timer_list.handler] can point to: the kernel's own three
    and the application's. *)
Inductive timer_handler :=
  | H_mutex                 (* __rx_mutex_handler *)
  | H_sem                   (* __rx_sem_handler *)
  | H_wait                  (* __rx_wait_handler *)
  | H_app (f : positive).   (* a handler of the application *)

#[export] Instance timer_handler_eq_dec : EqDecision timer_handler.
Proof. solve_decision. Defined.

(** What [block_chain.next] holds: NULL, the next free block, or, for a block
    in use, the pool it belongs to. *)
Inductive chain_ptr :=
  | CNull
  | CBlock (a : Z)
  | CPool (p : positive).

#[export] Instance chain_ptr_eq_dec : EqDecision chain_ptr.
Proof. solve_decision. Defined.

(** The functions an entry of the interrupt table can point to: the kernel's
    tick handler and those of the drivers. *)
Inductive irq_fn :=
  | I_tick                  (* __rx_timer_tick_irq_handler *)
  | I_drv (f : positive).   (* a handler of a driver *)

#[export] Instance irq_fn_eq_dec : EqDecision irq_fn.
Proof. solve_decision. Defined.

(** [OS_ERR_TYPE] and the special timeouts of rosx/types.h. *)
Definition OS_OK : Z := 0.
Definition OS_ERR : Z := -1.
Definition E_OS_TIMEOUT : Z := -2.
Definition E_OS_BUSY : Z := -3.
Definition E_OS_UNAVAIL : Z := -4.
Definition OS_NO_WAIT : Z := 0.
Definition OS_WAIT_FOREVER : Z := -1.

(** [__RX_TIMER_OFF] and [__RX_TIMER_ON] of rx_timer.h. *)
Definition RX_TIMER_OFF : Z := 0.
Definition RX_TIMER_ON : Z := 1.

(** The configuration of apps/rx_defines.h. *)
Definition CONFIG_HZ : Z := 100.
Definition CONFIG_MAX_TASK : Z := 32.
Definition CONFIG_TASK_STR_LEN : Z := 8.
Definition CONFIG_SYSTEM_STACK_SIZE : Z := 8192 * 10.
Definition RX_TASK_LEAST_PRIO : Z := CONFIG_MAX_TASK - 1.
Definition RX_TASK_HIGH_PRIO : Z := 0.

(** ** Structures *)

(** [struct __rx_task_control_block] (rx_task.h). *)
Record tcb := mk_tcb {
  t_preempt : Z; (* saved EIP of a preempted task *)
  t_name : list Z;
  t_stack_start_ptr : Z;
  t_curr_stack_ptr : Z;
  t_ip : Z;
  t_bp : Z;
  t_stack_size : Z;
  t_prio : Z; (* 0 is the highest priority *)
  t_func : Z;
  t_state : task_state;
  t_time_slice : Z;
  t_ticks : Z;
  t_orig_prio : Z;
  t_event_flag : Z;
  t_event_recv : Z;
  t_timeout : Z;
  t_timer : ptr;
  t_sem : ptr;
  t_mutex : ptr;
  t_event : ptr;
  t_wq : ptr;
  t_mq : ptr;
  t_bpool : ptr;
  t_next : ptr; (* link of the queue the task is in *)
  t_list : ptr; (* link of the global list of tasks *)
  t_err : Z;
}.

Definition set_t_preempt (v : Z) (r : tcb) : tcb :=
  mk_tcb v (t_name r) (t_stack_start_ptr r) (t_curr_stack_ptr r) (t_ip r) (t_bp r) (t_stack_size r) (t_prio r)
     (t_func r) (t_state r) (t_time_slice r) (t_ticks r) (t_orig_prio r) (t_event_flag r) (t_event_recv r) (t_timeout r)
     (t_timer r) (t_sem r) (t_mutex r) (t_event r) (t_wq r) (t_mq r) (t_bpool r) (t_next r)
     (t_list r) (t_err r).
Definition set_t_name (v : list Z) (r : tcb) : tcb :=
  mk_tcb (t_preempt r) v (t_stack_start_ptr r) (t_curr_stack_ptr r) (t_ip r) (t_bp r) (t_stack_size r) (t_prio r)
     (t_func r) (t_state r) (t_time_slice r) (t_ticks r) (t_orig_prio r) (t_event_flag r) (t_event_recv r) (t_timeout r)
     (t_timer r) (t_sem r) (t_mutex r) (t_event r) (t_wq r) (t_mq r) (t_bpool r) (t_next r)
     (t_list r) (t_err r).
Definition set_t_stack_start_ptr (v : Z) (r : tcb) : tcb :=
  mk_tcb (t_preempt r) (t_name r) v (t_curr_stack_ptr r) (t_ip r) (t_bp r) (t_stack_size r) (t_prio r)
     (t_func r) (t_state r) (t_time_slice r) (t_ticks r) (t_orig_prio r) (t_event_flag r) (t_event_recv r) (t_timeout r)
     (t_timer r) (t_sem r) (t_mutex r) (t_event r) (t_wq r) (t_mq r) (t_bpool r) (t_next r)
     (t_list r) (t_err r).
Definition set_t_curr_stack_ptr (v : Z) (r : tcb) : tcb :=
  mk_tcb (t_preempt r) (t_name r) (t_stack_start_ptr r) v (t_ip r) (t_bp r) (t_stack_size r) (t_prio r)
     (t_func r) (t_state r) (t_time_slice r) (t_ticks r) (t_orig_prio r) (t_event_flag r) (t_event_recv r) (t_timeout r)
     (t_timer r) (t_sem r) (t_mutex r) (t_event r) (t_wq r) (t_mq r) (t_bpool r) (t_next r)
     (t_list r) (t_err r).
Definition set_t_ip (v : Z) (r : tcb) : tcb :=
  mk_tcb (t_preempt r) (t_name r) (t_stack_start_ptr r) (t_curr_stack_ptr r) v (t_bp r) (t_stack_size r) (t_prio r)
     (t_func r) (t_state r) (t_time_slice r) (t_ticks r) (t_orig_prio r) (t_event_flag r) (t_event_recv r) (t_timeout r)
     (t_timer r) (t_sem r) (t_mutex r) (t_event r) (t_wq r) (t_mq r) (t_bpool r) (t_next r)
     (t_list r) (t_err r).
Definition set_t_bp (v : Z) (r : tcb) : tcb :=
  mk_tcb (t_preempt r) (t_name r) (t_stack_start_ptr r) (t_curr_stack_ptr r) (t_ip r) v (t_stack_size r) (t_prio r)
     (t_func r) (t_state r) (t_time_slice r) (t_ticks r) (t_orig_prio r) (t_event_flag r) (t_event_recv r) (t_timeout r)
     (t_timer r) (t_sem r) (t_mutex r) (t_event r) (t_wq r) (t_mq r) (t_bpool r) (t_next r)
     (t_list r) (t_err r).
Definition set_t_stack_size (v : Z) (r : tcb) : tcb :=
  mk_tcb (t_preempt r) (t_name r) (t_stack_start_ptr r) (t_curr_stack_ptr r) (t_ip r) (t_bp r) v (t_prio r)
     (t_func r) (t_state r) (t_time_slice r) (t_ticks r) (t_orig_prio r) (t_event_flag r) (t_event_recv r) (t_timeout r)
     (t_timer r) (t_sem r) (t_mutex r) (t_event r) (t_wq r) (t_mq r) (t_bpool r) (t_next r)
     (t_list r) (t_err r).
Definition set_t_prio (v : Z) (r : tcb) : tcb :=
  mk_tcb (t_preempt r) (t_name r) (t_stack_start_ptr r) (t_curr_stack_ptr r) (t_ip r) (t_bp r) (t_stack_size r) v
     (t_func r) (t_state r) (t_time_slice r) (t_ticks r) (t_orig_prio r) (t_event_flag r) (t_event_recv r) (t_timeout r)
     (t_timer r) (t_sem r) (t_mutex r) (t_event r) (t_wq r) (t_mq r) (t_bpool r) (t_next r)
     (t_list r) (t_err r).
Definition set_t_func (v : Z) (r : tcb) : tcb :=
  mk_tcb (t_preempt r) (t_name r) (t_stack_start_ptr r) (t_curr_stack_ptr r) (t_ip r) (t_bp r) (t_stack_size r) (t_prio r)
     v (t_state r) (t_time_slice r) (t_ticks r) (t_orig_prio r) (t_event_flag r) (t_event_recv r) (t_timeout r)
     (t_timer r) (t_sem r) (t_mutex r) (t_event r) (t_wq r) (t_mq r) (t_bpool r) (t_next r)
     (t_list r) (t_err r).
Definition set_t_state (v : task_state) (r : tcb) : tcb :=
  mk_tcb (t_preempt r) (t_name r) (t_stack_start_ptr r) (t_curr_stack_ptr r) (t_ip r) (t_bp r) (t_stack_size r) (t_prio r)
     (t_func r) v (t_time_slice r) (t_ticks r) (t_orig_prio r) (t_event_flag r) (t_event_recv r) (t_timeout r)
     (t_timer r) (t_sem r) (t_mutex r) (t_event r) (t_wq r) (t_mq r) (t_bpool r) (t_next r)
     (t_list r) (t_err r).
Definition set_t_time_slice (v : Z) (r : tcb) : tcb :=
  mk_tcb (t_preempt r) (t_name r) (t_stack_start_ptr r) (t_curr_stack_ptr r) (t_ip r) (t_bp r) (t_stack_size r) (t_prio r)
     (t_func r) (t_state r) v (t_ticks r) (t_orig_prio r) (t_event_flag r) (t_event_recv r) (t_timeout r)
     (t_timer r) (t_sem r) (t_mutex r) (t_event r) (t_wq r) (t_mq r) (t_bpool r) (t_next r)
     (t_list r) (t_err r).
Definition set_t_ticks (v : Z) (r : tcb) : tcb :=
  mk_tcb (t_preempt r) (t_name r) (t_stack_start_ptr r) (t_curr_stack_ptr r) (t_ip r) (t_bp r) (t_stack_size r) (t_prio r)
     (t_func r) (t_state r) (t_time_slice r) v (t_orig_prio r) (t_event_flag r) (t_event_recv r) (t_timeout r)
     (t_timer r) (t_sem r) (t_mutex r) (t_event r) (t_wq r) (t_mq r) (t_bpool r) (t_next r)
     (t_list r) (t_err r).
Definition set_t_orig_prio (v : Z) (r : tcb) : tcb :=
  mk_tcb (t_preempt r) (t_name r) (t_stack_start_ptr r) (t_curr_stack_ptr r) (t_ip r) (t_bp r) (t_stack_size r) (t_prio r)
     (t_func r) (t_state r) (t_time_slice r) (t_ticks r) v (t_event_flag r) (t_event_recv r) (t_timeout r)
     (t_timer r) (t_sem r) (t_mutex r) (t_event r) (t_wq r) (t_mq r) (t_bpool r) (t_next r)
     (t_list r) (t_err r).
Definition set_t_event_flag (v : Z) (r : tcb) : tcb :=
  mk_tcb (t_preempt r) (t_name r) (t_stack_start_ptr r) (t_curr_stack_ptr r) (t_ip r) (t_bp r) (t_stack_size r) (t_prio r)
     (t_func r) (t_state r) (t_time_slice r) (t_ticks r) (t_orig_prio r) v (t_event_recv r) (t_timeout r)
     (t_timer r) (t_sem r) (t_mutex r) (t_event r) (t_wq r) (t_mq r) (t_bpool r) (t_next r)
     (t_list r) (t_err r).
Definition set_t_event_recv (v : Z) (r : tcb) : tcb :=
  mk_tcb (t_preempt r) (t_name r) (t_stack_start_ptr r) (t_curr_stack_ptr r) (t_ip r) (t_bp r) (t_stack_size r) (t_prio r)
     (t_func r) (t_state r) (t_time_slice r) (t_ticks r) (t_orig_prio r) (t_event_flag r) v (t_timeout r)
     (t_timer r) (t_sem r) (t_mutex r) (t_event r) (t_wq r) (t_mq r) (t_bpool r) (t_next r)
     (t_list r) (t_err r).
Definition set_t_timeout (v : Z) (r : tcb) : tcb :=
  mk_tcb (t_preempt r) (t_name r) (t_stack_start_ptr r) (t_curr_stack_ptr r) (t_ip r) (t_bp r) (t_stack_size r) (t_prio r)
     (t_func r) (t_state r) (t_time_slice r) (t_ticks r) (t_orig_prio r) (t_event_flag r) (t_event_recv r) v
     (t_timer r) (t_sem r) (t_mutex r) (t_event r) (t_wq r) (t_mq r) (t_bpool r) (t_next r)
     (t_list r) (t_err r).
Definition set_t_timer (v : ptr) (r : tcb) : tcb :=
  mk_tcb (t_preempt r) (t_name r) (t_stack_start_ptr r) (t_curr_stack_ptr r) (t_ip r) (t_bp r) (t_stack_size r) (t_prio r)
     (t_func r) (t_state r) (t_time_slice r) (t_ticks r) (t_orig_prio r) (t_event_flag r) (t_event_recv r) (t_timeout r)
     v (t_sem r) (t_mutex r) (t_event r) (t_wq r) (t_mq r) (t_bpool r) (t_next r)
     (t_list r) (t_err r).
Definition set_t_sem (v : ptr) (r : tcb) : tcb :=
  mk_tcb (t_preempt r) (t_name r) (t_stack_start_ptr r) (t_curr_stack_ptr r) (t_ip r) (t_bp r) (t_stack_size r) (t_prio r)
     (t_func r) (t_state r) (t_time_slice r) (t_ticks r) (t_orig_prio r) (t_event_flag r) (t_event_recv r) (t_timeout r)
     (t_timer r) v (t_mutex r) (t_event r) (t_wq r) (t_mq r) (t_bpool r) (t_next r)
     (t_list r) (t_err r).
Definition set_t_mutex (v : ptr) (r : tcb) : tcb :=
  mk_tcb (t_preempt r) (t_name r) (t_stack_start_ptr r) (t_curr_stack_ptr r) (t_ip r) (t_bp r) (t_stack_size r) (t_prio r)
     (t_func r) (t_state r) (t_time_slice r) (t_ticks r) (t_orig_prio r) (t_event_flag r) (t_event_recv r) (t_timeout r)
     (t_timer r) (t_sem r) v (t_event r) (t_wq r) (t_mq r) (t_bpool r) (t_next r)
     (t_list r) (t_err r).
Definition set_t_event (v : ptr) (r : tcb) : tcb :=
  mk_tcb (t_preempt r) (t_name r) (t_stack_start_ptr r) (t_curr_stack_ptr r) (t_ip r) (t_bp r) (t_stack_size r) (t_prio r)
     (t_func r) (t_state r) (t_time_slice r) (t_ticks r) (t_orig_prio r) (t_event_flag r) (t_event_recv r) (t_timeout r)
     (t_timer r) (t_sem r) (t_mutex r) v (t_wq r) (t_mq r) (t_bpool r) (t_next r)
     (t_list r) (t_err r).
Definition set_t_wq (v : ptr) (r : tcb) : tcb :=
  mk_tcb (t_preempt r) (t_name r) (t_stack_start_ptr r) (t_curr_stack_ptr r) (t_ip r) (t_bp r) (t_stack_size r) (t_prio r)
     (t_func r) (t_state r) (t_time_slice r) (t_ticks r) (t_orig_prio r) (t_event_flag r) (t_event_recv r) (t_timeout r)
     (t_timer r) (t_sem r) (t_mutex r) (t_event r) v (t_mq r) (t_bpool r) (t_next r)
     (t_list r) (t_err r).
Definition set_t_mq (v : ptr) (r : tcb) : tcb :=
  mk_tcb (t_preempt r) (t_name r) (t_stack_start_ptr r) (t_curr_stack_ptr r) (t_ip r) (t_bp r) (t_stack_size r) (t_prio r)
     (t_func r) (t_state r) (t_time_slice r) (t_ticks r) (t_orig_prio r) (t_event_flag r) (t_event_recv r) (t_timeout r)
     (t_timer r) (t_sem r) (t_mutex r) (t_event r) (t_wq r) v (t_bpool r) (t_next r)
     (t_list r) (t_err r).
Definition set_t_bpool (v : ptr) (r : tcb) : tcb :=
  mk_tcb (t_preempt r) (t_name r) (t_stack_start_ptr r) (t_curr_stack_ptr r) (t_ip r) (t_bp r) (t_stack_size r) (t_prio r)
     (t_func r) (t_state r) (t_time_slice r) (t_ticks r) (t_orig_prio r) (t_event_flag r) (t_event_recv r) (t_timeout r)
     (t_timer r) (t_sem r) (t_mutex r) (t_event r) (t_wq r) (t_mq r) v (t_next r)
     (t_list r) (t_err r).
Definition set_t_next (v : ptr) (r : tcb) : tcb :=
  mk_tcb (t_preempt r) (t_name r) (t_stack_start_ptr r) (t_curr_stack_ptr r) (t_ip r) (t_bp r) (t_stack_size r) (t_prio r)
     (t_func r) (t_state r) (t_time_slice r) (t_ticks r) (t_orig_prio r) (t_event_flag r) (t_event_recv r) (t_timeout r)
     (t_timer r) (t_sem r) (t_mutex r) (t_event r) (t_wq r) (t_mq r) (t_bpool r) v
     (t_list r) (t_err r).
Definition set_t_list (v : ptr) (r : tcb) : tcb :=
  mk_tcb (t_preempt r) (t_name r) (t_stack_start_ptr r) (t_curr_stack_ptr r) (t_ip r) (t_bp r) (t_stack_size r) (t_prio r)
     (t_func r) (t_state r) (t_time_slice r) (t_ticks r) (t_orig_prio r) (t_event_flag r) (t_event_recv r) (t_timeout r)
     (t_timer r) (t_sem r) (t_mutex r) (t_event r) (t_wq r) (t_mq r) (t_bpool r) (t_next r)
     v (t_err r).
Definition set_t_err (v : Z) (r : tcb) : tcb :=
  mk_tcb (t_preempt r) (t_name r) (t_stack_start_ptr r) (t_curr_stack_ptr r) (t_ip r) (t_bp r) (t_stack_size r) (t_prio r)
     (t_func r) (t_state r) (t_time_slice r) (t_ticks r) (t_orig_prio r) (t_event_flag r) (t_event_recv r) (t_timeout r)
     (t_timer r) (t_sem r) (t_mutex r) (t_event r) (t_wq r) (t_mq r) (t_bpool r) (t_next r)
     (t_list r) v.

(** [struct timer_list] (rx_timer.h). *)
Record timer_list := mk_timer {
  tm_time_expiry : Z; (* delay + jiffies *)
  tm_delay : Z;
  tm_flag : Z;
  tm_handler : option timer_handler;
  tm_priv : ptr;
  tm_task : ptr;
  tm_next : ptr;
  tm_prev : ptr;
}.

Definition set_tm_time_expiry (v : Z) (r : timer_list) : timer_list :=
  mk_timer v (tm_delay r) (tm_flag r) (tm_handler r) (tm_priv r) (tm_task r) (tm_next r) (tm_prev r).
Definition set_tm_delay (v : Z) (r : timer_list) : timer_list :=
  mk_timer (tm_time_expiry r) v (tm_flag r) (tm_handler r) (tm_priv r) (tm_task r) (tm_next r) (tm_prev r).
Definition set_tm_flag (v : Z) (r : timer_list) : timer_list :=
  mk_timer (tm_time_expiry r) (tm_delay r) v (tm_handler r) (tm_priv r) (tm_task r) (tm_next r) (tm_prev r).
Definition set_tm_handler (v : option timer_handler) (r : timer_list) : timer_list :=
  mk_timer (tm_time_expiry r) (tm_delay r) (tm_flag r) v (tm_priv r) (tm_task r) (tm_next r) (tm_prev r).
Definition set_tm_priv (v : ptr) (r : timer_list) : timer_list :=
  mk_timer (tm_time_expiry r) (tm_delay r) (tm_flag r) (tm_handler r) v (tm_task r) (tm_next r) (tm_prev r).
Definition set_tm_task (v : ptr) (r : timer_list) : timer_list :=
  mk_timer (tm_time_expiry r) (tm_delay r) (tm_flag r) (tm_handler r) (tm_priv r) v (tm_next r) (tm_prev r).
Definition set_tm_next (v : ptr) (r : timer_list) : timer_list :=
  mk_timer (tm_time_expiry r) (tm_delay r) (tm_flag r) (tm_handler r) (tm_priv r) (tm_task r) v (tm_prev r).
Definition set_tm_prev (v : ptr) (r : timer_list) : timer_list :=
  mk_timer (tm_time_expiry r) (tm_delay r) (tm_flag r) (tm_handler r) (tm_priv r) (tm_task r) (tm_next r) v.

(** [struct mutex] (rx_mutex.h). *)
Record mutex := mk_mutex {
  m_lock : mutex_lock;
  m_owner : ptr;
  m_task : ptr; (* first task waiting for the lock *)
  m_next : ptr;
}.

Definition set_m_lock (v : mutex_lock) (r : mutex) : mutex :=
  mk_mutex v (m_owner r) (m_task r) (m_next r).
Definition set_m_owner (v : ptr) (r : mutex) : mutex :=
  mk_mutex (m_lock r) v (m_task r) (m_next r).
Definition set_m_task (v : ptr) (r : mutex) : mutex :=
  mk_mutex (m_lock r) (m_owner r) v (m_next r).
Definition set_m_next (v : ptr) (r : mutex) : mutex :=
  mk_mutex (m_lock r) (m_owner r) (m_task r) v.

(** [struct semaphore] (rx_semaphore.h). *)
Record semaphore := mk_sem {
  sem_init_val : Z;
  sem_curr_val : Z;
  sem_task : ptr; (* first task waiting on the semaphore *)
  sem_next : ptr;
}.

Definition set_sem_init_val (v : Z) (r : semaphore) : semaphore :=
  mk_sem v (sem_curr_val r) (sem_task r) (sem_next r).
Definition set_sem_curr_val (v : Z) (r : semaphore) : semaphore :=
  mk_sem (sem_init_val r) v (sem_task r) (sem_next r).
Definition set_sem_task (v : ptr) (r : semaphore) : semaphore :=
  mk_sem (sem_init_val r) (sem_curr_val r) v (sem_next r).
Definition set_sem_next (v : ptr) (r : semaphore) : semaphore :=
  mk_sem (sem_init_val r) (sem_curr_val r) (sem_task r) v.

(** [struct event_group] (rx_events.h). *)
Record event_group := mk_eg {
  eg_task : ptr; (* first task waiting for the event *)
  eg_next : ptr;
}.

Definition set_eg_task (v : ptr) (r : event_group) : event_group :=
  mk_eg v (eg_next r).
Definition set_eg_next (v : ptr) (r : event_group) : event_group :=
  mk_eg (eg_task r) v.

(** [struct wait_queue] (rx_wait.h). *)
Record wait_queue := mk_wq {
  wq_task : ptr; (* first task waiting in the queue *)
  wq_next : ptr;
  wq_prev : ptr;
}.

Definition set_wq_task (v : ptr) (r : wait_queue) : wait_queue :=
  mk_wq v (wq_next r) (wq_prev r).
Definition set_wq_next (v : ptr) (r : wait_queue) : wait_queue :=
  mk_wq (wq_task r) v (wq_prev r).
Definition set_wq_prev (v : ptr) (r : wait_queue) : wait_queue :=
  mk_wq (wq_task r) (wq_next r) v.

(** [struct msg_queue] (rx_queue.h); the buffer pointers are addresses of [k_mem]. *)
Record msg_queue := mk_mq {
  mq_name : list Z;
  mq_start : Z;
  mq_head : Z;
  mq_tail : Z;
  mq_flag : Z;
  mq_size_of_block : Z;
  mq_num_of_blocks : Z;
  mq_write_task : ptr; (* first task waiting to write *)
  mq_read_task : ptr; (* the task waiting to read *)
}.

Definition set_mq_name (v : list Z) (r : msg_queue) : msg_queue :=
  mk_mq v (mq_start r) (mq_head r) (mq_tail r) (mq_flag r) (mq_size_of_block r) (mq_num_of_blocks r) (mq_write_task r)
     (mq_read_task r).
Definition set_mq_start (v : Z) (r : msg_queue) : msg_queue :=
  mk_mq (mq_name r) v (mq_head r) (mq_tail r) (mq_flag r) (mq_size_of_block r) (mq_num_of_blocks r) (mq_write_task r)
     (mq_read_task r).
Definition set_mq_head (v : Z) (r : msg_queue) : msg_queue :=
  mk_mq (mq_name r) (mq_start r) v (mq_tail r) (mq_flag r) (mq_size_of_block r) (mq_num_of_blocks r) (mq_write_task r)
     (mq_read_task r).
Definition set_mq_tail (v : Z) (r : msg_queue) : msg_queue :=
  mk_mq (mq_name r) (mq_start r) (mq_head r) v (mq_flag r) (mq_size_of_block r) (mq_num_of_blocks r) (mq_write_task r)
     (mq_read_task r).
Definition set_mq_flag (v : Z) (r : msg_queue) : msg_queue :=
  mk_mq (mq_name r) (mq_start r) (mq_head r) (mq_tail r) v (mq_size_of_block r) (mq_num_of_blocks r) (mq_write_task r)
     (mq_read_task r).
Definition set_mq_size_of_block (v : Z) (r : msg_queue) : msg_queue :=
  mk_mq (mq_name r) (mq_start r) (mq_head r) (mq_tail r) (mq_flag r) v (mq_num_of_blocks r) (mq_write_task r)
     (mq_read_task r).
Definition set_mq_num_of_blocks (v : Z) (r : msg_queue) : msg_queue :=
  mk_mq (mq_name r) (mq_start r) (mq_head r) (mq_tail r) (mq_flag r) (mq_size_of_block r) v (mq_write_task r)
     (mq_read_task r).
Definition set_mq_write_task (v : ptr) (r : msg_queue) : msg_queue :=
  mk_mq (mq_name r) (mq_start r) (mq_head r) (mq_tail r) (mq_flag r) (mq_size_of_block r) (mq_num_of_blocks r) v
     (mq_read_task r).
Definition set_mq_read_task (v : ptr) (r : msg_queue) : msg_queue :=
  mk_mq (mq_name r) (mq_start r) (mq_head r) (mq_tail r) (mq_flag r) (mq_size_of_block r) (mq_num_of_blocks r) (mq_write_task r)
     v.

(** [struct block_chain] (rx_blockpool.h). *)
Record block_chain := mk_bc {
  bc_block : Z;
  bc_next : chain_ptr;
}.

Definition set_bc_block (v : Z) (r : block_chain) : block_chain :=
  mk_bc v (bc_next r).
Definition set_bc_next (v : chain_ptr) (r : block_chain) : block_chain :=
  mk_bc (bc_block r) v.

(** [struct block_pool] (rx_blockpool.h). *)
Record block_pool := mk_bp {
  bp_magic : Z;
  bp_name : list Z;
  bp_start_of_pool : Z;
  bp_pool_size : Z;
  bp_block_size : Z;
  bp_available : Z;
  bp_free_blocks : chain_ptr;
  bp_task : ptr; (* first task waiting for a block *)
}.

Definition set_bp_magic (v : Z) (r : block_pool) : block_pool :=
  mk_bp v (bp_name r) (bp_start_of_pool r) (bp_pool_size r) (bp_block_size r) (bp_available r) (bp_free_blocks r) (bp_task r).
Definition set_bp_name (v : list Z) (r : block_pool) : block_pool :=
  mk_bp (bp_magic r) v (bp_start_of_pool r) (bp_pool_size r) (bp_block_size r) (bp_available r) (bp_free_blocks r) (bp_task r).
Definition set_bp_start_of_pool (v : Z) (r : block_pool) : block_pool :=
  mk_bp (bp_magic r) (bp_name r) v (bp_pool_size r) (bp_block_size r) (bp_available r) (bp_free_blocks r) (bp_task r).
Definition set_bp_pool_size (v : Z) (r : block_pool) : block_pool :=
  mk_bp (bp_magic r) (bp_name r) (bp_start_of_pool r) v (bp_block_size r) (bp_available r) (bp_free_blocks r) (bp_task r).
Definition set_bp_block_size (v : Z) (r : block_pool) : block_pool :=
  mk_bp (bp_magic r) (bp_name r) (bp_start_of_pool r) (bp_pool_size r) v (bp_available r) (bp_free_blocks r) (bp_task r).
Definition set_bp_available (v : Z) (r : block_pool) : block_pool :=
  mk_bp (bp_magic r) (bp_name r) (bp_start_of_pool r) (bp_pool_size r) (bp_block_size r) v (bp_free_blocks r) (bp_task r).
Definition set_bp_free_blocks (v : chain_ptr) (r : block_pool) : block_pool :=
  mk_bp (bp_magic r) (bp_name r) (bp_start_of_pool r) (bp_pool_size r) (bp_block_size r) (bp_available r) v (bp_task r).
Definition set_bp_task (v : ptr) (r : block_pool) : block_pool :=
  mk_bp (bp_magic r) (bp_name r) (bp_start_of_pool r) (bp_pool_size r) (bp_block_size r) (bp_available r) (bp_free_blocks r) v.

(** [struct tasklet] (rx_tasklet.h). *)
Record tasklet := mk_tl {
  tl_status : Z;
  tl_func : Z;
  tl_data : Z;
  tl_next : ptr;
  tl_prev : ptr;
}.

Definition set_tl_status (v : Z) (r : tasklet) : tasklet :=
  mk_tl v (tl_func r) (tl_data r) (tl_next r) (tl_prev r).
Definition set_tl_func (v : Z) (r : tasklet) : tasklet :=
  mk_tl (tl_status r) v (tl_data r) (tl_next r) (tl_prev r).
Definition set_tl_data (v : Z) (r : tasklet) : tasklet :=
  mk_tl (tl_status r) (tl_func r) v (tl_next r) (tl_prev r).
Definition set_tl_next (v : ptr) (r : tasklet) : tasklet :=
  mk_tl (tl_status r) (tl_func r) (tl_data r) v (tl_prev r).
Definition set_tl_prev (v : ptr) (r : tasklet) : tasklet :=
  mk_tl (tl_status r) (tl_func r) (tl_data r) (tl_next r) v.

(** [struct irq] (rx_irq.h). *)
Record irq := mk_irq {
  irq_devname : list Z;
  irq_handler : option irq_fn;
  irq_flags : Z;
  irq_dev_id : Z;
  irq_next : ptr; (* never set *)
}.

Definition set_irq_devname (v : list Z) (r : irq) : irq :=
  mk_irq v (irq_handler r) (irq_flags r) (irq_dev_id r) (irq_next r).
Definition set_irq_handler (v : option irq_fn) (r : irq) : irq :=
  mk_irq (irq_devname r) v (irq_flags r) (irq_dev_id r) (irq_next r).
Definition set_irq_flags (v : Z) (r : irq) : irq :=
  mk_irq (irq_devname r) (irq_handler r) v (irq_dev_id r) (irq_next r).
Definition set_irq_dev_id (v : Z) (r : irq) : irq :=
  mk_irq (irq_devname r) (irq_handler r) (irq_flags r) v (irq_next r).
Definition set_irq_next (v : ptr) (r : irq) : irq :=
  mk_irq (irq_devname r) (irq_handler r) (irq_flags r) (irq_dev_id r) v.

(** [struct device] (rx_device.h). *)
Record device := mk_device {
  dv_name : list Z;
  dv_ops : ptr; (* the driver that has registered *)
  dv_open_count : Z;
  dv_private : Z;
}.

Definition set_dv_name (v : list Z) (r : device) : device :=
  mk_device v (dv_ops r) (dv_open_count r) (dv_private r).
Definition set_dv_ops (v : ptr) (r : device) : device :=
  mk_device (dv_name r) v (dv_open_count r) (dv_private r).
Definition set_dv_open_count (v : Z) (r : device) : device :=
  mk_device (dv_name r) (dv_ops r) v (dv_private r).
Definition set_dv_private (v : Z) (r : device) : device :=
  mk_device (dv_name r) (dv_ops r) (dv_open_count r) v.

(** [struct devfile] (rx_device.h). *)
Record devfile := mk_devfile {
  df_dev : option nat; (* index into the table of devices *)
  df_flags : Z;
}.

Definition set_df_dev (v : option nat) (r : devfile) : devfile :=
  mk_devfile v (df_flags r).
Definition set_df_flags (v : Z) (r : devfile) : devfile :=
  mk_devfile (df_dev r) v.

(** The kernel's memory: one store per kind of object and the global
    variables. *)
Record kst := mk_kst {
  k_tasks : gmap positive tcb;
  k_timers : gmap positive timer_list;
  k_mutexes : gmap positive mutex;
  k_sems : gmap positive semaphore;
  k_events : gmap positive event_group;
  k_wqs : gmap positive wait_queue;
  k_mqs : gmap positive msg_queue;
  k_pools : gmap positive block_pool;
  k_chains : gmap Z block_chain; (* the headers inside the pools, by address *)
  k_tasklets : gmap positive tasklet;
  k_mem : gmap Z Z; (* bytes of the message buffers, by address *)
  k_curr : ptr; (* __rx_curr_running_task *)
  k_ready : ptr; (* __rx_task_ready_head *)
  k_list_head : ptr; (* __rx_task_list_head *)
  k_num_task : Z; (* __rx_curr_num_task *)
  k_stack_start : Z; (* __rx_stack_start_ptr *)
  k_curr_stack : Z; (* __rx_curr_stack_ptr *)
  k_need_resched : Z; (* __rx_need_resched *)
  k_jiffies : Z; (* jiffies *)
  k_timer_head : ptr; (* __rx_active_timer_head *)
  k_wait_list : ptr; (* __rx_sys_wait_list *)
  k_tasklet_list : ptr; (* sys_tasklet_list *)
  k_context : Z; (* __context: 1 inside an interrupt *)
  k_critical : Z; (* __critical: 1 while interrupts are masked *)
  k_irqs : gmap Z irq; (* __rx_irq_pool, by interrupt number *)
  k_irq_counter : Z; (* __rx_raw_irq_counter *)
  k_devs : list device; (* device_table *)
  k_descs : list devfile; (* desc *)
  k_pb_start : Z; (* __rx_printk_buffer_start_ptr *)
  k_pb_head : Z; (* __rx_printk_buffer_head *)
  k_pb_tail : Z; (* __rx_printk_buffer_tail *)
}.

Definition set_k_tasks (v : gmap positive tcb) (r : kst) : kst :=
  mk_kst v (k_timers r) (k_mutexes r) (k_sems r) (k_events r) (k_wqs r) (k_mqs r) (k_pools r)
     (k_chains r) (k_tasklets r) (k_mem r) (k_curr r) (k_ready r) (k_list_head r) (k_num_task r) (k_stack_start r)
     (k_curr_stack r) (k_need_resched r) (k_jiffies r) (k_timer_head r) (k_wait_list r) (k_tasklet_list r) (k_context r) (k_critical r)
     (k_irqs r) (k_irq_counter r) (k_devs r) (k_descs r) (k_pb_start r) (k_pb_head r) (k_pb_tail r).
Definition set_k_timers (v : gmap positive timer_list) (r : kst) : kst :=
  mk_kst (k_tasks r) v (k_mutexes r) (k_sems r) (k_events r) (k_wqs r) (k_mqs r) (k_pools r)
     (k_chains r) (k_tasklets r) (k_mem r) (k_curr r) (k_ready r) (k_list_head r) (k_num_task r) (k_stack_start r)
     (k_curr_stack r) (k_need_resched r) (k_jiffies r) (k_timer_head r) (k_wait_list r) (k_tasklet_list r) (k_context r) (k_critical r)
     (k_irqs r) (k_irq_counter r) (k_devs r) (k_descs r) (k_pb_start r) (k_pb_head r) (k_pb_tail r).
Definition set_k_mutexes (v : gmap positive mutex) (r : kst) : kst :=
  mk_kst (k_tasks r) (k_timers r) v (k_sems r) (k_events r) (k_wqs r) (k_mqs r) (k_pools r)
     (k_chains r) (k_tasklets r) (k_mem r) (k_curr r) (k_ready r) (k_list_head r) (k_num_task r) (k_stack_start r)
     (k_curr_stack r) (k_need_resched r) (k_jiffies r) (k_timer_head r) (k_wait_list r) (k_tasklet_list r) (k_context r) (k_critical r)
     (k_irqs r) (k_irq_counter r) (k_devs r) (k_descs r) (k_pb_start r) (k_pb_head r) (k_pb_tail r).
Definition set_k_sems (v : gmap positive semaphore) (r : kst) : kst :=
  mk_kst (k_tasks r) (k_timers r) (k_mutexes r) v (k_events r) (k_wqs r) (k_mqs r) (k_pools r)
     (k_chains r) (k_tasklets r) (k_mem r) (k_curr r) (k_ready r) (k_list_head r) (k_num_task r) (k_stack_start r)
     (k_curr_stack r) (k_need_resched r) (k_jiffies r) (k_timer_head r) (k_wait_list r) (k_tasklet_list r) (k_context r) (k_critical r)
     (k_irqs r) (k_irq_counter r) (k_devs r) (k_descs r) (k_pb_start r) (k_pb_head r) (k_pb_tail r).
Definition set_k_events (v : gmap positive event_group) (r : kst) : kst :=
  mk_kst (k_tasks r) (k_timers r) (k_mutexes r) (k_sems r) v (k_wqs r) (k_mqs r) (k_pools r)
     (k_chains r) (k_tasklets r) (k_mem r) (k_curr r) (k_ready r) (k_list_head r) (k_num_task r) (k_stack_start r)
     (k_curr_stack r) (k_need_resched r) (k_jiffies r) (k_timer_head r) (k_wait_list r) (k_tasklet_list r) (k_context r) (k_critical r)
     (k_irqs r) (k_irq_counter r) (k_devs r) (k_descs r) (k_pb_start r) (k_pb_head r) (k_pb_tail r).
Definition set_k_wqs (v : gmap positive wait_queue) (r : kst) : kst :=
  mk_kst (k_tasks r) (k_timers r) (k_mutexes r) (k_sems r) (k_events r) v (k_mqs r) (k_pools r)
     (k_chains r) (k_tasklets r) (k_mem r) (k_curr r) (k_ready r) (k_list_head r) (k_num_task r) (k_stack_start r)
     (k_curr_stack r) (k_need_resched r) (k_jiffies r) (k_timer_head r) (k_wait_list r) (k_tasklet_list r) (k_context r) (k_critical r)
     (k_irqs r) (k_irq_counter r) (k_devs r) (k_descs r) (k_pb_start r) (k_pb_head r) (k_pb_tail r).
Definition set_k_mqs (v : gmap positive msg_queue) (r : kst) : kst :=
  mk_kst (k_tasks r) (k_timers r) (k_mutexes r) (k_sems r) (k_events r) (k_wqs r) v (k_pools r)
     (k_chains r) (k_tasklets r) (k_mem r) (k_curr r) (k_ready r) (k_list_head r) (k_num_task r) (k_stack_start r)
     (k_curr_stack r) (k_need_resched r) (k_jiffies r) (k_timer_head r) (k_wait_list r) (k_tasklet_list r) (k_context r) (k_critical r)
     (k_irqs r) (k_irq_counter r) (k_devs r) (k_descs r) (k_pb_start r) (k_pb_head r) (k_pb_tail r).
Definition set_k_pools (v : gmap positive block_pool) (r : kst) : kst :=
  mk_kst (k_tasks r) (k_timers r) (k_mutexes r) (k_sems r) (k_events r) (k_wqs r) (k_mqs r) v
     (k_chains r) (k_tasklets r) (k_mem r) (k_curr r) (k_ready r) (k_list_head r) (k_num_task r) (k_stack_start r)
     (k_curr_stack r) (k_need_resched r) (k_jiffies r) (k_timer_head r) (k_wait_list r) (k_tasklet_list r) (k_context r) (k_critical r)
     (k_irqs r) (k_irq_counter r) (k_devs r) (k_descs r) (k_pb_start r) (k_pb_head r) (k_pb_tail r).
Definition set_k_chains (v : gmap Z block_chain) (r : kst) : kst :=
  mk_kst (k_tasks r) (k_timers r) (k_mutexes r) (k_sems r) (k_events r) (k_wqs r) (k_mqs r) (k_pools r)
     v (k_tasklets r) (k_mem r) (k_curr r) (k_ready r) (k_list_head r) (k_num_task r) (k_stack_start r)
     (k_curr_stack r) (k_need_resched r) (k_jiffies r) (k_timer_head r) (k_wait_list r) (k_tasklet_list r) (k_context r) (k_critical r)
     (k_irqs r) (k_irq_counter r) (k_devs r) (k_descs r) (k_pb_start r) (k_pb_head r) (k_pb_tail r).
Definition set_k_tasklets (v : gmap positive tasklet) (r : kst) : kst :=
  mk_kst (k_tasks r) (k_timers r) (k_mutexes r) (k_sems r) (k_events r) (k_wqs r) (k_mqs r) (k_pools r)
     (k_chains r) v (k_mem r) (k_curr r) (k_ready r) (k_list_head r) (k_num_task r) (k_stack_start r)
     (k_curr_stack r) (k_need_resched r) (k_jiffies r) (k_timer_head r) (k_wait_list r) (k_tasklet_list r) (k_context r) (k_critical r)
     (k_irqs r) (k_irq_counter r) (k_devs r) (k_descs r) (k_pb_start r) (k_pb_head r) (k_pb_tail r).
Definition set_k_mem (v : gmap Z Z) (r : kst) : kst :=
  mk_kst (k_tasks r) (k_timers r) (k_mutexes r) (k_sems r) (k_events r) (k_wqs r) (k_mqs r) (k_pools r)
     (k_chains r) (k_tasklets r) v (k_curr r) (k_ready r) (k_list_head r) (k_num_task r) (k_stack_start r)
     (k_curr_stack r) (k_need_resched r) (k_jiffies r) (k_timer_head r) (k_wait_list r) (k_tasklet_list r) (k_context r) (k_critical r)
     (k_irqs r) (k_irq_counter r) (k_devs r) (k_descs r) (k_pb_start r) (k_pb_head r) (k_pb_tail r).
Definition set_k_curr (v : ptr) (r : kst) : kst :=
  mk_kst (k_tasks r) (k_timers r) (k_mutexes r) (k_sems r) (k_events r) (k_wqs r) (k_mqs r) (k_pools r)
     (k_chains r) (k_tasklets r) (k_mem r) v (k_ready r) (k_list_head r) (k_num_task r) (k_stack_start r)
     (k_curr_stack r) (k_need_resched r) (k_jiffies r) (k_timer_head r) (k_wait_list r) (k_tasklet_list r) (k_context r) (k_critical r)
     (k_irqs r) (k_irq_counter r) (k_devs r) (k_descs r) (k_pb_start r) (k_pb_head r) (k_pb_tail r).
Definition set_k_ready (v : ptr) (r : kst) : kst :=
  mk_kst (k_tasks r) (k_timers r) (k_mutexes r) (k_sems r) (k_events r) (k_wqs r) (k_mqs r) (k_pools r)
     (k_chains r) (k_tasklets r) (k_mem r) (k_curr r) v (k_list_head r) (k_num_task r) (k_stack_start r)
     (k_curr_stack r) (k_need_resched r) (k_jiffies r) (k_timer_head r) (k_wait_list r) (k_tasklet_list r) (k_context r) (k_critical r)
     (k_irqs r) (k_irq_counter r) (k_devs r) (k_descs r) (k_pb_start r) (k_pb_head r) (k_pb_tail r).
Definition set_k_list_head (v : ptr) (r : kst) : kst :=
  mk_kst (k_tasks r) (k_timers r) (k_mutexes r) (k_sems r) (k_events r) (k_wqs r) (k_mqs r) (k_pools r)
     (k_chains r) (k_tasklets r) (k_mem r) (k_curr r) (k_ready r) v (k_num_task r) (k_stack_start r)
     (k_curr_stack r) (k_need_resched r) (k_jiffies r) (k_timer_head r) (k_wait_list r) (k_tasklet_list r) (k_context r) (k_critical r)
     (k_irqs r) (k_irq_counter r) (k_devs r) (k_descs r) (k_pb_start r) (k_pb_head r) (k_pb_tail r).
Definition set_k_num_task (v : Z) (r : kst) : kst :=
  mk_kst (k_tasks r) (k_timers r) (k_mutexes r) (k_sems r) (k_events r) (k_wqs r) (k_mqs r) (k_pools r)
     (k_chains r) (k_tasklets r) (k_mem r) (k_curr r) (k_ready r) (k_list_head r) v (k_stack_start r)
     (k_curr_stack r) (k_need_resched r) (k_jiffies r) (k_timer_head r) (k_wait_list r) (k_tasklet_list r) (k_context r) (k_critical r)
     (k_irqs r) (k_irq_counter r) (k_devs r) (k_descs r) (k_pb_start r) (k_pb_head r) (k_pb_tail r).
Definition set_k_stack_start (v : Z) (r : kst) : kst :=
  mk_kst (k_tasks r) (k_timers r) (k_mutexes r) (k_sems r) (k_events r) (k_wqs r) (k_mqs r) (k_pools r)
     (k_chains r) (k_tasklets r) (k_mem r) (k_curr r) (k_ready r) (k_list_head r) (k_num_task r) v
     (k_curr_stack r) (k_need_resched r) (k_jiffies r) (k_timer_head r) (k_wait_list r) (k_tasklet_list r) (k_context r) (k_critical r)
     (k_irqs r) (k_irq_counter r) (k_devs r) (k_descs r) (k_pb_start r) (k_pb_head r) (k_pb_tail r).
Definition set_k_curr_stack (v : Z) (r : kst) : kst :=
  mk_kst (k_tasks r) (k_timers r) (k_mutexes r) (k_sems r) (k_events r) (k_wqs r) (k_mqs r) (k_pools r)
     (k_chains r) (k_tasklets r) (k_mem r) (k_curr r) (k_ready r) (k_list_head r) (k_num_task r) (k_stack_start r)
     v (k_need_resched r) (k_jiffies r) (k_timer_head r) (k_wait_list r) (k_tasklet_list r) (k_context r) (k_critical r)
     (k_irqs r) (k_irq_counter r) (k_devs r) (k_descs r) (k_pb_start r) (k_pb_head r) (k_pb_tail r).
Definition set_k_need_resched (v : Z) (r : kst) : kst :=
  mk_kst (k_tasks r) (k_timers r) (k_mutexes r) (k_sems r) (k_events r) (k_wqs r) (k_mqs r) (k_pools r)
     (k_chains r) (k_tasklets r) (k_mem r) (k_curr r) (k_ready r) (k_list_head r) (k_num_task r) (k_stack_start r)
     (k_curr_stack r) v (k_jiffies r) (k_timer_head r) (k_wait_list r) (k_tasklet_list r) (k_context r) (k_critical r)
     (k_irqs r) (k_irq_counter r) (k_devs r) (k_descs r) (k_pb_start r) (k_pb_head r) (k_pb_tail r).
Definition set_k_jiffies (v : Z) (r : kst) : kst :=
  mk_kst (k_tasks r) (k_timers r) (k_mutexes r) (k_sems r) (k_events r) (k_wqs r) (k_mqs r) (k_pools r)
     (k_chains r) (k_tasklets r) (k_mem r) (k_curr r) (k_ready r) (k_list_head r) (k_num_task r) (k_stack_start r)
     (k_curr_stack r) (k_need_resched r) v (k_timer_head r) (k_wait_list r) (k_tasklet_list r) (k_context r) (k_critical r)
     (k_irqs r) (k_irq_counter r) (k_devs r) (k_descs r) (k_pb_start r) (k_pb_head r) (k_pb_tail r).
Definition set_k_timer_head (v : ptr) (r : kst) : kst :=
  mk_kst (k_tasks r) (k_timers r) (k_mutexes r) (k_sems r) (k_events r) (k_wqs r) (k_mqs r) (k_pools r)
     (k_chains r) (k_tasklets r) (k_mem r) (k_curr r) (k_ready r) (k_list_head r) (k_num_task r) (k_stack_start r)
     (k_curr_stack r) (k_need_resched r) (k_jiffies r) v (k_wait_list r) (k_tasklet_list r) (k_context r) (k_critical r)
     (k_irqs r) (k_irq_counter r) (k_devs r) (k_descs r) (k_pb_start r) (k_pb_head r) (k_pb_tail r).
Definition set_k_wait_list (v : ptr) (r : kst) : kst :=
  mk_kst (k_tasks r) (k_timers r) (k_mutexes r) (k_sems r) (k_events r) (k_wqs r) (k_mqs r) (k_pools r)
     (k_chains r) (k_tasklets r) (k_mem r) (k_curr r) (k_ready r) (k_list_head r) (k_num_task r) (k_stack_start r)
     (k_curr_stack r) (k_need_resched r) (k_jiffies r) (k_timer_head r) v (k_tasklet_list r) (k_context r) (k_critical r)
     (k_irqs r) (k_irq_counter r) (k_devs r) (k_descs r) (k_pb_start r) (k_pb_head r) (k_pb_tail r).
Definition set_k_tasklet_list (v : ptr) (r : kst) : kst :=
  mk_kst (k_tasks r) (k_timers r) (k_mutexes r) (k_sems r) (k_events r) (k_wqs r) (k_mqs r) (k_pools r)
     (k_chains r) (k_tasklets r) (k_mem r) (k_curr r) (k_ready r) (k_list_head r) (k_num_task r) (k_stack_start r)
     (k_curr_stack r) (k_need_resched r) (k_jiffies r) (k_timer_head r) (k_wait_list r) v (k_context r) (k_critical r)
     (k_irqs r) (k_irq_counter r) (k_devs r) (k_descs r) (k_pb_start r) (k_pb_head r) (k_pb_tail r).
Definition set_k_context (v : Z) (r : kst) : kst :=
  mk_kst (k_tasks r) (k_timers r) (k_mutexes r) (k_sems r) (k_events r) (k_wqs r) (k_mqs r) (k_pools r)
     (k_chains r) (k_tasklets r) (k_mem r) (k_curr r) (k_ready r) (k_list_head r) (k_num_task r) (k_stack_start r)
     (k_curr_stack r) (k_need_resched r) (k_jiffies r) (k_timer_head r) (k_wait_list r) (k_tasklet_list r) v (k_critical r)
     (k_irqs r) (k_irq_counter r) (k_devs r) (k_descs r) (k_pb_start r) (k_pb_head r) (k_pb_tail r).
Definition set_k_critical (v : Z) (r : kst) : kst :=
  mk_kst (k_tasks r) (k_timers r) (k_mutexes r) (k_sems r) (k_events r) (k_wqs r) (k_mqs r) (k_pools r)
     (k_chains r) (k_tasklets r) (k_mem r) (k_curr r) (k_ready r) (k_list_head r) (k_num_task r) (k_stack_start r)
     (k_curr_stack r) (k_need_resched r) (k_jiffies r) (k_timer_head r) (k_wait_list r) (k_tasklet_list r) (k_context r) v
     (k_irqs r) (k_irq_counter r) (k_devs r) (k_descs r) (k_pb_start r) (k_pb_head r) (k_pb_tail r).
Definition set_k_irqs (v : gmap Z irq) (r : kst) : kst :=
  mk_kst (k_tasks r) (k_timers r) (k_mutexes r) (k_sems r) (k_events r) (k_wqs r) (k_mqs r) (k_pools r)
     (k_chains r) (k_tasklets r) (k_mem r) (k_curr r) (k_ready r) (k_list_head r) (k_num_task r) (k_stack_start r)
     (k_curr_stack r) (k_need_resched r) (k_jiffies r) (k_timer_head r) (k_wait_list r) (k_tasklet_list r) (k_context r) (k_critical r)
     v (k_irq_counter r) (k_devs r) (k_descs r) (k_pb_start r) (k_pb_head r) (k_pb_tail r).
Definition set_k_irq_counter (v : Z) (r : kst) : kst :=
  mk_kst (k_tasks r) (k_timers r) (k_mutexes r) (k_sems r) (k_events r) (k_wqs r) (k_mqs r) (k_pools r)
     (k_chains r) (k_tasklets r) (k_mem r) (k_curr r) (k_ready r) (k_list_head r) (k_num_task r) (k_stack_start r)
     (k_curr_stack r) (k_need_resched r) (k_jiffies r) (k_timer_head r) (k_wait_list r) (k_tasklet_list r) (k_context r) (k_critical r)
     (k_irqs r) v (k_devs r) (k_descs r) (k_pb_start r) (k_pb_head r) (k_pb_tail r).
Definition set_k_devs (v : list device) (r : kst) : kst :=
  mk_kst (k_tasks r) (k_timers r) (k_mutexes r) (k_sems r) (k_events r) (k_wqs r) (k_mqs r) (k_pools r)
     (k_chains r) (k_tasklets r) (k_mem r) (k_curr r) (k_ready r) (k_list_head r) (k_num_task r) (k_stack_start r)
     (k_curr_stack r) (k_need_resched r) (k_jiffies r) (k_timer_head r) (k_wait_list r) (k_tasklet_list r) (k_context r) (k_critical r)
     (k_irqs r) (k_irq_counter r) v (k_descs r) (k_pb_start r) (k_pb_head r) (k_pb_tail r).
Definition set_k_descs (v : list devfile) (r : kst) : kst :=
  mk_kst (k_tasks r) (k_timers r) (k_mutexes r) (k_sems r) (k_events r) (k_wqs r) (k_mqs r) (k_pools r)
     (k_chains r) (k_tasklets r) (k_mem r) (k_curr r) (k_ready r) (k_list_head r) (k_num_task r) (k_stack_start r)
     (k_curr_stack r) (k_need_resched r) (k_jiffies r) (k_timer_head r) (k_wait_list r) (k_tasklet_list r) (k_context r) (k_critical r)
     (k_irqs r) (k_irq_counter r) (k_devs r) v (k_pb_start r) (k_pb_head r) (k_pb_tail r).
Definition set_k_pb_start (v : Z) (r : kst) : kst :=
  mk_kst (k_tasks r) (k_timers r) (k_mutexes r) (k_sems r) (k_events r) (k_wqs r) (k_mqs r) (k_pools r)
     (k_chains r) (k_tasklets r) (k_mem r) (k_curr r) (k_ready r) (k_list_head r) (k_num_task r) (k_stack_start r)
     (k_curr_stack r) (k_need_resched r) (k_jiffies r) (k_timer_head r) (k_wait_list r) (k_tasklet_list r) (k_context r) (k_critical r)
     (k_irqs r) (k_irq_counter r) (k_devs r) (k_descs r) v (k_pb_head r) (k_pb_tail r).
Definition set_k_pb_head (v : Z) (r : kst) : kst :=
  mk_kst (k_tasks r) (k_timers r) (k_mutexes r) (k_sems r) (k_events r) (k_wqs r) (k_mqs r) (k_pools r)
     (k_chains r) (k_tasklets r) (k_mem r) (k_curr r) (k_ready r) (k_list_head r) (k_num_task r) (k_stack_start r)
     (k_curr_stack r) (k_need_resched r) (k_jiffies r) (k_timer_head r) (k_wait_list r) (k_tasklet_list r) (k_context r) (k_critical r)
     (k_irqs r) (k_irq_counter r) (k_devs r) (k_descs r) (k_pb_start r) v (k_pb_tail r).
Definition set_k_pb_tail (v : Z) (r : kst) : kst :=
  mk_kst (k_tasks r) (k_timers r) (k_mutexes r) (k_sems r) (k_events r) (k_wqs r) (k_mqs r) (k_pools r)
     (k_chains r) (k_tasklets r) (k_mem r) (k_curr r) (k_ready r) (k_list_head r) (k_num_task r) (k_stack_start r)
     (k_curr_stack r) (k_need_resched r) (k_jiffies r) (k_timer_head r) (k_wait_list r) (k_tasklet_list r) (k_context r) (k_critical r)
     (k_irqs r) (k_irq_counter r) (k_devs r) (k_descs r) (k_pb_start r) (k_pb_head r) v.

(** ** Access to the stores *)

(** The code of the kernel: computations over the kernel's memory. *)
Abbreviation M := (proc kst).

(** The store the objects of type [T] live in. *)
Class Store (T : Type) := {
  store_of : kst -> gmap positive T;
  set_store : gmap positive T -> kst -> kst;
}.

#[export] Instance tcb_store : Store tcb := {| store_of := k_tasks; set_store := set_k_tasks |}.
#[export] Instance timer_store : Store timer_list := {| store_of := k_timers; set_store := set_k_timers |}.
#[export] Instance mutex_store : Store mutex := {| store_of := k_mutexes; set_store := set_k_mutexes |}.
#[export] Instance sem_store : Store semaphore := {| store_of := k_sems; set_store := set_k_sems |}.
#[export] Instance eg_store : Store event_group := {| store_of := k_events; set_store := set_k_events |}.
#[export] Instance wq_store : Store wait_queue := {| store_of := k_wqs; set_store := set_k_wqs |}.
#[export] Instance mq_store : Store msg_queue := {| store_of := k_mqs; set_store := set_k_mqs |}.
#[export] Instance bp_store : Store block_pool := {| store_of := k_pools; set_store := set_k_pools |}.
#[export] Instance tl_store : Store tasklet := {| store_of := k_tasklets; set_store := set_k_tasklets |}.

(** [*p]. *)
Definition load {T} `{Store T} (p : ptr) : M T := fun s =>
  match p with
  | None => Crash NullDeref
  | Some a => match store_of s !! a with
              | Some t => Done t s
              | None => Crash WildPtr
              end
  end.

(** [p->f = v], with [g] the assignment to the field. *)
Definition modify {T} `{Store T} (p : ptr) (g : T -> T) : M unit := fun s =>
  match p with
  | None => Crash NullDeref
  | Some a => match store_of s !! a with
              | Some t => Done tt (set_store (<[a := g t]> (store_of s)) s)
              | None => Crash WildPtr
              end
  end.

#[global] Arguments load : simpl never.
#[global] Arguments modify : simpl never.

Abbreviation ld_task := (load (T:=tcb)).
Abbreviation ld_timer := (load (T:=timer_list)).
Abbreviation ld_mutex := (load (T:=mutex)).
Abbreviation ld_sem := (load (T:=semaphore)).
Abbreviation ld_eg := (load (T:=event_group)).
Abbreviation ld_wq := (load (T:=wait_queue)).
Abbreviation ld_mq := (load (T:=msg_queue)).
Abbreviation ld_bp := (load (T:=block_pool)).
Abbreviation ld_tl := (load (T:=tasklet)).
Abbreviation on_task := (modify (T:=tcb)).
Abbreviation on_timer := (modify (T:=timer_list)).
Abbreviation on_mutex := (modify (T:=mutex)).
Abbreviation on_sem := (modify (T:=semaphore)).
Abbreviation on_eg := (modify (T:=event_group)).
Abbreviation on_wq := (modify (T:=wait_queue)).
Abbreviation on_mq := (modify (T:=msg_queue)).
Abbreviation on_bp := (modify (T:=block_pool)).
Abbreviation on_tl := (modify (T:=tasklet)).

(** ** Symbolic execution

    One equation per primitive, and the tactic [step] that applies them to the
    call at the head of the goal; [step] looks up the objects the code accesses
    in the hypotheses. *)

Lemma bind_load {T B} `{Store T} a (t : T) (k : T -> M B) s :
  store_of s !! a = Some t -> bind (load (Some a)) k s = k t s.
Proof. intros E. unfold bind, load. by rewrite E. Qed.

Lemma bind_modify {T B} `{Store T} a (t : T) (g : T -> T) (k : unit -> M B) s :
  store_of s !! a = Some t ->
  bind (modify (Some a) g) k s = k tt (set_store (<[a := g t]> (store_of s)) s).
Proof. intros E. unfold bind, modify. by rewrite E. Qed.

Lemma modify_run {T} `{Store T} a (t : T) (g : T -> T) s :
  store_of s !! a = Some t ->
  modify (Some a) g s = Done tt (set_store (<[a := g t]> (store_of s)) s).
Proof. intros E. unfold modify. by rewrite E. Qed.

Lemma bind_load_null {T B} `{Store T} (k : T -> M B) s :
  bind (load None) k s = Crash NullDeref.
Proof. done. Qed.

Lemma bind_modify_null {T B} `{Store T} (g : T -> T) (k : unit -> M B) s :
  bind (modify None g) k s = Crash NullDeref.
Proof. done. Qed.

Ltac lookup_side := try congruence; try set_solver.
Ltac lk :=
  simpl;
  repeat first
    [ eassumption
    | reflexivity
    | rewrite lookup_insert_eq
    | rewrite lookup_insert_ne by lookup_side ].

(** Read the fields of an updated kernel state. *)
Ltac norm :=
  try progress simpl (k_tasks _);
  try progress simpl (k_timers _);
  try progress simpl (k_mutexes _);
  try progress simpl (k_sems _);
  try progress simpl (k_events _);
  try progress simpl (k_wqs _);
  try progress simpl (k_mqs _);
  try progress simpl (k_pools _);
  try progress simpl (k_chains _);
  try progress simpl (k_tasklets _);
  try progress simpl (k_mem _);
  try progress simpl (k_curr _);
  try progress simpl (k_ready _);
  try progress simpl (k_list_head _);
  try progress simpl (k_num_task _);
  try progress simpl (k_stack_start _);
  try progress simpl (k_curr_stack _);
  try progress simpl (k_need_resched _);
  try progress simpl (k_jiffies _);
  try progress simpl (k_timer_head _);
  try progress simpl (k_wait_list _);
  try progress simpl (k_tasklet_list _);
  try progress simpl (k_context _);
  try progress simpl (k_critical _);
  try progress simpl (k_irqs _);
  try progress simpl (k_irq_counter _);
  try progress simpl (k_devs _);
  try progress simpl (k_descs _);
  try progress simpl (k_pb_start _);
  try progress simpl (k_pb_head _);
  try progress simpl (k_pb_tail _); idtac.

(** Two updates of a kernel state agree field by field. *)
Ltac state_eq :=
  cbn [store_of set_store tcb_store timer_store mutex_store sem_store eg_store wq_store
       mq_store bp_store tl_store];
  cbv beta iota delta
    [k_tasks k_timers k_mutexes k_sems k_events k_wqs
     k_mqs k_pools k_chains k_tasklets k_mem k_curr
     k_ready k_list_head k_num_task k_stack_start k_curr_stack k_need_resched
     k_jiffies k_timer_head k_wait_list k_tasklet_list k_context k_critical
     k_irqs k_irq_counter k_devs k_descs k_pb_start k_pb_head k_pb_tail
     set_k_tasks set_k_timers set_k_mutexes set_k_sems set_k_events set_k_wqs
     set_k_mqs set_k_pools set_k_chains set_k_tasklets set_k_mem set_k_curr
     set_k_ready set_k_list_head set_k_num_task set_k_stack_start set_k_curr_stack set_k_need_resched
     set_k_jiffies set_k_timer_head set_k_wait_list set_k_tasklet_list set_k_context set_k_critical
     set_k_irqs set_k_irq_counter set_k_devs set_k_descs set_k_pb_start set_k_pb_head set_k_pb_tail];
  try reflexivity.

Ltac step :=
  first
    [ rewrite bind_ret | rewrite bind_get | rewrite bind_gets | rewrite bind_upd
    | rewrite bind_put | rewrite bind_bind | rewrite bind_load_null | rewrite bind_modify_null
    | rewrite obind_ret | rewrite obind_upd | rewrite obind_gets
    | erewrite bind_load by (lk; fail) | erewrite bind_modify by (lk; fail)
    | erewrite modify_run by (lk; fail)
    | progress cbn [obind] ];
  cbn beta iota;
  cbn [store_of set_store tcb_store timer_store mutex_store sem_store eg_store wq_store
       mq_store bp_store tl_store];
  norm.

(** Use the specification [m s = Done a s'] of the call at the head. *)
Tactic Notation "call" uconstr(H) := erewrite bind_run by (eapply H); cbn beta iota; norm.
