(* ===== verification/Samples.v ===== *)
(** * Small kernel states

    Concrete states the examples of the development evaluate the kernel on:
    tasks built from the values [rx_create_task] gives them, queued by hand. *)

From stdpp Require Import base gmap.
From Stdlib Require Import ZArith.
From S2P Require Import Prelude State.
#[local] Open Scope Z_scope.

(** A zeroed task control block. *)
Definition tcb0 : tcb :=
  mk_tcb 0 [] 0 0 0 0 0 0 0 RX_TASK_SUSPEND 0 0 0 0 0 0
    None None None None None None None None None 0.

(** A task of priority [p] in the state [st], linked to [n]. *)
Definition task (p : Z) (st : task_state) (n : ptr) : tcb :=
  set_t_next n (set_t_state st (set_t_orig_prio p (set_t_prio p tcb0))).

Definition timer0 : timer_list := mk_timer 0 0 0 None None None None None.

Definition kst0 : kst :=
  mk_kst ∅ ∅ ∅ ∅ ∅ ∅ ∅ ∅ ∅ ∅ ∅ None None None 0 0 0 0 0 None None None 0 0
    ∅ 0 [] [] 0 0 0.

(** Task 1 (priority 1) runs, task 2 (priority 5) and the idle task 3
    (priority 31) are ready, task 4 (priority 2) is suspended and linked
    nowhere. *)
Definition tasks3 : gmap positive tcb :=
  <[1%positive := task 1 RX_TASK_RUNNING (Some 2%positive)]>
  (<[2%positive := task 5 RX_TASK_READY (Some 3%positive)]>
  (<[3%positive := task 31 RX_TASK_READY None]>
  (<[4%positive := task 2 RX_TASK_SUSPEND None]> ∅))).

Definition sample : kst :=
  set_k_curr (Some 1%positive) (set_k_ready (Some 1%positive) (set_k_tasks tasks3 kst0)).

(** The same tasks with task 4 marked ready and not yet queued. *)
Definition tasks4r : gmap positive tcb :=
  <[4%positive := task 2 RX_TASK_READY None]> tasks3.
