(* ===== verification/Chains.v ===== *)
(** * Linked queues in a store

    The kernel threads its queues through a link field of the queued objects
    ([next] of a task, [next] of a timer, ...).  [seg] relates the store to the
    list of addresses such a queue stands for: following the links from [h]
    visits exactly [l] and then reaches the pointer [e].  A [chain] is a
    complete queue: it ends with NULL. *)

From stdpp Require Import base gmap list sorting.
From Stdlib Require Import ZArith Lia.
From S2P Require Import Prelude State.

Section Chain.
  Context {T : Type} (nxt : T -> ptr).
  Implicit Types (m : gmap positive T) (l : list positive) (h e : ptr) (x : positive).

Fixpoint seg m h l e : Prop :=
  match l with
  | [] => h = e
  | x :: l' => h = Some x /\ exists t, m !! x = Some t /\ seg m (nxt t) l' e
  end.

Definition chain m h l : Prop := seg m h l None.

Lemma seg_app m h l1 l2 e :
  seg m h (l1 ++ l2) e <-> exists p, seg m h l1 p /\ seg m p l2 e.
Proof.
  revert h. induction l1 as [|x l1 IH]; intros h; simpl; [naive_solver|].
  split.
  - intros (-> & t & Ht & (p & H1 & H2)%IH). eauto 10.
  - intros (p & (-> & t & Ht & H1) & H2). split; [done|].
    exists t. split; [done|]. apply IH. eauto.
Qed.

(** A segment only depends on the links of its members. *)
Lemma seg_frame m m' h l e :
  (forall x, x ∈ l -> nxt <$> m' !! x = nxt <$> m !! x) ->
  seg m h l e -> seg m' h l e.
Proof.
  revert h. induction l as [|x l IH]; intros h Hf; simpl; [done|].
  intros (-> & t & Ht & Hs). split; [done|].
  pose proof (Hf x ltac:(set_solver)) as Hx. rewrite Ht in Hx.
  destruct (m' !! x) as [t'|] eqn:E; simplify_eq/=. exists t'.
  split; [done|]. rewrite Hx. apply IH; [set_solver|done].
Qed.

Lemma seg_insert_ne m x t h l e :
  x ∉ l -> seg m h l e -> seg (<[x:=t]> m) h l e.
Proof.
  intros Hx. apply seg_frame. intros y Hy.
  rewrite lookup_insert_ne; [done|set_solver].
Qed.

(** Assigning to other fields of a member keeps the segment. *)
Lemma seg_insert_same m x t t0 h l e :
  m !! x = Some t0 -> nxt t = nxt t0 -> seg m h l e -> seg (<[x:=t]> m) h l e.
Proof.
  intros Hx Ht. apply seg_frame. intros y Hy.
  destruct (decide (x = y)) as [->|]; [|by rewrite lookup_insert_ne].
  by rewrite lookup_insert_eq, Hx; simpl; rewrite Ht.
Qed.

Lemma seg_lookup m h l e x : seg m h l e -> x ∈ l -> exists t, m !! x = Some t.
Proof.
  revert h. induction l as [|y l IH]; intros h; simpl; [set_solver|].
  intros (_ & t & Ht & Hs) [->|Hx]%elem_of_cons; eauto.
Qed.

Lemma chain_det m h l l' : chain m h l -> chain m h l' -> l = l'.
Proof.
  unfold chain. revert h l'. induction l as [|x l IH]; intros h [|x' l']; simpl;
    [done|naive_solver..|].
  intros (-> & t & Ht & Hs) (? & t' & Ht' & Hs'). simplify_eq. f_equal. eauto.
Qed.

(** The links of a finite chain never revisit an object. *)
Lemma chain_NoDup m h l : chain m h l -> NoDup l.
Proof.
  unfold chain. revert h. induction l as [|x l IH]; intros h; [constructor|].
  intros Hc. assert (Hc' := Hc). destruct Hc as (-> & t & Ht & Hs).
  constructor; [|by eapply IH].
  intros (l1 & l2 & ->)%list_elem_of_split.
  assert (Hs' := Hs). apply seg_app in Hs' as (p & _ & Hs').
  assert (Hp : p = Some x) by (by destruct Hs'). subst p.
  pose proof (chain_det _ _ _ _ Hc' Hs') as E.
  apply (f_equal length) in E. revert E. simpl. rewrite length_app. simpl. lia.
Qed.

Lemma chain_length m h l : chain m h l -> (length l <= size m)%nat.
Proof.
  intros Hc. pose proof (chain_NoDup _ _ _ Hc) as Hn.
  rewrite <- (size_list_to_set (C:=gset positive) l Hn), <- size_dom.
  apply subseteq_size. intros x Hx%elem_of_list_to_set.
  destruct (seg_lookup _ _ _ _ _ Hc Hx) as [t Ht]. by eapply elem_of_dom_2.
Qed.

Lemma chain_head m h l : chain m h l -> h = head l.
Proof. destruct l; simpl; [done|]. by intros (-> & _). Qed.

Lemma chain_nil_inv m l : chain m None l -> l = [].
Proof. destruct l; [done|]. by intros (? & _). Qed.

Lemma chain_cons_inv m x l :
  chain m (Some x) l -> exists t l', l = x :: l' /\ m !! x = Some t /\ chain m (nxt t) l'.
Proof.
  destruct l as [|y l]; [done|]. intros (? & t & Ht & Hc). simplify_eq. eauto.
Qed.

Lemma seg_member_split m h l e x :
  seg m h l e -> x ∈ l ->
  exists l1 l2 t, l = l1 ++ x :: l2 /\ seg m h l1 (Some x) /\ m !! x = Some t /\
    seg m (nxt t) l2 e.
Proof.
  intros Hs (l1 & l2 & ->)%list_elem_of_split.
  apply seg_app in Hs as (p & H1 & (-> & t & Ht & H2)). eauto 10.
Qed.

Lemma seg_snoc m h l x e t :
  m !! x = Some t -> nxt t = e -> seg m h l (Some x) -> seg m h (l ++ [x]) e.
Proof. intros Hx Ht Hs. apply seg_app. simpl. naive_solver. Qed.

(** Redirecting the link of the last object of a segment. *)
Lemma seg_relink_last m h l x t e' :
  NoDup (l ++ [x]) -> seg m h l (Some x) -> nxt t = e' ->
  seg (<[x:=t]> m) h (l ++ [x]) e'.
Proof.
  intros (_ & Hx & _)%NoDup_app Hs Ht.
  eapply seg_snoc; [apply lookup_insert_eq|done|].
  apply seg_insert_ne; [|done]. intros ?. eapply Hx; set_solver.
Qed.

End Chain.

(** ** Doubly linked queues

    Timers, wait queues and tasklets are linked both ways.  [dseg p h l e] adds
    to [seg] that the back link of each member points to the member before it,
    and that of the first one to [p]. *)

Section DoubleChain.
  Context {T : Type} (nxt prv : T -> ptr).
  Implicit Types (m : gmap positive T) (l : list positive) (p h e : ptr) (x : positive).

Fixpoint dseg m p h l e : Prop :=
  match l with
  | [] => h = e
  | x :: l' =>
    h = Some x /\ exists t, m !! x = Some t /\ prv t = p /\ dseg m (Some x) (nxt t) l' e
  end.

Definition dchain m h l : Prop := dseg m None h l None.

(** The last member, or [p] when there is none. *)
Fixpoint dlast p l : ptr :=
  match l with
  | [] => p
  | x :: l' => dlast (Some x) l'
  end.

Lemma dlast_snoc p l x : dlast p (l ++ [x]) = Some x.
Proof. revert p. induction l; simpl; auto. Qed.

Lemma dseg_app m p h l1 l2 e :
  dseg m p h (l1 ++ l2) e <-> exists q, dseg m p h l1 q /\ dseg m (dlast p l1) q l2 e.
Proof.
  revert p h. induction l1 as [|x l1 IH]; intros p h; simpl; [naive_solver|].
  split.
  - intros (-> & t & Ht & Hp & (q & H1 & H2)%IH). eauto 10.
  - intros (q & (-> & t & Ht & Hp & H1) & H2). split; [done|].
    exists t. split_and!; [done..|]. apply IH. eauto.
Qed.

Lemma dseg_seg m p h l e : dseg m p h l e -> seg nxt m h l e.
Proof.
  revert p h. induction l as [|x l IH]; intros p h; simpl; [done|].
  intros (-> & t & Ht & _ & Hs). eauto.
Qed.

Lemma dseg_frame m m' p h l e :
  (forall x, x ∈ l -> m' !! x = m !! x) -> dseg m p h l e -> dseg m' p h l e.
Proof.
  revert p h. induction l as [|x l IH]; intros p h Hf; simpl; [done|].
  intros (-> & t & Ht & Hp & Hs). split; [done|]. exists t.
  rewrite Hf by set_solver. split_and!; [done..|]. apply IH; [set_solver|done].
Qed.

Lemma dseg_insert_ne m x t p h l e :
  x ∉ l -> dseg m p h l e -> dseg (<[x:=t]> m) p h l e.
Proof.
  intros Hx. apply dseg_frame. intros y Hy. rewrite lookup_insert_ne; [done|set_solver].
Qed.

(** Assigning to fields other than the links. *)
Lemma dseg_frame_links m m' p h l e :
  (forall x t, m !! x = Some t -> exists t', m' !! x = Some t' /\ nxt t' = nxt t /\ prv t' = prv t) ->
  dseg m p h l e -> dseg m' p h l e.
Proof.
  intros Hf. revert p h. induction l as [|x l IH]; intros p h; simpl; [done|].
  intros (-> & t & Ht & Hp & Hs). split; [done|].
  destruct (Hf x t Ht) as (t' & Ht' & Hn & Hp'). exists t'. rewrite Hn, Hp'. auto.
Qed.

(** Redirecting the back link of the first member. *)
Lemma dseg_repoint_first m p p' x l e t t' :
  x ∉ l -> m !! x = Some t -> prv t' = p' -> nxt t' = nxt t ->
  dseg m p (Some x) (x :: l) e -> dseg (<[x:=t']> m) p' (Some x) (x :: l) e.
Proof.
  intros Hx Ht Hp Hn (_ & t0 & Ht0 & _ & Hs). simplify_eq. split; [done|].
  exists t'. rewrite lookup_insert_eq, Hn. split_and!; [done..|]. by apply dseg_insert_ne.
Qed.

(** Redirecting the link of the last member. *)
Lemma dseg_relink_last m p h l x e e' t t' :
  x ∉ l -> m !! x = Some t -> nxt t' = e' -> prv t' = prv t ->
  dseg m p h (l ++ [x]) e -> dseg (<[x:=t']> m) p h (l ++ [x]) e'.
Proof.
  intros Hx Ht Hn Hp (q & H1 & (-> & t0 & Ht0 & Hp0 & _))%dseg_app. simplify_eq.
  apply dseg_app. exists (Some x). split; [by apply dseg_insert_ne|].
  split; [done|]. exists t'. rewrite lookup_insert_eq. by rewrite Hp.
Qed.

Lemma dchain_chain m h l : dchain m h l -> chain nxt m h l.
Proof. apply dseg_seg. Qed.

Lemma dchain_NoDup m h l : dchain m h l -> NoDup l.
Proof. intros H. by eapply chain_NoDup, dchain_chain. Qed.

(** A member with its two neighbours. *)
Lemma dchain_mid m h l1 x l2 :
  dchain m h (l1 ++ x :: l2) ->
  exists t, m !! x = Some t /\ prv t = last l1 /\ nxt t = head l2 /\
    dseg m None h l1 (Some x) /\ dseg m (Some x) (nxt t) l2 None.
Proof.
  intros (q & H1 & (-> & t & Ht & Hp & H2))%dseg_app. exists t.
  assert (Hl : dlast None l1 = last l1).
  { clear. destruct l1 as [|y l1] using rev_ind; [done|]. by rewrite dlast_snoc, last_snoc. }
  split_and!; [done|congruence| |done|done].
  destruct l2; simpl in H2; [done|naive_solver].
Qed.

(** Unlinking the first member: the back link of the next one is cleared. *)
Lemma dchain_pop m h x z l tz tz' :
  dchain m h (x :: z :: l) -> m !! z = Some tz -> prv tz' = None -> nxt tz' = nxt tz ->
  dchain (<[z := tz']> m) (Some z) (z :: l).
Proof.
  intros Hd Hz Hp Hn. pose proof (dchain_NoDup _ _ _ Hd) as Hnd.
  rewrite !NoDup_cons in Hnd. destruct Hnd as (_ & Hzl & _).
  destruct Hd as (_ & t & _ & _ & Hd). assert (nxt t = Some z) as E by (by destruct Hd).
  rewrite E in Hd. by eapply (dseg_repoint_first _ _ _ _ _ _ tz).
Qed.

(** Unlinking a member between its neighbours [y] and [z]. *)
Lemma dchain_unlink m h l1 y x z l2 ty tz ty' tz' :
  dchain m h ((l1 ++ [y]) ++ x :: z :: l2) -> m !! y = Some ty -> m !! z = Some tz ->
  nxt ty' = Some z -> prv ty' = prv ty -> prv tz' = Some y -> nxt tz' = nxt tz ->
  dchain (<[z := tz']> (<[y := ty']> m)) h ((l1 ++ [y]) ++ z :: l2).
Proof.
  intros Hd Hy Hz Hny Hpy Hpz Hnz. assert (Hnd := dchain_NoDup _ _ _ Hd).
  apply NoDup_app in Hnd as (Hn1 & Hd12 & Hn2). apply NoDup_app in Hn1 as (_ & Hd1 & _).
  apply NoDup_cons in Hn2 as [_ [Hzl _]%NoDup_cons].
  assert (y ∉ l1) by (intros ?; eapply Hd1; [done|set_solver]).
  assert (z ∉ l1 ++ [y]) by (intros ?; eapply (Hd12 z); [done|set_solver]).
  assert (y <> z /\ y ∉ l2) as [? ?].
  { split; [intros ->; set_solver|]. intros ?. apply (Hd12 y); set_solver. }
  apply dseg_app in Hd as (q & Ha & Hb). rewrite dlast_snoc in Hb.
  destruct Hb as (-> & tp' & ? & _ & Hb). assert (nxt tp' = Some z) as Hn by (by destruct Hb).
  rewrite Hn in Hb. apply dseg_app. exists (Some z). rewrite dlast_snoc. split.
  - apply dseg_insert_ne; [done|]. by eapply dseg_relink_last.
  - eapply (dseg_repoint_first _ _ _ _ _ _ tz); [done| |done|done|].
    + rewrite lookup_insert_ne by done. exact Hz.
    + apply dseg_insert_ne; [set_solver|done].
Qed.

(** Linking [x] behind the last member. *)
Lemma dchain_append m h l y x ty tx ty' tx' :
  dchain m h (l ++ [y]) -> x ∉ l ++ [y] -> m !! y = Some ty -> m !! x = Some tx ->
  nxt ty' = Some x -> prv ty' = prv ty -> nxt tx' = None -> prv tx' = Some y ->
  dchain (<[x := tx']> (<[y := ty']> m)) h ((l ++ [y]) ++ [x]).
Proof.
  intros Hd Hx Hy Htx Hn Hp Hn' Hp'. assert (Hnd := dchain_NoDup _ _ _ Hd).
  apply NoDup_app in Hnd as (_ & Hd1 & _).
  assert (y ∉ l) by (intros ?; eapply Hd1; [done|set_solver]).
  apply dseg_app. exists (Some x). split.
  - apply dseg_insert_ne; [done|]. by eapply dseg_relink_last.
  - rewrite dlast_snoc. split; [done|]. exists tx'. rewrite lookup_insert_eq.
    split_and!; [done..|]. by rewrite Hn'.
Qed.

End DoubleChain.

#[export] Hint Resolve chain_NoDup chain_length : rosx.
