(* ===== verification/Port.v ===== *)
(** * The x86 port: interrupt masking (src/arch/x86/osport.c)

    [rx_enter_critical] and [rx_exit_critical] are the kernel's names for
    [__disable_irq_global] and [__restore_irq_global] (rx_irq.h).  The port keeps
    two flags: [__context], 1 while an interrupt handler runs, and [__critical],
    1 while the signal that stands for interrupts is blocked. *)

From stdpp Require Import base gmap.
From Stdlib Require Import ZArith.
From S2P Require Import Prelude State.
#[local] Open Scope Z_scope.
#[local] Open Scope rosx_scope.

(** [__disable_irq_global]. *)
Definition rx_enter_critical : M Z :=
  let! s := get in
  if decide (k_context s <> 0 \/ k_critical s <> 0) then ret 0
  else
    upd (set_k_critical 1) ;;;
    ret 0.

(** [__restore_irq_global]; the port does not use the key. *)
Definition rx_exit_critical (key : Z) : M unit :=
  let! s := get in
  if decide (k_context s <> 0 \/ k_critical s = 0) then ret tt
  else upd (set_k_critical 0).

(** The printing macros with [CONFIG_PRINT_BUFFER]: [__rx_printk_to_buffer]
    formats into the print buffer inside a critical section of its own.  The
    text is not modelled, its effect on the interrupt mask is. *)
Definition pr_error : M unit :=
  let! imask := rx_enter_critical in
  rx_exit_critical imask.

(** [pr_panic] prints and goes on when [CONFIG_PRINT_BUFFER] is set. *)
Definition pr_panic : M unit := pr_error.

(** The value [__critical] has once a critical section has been left, and once
    one has been entered. *)
Definition crit_out (s : kst) : Z := if decide (k_context s = 0) then 0 else k_critical s.
Definition crit_in (s : kst) : Z :=
  if decide (k_context s = 0 /\ k_critical s = 0) then 1 else k_critical s.

Lemma set_critical_id s : set_k_critical (k_critical s) s = s.
Proof. by destruct s. Qed.

Lemma enter_run s : rx_enter_critical s = Done 0 (set_k_critical (crit_in s) s).
Proof.
  unfold rx_enter_critical. step. unfold crit_in.
  repeat case_decide; repeat step; try tauto; try reflexivity.
  by rewrite set_critical_id.
Qed.

Lemma exit_run i s : rx_exit_critical i s = Done tt (set_k_critical (crit_out s) s).
Proof.
  unfold rx_exit_critical. step. unfold crit_out.
  repeat case_decide; repeat step; try tauto; try reflexivity; unfold ret.
  - replace 0 with (k_critical s) by tauto. by rewrite set_critical_id.
  - by rewrite set_critical_id.
Qed.

Lemma pr_error_run s : pr_error s = Done tt (set_k_critical (crit_out s) s).
Proof.
  unfold pr_error. erewrite bind_run by apply enter_run. rewrite exit_run. f_equal.
  unfold crit_out, crit_in. simpl. by repeat case_decide; try tauto.
Qed.

(** Compare two states up to the flags a critical section leaves behind. *)
Ltac crit_eq :=
  unfold ret; unfold crit_out, crit_in; norm;
  repeat (case_decide; try tauto); state_eq.
