(* ===== verification/ReadyQueue.v ===== *)
(** * The ready queue (src/kernel/rx_task.c)

    [__rx_add_to_ready_q] and [__rx_remove_from_ready_q], the two operations
    every service of the kernel moves tasks with, and what they promise: on a
    ready queue sorted by priority, adding a task is insertion behind the tasks
    of its own priority, and removing one is removal from the list. *)

From stdpp Require Import base gmap list sorting.
From Stdlib Require Import ZArith Lia.
From S2P Require Import Prelude State Samples Chains Port.
#[local] Open Scope Z_scope.
#[local] Open Scope rosx_scope.

(** ** The code *)

(** The [while(start)] loop of [__rx_add_to_ready_q], up to the label [done];
    the NULL case is the assignment after the loop. *)
Fixpoint add_ready_loop (fuel : nat) (new : ptr) (prio : Z) (start prev : ptr) : M unit :=
  match fuel with
  | O => crash NoFuel
  | S fuel =>
    match start with
    | None => on_task prev (set_t_next new)
    | Some _ =>
      let! st := ld_task start in
      if decide (t_prio st >= prio) then
        if decide (t_prio st = prio) then
          match t_next st with
          | Some _ =>
            let! nx := ld_task (t_next st) in
            if decide (t_prio nx <> prio) then
              on_task new (set_t_next (t_next st)) ;;;
              on_task start (set_t_next new)
            else add_ready_loop fuel new prio (t_next st) start
          | None =>
            on_task new (set_t_next (t_next st)) ;;;
            on_task start (set_t_next new)
          end
        else
          on_task new (set_t_next start) ;;;
          let! hd := gets k_ready in
          if decide (start = hd) then upd (set_k_ready new)
          else on_task prev (set_t_next new)
      else add_ready_loop fuel new prio (t_next st) start
    end
  end.

(** The walks over the task queues visit each task once: [S (size tasks)]
    iterations are enough. *)
Definition task_fuel (s : kst) : nat := S (S (size (k_tasks s))).

Definition __rx_add_to_ready_q (new : ptr) : M Z :=
  let! n := ld_task new in
  let prio := t_prio n in
  if decide (~ (t_state n = RX_TASK_READY \/ t_state n = RX_TASK_RUNNING)) then
    pr_error ;;;
    ret OS_ERR
  else
    on_task new (set_t_next None) ;;;
    let! imask := rx_enter_critical in
    let! hd := gets k_ready in
    match hd with
    | None =>
      upd (set_k_ready new) ;;;
      rx_exit_critical imask ;;;
      ret OS_OK
    | Some _ =>
      let! fuel := gets task_fuel in
      add_ready_loop fuel new prio hd None ;;;
      let! s := get in
      (if decide (k_curr s <> k_ready s) then upd (set_k_need_resched 1) else ret tt) ;;;
      rx_exit_critical imask ;;;
      ret OS_OK
    end.

(** The loop of [__rx_remove_from_ready_q]; the NULL case is the assignment
    after the loop. *)
Fixpoint remove_ready_loop (fuel : nat) (rmv start prev : ptr) : M unit :=
  match fuel with
  | O => crash NoFuel
  | S fuel =>
    match start with
    | None => on_task prev (set_t_next None)
    | Some _ =>
      let! st := ld_task start in
      if decide (start = rmv) then
        let! hd := gets k_ready in
        if decide (start = hd) then upd (set_k_ready (t_next st))
        else on_task prev (set_t_next (t_next st))
      else remove_ready_loop fuel rmv (t_next st) start
    end
  end.

Definition __rx_remove_from_ready_q (rmv : ptr) : M Z :=
  let! imask := rx_enter_critical in
  let! start := gets k_ready in
  let! fuel := gets task_fuel in
  remove_ready_loop fuel rmv start None ;;;
  on_task rmv (set_t_next None) ;;;
  rx_exit_critical imask ;;;
  ret OS_OK.

(** ** Specification *)

(** The priority of a task in a store. *)
Definition prio (ts : gmap positive tcb) (x : positive) : Z :=
  from_option t_prio 0 (ts !! x).

(** The queue is sorted: the most urgent task (the least value) is first. *)
Definition prio_sorted (ts : gmap positive tcb) (l : list positive) : Prop :=
  StronglySorted (fun x y => prio ts x <= prio ts y) l.

(** Insertion by priority, behind the tasks of the same priority. *)
Fixpoint ins (ts : gmap positive tcb) (p : Z) (new : positive) (l : list positive)
  : list positive :=
  match l with
  | [] => [new]
  | x :: l' => if decide (prio ts x <= p) then x :: ins ts p new l' else new :: l
  end.

(** [relinked D ts ts']: [ts'] is [ts] except for the links of tasks of [D]. *)
Definition relinked (D : list positive) (ts ts' : gmap positive tcb) : Prop :=
  forall q, ts' !! q = ts !! q \/
    (q ∈ D /\ exists t n, ts !! q = Some t /\ ts' !! q = Some (set_t_next n t)).

Lemma set_next_id t : set_t_next (t_next t) t = t.
Proof. by destruct t. Qed.

Lemma relinked_refl D ts : relinked D ts ts.
Proof. intros q. by left. Qed.

Lemma relinked_trans D ts1 ts2 ts3 :
  relinked D ts1 ts2 -> relinked D ts2 ts3 -> relinked D ts1 ts3.
Proof.
  intros H1 H2 q. destruct (H2 q) as [E2|(Hq & t2 & n2 & E2 & E3)],
    (H1 q) as [E1|(Hq' & t1 & n1 & E1 & E1')].
  - left. congruence.
  - right. split; [done|]. exists t1, n1. split; [done|]. by rewrite E2.
  - right. split; [done|]. exists t2, n2. split; [|done]. by rewrite <- E1.
  - right. split; [done|]. exists t1, n2. rewrite E1' in E2. simplify_eq. done.
Qed.

Lemma relinked_mono D D' ts ts' : D ⊆ D' -> relinked D ts ts' -> relinked D' ts ts'.
Proof. intros HD H q. destruct (H q) as [?|(? & ?)]; [by left|right; set_solver]. Qed.

Lemma relinked_delete D ts ts' x : relinked D ts ts' -> relinked D (delete x ts) (delete x ts').
Proof.
  intros H q. destruct (decide (q = x)) as [->|Hq]; [left; by rewrite !lookup_delete_eq|].
  rewrite !lookup_delete_ne by done. apply H.
Qed.

Lemma relinked_set_prio D ts ts' x t t' p :
  relinked D ts ts' -> ts !! x = Some t -> ts' !! x = Some t' ->
  relinked D (<[x := set_t_prio p t]> ts) (<[x := set_t_prio p t']> ts').
Proof.
  intros H Ht Ht' q. rewrite !lookup_insert. case_decide; [subst q|apply H].
  destruct (H x) as [E|(Hx & t0 & n & E0 & E)]; [left; congruence|]. right. split; [done|].
  exists (set_t_prio p t), n. rewrite Ht in E0. rewrite Ht' in E. injection E0 as <-.
  injection E as ->. by destruct t.
Qed.

(** The tasks other than [x], after [x] has changed as well. *)
Lemma relinked_others D ts ts' x y t :
  relinked D (delete x ts) (delete x ts') -> y <> x -> ts !! y = Some t ->
  exists n, ts' !! y = Some (set_t_next n t).
Proof.
  intros H Hy Ht. destruct (H y) as [E|(_ & t0 & n & E0 & E)]; rewrite !lookup_delete_ne in * by done.
  - exists (t_next t). by rewrite E, Ht, set_next_id.
  - exists n. by simplify_eq.
Qed.

Lemma relinked_others_out D ts ts' x y :
  relinked D (delete x ts) (delete x ts') -> y <> x -> y ∉ D -> ts' !! y = ts !! y.
Proof.
  intros H Hy HyD. destruct (H y) as [E|(? & _)]; [|done]. by rewrite !lookup_delete_ne in E by done.
Qed.

Lemma relinked_insert D ts x t n :
  x ∈ D -> ts !! x = Some t -> relinked D ts (<[x := set_t_next n t]> ts).
Proof.
  intros Hx Ht q. destruct (decide (x = q)) as [<-|].
  - right. rewrite lookup_insert_eq. eauto.
  - left. by rewrite lookup_insert_ne.
Qed.

Lemma relinked_lookup D ts ts' q t :
  relinked D ts ts' -> ts !! q = Some t -> exists n, ts' !! q = Some (set_t_next n t).
Proof.
  intros H Ht. destruct (H q) as [E|(_ & t' & n & E1 & E2)]; simplify_eq; [|eauto].
  exists (t_next t). rewrite set_next_id. congruence.
Qed.

Lemma relinked_out D ts ts' q : relinked D ts ts' -> q ∉ D -> ts' !! q = ts !! q.
Proof. intros H Hq. destruct (H q) as [|(? & _)]; [done|set_solver]. Qed.

Lemma relinked_None D ts ts' q : relinked D ts ts' -> ts !! q = None -> ts' !! q = None.
Proof. intros H Hq. destruct (H q) as [|(? & ? & ? & ? & ?)]; congruence. Qed.

Lemma relinked_dom D ts ts' : relinked D ts ts' -> dom ts' = dom ts.
Proof.
  intros H. apply set_eq. intros q. rewrite !elem_of_dom.
  split; [|intros [t Ht]; edestruct relinked_lookup as [n Hn]; eauto].
  intros [t Ht]. destruct (ts !! q) eqn:E; [eauto|].
  rewrite (relinked_None _ _ _ _ H E) in Ht. done.
Qed.

Lemma relinked_prio D ts ts' q : relinked D ts ts' -> prio ts' q = prio ts q.
Proof.
  intros H. unfold prio. destruct (ts !! q) eqn:E.
  - edestruct relinked_lookup as [n Hn]; eauto. by rewrite Hn.
  - by rewrite (relinked_None _ _ _ _ H E).
Qed.

Lemma relinked_seg D ts ts' h l e :
  relinked D ts ts' -> l ## D -> seg t_next ts h l e -> seg t_next ts' h l e.
Proof.
  intros H HD. apply seg_frame. intros x Hx. erewrite relinked_out; [done|done|set_solver].
Qed.

Lemma relinked_sorted D ts ts' l :
  relinked D ts ts' -> prio_sorted ts l -> prio_sorted ts' l.
Proof.
  intros H Hs. unfold prio_sorted in *. induction Hs as [|x l Hs IH Hx]; constructor; [done|].
  eapply Forall_impl; [exact Hx|]. intros y Hy. by rewrite !(relinked_prio _ _ _ _ H).
Qed.

#[export] Hint Resolve relinked_refl : rosx.

(** ** Linking a task into a chain *)

Lemma chain_insert_front ts h l new tn :
  new ∉ l -> chain t_next ts h l ->
  chain t_next (<[new := set_t_next h tn]> ts) (Some new) (new :: l).
Proof.
  intros Hn Hc. split; [done|]. exists (set_t_next h tn).
  rewrite lookup_insert_eq. split; [done|]. by apply seg_insert_ne.
Qed.

Lemma chain_insert_after ts h l1 x l2 new tx tn :
  new ∉ l1 ++ x :: l2 -> ts !! x = Some tx -> chain t_next ts h (l1 ++ x :: l2) ->
  chain t_next
    (<[x := set_t_next (Some new) tx]> (<[new := set_t_next (t_next tx) tn]> ts))
    h (l1 ++ x :: new :: l2).
Proof.
  intros Hn Hx Hc. pose proof (chain_NoDup _ _ _ _ Hc) as Hnd.
  apply NoDup_app in Hnd as (_ & Hd & Hnd). apply NoDup_cons in Hnd as (Hx2 & _).
  assert (Hx1 : x ∉ l1) by (intros ?; eapply Hd; set_solver).
  apply seg_app in Hc as (p & H1 & (-> & tx' & Hx' & H2)). simplify_eq.
  apply seg_app. exists (Some x). split.
  - apply seg_insert_ne; [done|]. apply seg_insert_ne; [set_solver|done].
  - split; [done|]. exists (set_t_next (Some new) tx). rewrite lookup_insert_eq.
    split; [done|]. split; [done|]. exists (set_t_next (t_next tx) tn).
    rewrite lookup_insert_ne by set_solver. rewrite lookup_insert_eq. split; [done|].
    apply seg_insert_ne; [done|]. apply seg_insert_ne; [set_solver|done].
Qed.

Lemma relinked_insert2 D ts x tx n new tn n' :
  x ∈ D -> new ∈ D -> x <> new -> ts !! x = Some tx -> ts !! new = Some tn ->
  relinked D ts (<[x := set_t_next n tx]> (<[new := set_t_next n' tn]> ts)).
Proof.
  intros. eapply relinked_trans; [by apply relinked_insert|].
  apply relinked_insert; [done|]. by rewrite lookup_insert_ne.
Qed.

Lemma ins_skip ts p new l1 l2 :
  Forall (fun x => prio ts x <= p) l1 -> ins ts p new (l1 ++ l2) = l1 ++ ins ts p new l2.
Proof.
  induction 1 as [|x l1 Hx _ IH]; [done|]. simpl. rewrite decide_True by done. by rewrite IH.
Qed.

Lemma ins_above ts p new l :
  Forall (fun x => p < prio ts x) l -> ins ts p new l = new :: l.
Proof. destruct 1; simpl; [done|]. by rewrite decide_False by lia. Qed.

Lemma prio_lookup ts x t : ts !! x = Some t -> prio ts x = t_prio t.
Proof. unfold prio. by intros ->. Qed.

Lemma set_ready_id s : set_k_ready (k_ready s) s = s.
Proof. by destruct s. Qed.

(** The two ways the loop links the new task in. *)
Lemma link_after_run (new x : positive) s l1 l2 tx tn :
  new ∉ l1 ++ x :: l2 ->
  k_tasks s !! x = Some tx -> k_tasks s !! new = Some tn ->
  chain t_next (k_tasks s) (k_ready s) (l1 ++ x :: l2) ->
  exists ts',
    (on_task (Some new) (set_t_next (t_next tx)) ;;;
     on_task (Some x) (set_t_next (Some new))) s
      = Done tt (set_k_ready (k_ready s) (set_k_tasks ts' s)) /\
    chain t_next ts' (k_ready s) (l1 ++ x :: new :: l2) /\
    relinked (new :: l1 ++ x :: l2) (k_tasks s) ts'.
Proof.
  intros Hn Hx Hw Hc. assert (x <> new) by set_solver. eexists. split.
  - step. step. state_eq.
  - split; [by apply chain_insert_after|]. apply relinked_insert2; set_solver.
Qed.

Lemma link_front_run (new x : positive) s l tn (prev : ptr) :
  new ∉ x :: l -> k_ready s = Some x -> k_tasks s !! new = Some tn ->
  chain t_next (k_tasks s) (k_ready s) (x :: l) ->
  exists ts',
    (on_task (Some new) (set_t_next (Some x)) ;;;
     let! hd := gets k_ready in
     if decide (Some x = hd) then upd (set_k_ready (Some new))
     else on_task prev (set_t_next (Some new))) s
      = Done tt (set_k_ready (Some new) (set_k_tasks ts' s)) /\
    chain t_next ts' (Some new) (new :: x :: l) /\
    relinked (new :: x :: l) (k_tasks s) ts'.
Proof.
  intros Hn Hr Hw Hc. eexists. split.
  - step. step. rewrite Hr, decide_True by done. state_eq.
  - rewrite Hr in Hc. split; [by apply chain_insert_front|].
    apply relinked_insert; set_solver.
Qed.

Lemma link_before_run (new x y : positive) s l1 l2 ty tn :
  new ∉ l1 ++ y :: x :: l2 -> k_tasks s !! new = Some tn -> k_tasks s !! y = Some ty ->
  chain t_next (k_tasks s) (k_ready s) (l1 ++ y :: x :: l2) ->
  exists ts',
    (on_task (Some new) (set_t_next (Some x)) ;;;
     let! hd := gets k_ready in
     if decide (Some x = hd) then upd (set_k_ready (Some new))
     else on_task (Some y) (set_t_next (Some new))) s
      = Done tt (set_k_ready (k_ready s) (set_k_tasks ts' s)) /\
    chain t_next ts' (k_ready s) (l1 ++ y :: new :: x :: l2) /\
    relinked (new :: l1 ++ y :: x :: l2) (k_tasks s) ts'.
Proof.
  intros Hn Hw Hy Hc.
  assert (Hty : t_next ty = Some x).
  { apply seg_app in Hc as (p & _ & (-> & t' & ? & (? & _))). congruence. }
  assert (k_ready s <> Some x).
  { rewrite (chain_head _ _ _ _ Hc). pose proof (chain_NoDup _ _ _ _ Hc) as Hnd.
    destruct l1; simpl; intros; simplify_eq; inversion Hnd; set_solver. }
  assert (y <> new) by set_solver. eexists. split.
  - step. step. rewrite decide_False by congruence. step. state_eq.
  - rewrite <- Hty. split; [by apply chain_insert_after|]. apply relinked_insert2; set_solver.
Qed.

Lemma last_snoc_inv (l : list positive) :
  l = [] \/ exists l' y, l = l' ++ [y].
Proof. destruct l as [|y l] using rev_ind; eauto. Qed.

Lemma link_last_run (new y : positive) s l tn :
  new ∉ l ++ [y] -> k_tasks s !! new = Some tn -> t_next tn = None ->
  chain t_next (k_tasks s) (k_ready s) (l ++ [y]) ->
  exists ts',
    on_task (Some y) (set_t_next (Some new)) s
      = Done tt (set_k_ready (k_ready s) (set_k_tasks ts' s)) /\
    chain t_next ts' (k_ready s) (l ++ [y; new]) /\
    relinked (new :: l ++ [y]) (k_tasks s) ts'.
Proof.
  intros Hn Hw Hnil Hc. destruct (seg_lookup _ _ _ _ _ y Hc ltac:(set_solver)) as [ty Hy].
  assert (Hty : t_next ty = None).
  { apply seg_app in Hc as (q & _ & (-> & t' & ? & Hnl)). simpl in Hnl. congruence. }
  exists (<[y := set_t_next (Some new) ty]> (k_tasks s)).
  split; [erewrite modify_run by lk; state_eq|].
  split; [|apply relinked_insert; [set_solver|done]].
  pose proof (chain_insert_after _ _ _ _ [] new ty tn Hn Hy Hc) as H.
  by rewrite Hty, <- Hnil, set_next_id, (insert_id _ new) in H by done.
Qed.

(** The loop, from any point of its walk: [l1] has been passed. *)
Lemma add_ready_loop_spec fuel s l1 l2 new p tn :
  (length l2 < fuel)%nat ->
  chain t_next (k_tasks s) (k_ready s) (l1 ++ l2) ->
  l1 ++ l2 <> [] -> new ∉ l1 ++ l2 -> k_tasks s !! new = Some tn -> t_next tn = None ->
  prio_sorted (k_tasks s) l2 ->
  exists ts' h',
    add_ready_loop fuel (Some new) p (head l2) (last l1) s
      = Done tt (set_k_ready h' (set_k_tasks ts' s)) /\
    chain t_next ts' h' (l1 ++ ins (k_tasks s) p new l2) /\
    relinked (new :: l1 ++ l2) (k_tasks s) ts'.
Proof.
  revert fuel l1. induction l2 as [|x l2 IH]; intros fuel l1 Hf Hc Hne Hn Hw Hnil Hs;
    (destruct fuel as [|fuel]; [simpl in Hf; lia|]).
  { rewrite app_nil_r in *. destruct (last_snoc_inv l1) as [->|(l1' & y & ->)]; [done|].
    rewrite last_snoc. cbn [head add_ready_loop ins]. rewrite <- app_assoc.
    edestruct link_last_run as (ts' & H1 & H2 & H3); eauto. }
  pose proof (StronglySorted_inv Hs) as [Hs' Hx].
  destruct (seg_lookup _ _ _ _ _ x Hc ltac:(set_solver)) as [tx Htx].
  pose proof (prio_lookup _ _ _ Htx) as Hpx.
  assert (Hnx : t_next tx = head l2).
  { apply seg_app in Hc as (q & _ & (-> & t' & ? & Hc')). simplify_eq. by apply chain_head in Hc'. }
  assert (Hgo : prio (k_tasks s) x <= p -> exists ts' h',
      add_ready_loop fuel (Some new) p (t_next tx) (Some x) s
      = Done tt (set_k_ready h' (set_k_tasks ts' s)) /\
      chain t_next ts' h' (l1 ++ ins (k_tasks s) p new (x :: l2)) /\
      relinked (new :: l1 ++ x :: l2) (k_tasks s) ts').
  { intros Hle. simpl. rewrite decide_True by done. rewrite Hnx.
    specialize (IH fuel (l1 ++ [x])). rewrite last_snoc, <- !app_assoc in IH. simpl in IH, Hf.
    apply IH; auto. lia. }
  assert (Hhere : prio (k_tasks s) x = p -> Forall (fun y => p < prio (k_tasks s) y) l2 ->
      exists ts' h', (on_task (Some new) (set_t_next (t_next tx)) ;;;
                      on_task (Some x) (set_t_next (Some new))) s
      = Done tt (set_k_ready h' (set_k_tasks ts' s)) /\
      chain t_next ts' h' (l1 ++ ins (k_tasks s) p new (x :: l2)) /\
      relinked (new :: l1 ++ x :: l2) (k_tasks s) ts').
  { intros <- Hab. simpl. rewrite decide_True by lia. rewrite (ins_above _ _ _ l2) by done.
    edestruct link_after_run as (ts' & H1 & H2 & H3); eauto. }
  cbn [head add_ready_loop]. step. case_decide as Hge; [|apply Hgo; lia].
  case_decide as Heq.
  - destruct l2 as [|y l2]; cbn [head] in Hnx; rewrite Hnx in Hhere, Hgo |- *.
    + apply Hhere; [lia|constructor].
    + destruct (seg_lookup _ _ _ _ _ y Hc ltac:(set_solver)) as [ty Hty].
      step. rewrite <- (prio_lookup _ _ _ Hty).
      inversion Hx; subst. inversion Hs'; subst.
      case_decide; [apply Hhere; [lia|]|apply Hgo; lia].
      constructor; [lia|]. eapply Forall_impl; [done|]. simpl. lia.
  - rewrite ins_above by (constructor; [lia|eapply Forall_impl; [done|]; simpl; lia]).
    destruct (last_snoc_inv l1) as [->|(l1' & y & ->)].
    + edestruct (link_front_run new x) as (ts' & H1 & H2 & H3); eauto.
      by apply chain_head in Hc.
    + destruct (seg_lookup _ _ _ _ _ y Hc ltac:(set_solver)) as [ty Hty].
      rewrite last_snoc. rewrite <- !app_assoc in *. simpl in *.
      edestruct (link_before_run new x y) as (ts' & H1 & H2 & H3); eauto.
Qed.

Lemma ins_ext ts ts' p new l :
  (forall x, x ∈ l -> prio ts' x = prio ts x) -> ins ts' p new l = ins ts p new l.
Proof.
  induction l as [|x l IH]; intros H; simpl; [done|].
  rewrite H, IH by set_solver. done.
Qed.

Lemma ins_perm ts p new l : ins ts p new l ≡ₚ new :: l.
Proof.
  induction l as [|x l IH]; simpl; [done|]. case_decide; [|done].
  rewrite IH. apply Permutation_swap.
Qed.

Lemma elem_of_ins ts p new l x : x ∈ ins ts p new l <-> x = new \/ x ∈ l.
Proof. rewrite (ins_perm ts p new l). set_solver. Qed.

(** The state after an operation on the ready queue: links, head,
    [__rx_need_resched] and the interrupt mask change, nothing else does. *)
Definition rq_upd (ts : gmap positive tcb) (h : ptr) (r : Z) (s : kst) : kst :=
  set_k_critical (crit_out s) (set_k_need_resched r (set_k_ready h (set_k_tasks ts s))).

(** [__rx_need_resched] after an insertion into the queue [l]. *)
Definition resched_after (s : kst) (l : list positive) (h : ptr) : Z :=
  if decide (l = [] \/ k_curr s = h) then k_need_resched s else 1.

Lemma add_ready_spec s l new tn :
  k_tasks s !! new = Some tn ->
  t_state tn = RX_TASK_READY \/ t_state tn = RX_TASK_RUNNING ->
  chain t_next (k_tasks s) (k_ready s) l -> prio_sorted (k_tasks s) l -> new ∉ l ->
  let l' := ins (k_tasks s) (t_prio tn) new l in
  exists ts',
    __rx_add_to_ready_q (Some new) s
      = Done OS_OK (rq_upd ts' (head l') (resched_after s l (head l')) s) /\
    chain t_next ts' (head l') l' /\
    relinked (new :: l) (k_tasks s) ts'.
Proof.
  intros Hw Hst Hc Hs Hn l'. unfold __rx_add_to_ready_q, resched_after, rq_upd.
  step. rewrite decide_False by tauto. step.
  erewrite bind_run by apply enter_run. step.
  set (ts1 := <[new := set_t_next None tn]> (k_tasks s)).
  assert (Hr1 : relinked [new] (k_tasks s) ts1) by (apply relinked_insert; [set_solver|done]).
  destruct (k_ready s) as [h|] eqn:Hh.
  - set (s1 := set_k_critical _ _). step.
    assert (Hl : l <> []) by (intros ->; done).
    assert (Hc1 : chain t_next ts1 (Some h) l) by (eapply relinked_seg; eauto; set_solver).
    destruct (add_ready_loop_spec (task_fuel s1) s1 [] l new (t_prio tn) (set_t_next None tn))
      as (ts2 & h2 & E & Hc2 & Hr2).
    { apply chain_length in Hc1. unfold task_fuel. change (k_tasks s1) with ts1. lia. }
    1: simpl; by rewrite Hh.
    all: try done.
    { apply lookup_insert_eq. }
    { by eapply relinked_sorted. }
    rewrite (chain_head _ _ _ _ Hc).
    erewrite bind_run by exact E. cbn [app] in Hc2.
    assert (Hins : ins (k_tasks s1) (t_prio tn) new l = l').
    { apply ins_ext. intros x _. by eapply relinked_prio. }
    rewrite Hins in Hc2. pose proof (chain_head _ _ _ _ Hc2) as ->.
    exists ts2. split; [|split; [done|eapply relinked_trans; [|exact Hr2];
      eapply relinked_mono; [|exact Hr1]; set_solver]].
    step. unfold s1. norm. destruct (decide (k_curr s = head l')).
    + rewrite decide_False by tauto. step. erewrite bind_run by apply exit_run.
      rewrite decide_True by tauto. crit_eq.
    + rewrite decide_True by tauto. step. erewrite bind_run by apply exit_run.
      rewrite decide_False by tauto. crit_eq.
  - apply chain_nil_inv in Hc as ->. exists ts1. split.
    + step. erewrite bind_run by apply exit_run.
      rewrite decide_True by tauto. crit_eq.
    + split; [|done]. split; [done|]. exists (set_t_next None tn).
      unfold ts1. by rewrite lookup_insert_eq.
Qed.

(** The task is refused when it is neither READY nor RUNNING. *)
Lemma add_ready_refused s new tn :
  k_tasks s !! new = Some tn ->
  t_state tn <> RX_TASK_READY -> t_state tn <> RX_TASK_RUNNING ->
  __rx_add_to_ready_q (Some new) s = Done OS_ERR (set_k_critical (crit_out s) s).
Proof.
  intros Hw H1 H2. unfold __rx_add_to_ready_q. step. rewrite decide_True by tauto.
  erewrite bind_run by apply pr_error_run. done.
Qed.

(** ** Removal *)

Lemma chain_remove_head ts x l tx :
  chain t_next ts (Some x) (x :: l) -> ts !! x = Some tx ->
  chain t_next (<[x := set_t_next None tx]> ts) (t_next tx) l.
Proof.
  intros Hc Hx. pose proof (chain_NoDup _ _ _ _ Hc) as Hn. inversion Hn; subst.
  destruct Hc as (_ & t & Ht & Hc). simplify_eq. by apply seg_insert_ne.
Qed.

Lemma chain_remove_after ts h l1 y x l2 ty tx :
  chain t_next ts h (l1 ++ y :: x :: l2) -> ts !! y = Some ty -> ts !! x = Some tx ->
  chain t_next (<[x := set_t_next None tx]> (<[y := set_t_next (t_next tx) ty]> ts))
    h (l1 ++ y :: l2).
Proof.
  intros Hc Hy Hx. pose proof (chain_NoDup _ _ _ _ Hc) as Hn.
  apply NoDup_app in Hn as (_ & Hd & Hn). inversion Hn as [|?? Hy2 Hn2]; subst.
  inversion Hn2 as [|?? Hx2 Hn3]; subst.
  assert (y ∉ l1 /\ x ∉ l1) as [? ?] by (split; intros ?; eapply Hd; set_solver).
  apply seg_app in Hc as (p & H1 & (-> & ty' & Hy' & (Hyx & tx' & Hx' & H2))).
  assert (tx' = tx) as -> by congruence. assert (ty' = ty) as -> by congruence.
  apply seg_app. exists (Some y). split.
  - do 2 (apply seg_insert_ne; [done|]). done.
  - split; [done|]. exists (set_t_next (t_next tx) ty).
    rewrite lookup_insert_ne, lookup_insert_eq by set_solver. split; [done|].
    do 2 (apply seg_insert_ne; [set_solver|]). done.
Qed.

(** The loop finds the task: what it leaves, before [rmv->next = NULL]. *)
Lemma remove_ready_loop_spec fuel s l1 l2 l3 x :
  (length l2 < fuel)%nat ->
  chain t_next (k_tasks s) (k_ready s) (l1 ++ l2 ++ x :: l3) ->
  exists ts1 h1 tx,
    remove_ready_loop fuel (Some x) (head (l2 ++ [x])) (last l1) s
      = Done tt (set_k_ready h1 (set_k_tasks ts1 s)) /\
    ts1 !! x = Some tx /\ k_tasks s !! x = Some tx /\
    chain t_next (<[x := set_t_next None tx]> ts1) h1 (l1 ++ l2 ++ l3) /\
    relinked (l1 ++ l2 ++ x :: l3) (k_tasks s) ts1.
Proof.
  revert fuel l1. induction l2 as [|y l2 IH]; intros fuel l1 Hf Hc;
    (destruct fuel as [|fuel]; [simpl in Hf; lia|]); cbn [head app remove_ready_loop].
  - destruct (seg_lookup _ _ _ _ _ x Hc ltac:(set_solver)) as [tx Hx].
    step. rewrite decide_True by done. step.
    destruct (last_snoc_inv l1) as [->|(l1' & y & ->)].
    + pose proof (chain_head _ _ _ _ Hc) as Hh. cbn [head app] in Hh.
      rewrite Hh, decide_True by done. rewrite Hh in Hc.
      exists (k_tasks s), (t_next tx), tx. split; [state_eq|]. split_and!; auto with rosx.
      by apply chain_remove_head.
    + rewrite last_snoc. rewrite <- !app_assoc in *. simpl in *.
      destruct (seg_lookup _ _ _ _ _ y Hc ltac:(set_solver)) as [ty Hy].
      pose proof (chain_NoDup _ _ _ _ Hc) as Hnd.
      assert (x <> y) by (apply NoDup_app in Hnd as (_ & _ & Hnd); inversion Hnd; set_solver).
      rewrite decide_False; last first.
      { rewrite (chain_head _ _ _ _ Hc). destruct l1'; simpl; intros; simplify_eq;
          inversion Hnd; set_solver. }
      exists (<[y := set_t_next (t_next tx) ty]> (k_tasks s)), (k_ready s), tx.
      split; [erewrite modify_run by lk; state_eq|]. rewrite lookup_insert_ne by done.
      split_and!; [done..| |apply relinked_insert; [set_solver|done]].
      by apply chain_remove_after.
  - destruct (seg_lookup _ _ _ _ _ y Hc ltac:(set_solver)) as [ty Hy].
    step. pose proof (chain_NoDup _ _ _ _ Hc) as Hnd.
    rewrite decide_False; last first.
    { intros ?. simplify_eq. apply NoDup_app in Hnd as (_ & _ & Hnd). inversion Hnd. set_solver. }
    assert (Hny : t_next ty = head (l2 ++ [x])).
    { apply seg_app in Hc as (p & _ & (-> & t' & ? & Hc)). simplify_eq.
      apply chain_head in Hc as ->. by destruct l2. }
    specialize (IH fuel (l1 ++ [y])). rewrite last_snoc, <- !app_assoc in IH.
    rewrite Hny. simpl in IH, Hf. apply IH; [lia|done].
Qed.

Lemma remove_ready_spec s l1 l2 x :
  chain t_next (k_tasks s) (k_ready s) (l1 ++ x :: l2) ->
  exists ts' tx,
    __rx_remove_from_ready_q (Some x) s
      = Done OS_OK (rq_upd ts' (head (l1 ++ l2)) (k_need_resched s) s) /\
    chain t_next ts' (head (l1 ++ l2)) (l1 ++ l2) /\
    relinked (l1 ++ x :: l2) (k_tasks s) ts' /\
    k_tasks s !! x = Some tx /\ ts' !! x = Some (set_t_next None tx).
Proof.
  intros Hc. unfold __rx_remove_from_ready_q.
  erewrite bind_run by apply enter_run. set (s1 := set_k_critical _ _). step. step.
  destruct (remove_ready_loop_spec (task_fuel s1) s1 [] l1 l2 x)
    as (ts1 & h1 & tx & E & Hx & Hx0 & Hc1 & Hr1).
  { apply chain_length in Hc. rewrite length_app in Hc. unfold task_fuel.
    change (k_tasks s1) with (k_tasks s). simpl in Hc. lia. }
  { done. }
  assert (Hst : head (l1 ++ [x]) = k_ready s).
  { rewrite (chain_head _ _ _ _ Hc). by destruct l1. }
  rewrite Hst in E. erewrite bind_run by exact E. cbn [app] in *.
  pose proof (chain_head _ _ _ _ Hc1) as ->.
  exists (<[x := set_t_next None tx]> ts1), tx. split.
  { erewrite bind_modify by exact Hx. erewrite bind_run by apply exit_run.
    unfold rq_upd, s1. cbn [set_store store_of tcb_store]. norm. crit_eq. }
  split_and!; [done| |done|by rewrite lookup_insert_eq].
  eapply relinked_trans; [exact Hr1|]. apply relinked_insert; [set_solver|done].
Qed.

(** Walking past every task of the queue. *)
Lemma remove_ready_loop_absent fuel s l1 l2 x :
  (length l2 < fuel)%nat -> l1 ++ l2 <> [] -> x ∉ l2 ->
  chain t_next (k_tasks s) (k_ready s) (l1 ++ l2) ->
  remove_ready_loop fuel (Some x) (head l2) (last l1) s = Done tt s.
Proof.
  revert fuel l1. induction l2 as [|y l2 IH]; intros fuel l1 Hf Hne Hx Hc;
    (destruct fuel as [|fuel]; [simpl in Hf; lia|]); cbn [head remove_ready_loop].
  - rewrite app_nil_r in *. destruct (last_snoc_inv l1) as [->|(l1' & y & ->)]; [done|].
    destruct (seg_lookup _ _ _ _ _ y Hc ltac:(set_solver)) as [ty Hy]. rewrite last_snoc.
    erewrite modify_run by lk. apply seg_app in Hc as (p & _ & (-> & t' & ? & Hnl)).
    simpl in Hnl. assert (t' = ty) as -> by congruence. rewrite <- Hnl, set_next_id.
    f_equal. cbn [set_store store_of tcb_store]. rewrite insert_id by done. by destruct s.
  - destruct (seg_lookup _ _ _ _ _ y Hc ltac:(set_solver)) as [ty Hy].
    step. rewrite decide_False by set_solver.
    assert (Hny : t_next ty = head l2).
    { apply seg_app in Hc as (p & _ & (-> & t' & ? & Hc)). simplify_eq. by apply chain_head in Hc. }
    specialize (IH fuel (l1 ++ [y])). rewrite last_snoc, <- !app_assoc in IH.
    rewrite Hny. simpl in IH, Hf. apply IH; [lia|done|set_solver|done].
Qed.

(** A task that is not queued: the queue is left alone. *)
Lemma remove_ready_absent s l x tx :
  chain t_next (k_tasks s) (k_ready s) l -> l <> [] -> x ∉ l -> k_tasks s !! x = Some tx ->
  __rx_remove_from_ready_q (Some x) s
    = Done OS_OK (rq_upd (<[x := set_t_next None tx]> (k_tasks s)) (k_ready s)
                    (k_need_resched s) s).
Proof.
  intros Hc Hne Hn Hx. unfold __rx_remove_from_ready_q.
  erewrite bind_run by apply enter_run. set (s1 := set_k_critical _ _). step. step.
  pose proof (remove_ready_loop_absent (task_fuel s1) s1 [] l x) as E.
  rewrite <- (chain_head _ _ _ _ Hc) in E. erewrite bind_run.
  2:{ apply E; auto. apply chain_length in Hc. unfold task_fuel.
      change (k_tasks s1) with (k_tasks s). lia. }
  step. erewrite bind_run by apply exit_run. unfold rq_upd, s1. crit_eq.
Qed.

(** With nothing queued, the assignment after the loop goes through NULL. *)
Lemma remove_ready_empty s x :
  k_ready s = None -> __rx_remove_from_ready_q (Some x) s = Crash NullDeref.
Proof.
  intros H. unfold __rx_remove_from_ready_q. erewrite bind_run by apply enter_run.
  step. step. by rewrite H.
Qed.

(** ** The contract with the other services *)

(** Insertion keeps the queue sorted, removal too. *)
Lemma ins_sorted ts new l :
  prio_sorted ts l -> prio_sorted ts (ins ts (prio ts new) new l).
Proof.
  unfold prio_sorted. induction 1 as [|x l Hs IH Hx]; simpl; [by repeat constructor|].
  case_decide as Hle.
  - constructor; [done|]. apply Forall_forall. intros y [->|Hy]%elem_of_ins; [done|].
    rewrite Forall_forall in Hx. auto.
  - constructor; [by constructor|]. constructor; [lia|].
    eapply Forall_impl; [done|]. simpl. lia.
Qed.

Lemma sorted_remove ts l1 x l2 : prio_sorted ts (l1 ++ x :: l2) -> prio_sorted ts (l1 ++ l2).
Proof.
  unfold prio_sorted. induction l1 as [|y l1 IH]; simpl; intros H.
  - by inversion H.
  - inversion H as [|?? Hs Hy]; subst. constructor; [by apply IH|].
    apply Forall_app in Hy as [? Hy]. apply Forall_app. split; [done|]. by inversion Hy.
Qed.

(** The invariant of the ready queue: the links from its head [h]
    ([__rx_task_ready_head]) visit [l], the queue is sorted by priority, and its
    tasks are READY or RUNNING. *)
Definition runnable (t : tcb) : Prop :=
  t_state t = RX_TASK_READY \/ t_state t = RX_TASK_RUNNING.

#[export] Instance runnable_dec t : Decision (runnable t).
Proof. unfold runnable. apply _. Defined.

Record ready_queue (ts : gmap positive tcb) (h : ptr) (l : list positive) : Prop := {
  rq_chain : chain t_next ts h l;
  rq_sorted : prio_sorted ts l;
  rq_states : forall x t, x ∈ l -> ts !! x = Some t -> runnable t;
}.

Lemma ready_queue_nodup ts h l : ready_queue ts h l -> NoDup l.
Proof. intros [Hc _ _]. by eapply chain_NoDup. Qed.

Lemma ready_queue_head ts h l : ready_queue ts h l -> h = head l.
Proof. intros [Hc _ _]. by eapply chain_head. Qed.

Lemma ready_queue_lookup ts h l x :
  ready_queue ts h l -> x ∈ l -> exists t, ts !! x = Some t /\ runnable t.
Proof.
  intros [Hc _ Hs] Hx. destruct (seg_lookup _ _ _ _ _ _ Hc Hx) as [t Ht]. eauto.
Qed.

Lemma prio_insert ts x t y :
  prio (<[x:=t]> ts) y = if decide (x = y) then t_prio t else prio ts y.
Proof. unfold prio. rewrite lookup_insert. by case_decide. Qed.

Lemma prio_sorted_ext ts ts' l :
  (forall x, x ∈ l -> prio ts' x = prio ts x) -> prio_sorted ts l -> prio_sorted ts' l.
Proof.
  intros H Hs. unfold prio_sorted in *. induction Hs as [|x l Hs IH Hx]; constructor.
  - apply IH. set_solver.
  - rewrite Forall_forall in Hx |- *. intros y Hy. rewrite !H by set_solver. auto.
Qed.

(** Assignments to a task outside the queue. *)
Lemma ready_queue_out ts h l x t :
  x ∉ l -> ready_queue ts h l -> ready_queue (<[x:=t]> ts) h l.
Proof.
  intros Hx [Hc Hs Hst]. constructor.
  - by apply seg_insert_ne.
  - eapply prio_sorted_ext; [|done]. intros y Hy. rewrite prio_insert.
    case_decide; [set_solver|done].
  - intros y t' Hy Ht. rewrite lookup_insert_ne in Ht by set_solver. eauto.
Qed.

(** Assignments to a queued task that keep its link, its priority and its
    being runnable. *)
Lemma ready_queue_in ts h l x t t' :
  ts !! x = Some t -> t_next t' = t_next t -> t_prio t' = t_prio t ->
  (runnable t -> runnable t') ->
  ready_queue ts h l -> ready_queue (<[x:=t']> ts) h l.
Proof.
  intros Hx Hn Hp Hr [Hc Hs Hst]. constructor.
  - by eapply seg_insert_same.
  - eapply prio_sorted_ext; [|done]. intros y Hy. rewrite prio_insert.
    case_decide; [subst|done]. by rewrite Hp, (prio_lookup _ _ _ Hx).
  - intros y t1 Hy. rewrite lookup_insert. case_decide; [|eauto].
    intros. simplify_eq. eauto.
Qed.

(** Relinking keeps the tasks' states: the invariant follows from the chain
    and the order. *)
Lemma ready_queue_relinked D ts ts' h h' l l' :
  relinked D ts ts' -> ready_queue ts h l ->
  (forall x, x ∈ l' -> x ∈ l \/ exists t, ts !! x = Some t /\ runnable t) ->
  chain t_next ts' h' l' -> prio_sorted ts' l' -> ready_queue ts' h' l'.
Proof.
  intros Hr [_ _ Hst] Hin Hc Hs. constructor; [done|done|].
  intros x t Hx Ht.
  destruct (ts !! x) as [t0|] eqn:E;
    [|by rewrite (relinked_None _ _ _ _ Hr E) in Ht].
  edestruct (relinked_lookup _ _ _ _ _ Hr E) as [n Hn]. simplify_eq.
  assert (runnable t0); [|done].
  destruct (Hin x Hx) as [Hl|(t1 & ? & ?)]; [eauto|by simplify_eq].
Qed.

Lemma rq_add_ok s l new tn :
  ready_queue (k_tasks s) (k_ready s) l -> k_tasks s !! new = Some tn ->
  runnable tn -> new ∉ l ->
  let l' := ins (k_tasks s) (t_prio tn) new l in
  exists ts',
    __rx_add_to_ready_q (Some new) s
      = Done OS_OK (rq_upd ts' (head l') (resched_after s l (head l')) s) /\
    ready_queue ts' (head l') l' /\ relinked (new :: l) (k_tasks s) ts'.
Proof.
  intros Hq Hn Hst Hni l'. assert (Hq' := Hq). destruct Hq' as [Hc Hs _].
  destruct (add_ready_spec s l new tn) as (ts' & E & Hc' & Hr); auto.
  exists ts'. split_and!; [done| |done].
  eapply ready_queue_relinked; eauto.
  - intros x [->|?]%elem_of_ins; eauto.
  - eapply relinked_sorted; [exact Hr|]. unfold l'. rewrite <- (prio_lookup _ _ _ Hn).
    by apply ins_sorted.
Qed.

Lemma rq_remove_ok s l1 x l2 :
  ready_queue (k_tasks s) (k_ready s) (l1 ++ x :: l2) ->
  exists ts' tx,
    __rx_remove_from_ready_q (Some x) s
      = Done OS_OK (rq_upd ts' (head (l1 ++ l2)) (k_need_resched s) s) /\
    ready_queue ts' (head (l1 ++ l2)) (l1 ++ l2) /\
    relinked (l1 ++ x :: l2) (k_tasks s) ts' /\
    k_tasks s !! x = Some tx /\ ts' !! x = Some (set_t_next None tx).
Proof.
  intros Hq. assert (Hq' := Hq). destruct Hq' as [Hc Hs _].
  destruct (remove_ready_spec s l1 l2 x Hc) as (ts' & tx & E & Hc' & Hr & Hx & Hx').
  exists ts', tx. split_and!; auto.
  eapply ready_queue_relinked; eauto.
  - intros y Hy. left. set_solver.
  - eapply relinked_sorted; [done|]. by eapply sorted_remove.
Qed.

(** What the ready queue promises to the services built on it. *)
Class ReadyQueue (add remove : ptr -> M Z) : Prop := {
  rq_add : forall s l new tn,
    ready_queue (k_tasks s) (k_ready s) l -> k_tasks s !! new = Some tn ->
    runnable tn -> new ∉ l ->
    exists ts',
      let l' := ins (k_tasks s) (t_prio tn) new l in
      add (Some new) s = Done OS_OK (rq_upd ts' (head l') (resched_after s l (head l')) s) /\
      ready_queue ts' (head l') l' /\ relinked (new :: l) (k_tasks s) ts';
  rq_remove : forall s l1 x l2,
    ready_queue (k_tasks s) (k_ready s) (l1 ++ x :: l2) ->
    exists ts' tx,
      remove (Some x) s
        = Done OS_OK (rq_upd ts' (head (l1 ++ l2)) (k_need_resched s) s) /\
      ready_queue ts' (head (l1 ++ l2)) (l1 ++ l2) /\
      relinked (l1 ++ x :: l2) (k_tasks s) ts' /\
      k_tasks s !! x = Some tx /\ ts' !! x = Some (set_t_next None tx);
  rq_remove_absent : forall s l x tx,
    ready_queue (k_tasks s) (k_ready s) l -> l <> [] -> x ∉ l -> k_tasks s !! x = Some tx ->
    remove (Some x) s
      = Done OS_OK (rq_upd (<[x := set_t_next None tx]> (k_tasks s)) (k_ready s)
                      (k_need_resched s) s);
  rq_refuse : forall s new tn,
    k_tasks s !! new = Some tn -> ~ runnable tn ->
    add (Some new) s = Done OS_ERR (set_k_critical (crit_out s) s);
}.

#[export] Instance kernel_ready_queue :
  ReadyQueue __rx_add_to_ready_q __rx_remove_from_ready_q.
Proof.
  split.
  - intros. by apply rq_add_ok.
  - intros. by apply rq_remove_ok.
  - intros s l x tx [Hc _ _]. by apply remove_ready_absent.
  - unfold runnable. intros. eapply add_ready_refused; eauto.
Qed.

(** ** Checking the invariant on a concrete state *)

Fixpoint chainb {T} (nxt : T -> ptr) (m : gmap positive T) (h : ptr) (l : list positive) : bool :=
  match l with
  | [] => bool_decide (h = None)
  | x :: l' => bool_decide (h = Some x) &&
      match m !! x with Some t => chainb nxt m (nxt t) l' | None => false end
  end.

Lemma chainb_ok {T} (nxt : T -> ptr) m h l : chainb nxt m h l = true -> chain nxt m h l.
Proof.
  revert h. induction l as [|x l IH]; intros h; simpl.
  - by intros ?%bool_decide_eq_true.
  - intros [H1%bool_decide_eq_true H2]%andb_true_iff. destruct (m !! x) as [t|] eqn:E; [|done].
    split; [done|]. exists t. split; [done|]. by apply IH.
Qed.

Definition ready_queueb (ts : gmap positive tcb) (h : ptr) (l : list positive) : bool :=
  chainb t_next ts h l &&
  bool_decide (Sorted (fun x y => prio ts x <= prio ts y) l) &&
  forallb (fun x => match ts !! x with Some t => bool_decide (runnable t) | None => true end) l.

Lemma ready_queueb_ok ts h l : ready_queueb ts h l = true -> ready_queue ts h l.
Proof.
  unfold ready_queueb. intros [[Hc Hs%bool_decide_eq_true]%andb_true_iff Hst]%andb_true_iff.
  constructor.
  - by apply chainb_ok.
  - apply Sorted_StronglySorted; [|done]. intros x y z. lia.
  - intros x t Hx Ht. apply list_elem_of_In in Hx.
    rewrite forallb_forall in Hst. specialize (Hst x Hx). rewrite Ht in Hst.
    by apply bool_decide_eq_true in Hst.
Qed.

(** ** Properties *)

Lemma ins_split ts p new l :
  prio_sorted ts l ->
  exists l1 l2, l = l1 ++ l2 /\ ins ts p new l = l1 ++ new :: l2 /\
    Forall (fun x => prio ts x <= p) l1 /\ Forall (fun x => p < prio ts x) l2.
Proof.
  unfold prio_sorted. induction 1 as [|x l Hs IH Hx]; simpl.
  - exists [], []. auto.
  - case_decide.
    + destruct IH as (l1 & l2 & -> & -> & ? & ?). exists (x :: l1), l2. auto.
    + exists [], (x :: l). split_and!; auto. constructor; [lia|].
      eapply Forall_impl; [done|]. simpl. lia.
Qed.

(** C4: On a ready queue that satisfies its invariant, adding a runnable task
    that is not queued returns [OS_OK], puts the task behind every task that is
    at least as urgent and before every task that is less urgent, keeps the
    invariant, and changes nothing but links of queued tasks, the head,
    [__rx_need_resched] and the interrupt mask. *)
Theorem add_to_ready_q_inserts_by_priority s l new tn :
  ready_queue (k_tasks s) (k_ready s) l -> k_tasks s !! new = Some tn ->
  runnable tn -> new ∉ l ->
  exists l1 l2 ts',
    l = l1 ++ l2 /\
    Forall (fun x => prio (k_tasks s) x <= t_prio tn) l1 /\
    Forall (fun x => t_prio tn < prio (k_tasks s) x) l2 /\
    __rx_add_to_ready_q (Some new) s
      = Done OS_OK (rq_upd ts' (head (l1 ++ new :: l2))
                      (resched_after s l (head (l1 ++ new :: l2))) s) /\
    ready_queue ts' (head (l1 ++ new :: l2)) (l1 ++ new :: l2) /\
    relinked (new :: l) (k_tasks s) ts'.
Proof.
  intros Hq Hn Hr Hni. destruct (rq_add s l new tn) as (ts' & E & Hq' & Hrl); auto.
  destruct (ins_split (k_tasks s) (t_prio tn) new l) as (l1 & l2 & Hl & Hi & H1 & H2);
    [by destruct Hq|].
  exists l1, l2, ts'. rewrite Hi in E, Hq'. by split_and!.
Qed.

Lemma add_to_ready_q_inserts_by_priority_witness :
  exists l1 l2 ts',
    [1; 2; 3]%positive = l1 ++ l2 /\
    Forall (fun x => prio tasks4r x <= 2) l1 /\
    Forall (fun x => 2 < prio tasks4r x) l2 /\
    __rx_add_to_ready_q (Some 4%positive) (set_k_tasks tasks4r sample)
      = Done OS_OK (rq_upd ts' (head (l1 ++ 4%positive :: l2))
          (resched_after (set_k_tasks tasks4r sample) [1; 2; 3]%positive
             (head (l1 ++ 4%positive :: l2))) (set_k_tasks tasks4r sample)) /\
    ready_queue ts' (head (l1 ++ 4%positive :: l2)) (l1 ++ 4%positive :: l2) /\
    relinked [4; 1; 2; 3]%positive tasks4r ts'.
Proof.
  apply (add_to_ready_q_inserts_by_priority (set_k_tasks tasks4r sample) [1; 2; 3]%positive
           4%positive (task 2 RX_TASK_READY None)).
  - by apply ready_queueb_ok; vm_compute.
  - reflexivity.
  - by left.
  - set_solver.
Defined.

(** C8: Removing a queued task returns [OS_OK], leaves the other tasks queued
    in their order, clears the link of the removed task, keeps the invariant and
    changes nothing else. *)
Theorem remove_from_ready_q_removes s l1 x l2 :
  ready_queue (k_tasks s) (k_ready s) (l1 ++ x :: l2) ->
  exists ts' tx,
    __rx_remove_from_ready_q (Some x) s
      = Done OS_OK (rq_upd ts' (head (l1 ++ l2)) (k_need_resched s) s) /\
    ready_queue ts' (head (l1 ++ l2)) (l1 ++ l2) /\
    relinked (l1 ++ x :: l2) (k_tasks s) ts' /\
    k_tasks s !! x = Some tx /\ ts' !! x = Some (set_t_next None tx).
Proof. apply rq_remove. Qed.

Lemma remove_from_ready_q_removes_witness :
  exists ts' tx,
    __rx_remove_from_ready_q (Some 2%positive) sample
      = Done OS_OK (rq_upd ts' (Some 1%positive) 0 sample) /\
    ready_queue ts' (Some 1%positive) [1; 3]%positive /\
    relinked [1; 2; 3]%positive tasks3 ts' /\
    tasks3 !! 2%positive = Some tx /\ ts' !! 2%positive = Some (set_t_next None tx).
Proof.
  apply (remove_from_ready_q_removes sample [1]%positive 2 [3]%positive).
  by apply ready_queueb_ok; vm_compute.
Defined.
