(* ===== verification/Sched.v ===== *)
(** * The scheduler (src/kernel/rx_sched.c, arch/x86/switch.h)

    [rx_sched] gives the processor to the task at the head of the ready queue.
    The x86 port saves the registers of the running task and restores those of
    the next one; here the saved registers of a task are the continuation that
    [Switch] carries. *)

From stdpp Require Import base gmap list sorting.
From Stdlib Require Import ZArith Lia.
From S2P Require Import Prelude State Samples Chains Port ReadyQueue.
#[local] Open Scope Z_scope.
#[local] Open Scope rosx_scope.

Definition __rx_switch_to : M unit :=
  let! h := gets k_ready in
  upd (set_k_curr h) ;;;
  on_task h (set_t_state RX_TASK_RUNNING) ;;;
  let! t := ld_task h in
  (if decide (t_time_slice t <> 0 /\ t_ticks t = 0)
   then on_task h (set_t_ticks (t_time_slice t)) else ret tt) ;;;
  rx_exit_critical 1.

(** Control leaves the running task and comes back to it later. *)
Definition yield_cpu : M unit := fun s => Switch s (fun s' => Done tt s').

(** [__sched__(prev, next)]: save the registers in [*prev], load those of
    [*next], continue in [__rx_switch_to]. *)
Definition __sched__ (prev next : ptr) : M unit :=
  let! _ := ld_task prev in
  let! _ := ld_task next in
  __rx_switch_to ;;;
  yield_cpu.

Definition rx_sched : M unit :=
  let! s := get in
  if decide (k_curr s <> k_ready s) then
    upd (set_k_need_resched 0) ;;;
    let! a := rx_enter_critical in
    let! prev := gets k_curr in
    let! next := gets k_ready in
    __sched__ prev next
  else ret tt.

(** The task control block of a task that starts to run. *)
Definition dispatched (t : tcb) : tcb :=
  let t1 := set_t_state RX_TASK_RUNNING t in
  if decide (t_time_slice t <> 0 /\ t_ticks t = 0) then set_t_ticks (t_time_slice t) t1 else t1.

(** The state in which the task [h] starts to run. *)
Definition switched (h : positive) (t : tcb) (s : kst) : kst :=
  set_k_critical (crit_out s) (set_k_need_resched 0 (set_k_curr (Some h)
    (set_k_tasks (<[h := dispatched t]> (k_tasks s)) s))).

Lemma sched_run s c tc h th :
  k_curr s = Some c -> k_tasks s !! c = Some tc ->
  k_ready s = Some h -> k_tasks s !! h = Some th -> c <> h ->
  rx_sched s = Switch (switched h th s) (fun s' => Done tt s').
Proof.
  intros Hc Htc Hh Hth Hne. unfold rx_sched, __sched__, __rx_switch_to. step.
  rewrite Hc, Hh, decide_True by congruence. step.
  erewrite bind_run by apply enter_run. repeat (step; rewrite ?Hc, ?Hh).
  unfold switched, dispatched.
  destruct (decide _) as [Hd|Hd]; simpl in Hd.
  - repeat step. erewrite obind_run by apply exit_run. unfold yield_cpu.
    f_equal. rewrite insert_insert_eq. crit_eq.
  - repeat step. erewrite obind_run by apply exit_run. unfold yield_cpu.
    f_equal. crit_eq.
Qed.

Lemma sched_stay s : k_curr s = k_ready s -> rx_sched s = Done tt s.
Proof. intros H. unfold rx_sched. step. by rewrite decide_False by tauto. Qed.

(** With no task ready, the port loads the registers through NULL. *)
Lemma sched_empty s c tc :
  k_curr s = Some c -> k_tasks s !! c = Some tc -> k_ready s = None ->
  rx_sched s = Crash NullDeref.
Proof.
  intros Hc Htc Hr. unfold rx_sched, __sched__. step. rewrite Hc, Hr, decide_True by done.
  step. erewrite bind_run by apply enter_run. repeat step. rewrite Hc, Hr. by repeat step.
Qed.

Lemma dispatched_next t : t_next (dispatched t) = t_next t.
Proof. unfold dispatched. by case_decide. Qed.
Lemma dispatched_prio t : t_prio (dispatched t) = t_prio t.
Proof. unfold dispatched. by case_decide. Qed.
Lemma dispatched_state t : t_state (dispatched t) = RX_TASK_RUNNING.
Proof. unfold dispatched. by case_decide. Qed.

Lemma ready_queue_dispatched ts h0 l h th :
  ts !! h = Some th -> ready_queue ts h0 l ->
  ready_queue (<[h := dispatched th]> ts) h0 l.
Proof.
  intros Hh. eapply ready_queue_in; [done|by rewrite dispatched_next|by rewrite dispatched_prio|].
  intros _. right. apply dispatched_state.
Qed.

Lemma sorted_head_least ts h l x :
  prio_sorted ts (h :: l) -> x ∈ h :: l -> prio ts h <= prio ts x.
Proof.
  intros [_ Hf]%StronglySorted_inv [->|Hx]%elem_of_cons; [lia|].
  rewrite Forall_forall in Hf. auto.
Qed.

(** C5: Scheduling gives the processor to a most urgent ready task: when the
    running task is not at the head of the ready queue, [rx_sched] switches, the
    head becomes the running task in the state RUNNING, no queued task is more
    urgent, the queue's invariant holds, interrupts are enabled again and
    [__rx_need_resched] is cleared; when it is at the head, [rx_sched] returns at
    once and changes nothing. *)
Theorem rx_sched_runs_most_urgent s c tc h l :
  ready_queue (k_tasks s) (k_ready s) (h :: l) ->
  k_curr s = Some c -> k_tasks s !! c = Some tc -> k_context s = 0 ->
  (c = h /\ rx_sched s = Done tt s) \/
  (c <> h /\ exists s' th,
    rx_sched s = Switch s' (fun s2 => Done tt s2) /\
    k_curr s' = Some h /\ k_tasks s' !! h = Some th /\ t_state th = RX_TASK_RUNNING /\
    (forall x, x ∈ h :: l -> prio (k_tasks s') h <= prio (k_tasks s') x) /\
    ready_queue (k_tasks s') (k_ready s') (h :: l) /\
    k_critical s' = 0 /\ k_need_resched s' = 0).
Proof.
  intros Hq Hc Htc Hctx. pose proof (ready_queue_head _ _ _ Hq) as Hh. simpl in Hh.
  destruct (decide (c = h)) as [->|Hne].
  { left. split; [done|]. apply sched_stay. congruence. }
  right. split; [done|].
  destruct (ready_queue_lookup _ _ _ h Hq ltac:(set_solver)) as (th & Hth & _).
  exists (switched h th s), (dispatched th). split; [by eapply sched_run|].
  assert (Hq' := ready_queue_dispatched _ _ _ _ _ Hth Hq).
  unfold switched. norm. unfold crit_out. rewrite decide_True by done.
  split_and!; [done|apply lookup_insert_eq|apply dispatched_state| |done..].
  intros x Hx. destruct Hq' as [_ Hs _]. by eapply sorted_head_least.
Qed.

Lemma rx_sched_runs_most_urgent_witness :
  let s := set_k_curr (Some 2%positive) sample in
  (2 = 1 /\ rx_sched s = Done tt s)%positive \/
  (2%positive <> 1%positive /\ exists s' th,
    rx_sched s = Switch s' (fun s2 => Done tt s2) /\
    k_curr s' = Some 1%positive /\ k_tasks s' !! 1%positive = Some th /\
    t_state th = RX_TASK_RUNNING /\
    (forall x, x ∈ [1; 2; 3]%positive -> prio (k_tasks s') 1 <= prio (k_tasks s') x) /\
    ready_queue (k_tasks s') (k_ready s') [1; 2; 3]%positive /\
    k_critical s' = 0 /\ k_need_resched s' = 0).
Proof.
  apply (rx_sched_runs_most_urgent (set_k_curr (Some 2%positive) sample) 2
           (task 5 RX_TASK_READY (Some 3%positive)) 1 [2; 3]%positive); try reflexivity.
  by apply ready_queueb_ok; vm_compute.
Defined.
