(* ===== verification/TaskQueue.v ===== *)
(** * Queues of waiting tasks

    Mutexes, semaphores, message queues, block pools and wait queues keep the
    tasks that wait for them in a queue linked through the same [next] field as
    the ready queue: a task is in one queue at a time.  The code that appends a
    task is repeated in each service; it is modelled once here. *)

From stdpp Require Import base gmap list sorting.
From Stdlib Require Import ZArith Lia.
From S2P Require Import Prelude State Chains Port ReadyQueue Sched.
#[local] Open Scope Z_scope.
#[local] Open Scope rosx_scope.

(** [while(t->next) t = t->next;] over the link field [nxt]. *)
Fixpoint tail_of (nxt : tcb -> ptr) (fuel : nat) (tmp : ptr) : M ptr :=
  match fuel with
  | O => crash NoFuel
  | S fuel =>
    let! t := ld_task tmp in
    match nxt t with
    | Some _ => tail_of nxt fuel (nxt t)
    | None => ret tmp
    end
  end.

(** Walk to the end of the queue [q] and link [x] there. *)
Definition append_task (q x : ptr) : M unit :=
  let! fuel := gets task_fuel in
  let! t := tail_of t_next fuel q in
  on_task t (set_t_next x).

(** The timeout handlers take a task out of the middle of a queue:
    [while(t1 != task) { t2 = t1; t1 = t1->next; } t2->next = t1->next;]. *)
Fixpoint unlink_loop (fuel : nat) (task t1 t2 : ptr) : M unit :=
  match fuel with
  | O => crash NoFuel
  | S fuel =>
    let! t := ld_task t1 in
    if decide (t1 = task) then on_task t2 (set_t_next (t_next t))
    else unlink_loop fuel task (t_next t) t1
  end.

(** ** Objects with a queue of waiting tasks

    The structures of the services have a field with the first waiting task
    ([task] of a mutex, of a semaphore, ...).  [WaitService] is what the code and
    the proofs below use of such a structure. *)
Class WaitService (T : Type) `{Store T} := {
  ws_head : T -> ptr;
  ws_set : ptr -> T -> T;
  ws_set_head : forall t, ws_set (ws_head t) t = t;
  ws_tasks : forall m s, k_tasks (set_store m s) = k_tasks s;
  ws_store_tasks : forall ts s, store_of (set_k_tasks ts s) = store_of s;
  ws_store_id : forall s, set_store (store_of s) s = s;
  ws_store_rq : forall ts h r s, store_of (rq_upd ts h r s) = store_of s;
}.

Section Service.
  Context {T : Type} `{WaitService T}.

(** [if(!(p->task)) p->task = x; else { walk to the end; link x; }]. *)
Definition enqueue_on (p x : ptr) : M unit :=
  let! o := load (T:=T) p in
  match ws_head o with
  | None => modify (T:=T) p (ws_set x)
  | Some _ => append_task (ws_head o) x
  end.

(** The code of the timeout handlers that takes a task out of the queue. *)
Definition dequeue_from (p task : ptr) : M unit :=
  let! o := load (T:=T) p in
  if decide (ws_head o = task) then
    let! w := ld_task (ws_head o) in
    modify (T:=T) p (ws_set (t_next w))
  else
    let! fuel := gets task_fuel in
    unlink_loop fuel task (ws_head o) (ws_head o).

End Service.

#[global] Arguments enqueue_on T {_ _} p x.
#[global] Arguments dequeue_from T {_ _} p task.

Lemma tail_of_run nxt fuel s h l y :
  (length l < fuel)%nat -> chain nxt (k_tasks s) (Some h) (l ++ [y]) ->
  tail_of nxt fuel (Some h) s = Done (Some y) s.
Proof.
  revert fuel h. induction l as [|x l IH]; intros fuel h Hf Hc;
    (destruct fuel as [|fuel]; [simpl in Hf; lia|]); cbn [tail_of].
  - destruct Hc as (? & t & Ht & Hn). simplify_eq. simpl in Hn. step. by rewrite Hn.
  - destruct Hc as (? & t & Ht & Hc). simplify_eq. step.
    pose proof (chain_head _ _ _ _ Hc) as Hn.
    destruct (nxt t) as [n|] eqn:E; [|by destruct l].
    apply IH; [simpl in Hf; lia|done].
Qed.

Lemma unlink_loop_run fuel s t1 t2 l1 x l2 tx :
  (length l1 < fuel)%nat -> chain t_next (k_tasks s) t1 (l1 ++ x :: l2) -> x ∉ l1 ->
  k_tasks s !! x = Some tx ->
  unlink_loop fuel (Some x) t1 t2 s = on_task (dlast t2 l1) (set_t_next (t_next tx)) s.
Proof.
  revert fuel t1 t2. induction l1 as [|y l1 IH]; intros fuel t1 t2 Hf Hc Hni Hx;
    (destruct fuel as [|fuel]; [simpl in Hf; lia|]); cbn [unlink_loop dlast].
  - destruct Hc as (-> & t & ? & _). step. by rewrite decide_True.
  - destruct Hc as (-> & ty & Hy & Hc). apply not_elem_of_cons in Hni as [Hxy Hni].
    step. rewrite decide_False by congruence. apply IH; auto. simpl in Hf. lia.
Qed.

Lemma chain_append ts h l y x ty tx :
  chain t_next ts h (l ++ [y]) -> x ∉ l ++ [y] ->
  ts !! y = Some ty -> ts !! x = Some tx -> t_next tx = None ->
  chain t_next (<[y := set_t_next (Some x) ty]> ts) h (l ++ [y; x]).
Proof.
  intros Hc Hni Hy Hx Hnil.
  assert (Hty : t_next ty = None).
  { apply seg_app in Hc as (q & _ & (-> & t' & ? & Hnl)). simpl in Hnl. congruence. }
  pose proof (chain_insert_after _ _ _ _ [] x ty tx Hni Hy Hc) as H.
  by rewrite Hty, <- Hnil, set_next_id, (insert_id _ x) in H by done.
Qed.

Lemma append_task_run s h l x tx :
  chain t_next (k_tasks s) (Some h) l -> x ∉ l -> k_tasks s !! x = Some tx ->
  t_next tx = None ->
  exists ts',
    append_task (Some h) (Some x) s = Done tt (set_k_tasks ts' s) /\
    chain t_next ts' (Some h) (l ++ [x]) /\ relinked l (k_tasks s) ts' /\
    ts' !! x = Some tx.
Proof.
  intros Hc Hni Hx Hnil. destruct (last_snoc_inv l) as [->|(l' & y & ->)]; [done|].
  destruct (seg_lookup _ _ _ _ _ y Hc ltac:(set_solver)) as [ty Hy].
  exists (<[y := set_t_next (Some x) ty]> (k_tasks s)). split_and!.
  - unfold append_task. step. erewrite bind_run.
    2:{ eapply tail_of_run; [|exact Hc]. apply chain_length in Hc. rewrite length_app in Hc.
        unfold task_fuel. lia. }
    erewrite modify_run by lk. done.
  - rewrite <- app_assoc. by eapply chain_append.
  - apply relinked_insert; [set_solver|done].
  - rewrite lookup_insert_ne by set_solver. done.
Qed.

(** A queued task is taken out of the ready queue just after its control block
    has changed (its state, its priority, what it waits for): the others make a
    well-formed queue. *)
Lemma leave_queue s ts l1 x l2 tx tx' :
  ready_queue ts (k_ready s) (l1 ++ x :: l2) -> ts !! x = Some tx ->
  t_next tx' = t_next tx -> k_tasks s = <[x := tx']> ts ->
  exists ts2,
    __rx_remove_from_ready_q (Some x) s
      = Done OS_OK (rq_upd ts2 (head (l1 ++ l2)) (k_need_resched s) s) /\
    ready_queue ts2 (head (l1 ++ l2)) (l1 ++ l2) /\
    ts2 !! x = Some (set_t_next None tx') /\
    relinked (l1 ++ x :: l2) (<[x := tx']> ts) ts2 /\
    (forall y, y <> x -> prio ts2 y = prio ts y).
Proof.
  intros Hq Hx Hn Hts.
  assert (Hni : x ∉ l1 ++ l2) by (eapply nodup_mid, ready_queue_nodup, Hq).
  destruct Hq as [Hc Hs Hr].
  assert (Hc1 : chain t_next (k_tasks s) (k_ready s) (l1 ++ x :: l2)).
  { rewrite Hts. by eapply seg_insert_same. }
  destruct (remove_ready_spec s l1 l2 x Hc1) as (ts2 & t2 & E2 & Hc2 & Hr2 & Hx2 & Hx2').
  rewrite Hts in Hr2, Hx2. rewrite lookup_insert_eq in Hx2. simplify_eq.
  assert (Hpy : forall y, y <> x -> prio ts2 y = prio ts y).
  { intros y Hy. rewrite (relinked_prio _ _ _ _ Hr2), prio_insert. by case_decide. }
  exists ts2. split_and!; [done| |done|done|done]. constructor; [done| |].
  - eapply prio_sorted_ext; [|by eapply sorted_remove]. intros y Hy. apply Hpy.
    intros ->. by apply Hni.
  - intros y t Hy Ht. assert (y <> x) by (intros ->; by apply Hni).
    destruct (ts !! y) as [t0|] eqn:Ey.
    + edestruct (relinked_lookup _ _ _ y t0 Hr2) as [n E]; [by rewrite lookup_insert_ne|].
      simplify_eq. refine (Hr y t0 _ Ey). rewrite elem_of_app in Hy |- *.
      rewrite elem_of_cons. tauto.
    + eapply relinked_None in Hr2; [by rewrite Hr2 in Ht|]. by rewrite lookup_insert_ne.
Qed.

(** Giving the processor away once the running task has left the ready
    queue. *)
Lemma sched_away s c tc h l :
  k_curr s = Some c -> k_tasks s !! c = Some tc -> c ∉ h :: l ->
  ready_queue (k_tasks s) (k_ready s) (h :: l) ->
  exists th,
    k_tasks s !! h = Some th /\
    rx_sched s = Switch (switched h th s) (fun s' => Done tt s') /\
    ready_queue (k_tasks (switched h th s)) (k_ready (switched h th s)) (h :: l).
Proof.
  intros Hc Htc Hni Hq.
  destruct (ready_queue_lookup _ _ _ h Hq ltac:(set_solver)) as (th & Hth & _).
  exists th. split_and!; [done| |].
  - eapply sched_run; eauto. { by apply ready_queue_head in Hq. } set_solver.
  - by apply ready_queue_dispatched.
Qed.

(** What a task's control block holds that neither its place in a queue nor its being
    dispatched changes. *)
Class Steady {A} (f : tcb -> A) : Prop := {
  steady_next n t : f (set_t_next n t) = f t;
  steady_dispatched t : f (dispatched t) = f t;
}.

Ltac steady := split; [done|intros t; unfold dispatched; by case_decide].

#[export] Instance steady_sem : Steady t_sem.
Proof. steady. Qed.
#[export] Instance steady_mutex : Steady t_mutex.
Proof. steady. Qed.
#[export] Instance steady_timer : Steady t_timer.
Proof. steady. Qed.
#[export] Instance steady_prio : Steady t_prio.
Proof. steady. Qed.

Lemma relinked_steady {A} (f : tcb -> A) `{!Steady f} D ts ts' x :
  relinked D ts ts' -> f <$> ts' !! x = f <$> ts !! x.
Proof. intros H. destruct (H x) as [->|(_ & t & n & -> & ->)]; [done|]. cbn. by rewrite steady_next. Qed.

(** The running task [c] has left the ready queue with the control block [tc'], the
    tasks of [D] may have been linked anew, and [h], the first of the others, is
    switched to. *)
Record gave_up (s : kst) (c : positive) (tc' : tcb) (D : list positive) (h : positive) (th : tcb)
    (l : list positive) (s1 : kst) : Prop := {
  gu_head : k_tasks s1 !! h = Some th;
  gu_self : k_tasks s1 !! c = Some tc';
  gu_out : c ∉ h :: l;
  gu_others : relinked D (delete c (k_tasks s)) (delete c (k_tasks s1));
  gu_queue : ready_queue (k_tasks (switched h th s1)) (k_ready (switched h th s1)) (h :: l);
}.

Section gave_up.
  Context (s : kst) (c : positive) (tc' : tcb) (D : list positive) (h : positive) (th : tcb).
  Context (l : list positive) (s1 : kst) (G : gave_up s c tc' D h th l s1).

Lemma gave_up_self : k_tasks (switched h th s1) !! c = Some tc'.
Proof using G.
  unfold switched. norm. rewrite lookup_insert_ne; [apply G|]. intros ->. apply (gu_out _ _ _ _ _ _ _ _ G). left.
Qed.

Lemma gave_up_same x : x <> c -> x <> h -> x ∉ D -> k_tasks (switched h th s1) !! x = k_tasks s !! x.
Proof using G.
  intros Hc Hh HD. unfold switched. norm. rewrite lookup_insert_ne by done.
  eapply relinked_others_out; [apply G|done|done].
Qed.

Lemma gave_up_steady {A} (f : tcb -> A) `{!Steady f} x :
  x <> c -> f <$> k_tasks (switched h th s1) !! x = f <$> k_tasks s !! x.
Proof using G.
  intros Hc. pose proof (relinked_steady f _ _ _ x (gu_others _ _ _ _ _ _ _ _ G)) as E.
  rewrite !lookup_delete_ne in E by done. rewrite <- E. unfold switched. norm. rewrite lookup_insert.
  case_decide; [subst x|done]. rewrite (gu_head _ _ _ _ _ _ _ _ G). cbn. by rewrite steady_dispatched.
Qed.

Lemma gave_up_state x t :
  x <> c -> x <> h -> k_tasks (switched h th s1) !! x = Some t ->
  exists t0, k_tasks s !! x = Some t0 /\ t_state t0 = t_state t.
Proof using G.
  intros Hc Hh. unfold switched. norm. rewrite lookup_insert_ne by done. intros Ht.
  destruct (gu_others _ _ _ _ _ _ _ _ G x) as [E|(_ & t0 & n & E0 & E1)]; rewrite !lookup_delete_ne in * by done.
  - exists t. by rewrite <- E.
  - simplify_eq. by exists t0.
Qed.
End gave_up.

(** ** The tasks that wait for a service *)

(** The fields that moving tasks between queues changes. *)
Definition rq_st (ts : gmap positive tcb) (h : ptr) (r cr : Z) (s : kst) : kst :=
  set_k_critical cr (set_k_need_resched r (set_k_ready h (set_k_tasks ts s))).

Lemma rq_st_id s : rq_st (k_tasks s) (k_ready s) (k_need_resched s) (k_critical s) s = s.
Proof. by destruct s. Qed.

(** A task becomes ready just after its control block has changed. *)
Lemma make_ready s ts l x tx' :
  ready_queue ts (k_ready s) l -> x ∉ l -> runnable tx' -> k_tasks s = <[x := tx']> ts ->
  let l' := ins ts (t_prio tx') x l in
  exists ts2 n,
    __rx_add_to_ready_q (Some x) s
      = Done OS_OK (rq_upd ts2 (head l') (resched_after s l (head l')) s) /\
    ready_queue ts2 (head l') l' /\ relinked (x :: l) (<[x := tx']> ts) ts2 /\
    ts2 !! x = Some (set_t_next n tx').
Proof.
  intros Hq Hx Hrun Hts l'.
  assert (Hq1 : ready_queue (k_tasks s) (k_ready s) l) by (rewrite Hts; by apply ready_queue_out).
  assert (Hx1 : k_tasks s !! x = Some tx') by (rewrite Hts; apply lookup_insert_eq).
  destruct (rq_add s l x tx' Hq1 Hx1 Hrun Hx) as (ts2 & E & Hq2 & Hr).
  assert (Hl : ins (k_tasks s) (t_prio tx') x l = l').
  { apply ins_ext. intros y Hy. rewrite Hts, prio_insert. case_decide; [by subst|done]. }
  rewrite Hl in *. rewrite Hts in Hr.
  destruct (relinked_lookup _ _ _ x tx' Hr) as [n Hn]; [apply lookup_insert_eq|].
  by exists ts2, n.
Qed.

(** A queued task is moved to the place its new control block calls for. *)
Lemma requeue_run s ts l1 x l2 tx tx' :
  ready_queue ts (k_ready s) (l1 ++ x :: l2) -> ts !! x = Some tx ->
  t_next tx' = t_next tx -> runnable tx' -> k_tasks s = <[x := tx']> ts ->
  exists s2 ts3 r n l',
    __rx_remove_from_ready_q (Some x) s = Done OS_OK s2 /\
    __rx_add_to_ready_q (Some x) s2 = Done OS_OK (rq_upd ts3 (head l') r s) /\
    ready_queue ts3 (head l') l' /\ l' ≡ₚ l1 ++ x :: l2 /\
    relinked (l1 ++ x :: l2) (<[x := tx']> ts) ts3 /\ ts3 !! x = Some (set_t_next n tx').
Proof.
  intros Hq Hx Hn Hrun Hts.
  assert (Hni : x ∉ l1 ++ l2) by (eapply nodup_mid, ready_queue_nodup, Hq).
  destruct (leave_queue s ts l1 x l2 tx tx' Hq Hx Hn Hts) as (ts2 & E2 & Hq2 & Hx2 & Hr2 & _).
  set (s2 := rq_upd ts2 _ _ s) in *.
  destruct (rq_add s2 (l1 ++ l2) x _ Hq2 Hx2 Hrun Hni) as (ts3 & E3 & Hq3 & Hr3).
  set (l' := ins _ _ _ _) in *.
  assert (Hr : relinked (l1 ++ x :: l2) (<[x := tx']> ts) ts3).
  { eapply relinked_trans; [exact Hr2|]. eapply relinked_mono; [|exact Hr3].
    intros y. rewrite elem_of_cons, !elem_of_app, elem_of_cons. tauto. }
  destruct (relinked_lookup _ _ _ x tx' Hr) as [n Hx3]; [apply lookup_insert_eq|].
  eexists s2, ts3, _, n, l'. split_and!; [exact E2| |done| |done|done].
  - rewrite E3. f_equal. unfold s2, rq_upd. crit_eq.
  - unfold l'. rewrite ins_perm. by rewrite Permutation_middle.
Qed.

Lemma suspended_not_runnable t : t_state t = RX_TASK_SUSPEND -> ~ runnable t.
Proof. intros H [?|?]; congruence. Qed.

#[export] Hint Resolve suspended_not_runnable : rosx.

Section Waiting.
  (** What a waiting task's control block says about what it waits for. *)
  Context (P : tcb -> Prop).
  Context (Pnext : forall n t, P t -> P (set_t_next n t)).

(** The tasks [ws] wait in the queue that starts at [h]; none of them can
    run. *)
Record waiting (ts : gmap positive tcb) (h : ptr) (ws : list positive) : Prop := {
  wt_chain : chain t_next ts h ws;
  wt_states : forall x t, x ∈ ws -> ts !! x = Some t -> ~ runnable t /\ P t;
}.

Lemma waiting_disjoint ts h h' ws rl :
  waiting ts h ws -> ready_queue ts h' rl -> forall x, x ∈ ws -> x ∉ rl.
Proof.
  intros [Hc Hs] Hq x Hx Hr. destruct (seg_lookup _ _ _ _ _ x Hc Hx) as [t Ht].
  destruct (Hs x t Hx Ht) as [Hst _]. destruct (ready_queue_lookup _ _ _ x Hq Hr) as (t' & ? & Hrun).
  by simplify_eq.
Qed.

Lemma waiting_frame ts ts' h ws :
  (forall x, x ∈ ws -> ts' !! x = ts !! x) -> waiting ts h ws -> waiting ts' h ws.
Proof.
  intros Hf [Hc Hs]. constructor.
  - eapply seg_frame; [|exact Hc]. intros x Hx. by rewrite Hf.
  - intros x t Hx. rewrite Hf by done. by apply Hs.
Qed.

Lemma waiting_insert ts h ws x t : x ∉ ws -> waiting ts h ws -> waiting (<[x := t]> ts) h ws.
Proof.
  intros Hx. apply waiting_frame. intros y Hy. rewrite lookup_insert_ne; [done|]. by intros ->.
Qed.

Lemma waiting_relinked D ts ts' h ws :
  relinked D ts ts' -> (forall x, x ∈ ws -> x ∉ D) -> waiting ts h ws -> waiting ts' h ws.
Proof. intros Hr Hd. apply waiting_frame. intros x Hx. eapply relinked_out; eauto. Qed.

Lemma waiting_nil ts : waiting ts None [].
Proof. constructor; [done|]. intros ? ? ?%elem_of_nil. done. Qed.

Lemma waiting_cons ts h x ws :
  waiting ts h (x :: ws) ->
  h = Some x /\ x ∉ ws /\
  exists t, ts !! x = Some t /\ ~ runnable t /\ P t /\ waiting ts (t_next t) ws.
Proof.
  intros [Hc Hs]. pose proof (chain_NoDup _ _ _ _ Hc) as [Hn _]%NoDup_cons.
  destruct Hc as (-> & t & Ht & Hc). split_and!; [done..|]. exists t.
  destruct (Hs x t ltac:(left) Ht) as [Hst HP]. split_and!; [done..|].
  constructor; [done|]. intros y ty Hy. apply Hs. by right.
Qed.

(** The first task has left and the rest is not touched. *)
Lemma waiting_tail ts ts' h x ws t :
  waiting ts h (x :: ws) -> ts !! x = Some t -> (forall y, y ∈ ws -> ts' !! y = ts !! y) ->
  waiting ts' (t_next t) ws.
Proof.
  intros (_ & _ & t' & ? & _ & _ & Hw)%waiting_cons Ht Hf. simplify_eq. by eapply waiting_frame.
Qed.

(** A task leaves from the middle of the queue. *)
Lemma waiting_unlink ts h wa y x wb ty tx :
  waiting ts h (wa ++ y :: x :: wb) -> ts !! y = Some ty -> ts !! x = Some tx ->
  waiting (<[y := set_t_next (t_next tx) ty]> ts) h (wa ++ y :: wb).
Proof.
  intros [Hc Hs] Hy Hx. pose proof (chain_NoDup _ _ _ _ Hc) as Hnd.
  apply NoDup_app in Hnd as (_ & Hd & Hn). apply NoDup_cons in Hn as [Hyn _].
  constructor.
  - apply seg_app in Hc as (q & Ha & (-> & t & ? & (? & t' & ? & Hb))). simplify_eq.
    apply seg_app. exists (Some y). split.
    + apply seg_insert_ne; [|done]. intros Hin. apply (Hd y Hin). left.
    + split; [done|]. eexists. split; [apply lookup_insert_eq|]. cbn.
      apply seg_insert_ne; [|done]. intros Hin. apply Hyn. by right.
  - intros z t Hz. rewrite lookup_insert. case_decide as He.
    + intros ?. simplify_eq. destruct (Hs z ty) as [? ?]; [|done|auto].
      apply elem_of_app. right. left.
    + apply Hs. rewrite elem_of_app, elem_of_cons in Hz |- *. rewrite elem_of_cons. tauto.
Qed.

Section Service.
  Context {T : Type} `{WaitService T}.

Lemma enqueue_on_run s p o ws c tc :
  store_of s !! p = Some o -> waiting (k_tasks s) (ws_head o) ws -> c ∉ ws ->
  k_tasks s !! c = Some tc -> t_next tc = None -> ~ runnable tc -> P tc ->
  exists ts' h',
    enqueue_on T (Some p) (Some c) s
      = Done tt (set_store (<[p := ws_set h' o]> (store_of s)) (set_k_tasks ts' s)) /\
    waiting ts' h' (ws ++ [c]) /\ relinked ws (k_tasks s) ts' /\ ts' !! c = Some tc.
Proof.
  intros Ho [Hc Hs] Hni Htc Hnil Hst HP. unfold enqueue_on. erewrite bind_load by exact Ho.
  destruct (ws_head o) as [h|] eqn:Eh.
  - destruct (append_task_run s h ws c tc Hc Hni Htc Hnil) as (ts' & E & Hc' & Hr & Hc2).
    exists ts', (Some h). split_and!; [|constructor; [done|]|done|done].
    + rewrite E, <- Eh, ws_set_head, insert_id by done.
      by rewrite <- (ws_store_tasks ts' s), ws_store_id.
    + intros x t [Hx|Hx]%elem_of_app Ht; [|apply list_elem_of_singleton in Hx; by simplify_eq].
      destruct (seg_lookup _ _ _ _ _ x Hc Hx) as [t0 Ht0].
      destruct (relinked_lookup _ _ _ _ _ Hr Ht0) as [n Hn]. simplify_eq.
      destruct (Hs x t0 Hx Ht0). auto.
  - apply chain_nil_inv in Hc as ->. exists (k_tasks s), (Some c).
    split_and!; [|constructor|apply relinked_refl|done].
    + erewrite modify_run by exact Ho. by destruct s.
    + split; [done|]. exists tc. by rewrite Hnil.
    + intros x t Hx ?. apply list_elem_of_singleton in Hx. by simplify_eq.
Qed.

Lemma dequeue_from_run s p o wa x wb tx :
  store_of s !! p = Some o -> k_tasks s !! x = Some tx ->
  waiting (k_tasks s) (ws_head o) (wa ++ x :: wb) ->
  exists ts' h',
    dequeue_from T (Some p) (Some x) s
      = Done tt (set_store (<[p := ws_set h' o]> (store_of s)) (set_k_tasks ts' s)) /\
    waiting ts' h' (wa ++ wb) /\ relinked wa (k_tasks s) ts'.
Proof.
  intros Ho Hx Hw. unfold dequeue_from. erewrite bind_load by exact Ho.
  pose proof (chain_NoDup _ _ _ _ (wt_chain _ _ _ Hw)) as Hnd.
  destruct (last_snoc_inv wa) as [->|(l & y & ->)].
  - pose proof (waiting_cons _ _ _ _ Hw) as (Hh & Hni & t & ? & _ & _ & Hw'). simplify_eq.
    exists (k_tasks s), (t_next tx). rewrite Hh, decide_True by done. step.
    erewrite modify_run by exact Ho. split_and!; [by destruct s|done|apply relinked_refl].
  - rewrite <- app_assoc in *. cbn [app] in *.
    assert (ws_head o <> Some x /\ x ∉ l ++ [y]) as [Hhx Hni].
    { rewrite (chain_head _ _ _ _ (wt_chain _ _ _ Hw)).
      replace (l ++ y :: x :: wb) with ((l ++ [y]) ++ x :: wb) in Hnd by by rewrite <- app_assoc.
      apply NoDup_app in Hnd as (_ & Hd & _).
      assert (x ∉ l ++ [y]) by (intros Hin; apply (Hd x Hin); left). split; [|done].
      destruct l; intros ?; simplify_eq/=; set_solver. }
    destruct (seg_lookup _ _ _ _ _ y (wt_chain _ _ _ Hw)) as [ty Hy]; [set_solver|].
    rewrite decide_False by done. step.
    exists (<[y := set_t_next (t_next tx) ty]> (k_tasks s)), (ws_head o). split_and!.
    + erewrite unlink_loop_run with (l1 := l ++ [y]); [| | |done|exact Hx].
      * rewrite dlast_snoc. erewrite modify_run by lk.
        rewrite ws_set_head, (insert_id _ p o) by done. cbn.
        by rewrite <- (ws_store_tasks (<[y := set_t_next (t_next tx) ty]> (k_tasks s)) s), ws_store_id.
      * pose proof (chain_length _ _ _ _ (wt_chain _ _ _ Hw)) as Hl.
        rewrite length_app in *. unfold task_fuel. simpl in *. lia.
      * rewrite <- app_assoc. apply Hw.
    + by eapply waiting_unlink.
    + apply relinked_insert; [set_solver|done].
Qed.

(** The running task [c] leaves the ready queue with the control block [tc1] and
    joins the queue of the object [p]. *)
Lemma sleep_on_run s p o ws c tc tc1 l1 l2 :
  k_tasks s !! c = Some tc -> ready_queue (k_tasks s) (k_ready s) (l1 ++ c :: l2) ->
  store_of s !! p = Some o -> waiting (k_tasks s) (ws_head o) ws ->
  t_next tc1 = t_next tc -> t_prio tc1 = t_prio tc -> ~ runnable tc1 -> P tc1 ->
  exists ts3 h',
    (forall B (k : M B),
     (let! _ := __rx_remove_from_ready_q (Some c) in
      on_task (Some c) (set_t_next None) ;;;
      enqueue_on T (Some p) (Some c) ;;; k)
        (set_k_tasks (<[c := tc1]> (k_tasks s)) s)
      = k (set_store (<[p := ws_set h' o]> (store_of s))
            (rq_upd ts3 (head (l1 ++ l2)) (k_need_resched s) s))) /\
    ready_queue ts3 (head (l1 ++ l2)) (l1 ++ l2) /\
    waiting ts3 h' (ws ++ [c]) /\ ts3 !! c = Some (set_t_next None tc1) /\
    (forall x, prio ts3 x = prio (k_tasks s) x) /\
    (forall x t, x <> c -> k_tasks s !! x = Some t -> exists n, ts3 !! x = Some (set_t_next n t)) /\
    relinked ((l1 ++ c :: l2) ++ ws) (delete c (k_tasks s)) (delete c ts3).
Proof.
  intros Htc Hq Ho Hw Hn1 Hp1 Hst1 HP1.
  pose proof (waiting_disjoint _ _ _ _ _ Hw Hq) as Hdis.
  assert (Hcw : c ∉ ws) by (intros Hx; apply (Hdis c Hx); set_solver).
  set (s1 := set_k_tasks (<[c := tc1]> (k_tasks s)) s).
  destruct (leave_queue s1 (k_tasks s) l1 c l2 tc tc1) as (ts2 & E2 & Hq2 & Hc2 & Hr2 & _);
    [done..|].
  set (s2 := rq_upd ts2 (head (l1 ++ l2)) (k_need_resched s1) s1) in *.
  assert (Ho2 : store_of s2 = store_of s) by (unfold s2, s1; by rewrite ws_store_rq, ws_store_tasks).
  edestruct (enqueue_on_run s2 p o ws c (set_t_next None tc1))
    as (ts3 & h' & E3 & Hw3 & Hr3 & Hc3); [by rewrite Ho2| |done|done|done|done|auto|].
  { eapply waiting_relinked; [exact Hr2|intros x Hx; by apply Hdis|by apply waiting_insert]. }
  exists ts3, h'. split_and!; [| |done|done| | |].
  - intros B k. erewrite bind_run by exact E2. step. rewrite (insert_id ts2) by done.
    erewrite bind_run by exact E3. rewrite Ho2. reflexivity.
  - eapply ready_queue_relinked; [exact Hr3|exact Hq2|by left| |].
    + eapply relinked_seg; [exact Hr3| |apply Hq2]. intros x Hx Hxw. apply (Hdis x Hxw).
      rewrite elem_of_app, elem_of_cons. rewrite elem_of_app in Hx. tauto.
    + eapply relinked_sorted; [exact Hr3|apply Hq2].
  - intros x. transitivity (prio ts2 x); [exact (relinked_prio _ _ _ x Hr3)|].
    rewrite (relinked_prio _ _ _ x Hr2), prio_insert.
    case_decide; [subst|done]. rewrite Hp1. symmetry. exact (prio_lookup _ _ _ Htc).
  - intros x t Hx Ht. destruct (relinked_lookup _ _ _ x t Hr2) as [n Hn].
    { by rewrite lookup_insert_ne. }
    destruct (relinked_lookup _ _ _ x _ Hr3 Hn) as [n' Hn']. by exists n'.
  - eapply relinked_trans; [|eapply relinked_mono; [|apply relinked_delete, Hr3]; set_solver].
    apply (relinked_delete _ _ _ c) in Hr2. rewrite delete_insert_eq in Hr2.
    eapply relinked_mono; [|exact Hr2]. set_solver.
Qed.

End Service.

End Waiting.
