(* ===== verification/Task.v ===== *)
(** * Task management (src/kernel/rx_task.c)

    Creation, deletion, suspension, resumption, completion and abortion of
    tasks and the change of their priority.  The global list of all tasks is
    linked through the [list] field and starts at [__rx_task_list_head]. *)

From stdpp Require Import base gmap list sorting.
From Stdlib Require Import ZArith Lia.
From S2P Require Import Prelude State Samples Chains Port ReadyQueue Sched TaskQueue.
#[local] Open Scope Z_scope.
#[local] Open Scope rosx_scope.

(** The stack of a new task: the caller's memory, or a slice of the system
    stack when no memory is given.  [None] is the overflow of the system
    stack. *)
Definition alloc_stack (stack_ptr stack_size : Z) : M (option Z) :=
  if decide (stack_ptr = 0) then
    let! s := get in
    if decide (u32 (k_stack_start s - CONFIG_SYSTEM_STACK_SIZE)
               > u32 (k_curr_stack s - stack_size)) then
      pr_panic ;;;
      ret None
    else
      upd (set_k_curr_stack (u32 (k_curr_stack s - (stack_size + 4)))) ;;;
      ret (Some (k_curr_stack s))
  else ret (Some (u32 (stack_ptr + stack_size))).

(** The fields [rx_create_task] and [__rx_init_tcb__] assign; the port pushes
    the flags and the frame pointer on the new stack.  [strcpy] writes the name
    and its terminator; a name of eight characters leaves no terminator in
    [name[8]]. *)
Definition init_tcb (task_name : list Z) (prio stack_ptr stack_size func : Z)
    (task_state : task_state) (time_slice : Z) (t : tcb) : tcb :=
  let prio := if decide (prio > RX_TASK_LEAST_PRIO) then RX_TASK_LEAST_PRIO else prio in
  set_t_ip func (set_t_curr_stack_ptr (u32 (stack_ptr - 8)) (set_t_list None
    (set_t_timer None (set_t_ticks time_slice (set_t_time_slice time_slice
    (set_t_timeout RX_TIMER_OFF (set_t_state task_state (set_t_func func
    (set_t_stack_size stack_size (set_t_orig_prio prio (set_t_prio prio
    (set_t_stack_start_ptr stack_ptr
    (set_t_name (take 8 (task_name ++ [0])) t))))))))))))).

(** Append to the global list of tasks. *)
Definition add_to_task_list (tcb : ptr) : M unit :=
  let! hd := gets k_list_head in
  match hd with
  | None => upd (set_k_list_head tcb)
  | Some _ =>
    let! fuel := gets task_fuel in
    let! tmp := tail_of t_list fuel hd in
    on_task tmp (set_t_list tcb)
  end.

Definition rx_create_task (tcb : ptr) (task_name : list Z) (prio stack_ptr stack_size func : Z)
    (task_state : task_state) (time_slice : Z) : M Z :=
  if decide (Z.of_nat (length task_name) > CONFIG_TASK_STR_LEN) then
    pr_error ;;;
    ret OS_ERR
  else
    let! imask := rx_enter_critical in
    let! stack := alloc_stack stack_ptr stack_size in
    match stack with
    | None =>
      rx_exit_critical imask ;;;
      ret OS_ERR
    | Some stack_ptr =>
      on_task tcb (init_tcb task_name prio stack_ptr stack_size func task_state time_slice) ;;;
      (if decide (task_state = RX_TASK_READY) then
         let! _ := __rx_add_to_ready_q tcb in ret tt
       else ret tt) ;;;
      add_to_task_list tcb ;;;
      upd (fun s => set_k_num_task (s32 (k_num_task s + 1)) s) ;;;
      rx_exit_critical imask ;;;
      ret OS_OK
    end.

Definition rx_abort_task (tcb : ptr) : M Z :=
  let! curr := gets k_curr in
  if decide (tcb = curr) then ret OS_ERR
  else
    let! t := ld_task tcb in
    (if decide (t_state t = RX_TASK_READY) then
       let! _ := __rx_remove_from_ready_q tcb in ret tt
     else ret tt) ;;;
    on_task tcb (set_t_state RX_TASK_ABORT) ;;;
    ret OS_OK.

Definition rx_complete_task (tcb : ptr) : M Z :=
  let! curr := gets k_curr in
  if decide (tcb <> curr) then ret OS_ERR
  else
    let! _ := __rx_remove_from_ready_q tcb in
    on_task tcb (set_t_state RX_TASK_COMPLETE) ;;;
    rx_sched ;;;
    ret OS_OK.

(** The guard compares the priority, not the state, with [RX_TASK_COMPLETE]
    (3) and [RX_TASK_ABORT] (4). *)
Definition rx_set_task_prio (tcb : ptr) (prio : Z) : M Z :=
  let! t := ld_task tcb in
  if decide (prio = t_prio t \/ t_prio t = 3 \/ t_prio t = 4) then ret 0
  else
    on_task tcb (set_t_prio prio) ;;;
    (if decide (t_state t = RX_TASK_READY) then
       let! _ := __rx_remove_from_ready_q tcb in
       let! _ := __rx_add_to_ready_q tcb in
       ret tt
     else ret tt) ;;;
    ret OS_OK.

(** The search of [rx_delete_task] for the task linked to [tcb]. *)
Fixpoint list_before (fuel : nat) (tcb tmp : ptr) : M ptr :=
  match fuel with
  | O => crash NoFuel
  | S fuel =>
    let! t := ld_task tmp in
    match t_list t with
    | Some _ => if decide (t_list t = tcb) then ret tmp else list_before fuel tcb (t_list t)
    | None => ret tmp
    end
  end.

Definition rx_delete_task (tcb : ptr) : M Z :=
  let! t := ld_task tcb in
  if decide (t_state t = RX_TASK_SUSPEND \/ t_state t = RX_TASK_READY) then ret OS_ERR
  else
    let! hd := gets k_list_head in
    (if decide (tcb = hd) then upd (set_k_list_head (t_list t))
     else
       let! fuel := gets task_fuel in
       let! tmp := list_before fuel tcb hd in
       let! b := ld_task tmp in
       let! d := ld_task (t_list b) in
       on_task tmp (set_t_list (t_list d))) ;;;
    ret OS_OK.

(** [MYSELF] is the NULL pointer. *)
Definition rx_suspend_task (tcb : ptr) : M Z :=
  match tcb with
  | None =>
    let! curr := gets k_curr in
    let! _ := __rx_remove_from_ready_q curr in
    on_task curr (set_t_state RX_TASK_SUSPEND) ;;;
    rx_sched ;;;
    ret OS_OK
  | Some _ =>
    let! t := ld_task tcb in
    (if decide (t_state t = RX_TASK_READY) then
       let! _ := __rx_remove_from_ready_q tcb in
       on_task tcb (set_t_state RX_TASK_SUSPEND)
     else ret tt) ;;;
    ret OS_OK
  end.

Definition rx_resume_task (tcb : ptr) : M Z :=
  let! t := ld_task tcb in
  if decide (t_state t <> RX_TASK_SUSPEND) then ret OS_ERR
  else
    on_task tcb (set_t_state RX_TASK_READY) ;;;
    let! _ := __rx_add_to_ready_q tcb in
    ret OS_OK.

(** ** Suspension and resumption *)

Lemma relinked_runnable D ts ts' x t t' :
  relinked D ts ts' -> ts !! x = Some t -> ts' !! x = Some t' -> t_state t' = t_state t.
Proof. intros Hr Ht Ht'. edestruct relinked_lookup as [n Hn]; eauto. by simplify_eq. Qed.

(** Links of the global list are not touched by the ready queue. *)
Lemma relinked_list_seg D ts ts' h l e :
  relinked D ts ts' -> seg t_list ts h l e -> seg t_list ts' h l e.
Proof.
  intros Hr. apply seg_frame. intros x Hx. destruct (ts !! x) as [t|] eqn:E.
  - edestruct relinked_lookup as [n Hn]; eauto. by rewrite Hn.
  - by rewrite (relinked_None _ _ _ _ Hr E).
Qed.

(** Suspending a READY task: it leaves the queue and is SUSPENDed. *)
Lemma suspend_other_run s l1 x l2 tx :
  ready_queue (k_tasks s) (k_ready s) (l1 ++ x :: l2) ->
  k_tasks s !! x = Some tx -> t_state tx = RX_TASK_READY ->
  exists ts',
    rx_suspend_task (Some x) s
      = Done OS_OK (rq_upd ts' (head (l1 ++ l2)) (k_need_resched s) s) /\
    ready_queue ts' (head (l1 ++ l2)) (l1 ++ l2) /\
    ts' !! x = Some (set_t_state RX_TASK_SUSPEND (set_t_next None tx)) /\
    relinked (l1 ++ x :: l2) (delete x (k_tasks s)) (delete x ts').
Proof.
  intros Hq Hx Hst. destruct (rq_remove s l1 x l2 Hq) as (ts' & tx' & E & Hq' & Hr & ? & Hx').
  simplify_eq.
  exists (<[x := set_t_state RX_TASK_SUSPEND (set_t_next None tx)]> ts').
  unfold rx_suspend_task. step. rewrite decide_True by done. split_and!.
  - step. erewrite bind_run by exact E. step. reflexivity.
  - apply ready_queue_out; [|done]. eapply nodup_mid, ready_queue_nodup, Hq.
  - apply lookup_insert_eq.
  - rewrite delete_insert_eq. by apply relinked_delete.
Qed.

(** The running task suspends itself: the processor goes to the head of the others. *)
Lemma suspend_self_run s c tc l1 l2 h l :
  k_curr s = Some c -> k_tasks s !! c = Some tc ->
  ready_queue (k_tasks s) (k_ready s) (l1 ++ c :: l2) -> l1 ++ l2 = h :: l ->
  exists s1 th,
    rx_suspend_task None s = Switch (switched h th s1) (fun s2 => Done OS_OK s2) /\
    gave_up s c (set_t_state RX_TASK_SUSPEND (set_t_next None tc)) (l1 ++ c :: l2) h th l s1 /\
    k_sems s1 = k_sems s /\ k_mutexes s1 = k_mutexes s.
Proof.
  intros Hc Htc Hq Hl. destruct (rq_remove s l1 c l2 Hq) as (ts' & tx' & E & Hq' & Hr & ? & Hx').
  simplify_eq. assert (Hni : c ∉ h :: l) by (rewrite <- Hl; eapply nodup_mid, ready_queue_nodup, Hq).
  unfold rx_suspend_task. step. rewrite Hc. erewrite bind_run by exact E. step.
  match goal with |- context [bind rx_sched _ ?st] => set (s1 := st) end.
  assert (Hq1 : ready_queue (k_tasks s1) (k_ready s1) (h :: l)).
  { unfold s1. norm. rewrite Hl in *. by apply ready_queue_out. }
  destruct (sched_away s1 c (set_t_state RX_TASK_SUSPEND (set_t_next None tc)) h l) as (th & Hth & Es & Hq2);
    [done|apply lookup_insert_eq|done|done|].
  exists s1, th. split_and!; [unfold bind; by rewrite Es| |done|done].
  constructor; [done|apply lookup_insert_eq|done| |done].
  unfold s1. norm. rewrite delete_insert_eq. by apply relinked_delete.
Qed.

(** Resuming a SUSPENDed task that is in no queue. *)
Lemma resume_run s l x tx :
  ready_queue (k_tasks s) (k_ready s) l -> x ∉ l ->
  k_tasks s !! x = Some tx -> t_state tx = RX_TASK_SUSPEND ->
  let l' := ins (k_tasks s) (t_prio tx) x l in
  exists ts' n,
    rx_resume_task (Some x) s
      = Done OS_OK (rq_upd ts' (head l') (resched_after s l (head l')) s) /\
    ready_queue ts' (head l') l' /\
    ts' !! x = Some (set_t_next n (set_t_state RX_TASK_READY tx)) /\
    relinked (x :: l) (delete x (k_tasks s)) (delete x ts').
Proof.
  intros Hq Hx Htx Hst l'. unfold rx_resume_task. step.
  rewrite decide_False by tauto. step. set (t1 := set_t_state RX_TASK_READY tx).
  set (s1 := set_k_tasks _ _).
  assert (Hq1 : ready_queue (k_tasks s1) (k_ready s1) l) by (by apply ready_queue_out).
  assert (Hx1 : k_tasks s1 !! x = Some t1) by apply lookup_insert_eq.
  destruct (rq_add s1 l x t1 Hq1 Hx1 ltac:(by left) Hx) as (ts' & E & Hq' & Hr).
  assert (Hl : ins (k_tasks s1) (t_prio t1) x l = l').
  { apply ins_ext. intros y Hy. unfold s1. norm. rewrite prio_insert.
    case_decide; [set_solver|done]. }
  rewrite Hl in *. destruct (relinked_lookup _ _ _ _ _ Hr Hx1) as [n Hn].
  exists ts', n. split_and!; [|done|done|].
  - erewrite bind_run by exact E. reflexivity.
  - apply (relinked_delete _ _ _ x) in Hr. unfold s1 in Hr.
    cbn [k_tasks set_k_tasks] in Hr. by rewrite delete_insert_eq in Hr.
Qed.

(** C31: Suspending a READY task and resuming it puts it back in the ready queue
    behind the tasks of its priority: [rx_suspend_task] takes the task out and
    [rx_resume_task] brings it back, both return [OS_OK], and the queue's
    invariant holds after each. *)
Theorem suspend_resume_roundtrip s l1 x l2 tx :
  ready_queue (k_tasks s) (k_ready s) (l1 ++ x :: l2) ->
  k_tasks s !! x = Some tx -> t_state tx = RX_TASK_READY ->
  exists s1 s2 la lb t1 t2,
    rx_suspend_task (Some x) s = Done OS_OK s1 /\
    ready_queue (k_tasks s1) (k_ready s1) (l1 ++ l2) /\
    k_tasks s1 !! x = Some t1 /\ t_state t1 = RX_TASK_SUSPEND /\
    rx_resume_task (Some x) s1 = Done OS_OK s2 /\
    l1 ++ l2 = la ++ lb /\ ready_queue (k_tasks s2) (k_ready s2) (la ++ x :: lb) /\
    k_tasks s2 !! x = Some t2 /\ t_state t2 = RX_TASK_READY /\ t_prio t2 = t_prio tx /\
    Forall (fun y => prio (k_tasks s1) y <= t_prio tx) la /\
    Forall (fun y => t_prio tx < prio (k_tasks s1) y) lb.
Proof.
  intros Hq Hx Hst.
  destruct (suspend_other_run s l1 x l2 tx Hq Hx Hst) as (ts1 & E1 & Hq1 & Hx1 & _).
  set (s1 := rq_upd ts1 _ _ _) in *.
  assert (Hni : x ∉ l1 ++ l2) by (eapply nodup_mid, ready_queue_nodup, Hq).
  destruct (resume_run s1 (l1 ++ l2) x _ Hq1 Hni Hx1 eq_refl) as (ts2 & n & E2 & Hq2 & Hx2 & _).
  destruct (ins_split (k_tasks s1) (t_prio tx) x (l1 ++ l2)) as (la & lb & Hl & Hi & Ha & Hb);
    [by destruct Hq1|].
  simpl t_prio in E2, Hq2. rewrite Hi in E2, Hq2.
  exists s1, (rq_upd ts2 (head (la ++ x :: lb))
    (resched_after s1 (l1 ++ l2) (head (la ++ x :: lb))) s1), la, lb.
  eexists _, _. split_and!; eauto.
Qed.

Lemma suspend_resume_roundtrip_witness :
  exists s1 s2 la lb t1 t2,
    rx_suspend_task (Some 2%positive) sample = Done OS_OK s1 /\
    ready_queue (k_tasks s1) (k_ready s1) [1; 3]%positive /\
    k_tasks s1 !! 2%positive = Some t1 /\ t_state t1 = RX_TASK_SUSPEND /\
    rx_resume_task (Some 2%positive) s1 = Done OS_OK s2 /\
    [1; 3]%positive = la ++ lb /\
    ready_queue (k_tasks s2) (k_ready s2) (la ++ 2%positive :: lb) /\
    k_tasks s2 !! 2%positive = Some t2 /\ t_state t2 = RX_TASK_READY /\ t_prio t2 = 5 /\
    Forall (fun y => prio (k_tasks s1) y <= 5) la /\
    Forall (fun y => 5 < prio (k_tasks s1) y) lb.
Proof.
  apply (suspend_resume_roundtrip sample [1]%positive 2 [3]%positive
           (task 5 RX_TASK_READY (Some 3%positive))); try reflexivity.
  by apply ready_queueb_ok; vm_compute.
Defined.

(** ** Creation *)

(** The system stack has room for a stack of the given size. *)
Definition stack_room (s : kst) (stack_ptr stack_size : Z) : Prop :=
  stack_ptr <> 0 \/
  u32 (k_stack_start s - CONFIG_SYSTEM_STACK_SIZE) <= u32 (k_curr_stack s - stack_size).

Definition stack_top (s : kst) (stack_ptr stack_size : Z) : Z :=
  if decide (stack_ptr = 0) then k_curr_stack s else u32 (stack_ptr + stack_size).

Definition stack_left (s : kst) (stack_ptr stack_size : Z) : Z :=
  if decide (stack_ptr = 0) then u32 (k_curr_stack s - (stack_size + 4)) else k_curr_stack s.

Lemma alloc_stack_run s p n :
  stack_room s p n ->
  alloc_stack p n s = Done (Some (stack_top s p n)) (set_k_curr_stack (stack_left s p n) s).
Proof.
  unfold stack_room, alloc_stack, stack_top, stack_left. intros H.
  destruct (decide (p = 0)); [|by destruct s].
  step. rewrite decide_False by (destruct H; [done|lia]). step. done.
Qed.

(** Appending a task at the end of the global list of tasks. *)
Lemma list_append_run s L x tx :
  chain t_list (k_tasks s) (k_list_head s) L -> x ∉ L ->
  k_tasks s !! x = Some tx -> t_list tx = None ->
  exists ts' hd,
    add_to_task_list (Some x) s = Done tt (set_k_list_head hd (set_k_tasks ts' s)) /\
    chain t_list ts' hd (L ++ [x]) /\ ts' !! x = Some tx /\
    (forall y t, k_tasks s !! y = Some t -> exists n, ts' !! y = Some (set_t_list n t)).
Proof.
  intros Hc Hni Hx Hnil. unfold add_to_task_list. step.
  assert (Hid : forall t, set_t_list (t_list t) t = t) by (by intros []).
  destruct (k_list_head s) as [h|] eqn:Hh.
  - destruct (last_snoc_inv L) as [->|(l & y & ->)]; [done|].
    destruct (seg_lookup _ _ _ _ _ y Hc ltac:(set_solver)) as [ty Hy].
    exists (<[y := set_t_list (Some x) ty]> (k_tasks s)), (Some h).
    assert (x <> y) by set_solver. split_and!.
    + step. erewrite bind_run.
      2:{ eapply tail_of_run; [|exact Hc]. apply chain_length in Hc. rewrite length_app in Hc.
          unfold task_fuel. lia. }
      erewrite modify_run by lk. rewrite <- Hh. state_eq.
    + apply seg_app. exists (Some x). assert (Hnd := chain_NoDup _ _ _ _ Hc).
      apply seg_app in Hc as (q & H1 & (-> & t' & ? & Hnl)). split.
      * by eapply seg_relink_last.
      * split; [done|]. exists tx. by rewrite lookup_insert_ne by done.
    + by rewrite lookup_insert_ne by done.
    + intros z t Hz. rewrite lookup_insert. case_decide; simplify_eq; eauto.
      exists (t_list t). by rewrite Hid.
  - apply chain_nil_inv in Hc as ->. exists (k_tasks s), (Some x).
    split_and!; [state_eq| |done|].
    + split; [done|]. exists tx. by rewrite Hnil.
    + intros z t Hz. exists (t_list t). by rewrite Hid.
Qed.

Lemma ready_queue_set_list ts ts' h l :
  (forall y t, ts !! y = Some t -> exists n, ts' !! y = Some (set_t_list n t)) ->
  ready_queue ts h l -> ready_queue ts' h l.
Proof.
  intros H Hq. assert (Hl : forall y, y ∈ l -> exists t n, ts !! y = Some t /\
    ts' !! y = Some (set_t_list n t) /\ runnable t).
  { intros y Hy. destruct (ready_queue_lookup _ _ _ _ Hq Hy) as (t & Ht & Hr).
    destruct (H y t Ht) as [n Hn]. eauto. }
  destruct Hq as [Hc Hs _]. constructor.
  - eapply seg_frame; [|exact Hc]. intros y Hy.
    destruct (Hl y Hy) as (t & n & -> & -> & _). done.
  - eapply prio_sorted_ext; [|exact Hs]. intros y Hy. unfold prio.
    destruct (Hl y Hy) as (t & n & -> & -> & _). done.
  - intros y t Hy Ht. destruct (Hl y Hy) as (t0 & n & _ & Hn & Hr). simplify_eq. done.
Qed.

(** The created task, linked to [n] in the ready queue. *)
Definition created (name : list Z) (p sp size func slice : Z) (t0 : tcb) (n : ptr) : tcb :=
  set_t_next n (init_tcb name p sp size func RX_TASK_READY slice t0).

(** A READY task joins the ready queue and the list of tasks; the others only have
    links changed. *)
Lemma create_run s x t0 l L name p stack_ptr size func slice :
  Z.of_nat (length name) <= CONFIG_TASK_STR_LEN ->
  stack_room s stack_ptr size ->
  k_tasks s !! x = Some t0 ->
  ready_queue (k_tasks s) (k_ready s) l -> x ∉ l ->
  chain t_list (k_tasks s) (k_list_head s) L -> x ∉ L ->
  exists s' n,
    rx_create_task (Some x) name p stack_ptr size func RX_TASK_READY slice s = Done OS_OK s' /\
    ready_queue (k_tasks s') (k_ready s') (ins (k_tasks s) (Z.min p RX_TASK_LEAST_PRIO) x l) /\
    chain t_list (k_tasks s') (k_list_head s') (L ++ [x]) /\
    k_num_task s' = s32 (k_num_task s + 1) /\
    k_curr_stack s' = stack_left s stack_ptr size /\
    k_tasks s' !! x = Some (created name p (stack_top s stack_ptr size) size func slice t0 n) /\
    (forall y t, y <> x -> k_tasks s !! y = Some t ->
      exists a b, k_tasks s' !! y = Some (set_t_list a (set_t_next b t))) /\
    k_devs s' = k_devs s /\ k_curr s' = k_curr s /\ k_stack_start s' = k_stack_start s.
Proof.
  intros Hname Hroom Hx Hq Hni Hc HniL. unfold rx_create_task.
  rewrite decide_False by lia. erewrite bind_run by apply enter_run.
  erewrite bind_run by (apply alloc_stack_run; exact Hroom).
  set (sp := stack_top _ _ _). set (cs := stack_left _ _ _).
  set (t1 := init_tcb name p sp size func RX_TASK_READY slice t0).
  cbn iota. step. fold t1. set (s1 := set_k_tasks _ _). rewrite decide_True by done.
  assert (Hpr : t_prio t1 = Z.min p RX_TASK_LEAST_PRIO)
    by (unfold t1, init_tcb; simpl; case_decide; lia).
  step. destruct (make_ready s1 (k_tasks s) l x t1) as (ts2 & n & E & Hq2 & Hr2 & Hx2);
    [done|done|by left|done|].
  erewrite bind_run by exact E. step. rewrite Hpr in *. set (s2 := rq_upd _ _ _ _).
  destruct (list_append_run s2 L x (set_t_next n t1)) as (ts3 & hd & E3 & Hc3 & Hx3 & Hf3); auto.
  { eapply relinked_list_seg; [exact Hr2|]. by apply seg_insert_ne. }
  erewrite bind_run by exact E3. step. erewrite bind_run by apply exit_run. unfold ret.
  eexists _, n. split_and!; [reflexivity| |done|done|done|done| |done..].
  - norm. by eapply ready_queue_set_list.
  - intros y t Hy Ht. destruct (relinked_lookup _ _ _ y t Hr2) as [b Hb]; [by rewrite lookup_insert_ne|].
    destruct (Hf3 y _ Hb) as [a Ha]. by exists a, b.
Qed.

(** Creating a READY task with a name that fits and a stack that is given
    or fits in the system stack: [rx_create_task] returns [OS_OK], the task is in
    the ready queue by its priority, which is clamped to the least one, it is the
    last of the global list of tasks, the count of tasks is one more, and its
    control block has the stack, the entry point and the time slice asked for. *)
Theorem create_task_ready s x t0 l L name p stack_ptr size func slice :
  Z.of_nat (length name) <= CONFIG_TASK_STR_LEN ->
  stack_room s stack_ptr size ->
  k_tasks s !! x = Some t0 ->
  ready_queue (k_tasks s) (k_ready s) l -> x ∉ l ->
  chain t_list (k_tasks s) (k_list_head s) L -> x ∉ L ->
  exists s' la lb n,
    rx_create_task (Some x) name p stack_ptr size func RX_TASK_READY slice s = Done OS_OK s' /\
    l = la ++ lb /\ ready_queue (k_tasks s') (k_ready s') (la ++ x :: lb) /\
    Forall (fun y => prio (k_tasks s) y <= Z.min p RX_TASK_LEAST_PRIO) la /\
    Forall (fun y => Z.min p RX_TASK_LEAST_PRIO < prio (k_tasks s) y) lb /\
    chain t_list (k_tasks s') (k_list_head s') (L ++ [x]) /\
    k_num_task s' = s32 (k_num_task s + 1) /\
    k_curr_stack s' = stack_left s stack_ptr size /\
    k_tasks s' !! x = Some (created name p (stack_top s stack_ptr size) size func slice t0 n).
Proof.
  intros Hname Hroom Hx Hq Hni Hc HniL.
  destruct (create_run s x t0 l L name p stack_ptr size func slice)
    as (s' & n & E & Hq' & Hc' & Hn & Hcs & Hx' & _); [done..|].
  destruct (ins_split (k_tasks s) (Z.min p RX_TASK_LEAST_PRIO) x l) as (la & lb & Hl & Hi & Ha & Hb);
    [by destruct Hq|].
  rewrite Hi in Hq'. by exists s', la, lb, n.
Qed.

Lemma create_task_ready_witness :
  exists s' la lb n,
    rx_create_task (Some 4%positive) [116; 49] 40 4096 1024 77 RX_TASK_READY 3 sample
      = Done OS_OK s' /\
    [1; 2; 3]%positive = la ++ lb /\
    ready_queue (k_tasks s') (k_ready s') (la ++ 4%positive :: lb) /\
    Forall (fun y => prio tasks3 y <= 31) la /\ Forall (fun y => 31 < prio tasks3 y) lb /\
    chain t_list (k_tasks s') (k_list_head s') [4]%positive /\
    k_num_task s' = 1 /\ k_curr_stack s' = 0 /\
    k_tasks s' !! 4%positive
      = Some (created [116; 49] 40 5120 1024 77 3 (task 2 RX_TASK_SUSPEND None) n).
Proof.
  apply (create_task_ready sample 4 (task 2 RX_TASK_SUSPEND None) [1; 2; 3]%positive []
           [116; 49] 40 4096 1024 77 3).
  - by vm_compute.
  - by left.
  - reflexivity.
  - by apply ready_queueb_ok; vm_compute.
  - set_solver.
  - done.
  - set_solver.
Defined.

(** A stack taken from the system stack lies inside it and below every
    stack taken before: when the request is granted, the new stack
    [[top - size, top)] starts at the old end of the free area, does not reach
    below the base of the system stack, and the free area that is left ends four
    bytes below it; when the request is refused nothing is taken. *)
Theorem dynamic_stack_within_system_stack s size :
  let base := k_stack_start s - CONFIG_SYSTEM_STACK_SIZE in
  0 <= base -> k_stack_start s < 2 ^ 32 ->
  base - 4 <= k_curr_stack s <= k_stack_start s -> 0 <= size ->
  size + 4 <= k_curr_stack s ->
  (base <= k_curr_stack s - size /\
   exists s', alloc_stack 0 size s = Done (Some (k_curr_stack s)) s' /\
     k_curr_stack s' = k_curr_stack s - size - 4 /\ base - 4 <= k_curr_stack s') \/
  (k_curr_stack s - size < base /\
   exists s', alloc_stack 0 size s = Done None s' /\ k_curr_stack s' = k_curr_stack s).
Proof.
  unfold CONFIG_SYSTEM_STACK_SIZE. intros Hb Hs Hc Hn Hsz.
  destruct (decide (k_stack_start s - 8192 * 10 <= k_curr_stack s - size)).
  - left. split; [done|]. eexists. split.
    + apply alloc_stack_run. right. unfold CONFIG_SYSTEM_STACK_SIZE. rewrite !u32_small; lia.
    + unfold stack_left. rewrite decide_True by done. norm. rewrite u32_small; lia.
  - right. split; [lia|]. eexists. unfold alloc_stack. rewrite decide_True by done. step.
    unfold CONFIG_SYSTEM_STACK_SIZE. rewrite !u32_small by lia. rewrite decide_True by lia.
    erewrite bind_run by apply pr_error_run. done.
Qed.

Lemma dynamic_stack_within_system_stack_witness :
  let s := set_k_curr_stack 1000000 (set_k_stack_start 1000000 sample) in
  (918080 <= 1000000 - 8192 /\
   exists s', alloc_stack 0 8192 s = Done (Some 1000000) s' /\
     k_curr_stack s' = 1000000 - 8192 - 4 /\ 918080 - 4 <= k_curr_stack s') \/
  (1000000 - 8192 < 918080 /\
   exists s', alloc_stack 0 8192 s = Done None s' /\ k_curr_stack s' = 1000000).
Proof.
  apply (dynamic_stack_within_system_stack
           (set_k_curr_stack 1000000 (set_k_stack_start 1000000 sample)) 8192);
    unfold CONFIG_SYSTEM_STACK_SIZE; simpl; lia.
Defined.

(** ** Change of priority *)

(** Changing the priority of a READY task moves it to the place its new
    priority calls for, behind the tasks of that priority, and keeps the
    invariant of the ready queue; the old priority is neither 3 nor 4. *)
Theorem set_task_prio_moves s l1 x l2 tx p :
  ready_queue (k_tasks s) (k_ready s) (l1 ++ x :: l2) ->
  k_tasks s !! x = Some tx -> t_state tx = RX_TASK_READY ->
  p <> t_prio tx -> t_prio tx <> 3 -> t_prio tx <> 4 ->
  exists s' la lb t',
    rx_set_task_prio (Some x) p s = Done OS_OK s' /\
    l1 ++ l2 = la ++ lb /\ ready_queue (k_tasks s') (k_ready s') (la ++ x :: lb) /\
    Forall (fun y => prio (k_tasks s) y <= p) la /\
    Forall (fun y => p < prio (k_tasks s) y) lb /\
    k_tasks s' !! x = Some t' /\ t_prio t' = p /\ t_state t' = RX_TASK_READY.
Proof.
  intros Hq Hx Hst Hp H3 H4. unfold rx_set_task_prio. step. rewrite decide_False by tauto.
  step. rewrite decide_True by done.
  set (s1 := set_k_tasks _ _).
  destruct (leave_queue s1 (k_tasks s) l1 x l2 tx (set_t_prio p tx))
    as (ts2 & E2 & Hq2 & Hx2 & _ & Hpy); [done..|].
  set (s2 := rq_upd ts2 _ _ s1) in *.
  assert (Hni : x ∉ l1 ++ l2) by (eapply nodup_mid, ready_queue_nodup, Hq).
  destruct (rq_add s2 (l1 ++ l2) x _ Hq2 Hx2 ltac:(by left) Hni) as (ts3 & E3 & Hq3 & Hr3).
  destruct (ins_split (k_tasks s2) p x (l1 ++ l2)) as (la & lb & Hl & Hi & Ha & Hb);
    [by destruct Hq2|].
  simpl t_prio in E3, Hq3. rewrite Hi in E3, Hq3. rewrite Hl in Hni.
  destruct (relinked_lookup _ _ _ _ _ Hr3 Hx2) as [n Hn].
  step. erewrite bind_run by exact E2. erewrite bind_run by exact E3.
  eexists _, la, lb, _. split_and!; [reflexivity|done|done|..|exact Hn|done|done];
    rewrite Forall_forall in Ha, Hb |- *; intros y Hy;
    (rewrite <- Hpy; [auto|intros ->; apply Hni; apply elem_of_app; tauto]).
Qed.

Lemma set_task_prio_moves_witness :
  exists s' la lb t',
    rx_set_task_prio (Some 2%positive) 0 sample = Done OS_OK s' /\
    [1; 3]%positive = la ++ lb /\
    ready_queue (k_tasks s') (k_ready s') (la ++ 2%positive :: lb) /\
    Forall (fun y => prio tasks3 y <= 0) la /\ Forall (fun y => 0 < prio tasks3 y) lb /\
    k_tasks s' !! 2%positive = Some t' /\ t_prio t' = 0 /\ t_state t' = RX_TASK_READY.
Proof.
  apply (set_task_prio_moves sample [1]%positive 2 [3]%positive
           (task 5 RX_TASK_READY (Some 3%positive))); try reflexivity; try done.
  by apply ready_queueb_ok; vm_compute.
Defined.

(** The guard of [rx_set_task_prio] tests the priority against the numbers
    of the states COMPLETE and ABORT: the priority of a task of priority 3 or 4
    can never be changed, whatever its state; the call returns 0 all the same. *)
Theorem set_task_prio_stuck_at_3_and_4 s x tx p :
  k_tasks s !! x = Some tx -> t_prio tx = 3 \/ t_prio tx = 4 ->
  rx_set_task_prio (Some x) p s = Done OS_OK s.
Proof.
  intros Hx Hp. unfold rx_set_task_prio. step. by rewrite decide_True by tauto.
Qed.

Lemma set_task_prio_stuck_at_3_and_4_witness :
  let s := set_k_tasks {[ 9%positive := task 3 RX_TASK_READY None ]} sample in
  rx_set_task_prio (Some 9%positive) 1 s = Done OS_OK s.
Proof.
  apply (set_task_prio_stuck_at_3_and_4 _ 9 (task 3 RX_TASK_READY None) 1);
    [reflexivity|by left].
Defined.

(** ** Deletion *)

Lemma list_before_run fuel s h l1 y x l2 :
  (length l1 < fuel)%nat -> chain t_list (k_tasks s) h (l1 ++ y :: x :: l2) ->
  list_before fuel (Some x) h s = Done (Some y) s.
Proof.
  revert fuel h. induction l1 as [|z l1 IH]; intros fuel h Hf Hc;
    (destruct fuel as [|fuel]; [simpl in Hf; lia|]); cbn [list_before].
  - destruct Hc as (-> & ty & Hy & (Hn & _)). step. rewrite Hn. by rewrite decide_True by done.
  - assert (Hnd := chain_NoDup _ _ _ _ Hc). destruct Hc as (-> & tz & Hz & Hc). step.
    assert (Hn := chain_head _ _ _ _ Hc).
    destruct (t_list tz) as [n|] eqn:E; [|by destruct l1].
    rewrite decide_False; [apply IH; [simpl in Hf; lia|done]|]. intros ?. simplify_eq.
    inversion Hnd as [|? ? Hz1 Hn1]; subst. destruct l1 as [|w l1]; simplify_eq/=.
    + inversion Hn1. set_solver.
    + inversion Hn1. set_solver.
Qed.

(** A task that is neither suspended nor ready is taken out of the global
    list wherever it stands, and the order of the others is kept; a suspended or
    ready task is refused and the state is unchanged. *)
Theorem delete_task_unlinks s L1 x L2 tx :
  chain t_list (k_tasks s) (k_list_head s) (L1 ++ x :: L2) ->
  k_tasks s !! x = Some tx ->
  (t_state tx = RX_TASK_SUSPEND \/ t_state tx = RX_TASK_READY ->
     rx_delete_task (Some x) s = Done OS_ERR s) /\
  (t_state tx <> RX_TASK_SUSPEND -> t_state tx <> RX_TASK_READY ->
     exists s', rx_delete_task (Some x) s = Done OS_OK s' /\
       chain t_list (k_tasks s') (k_list_head s') (L1 ++ L2)).
Proof.
  intros Hc Hx. unfold rx_delete_task. split.
  { intros H. step. by rewrite decide_True by tauto. }
  intros H1 H2. step. rewrite decide_False by tauto. step.
  assert (Hnd := chain_NoDup _ _ _ _ Hc).
  destruct (last_snoc_inv L1) as [->|(L & y & ->)].
  - pose proof (chain_head _ _ _ _ Hc) as Hh. simpl in Hh. rewrite Hh, decide_True by done.
    eexists. split; [repeat step; reflexivity|]. norm. destruct Hc as (_ & t & ? & Hc).
    by simplify_eq.
  - rewrite <- app_assoc in Hc. simpl in Hc. rewrite decide_False; last first.
    { rewrite (chain_head _ _ _ _ Hc). rewrite <- app_assoc in Hnd. simpl in Hnd.
      destruct L; simpl; intros; simplify_eq; inversion Hnd; set_solver. }
    destruct (seg_lookup _ _ _ _ _ y Hc ltac:(set_solver)) as [ty Hy].
    assert (Hyx : t_list ty = Some x).
    { apply seg_app in Hc as (q & _ & (-> & t & ? & (? & _))). congruence. }
    eexists. split.
    + repeat step. erewrite bind_run by (eapply list_before_run; [|exact Hc];
        apply chain_length in Hc; rewrite length_app in Hc; unfold task_fuel; lia).
      step. rewrite Hyx. repeat step. reflexivity.
    + norm. apply seg_app in Hc as (q & Ha & (-> & t & ? & (? & t' & ? & Hb))). simplify_eq.
      rewrite <- app_assoc in Hnd. apply NoDup_app in Hnd as (HL & Hd & Hn).
      assert (y ∉ L) by (intros ?; eapply Hd; set_solver).
      assert (y ∉ L2) by (inversion Hn; set_solver).
      apply seg_app. exists (t_list t'). split; [|by apply seg_insert_ne].
      eapply seg_relink_last; [|done|done]. apply NoDup_app. split_and!; [done|set_solver|].
      apply NoDup_singleton.
Qed.

Lemma delete_task_unlinks_witness :
  let t4 := set_t_state RX_TASK_COMPLETE tcb0 in
  let s := set_k_list_head (Some 1%positive)
    (set_k_tasks (<[1%positive := set_t_list (Some 4%positive) tcb0]>
      (<[4%positive := t4]> ∅)) sample) in
  (t_state t4 = RX_TASK_SUSPEND \/ t_state t4 = RX_TASK_READY ->
     rx_delete_task (Some 4%positive) s = Done OS_ERR s) /\
  (t_state t4 <> RX_TASK_SUSPEND -> t_state t4 <> RX_TASK_READY ->
     exists s', rx_delete_task (Some 4%positive) s = Done OS_OK s' /\
       chain t_list (k_tasks s') (k_list_head s') [1]%positive).
Proof.
  apply (delete_task_unlinks _ [1]%positive 4 [] (set_t_state RX_TASK_COMPLETE tcb0));
    [|reflexivity]. by apply chainb_ok; vm_compute.
Defined.
