(* ===== verification/Timer.v ===== *)
(** * Software timers (src/kernel/rx_timer.c)

    The list of active timers is doubly linked and sorted by expiry; the timer
    thread only looks at its head.  A sleeping task waits on a timer of its own
    stack frame: the address of such a local variable is an argument here, and
    what the object holds before the call is arbitrary. *)

From stdpp Require Import base gmap list sorting.
From Stdlib Require Import ZArith Lia.
From S2P Require Import Prelude State Samples Chains Port ReadyQueue Sched TaskQueue.
#[local] Open Scope Z_scope.
#[local] Open Scope rosx_scope.

(** [flag |= __RX_TIMER_ENABLED], [flag &= __RX_TIMER_DISABLED] and
    [flag & __RX_TIMER_ENABLED]. *)
Definition RX_TIMER_ENABLED : Z := 1.
Definition RX_TIMER_DISABLED : Z := Z.lnot RX_TIMER_ENABLED.
Definition timer_enabled (t : timer_list) : bool :=
  negb (Z.land (tm_flag t) RX_TIMER_ENABLED =? 0).

(** The walks over the active timers visit each timer once. *)
Definition timer_fuel (s : kst) : nat := S (size (k_timers s)).

(** The loop of [__rx_add_to_active_timer_list]; each of its exits leaves the
    critical section and returns. *)
Fixpoint add_active_loop (fuel : nat) (p : ptr) (tick : Z) (start : ptr) : M unit :=
  match fuel with
  | O => crash NoFuel
  | S fuel =>
    let! st := ld_timer start in
    if decide (tm_time_expiry st >= tick) then
      let! hd := gets k_timer_head in
      if decide (start = hd) then
        on_timer hd (set_tm_prev p) ;;;
        on_timer p (set_tm_next hd) ;;;
        upd (set_k_timer_head p)
      else
        on_timer p (set_tm_next start) ;;;
        let! st := ld_timer start in
        on_timer (tm_prev st) (set_tm_next p) ;;;
        let! st := ld_timer start in
        on_timer p (set_tm_prev (tm_prev st)) ;;;
        on_timer start (set_tm_prev p)
    else
      match tm_next st with
      | None =>
        on_timer start (set_tm_next p) ;;;
        on_timer p (set_tm_prev start)
      | Some _ => add_active_loop fuel p tick (tm_next st)
      end
  end.

Definition __rx_add_to_active_timer_list (p : ptr) : M unit :=
  let! imask := rx_enter_critical in
  let! jiffies := gets k_jiffies in
  on_timer p (fun t => set_tm_time_expiry (u32 (tm_delay t + jiffies)) t) ;;;
  on_timer p (fun t => set_tm_flag (Z.lor (tm_flag t) RX_TIMER_ENABLED) t) ;;;
  let! t := ld_timer p in
  let tick := tm_time_expiry t in
  on_timer p (set_tm_prev None) ;;;
  on_timer p (set_tm_next None) ;;;
  let! start := gets k_timer_head in
  match start with
  | None =>
    upd (set_k_timer_head p) ;;;
    rx_exit_critical imask
  | Some _ =>
    let! fuel := gets timer_fuel in
    add_active_loop fuel p tick start ;;;
    rx_exit_critical imask
  end.

(** The only list the callers pass is that of [__rx_active_timer_head]. *)
Definition __rx_remove_from_timer_list (p : ptr) : M unit :=
  let! imask := rx_enter_critical in
  let! hd := gets k_timer_head in
  if decide (hd = None) then
    pr_error ;;;
    rx_exit_critical imask
  else if decide (hd = p) then
    let! t := ld_timer p in
    (match tm_next t with
     | Some _ =>
       upd (set_k_timer_head (tm_next t)) ;;;
       on_timer (tm_next t) (set_tm_prev None)
     | None => upd (set_k_timer_head None)
     end) ;;;
    rx_exit_critical imask
  else
    let! t := ld_timer p in
    on_timer (tm_prev t) (set_tm_next (tm_next t)) ;;;
    let! t := ld_timer p in
    on_timer (tm_next t) (set_tm_prev (tm_prev t)) ;;;
    rx_exit_critical imask.

Definition __rx_add_timer (p : ptr) (func : option timer_handler) (delay : Z) (tid : ptr) : M Z :=
  on_timer p (fun t => set_tm_prev None (set_tm_next None (set_tm_handler func
    (set_tm_task tid (set_tm_time_expiry 0 (set_tm_delay (u32 delay) t)))))) ;;;
  match func with
  | None =>
    __rx_add_to_active_timer_list p ;;;
    on_task tid (set_t_timer p) ;;;
    on_task tid (set_t_state RX_TASK_SUSPEND) ;;;
    let! _ := __rx_remove_from_ready_q tid in
    rx_sched ;;;
    ret OS_OK
  | Some _ =>
    on_timer p (fun t => set_tm_flag (Z.land (tm_flag t) RX_TIMER_DISABLED) t) ;;;
    ret OS_OK
  end.

(** [timer] is the address of the local variable of that name. *)
Definition rx_msleep (timer : ptr) (time : Z) : M Z :=
  if decide (time > 100000 \/ time = 0) then
    pr_error ;;;
    ret OS_ERR
  else
    let time := time / CONFIG_HZ in
    let time := if decide (time = 0) then 1 else time in
    let! curr := gets k_curr in
    let! _ := __rx_add_timer timer None time curr in
    ret OS_OK.

(** The busy delays; their bodies are empty. *)
Definition rx_ndelay : M unit := ret tt.
Definition rx_udelay : M unit := ret tt.
Definition rx_mdelay : M unit := ret tt.

Definition rx_ssleep (timer : ptr) (time : Z) : M Z :=
  if decide (time = 0) then
    pr_error ;;;
    ret OS_ERR
  else
    let time := u32 (time * 1000) / CONFIG_HZ in
    let! curr := gets k_curr in
    let! _ := __rx_add_timer timer None time curr in
    ret OS_OK.

Definition rx_init_timer (timer : ptr) (handler : option timer_handler) (priv : ptr) (ticks : Z)
  : M Z :=
  if decide (ticks = 0) then
    pr_error ;;;
    ret OS_ERR
  else
    on_timer timer (set_tm_priv priv) ;;;
    on_timer timer (set_tm_flag 0) ;;;
    let! curr := gets k_curr in
    let! _ := __rx_add_timer timer handler ticks curr in
    ret OS_OK.

Definition rx_create_timer (timer : ptr) (handler : option timer_handler) (priv : ptr) (ticks : Z)
  : M Z :=
  if decide (ticks = 0) then
    pr_error ;;;
    ret OS_ERR
  else
    on_timer timer (set_tm_priv priv) ;;;
    let! curr := gets k_curr in
    let! _ := __rx_add_timer timer handler ticks curr in
    ret OS_OK.

(** The messages name the timer's task: [p->task->name]. *)
Definition pr_error_timer (p : ptr) : M unit :=
  let! t := ld_timer p in
  let! _ := ld_task (tm_task t) in
  pr_error.

Definition rx_delete_timer (timer : ptr) : M unit :=
  let! t := ld_timer timer in
  when timer_enabled t do pr_error_timer timer.

Definition rx_start_timer (p : ptr) : M unit :=
  match p with
  | None => pr_error
  | Some _ =>
    let! t := ld_timer p in
    if timer_enabled t then pr_error_timer p
    else __rx_add_to_active_timer_list p
  end.

Definition rx_stop_timer (p : ptr) : M unit :=
  let! t := ld_timer p in
  if timer_enabled t then
    __rx_remove_from_timer_list p ;;;
    on_timer p (fun t => set_tm_flag (Z.land (tm_flag t) RX_TIMER_DISABLED) t)
  else pr_error_timer p.

(** [if(t->timer) { rx_stop_timer(t->timer); t->timer = NULL; }]. *)
Definition stop_task_timer (x : ptr) : M unit :=
  let! t := ld_task x in
  match t_timer t with
  | Some _ =>
    rx_stop_timer (t_timer t) ;;;
    on_task x (set_t_timer None)
  | None => ret tt
  end.

(** The same with [__rx_remove_from_timer_list]: the timer keeps its active
    bit. *)
Definition drop_task_timer (x : ptr) : M unit :=
  let! t := ld_task x in
  match t_timer t with
  | Some _ =>
    __rx_remove_from_timer_list (t_timer t) ;;;
    on_task x (set_t_timer None)
  | None => ret tt
  end.

Definition rx_mod_timer (p : ptr) (delay : Z) : M unit :=
  match p with
  | None => pr_error
  | Some _ =>
    let! t := ld_timer p in
    if timer_enabled t then pr_error_timer p
    else if decide (tm_delay t = 0) then ret tt
    else
      on_timer p (set_tm_delay (u32 (delay * (1000 / CONFIG_HZ)))) ;;;
      rx_start_timer p
  end.

Definition RX_MSECS_TO_TICKS (m : Z) : Z :=
  if decide (m = 0) then 0
  else if decide (m < 1000 / CONFIG_HZ) then 1
  else Z.quot m (1000 / CONFIG_HZ).

(** ** The list of active timers *)

(** The expiry of a timer in a store. *)
Definition expiry (tms : gmap positive timer_list) (x : positive) : Z :=
  from_option tm_time_expiry 0 (tms !! x).

Definition expiry_sorted (tms : gmap positive timer_list) (l : list positive) : Prop :=
  StronglySorted (fun x y => expiry tms x <= expiry tms y) l.

(** Insertion by expiry, in front of the timers of the same expiry. *)
Fixpoint tm_ins (tms : gmap positive timer_list) (tick : Z) (p : positive) (l : list positive)
  : list positive :=
  match l with
  | [] => [p]
  | x :: l' => if decide (expiry tms x >= tick) then p :: l else x :: tm_ins tms tick p l'
  end.

(** [tms'] is [tms] except for the links of the timers. *)
Definition tm_relinked (tms tms' : gmap positive timer_list) : Prop :=
  forall q, tms' !! q = tms !! q \/
    exists t n p, tms !! q = Some t /\ tms' !! q = Some (set_tm_next n (set_tm_prev p t)).

(** The invariant: the list is well linked both ways, sorted by expiry, and its
    timers are marked active. *)
Record timer_queue (tms : gmap positive timer_list) (h : ptr) (l : list positive) : Prop := {
  tq_chain : dchain tm_next tm_prev tms h l;
  tq_sorted : expiry_sorted tms l;
  tq_enabled : forall x t, x ∈ l -> tms !! x = Some t -> timer_enabled t = true;
}.

Lemma tm_links_id t : set_tm_next (tm_next t) (set_tm_prev (tm_prev t) t) = t.
Proof. by destruct t. Qed.

Lemma tm_relinked_refl tms : tm_relinked tms tms.
Proof. intros q. by left. Qed.

Lemma tm_relinked_trans a b c : tm_relinked a b -> tm_relinked b c -> tm_relinked a c.
Proof.
  intros H1 H2 q. destruct (H1 q) as [E1|(t & n & p & E1 & E1')], (H2 q)
    as [E2|(t2 & n2 & p2 & E2 & E2')]; [left; congruence|right..].
  - exists t2, n2, p2. by rewrite <- E1.
  - exists t, n, p. by rewrite E2.
  - simplify_eq. by exists t, n2, p2.
Qed.

Lemma tm_relinked_insert tms x t n p :
  tms !! x = Some t -> tm_relinked tms (<[x := set_tm_next n (set_tm_prev p t)]> tms).
Proof.
  intros Hx q. rewrite lookup_insert. case_decide; [subst; right|by left]. eauto 6.
Qed.

Lemma tm_relinked_next tms x t n :
  tms !! x = Some t -> tm_relinked tms (<[x := set_tm_next n t]> tms).
Proof.
  intros Hx. pose proof (tm_relinked_insert tms x t n (tm_prev t) Hx) as H. by destruct t.
Qed.

Lemma tm_relinked_prev tms x t p :
  tms !! x = Some t -> tm_relinked tms (<[x := set_tm_prev p t]> tms).
Proof.
  intros Hx. pose proof (tm_relinked_insert tms x t (tm_next t) p Hx) as H. by destruct t.
Qed.

Lemma tm_relinked_lookup tms tms' x t :
  tm_relinked tms tms' -> tms !! x = Some t ->
  exists n p, tms' !! x = Some (set_tm_next n (set_tm_prev p t)).
Proof.
  intros Hr Hx. destruct (Hr x) as [E|(t' & n & p & E & E')]; simplify_eq; eauto.
  exists (tm_next t), (tm_prev t). by rewrite tm_links_id, E.
Qed.

Lemma tm_relinked_expiry tms tms' x : tm_relinked tms tms' -> expiry tms' x = expiry tms x.
Proof.
  intros Hr. unfold expiry. destruct (Hr x) as [->|(t & n & p & -> & ->)]; done.
Qed.

Lemma expiry_lookup tms x t : tms !! x = Some t -> expiry tms x = tm_time_expiry t.
Proof. unfold expiry. by intros ->. Qed.

(** ** Insertion *)

Lemma timer_link_front s x l p tp :
  dchain tm_next tm_prev (k_timers s) (k_timer_head s) (x :: l) -> p ∉ x :: l ->
  k_timers s !! p = Some tp -> tm_prev tp = None ->
  exists tms',
    (on_timer (Some x) (set_tm_prev (Some p)) ;;;
     on_timer (Some p) (set_tm_next (Some x)) ;;;
     upd (set_k_timer_head (Some p))) s
      = Done tt (set_k_timer_head (Some p) (set_k_timers tms' s)) /\
    dchain tm_next tm_prev tms' (Some p) (p :: x :: l) /\ tm_relinked (k_timers s) tms'.
Proof.
  intros Hd Hp Htp Hnil. assert (Hnd := dchain_NoDup _ _ _ _ _ Hd).
  apply NoDup_cons in Hnd as [Hxl _].
  destruct (dchain_mid _ _ _ _ [] x l Hd) as (tx & Hx & Hpx & Hnx & _ & Hl).
  assert (Hpx' : p <> x) by set_solver.
  eexists. split_and!.
  - step. step. unfold upd. state_eq.
  - split; [done|]. eexists. split; [apply lookup_insert_eq|]. split; [done|].
    apply dseg_insert_ne; [done|]. cbn [tm_next set_tm_next].
    eapply dseg_repoint_first; [done|exact Hx|done|done|].
    destruct Hd as (-> & Hd'). by split.
  - eapply tm_relinked_trans; [by apply (tm_relinked_prev _ x tx)|].
    apply tm_relinked_next. by rewrite lookup_insert_ne by congruence.
Qed.

(** Linking [p] between its neighbours [y] and [x], in the order of the code. *)
Lemma timer_link_before s l1 y x l2 p tp :
  dchain tm_next tm_prev (k_timers s) (k_timer_head s) ((l1 ++ [y]) ++ x :: l2) ->
  p ∉ (l1 ++ [y]) ++ x :: l2 -> k_timers s !! p = Some tp ->
  exists tms',
    (on_timer (Some p) (set_tm_next (Some x)) ;;;
     let! st := ld_timer (Some x) in
     on_timer (tm_prev st) (set_tm_next (Some p)) ;;;
     let! st := ld_timer (Some x) in
     on_timer (Some p) (set_tm_prev (tm_prev st)) ;;;
     on_timer (Some x) (set_tm_prev (Some p))) s
      = Done tt (set_k_timers tms' s) /\
    dchain tm_next tm_prev tms' (k_timer_head s) ((l1 ++ [y]) ++ p :: x :: l2) /\
    tm_relinked (k_timers s) tms'.
Proof.
  intros Hd Hp Htp. assert (Hnd := dchain_NoDup _ _ _ _ _ Hd).
  destruct (dchain_mid _ _ _ _ (l1 ++ [y]) x l2 Hd) as (tx & Hx & Hpx & _ & Hl & _).
  rewrite last_snoc in Hpx. apply NoDup_app in Hnd as (Hn1 & Hd12 & Hn2).
  apply NoDup_app in Hn1 as (_ & Hd1 & _). apply NoDup_cons in Hn2 as [Hxl _].
  assert (y ∉ l1) by (intros ?; eapply Hd1; [done|set_solver]).
  assert (y <> x) by (intros ->; apply (Hd12 x); set_solver).
  assert (y ∉ l2) by (intros ?; apply (Hd12 y); set_solver).
  assert (x ∉ l1 ++ [y]) by (intros ?; eapply (Hd12 x); [done|set_solver]).
  assert (p <> x /\ p <> y) as [? ?] by set_solver.
  assert (p ∉ l1 ++ [y]) by set_solver. assert (p ∉ l2) by set_solver.
  assert (Hd' := Hd). rewrite <- app_assoc in Hd'.
  destruct (dchain_mid _ _ _ _ l1 y (x :: l2) Hd') as (ty & Hy & _ & Hny & _).
  eexists. split_and!.
  - step. step. rewrite Hpx. step. step. rewrite Hpx. step. erewrite modify_run by lk.
    state_eq.
  - apply dseg_app in Hd as (q & Ha & Hb). rewrite dlast_snoc in Hb.
    assert (q = Some x) as -> by (by destruct Hb).
    apply dseg_app. exists (Some p). split.
    + apply dseg_insert_ne; [done|]. apply dseg_insert_ne; [done|].
      eapply dseg_relink_last; [done|by rewrite lookup_insert_ne|done|done|].
      apply dseg_insert_ne; done.
    + rewrite dlast_snoc. split; [done|]. eexists. split; [|split].
      * rewrite lookup_insert_ne by done. apply lookup_insert_eq.
      * done.
      * cbn [tm_next set_tm_next set_tm_prev].
        eapply dseg_repoint_first; [done|by repeat (rewrite lookup_insert_ne by done)|done|done|].
        repeat (apply dseg_insert_ne; [set_solver|]). done.
  - eapply tm_relinked_trans; [by apply (tm_relinked_next _ p tp)|].
    eapply tm_relinked_trans; [apply (tm_relinked_next _ y ty); by rewrite lookup_insert_ne|].
    eapply tm_relinked_trans; [apply (tm_relinked_prev _ p (set_tm_next (Some x) tp));
      rewrite lookup_insert_ne by done; by rewrite lookup_insert_eq|].
    apply (tm_relinked_prev _ x). by repeat (rewrite lookup_insert_ne by done).
Qed.

Lemma timer_link_last s l y p tp :
  dchain tm_next tm_prev (k_timers s) (k_timer_head s) (l ++ [y]) ->
  p ∉ l ++ [y] -> k_timers s !! p = Some tp -> tm_next tp = None ->
  exists tms',
    (on_timer (Some y) (set_tm_next (Some p)) ;;;
     on_timer (Some p) (set_tm_prev (Some y))) s = Done tt (set_k_timers tms' s) /\
    dchain tm_next tm_prev tms' (k_timer_head s) ((l ++ [y]) ++ [p]) /\
    tm_relinked (k_timers s) tms'.
Proof.
  intros Hd Hp Htp Hnil. assert (Hnd := dchain_NoDup _ _ _ _ _ Hd).
  destruct (dchain_mid _ _ _ _ l y [] Hd) as (ty & Hy & _ & Hny & _).
  apply NoDup_app in Hnd as (_ & Hd1 & _).
  assert (y ∉ l) by (intros ?; eapply Hd1; [done|set_solver]).
  assert (p <> y) by set_solver.
  eexists. split_and!.
  - step. erewrite modify_run by lk. state_eq.
  - apply dseg_app. exists (Some p). split.
    + apply dseg_insert_ne; [done|]. eapply dseg_relink_last; done.
    + rewrite dlast_snoc. split; [done|]. eexists. split; [apply lookup_insert_eq|].
      split; [done|]. simpl. done.
  - eapply tm_relinked_trans; [by apply (tm_relinked_next _ y ty)|].
    apply tm_relinked_prev. by rewrite lookup_insert_ne.
Qed.

Lemma set_timer_head_id s : set_k_timer_head (k_timer_head s) s = s.
Proof. by destruct s. Qed.

Lemma dchain_head m h l : dchain tm_next tm_prev m h l -> h = head l.
Proof. intros H. by eapply chain_head, dchain_chain. Qed.

(** The loop stops at a timer that does not expire earlier. *)
Lemma add_active_here fuel s l1 x l2 p tp tx tick :
  dchain tm_next tm_prev (k_timers s) (k_timer_head s) (l1 ++ x :: l2) ->
  p ∉ l1 ++ x :: l2 -> k_timers s !! p = Some tp -> tm_prev tp = None ->
  k_timers s !! x = Some tx -> tm_time_expiry tx >= tick ->
  exists tms',
    add_active_loop (S fuel) (Some p) tick (Some x) s
      = Done tt (set_k_timer_head (head (l1 ++ p :: x :: l2)) (set_k_timers tms' s)) /\
    dchain tm_next tm_prev tms' (head (l1 ++ p :: x :: l2)) (l1 ++ p :: x :: l2) /\
    tm_relinked (k_timers s) tms'.
Proof.
  intros Hd Hp Htp Hpr Hx Hge. cbn [add_active_loop].
  pose proof (dchain_head _ _ _ Hd) as Hh. pose proof (dchain_NoDup _ _ _ _ _ Hd) as Hnd.
  step. rewrite decide_True by done. step.
  destruct (last_snoc_inv l1) as [->|(l & y & ->)].
  - rewrite decide_True by done. rewrite Hh. cbn [head app].
    edestruct timer_link_front as (tms' & E & H1 & H2); eauto.
  - rewrite decide_False.
    + edestruct timer_link_before as (tms' & E & H1 & H2); [exact Hd|done|done|].
      assert (Hhd : k_timer_head s = head ((l ++ [y]) ++ p :: x :: l2)).
      { rewrite Hh. by destruct l. }
      exists tms'. rewrite <- Hhd. split_and!; [|done..]. rewrite E. by destruct s.
    + rewrite Hh. intros He. assert (x ∈ l ++ [y]); [destruct l; simplify_eq/=; set_solver|].
      apply NoDup_app in Hnd as (_ & Hd1 & _). eapply Hd1; [done|set_solver].
Qed.

(** The loop, from any point of its walk: [l1] has been passed. *)
Lemma add_active_loop_spec fuel s l1 x l2 p tp tick :
  (length l2 < fuel)%nat ->
  dchain tm_next tm_prev (k_timers s) (k_timer_head s) (l1 ++ x :: l2) ->
  p ∉ l1 ++ x :: l2 -> k_timers s !! p = Some tp -> tm_prev tp = None -> tm_next tp = None ->
  let l' := l1 ++ tm_ins (k_timers s) tick p (x :: l2) in
  exists tms',
    add_active_loop fuel (Some p) tick (Some x) s
      = Done tt (set_k_timer_head (head l') (set_k_timers tms' s)) /\
    dchain tm_next tm_prev tms' (head l') l' /\ tm_relinked (k_timers s) tms'.
Proof.
  revert fuel l1 x. induction l2 as [|z l2 IH]; intros fuel l1 x Hf Hd Hp Htp Hpr Hnx l';
    (destruct fuel as [|fuel]; [simpl in Hf; lia|]);
    destruct (dchain_mid _ _ _ _ _ _ _ Hd) as (tx & Hx & Hpx & Hnx' & _);
    pose proof (dchain_head _ _ _ Hd) as Hh;
    unfold l'; cbn [tm_ins]; rewrite (expiry_lookup _ _ _ Hx);
    (case_decide; [by eapply add_active_here|]); cbn [add_active_loop]; step;
    rewrite decide_False by done; rewrite Hnx'; cbn [head].
  - edestruct timer_link_last as (tms' & E & H1 & H2); [exact Hd|done|done|done|].
    rewrite <- app_assoc in H1. cbn [app] in H1.
    assert (Hhd : k_timer_head s = head (l1 ++ [x; p])) by (rewrite Hh; by destruct l1).
    exists tms'. rewrite <- Hhd. split_and!; [|done..]. rewrite E. by destruct s.
  - specialize (IH fuel (l1 ++ [x]) z). rewrite <- !app_assoc in IH. cbn [app] in IH.
    apply IH; auto. simpl in Hf. lia.
Qed.

(** The record the insertion starts from: the expiry is computed, the timer is
    marked active and unlinked. *)
Definition armed (jiffies : Z) (t : timer_list) : timer_list :=
  set_tm_next None (set_tm_prev None (set_tm_flag (Z.lor (tm_flag t) RX_TIMER_ENABLED)
    (set_tm_time_expiry (u32 (tm_delay t + jiffies)) t))).

Definition tm_upd (tms : gmap positive timer_list) (h : ptr) (s : kst) : kst :=
  set_k_critical (crit_out s) (set_k_timer_head h (set_k_timers tms s)).

Lemma armed_enabled j t : timer_enabled (armed j t) = true.
Proof.
  unfold timer_enabled, armed. cbn. apply negb_true_iff, Z.eqb_neq. intros H.
  apply (f_equal (fun z => Z.testbit z 0)) in H. rewrite Z.land_spec, Z.lor_spec in H.
  rewrite orb_true_r in H. done.
Qed.

Lemma add_active_run s l p tp :
  dchain tm_next tm_prev (k_timers s) (k_timer_head s) l -> p ∉ l ->
  k_timers s !! p = Some tp ->
  let tms := <[p := armed (k_jiffies s) tp]> (k_timers s) in
  let l' := tm_ins tms (u32 (tm_delay tp + k_jiffies s)) p l in
  exists tms',
    __rx_add_to_active_timer_list (Some p) s = Done tt (tm_upd tms' (head l') s) /\
    dchain tm_next tm_prev tms' (head l') l' /\ tm_relinked tms tms'.
Proof.
  intros Hd Hp Htp tms l'. unfold __rx_add_to_active_timer_list.
  erewrite bind_run by apply enter_run. step. step. step. step. cbn [tm_time_expiry set_tm_flag
    set_tm_time_expiry tm_flag]. step. step. step. rewrite !insert_insert_eq.
  change (set_tm_next None _) with (armed (k_jiffies s) tp). fold tms.
  set (s1 := set_k_timers _ _).
  assert (Hd1 : dchain tm_next tm_prev (k_timers s1) (k_timer_head s1) l)
    by (by apply dseg_insert_ne).
  assert (Hp1 : k_timers s1 !! p = Some (armed (k_jiffies s) tp)) by apply lookup_insert_eq.
  destruct l as [|x l].
  - change (k_timer_head s) with (k_timer_head s1). rewrite (dchain_head _ _ _ Hd1). cbn [head].
    exists tms. step. rewrite exit_run. split_and!; [| |apply tm_relinked_refl].
    + unfold tm_upd. unfold s1. crit_eq.
    + split; [done|]. eexists. split; [exact Hp1|done].
  - change (k_timer_head s) with (k_timer_head s1). rewrite (dchain_head _ _ _ Hd1). cbn [head].
    edestruct (add_active_loop_spec (timer_fuel s1) s1 [] x l p) as (tms' & E & H1 & H2);
      [|exact Hd1|done|exact Hp1|done|done|].
    { pose proof (chain_length _ _ _ _ (dchain_chain _ _ _ _ _ Hd1)) as H.
      cbn [length] in H. unfold timer_fuel. lia. }
    exists tms'. split_and!; [|exact H1|exact H2].
    step. erewrite bind_run by exact E. rewrite exit_run. unfold tm_upd. f_equal.
    unfold s1. crit_eq.
Qed.

Lemma elem_of_tm_ins tms tick p l x : x ∈ tm_ins tms tick p l <-> x = p \/ x ∈ l.
Proof.
  induction l as [|y l IH]; simpl; [set_solver|]. case_decide; [set_solver|].
  rewrite !elem_of_cons, IH. tauto.
Qed.

Lemma tm_ins_sorted tms p l :
  expiry_sorted tms l -> expiry_sorted tms (tm_ins tms (expiry tms p) p l).
Proof.
  unfold expiry_sorted. induction l as [|x l IH]; intros Hs; simpl.
  { repeat constructor. }
  apply StronglySorted_inv in Hs as [Hs Hx]. case_decide.
  - constructor; [by constructor|]. constructor; [lia|].
    eapply Forall_impl; [exact Hx|]. simpl. lia.
  - constructor; [by apply IH|]. apply Forall_forall. intros y [->|Hy]%elem_of_tm_ins; [lia|].
    rewrite Forall_forall in Hx. auto.
Qed.

Lemma expiry_sorted_ext tms tms' l :
  (forall x, x ∈ l -> expiry tms' x = expiry tms x) ->
  expiry_sorted tms l -> expiry_sorted tms' l.
Proof.
  unfold expiry_sorted. induction l as [|x l IH]; intros He Hs; [constructor|].
  apply StronglySorted_inv in Hs as [Hs Hx]. constructor; [apply IH; [set_solver|done]|].
  rewrite Forall_forall in Hx |- *. intros y Hy. rewrite !He by set_solver. auto.
Qed.

Lemma timer_enabled_links n p t :
  timer_enabled (set_tm_next n (set_tm_prev p t)) = timer_enabled t.
Proof. done. Qed.

Lemma timer_queue_relinked tms tms' h h' l l' :
  timer_queue tms h l -> tm_relinked tms tms' -> l' ⊆ l -> expiry_sorted tms l' ->
  dchain tm_next tm_prev tms' h' l' -> timer_queue tms' h' l'.
Proof.
  intros [_ _ He] Hr Hsub Hs Hd. constructor; [done| |].
  - eapply expiry_sorted_ext; [|done]. intros. by apply tm_relinked_expiry.
  - intros x t Hx Ht. destruct (Hr x) as [E|(t0 & n & p & E & E')].
    + eapply He; [by apply Hsub|]. by rewrite <- E.
    + simplify_eq. rewrite timer_enabled_links. eauto.
Qed.

(** The list with one more timer, whatever the links of the others become. *)
Lemma timer_queue_armed s l p tp tms' :
  let tms := <[p := armed (k_jiffies s) tp]> (k_timers s) in
  let l' := tm_ins tms (u32 (tm_delay tp + k_jiffies s)) p l in
  timer_queue (k_timers s) (k_timer_head s) l -> p ∉ l ->
  dchain tm_next tm_prev tms' (head l') l' -> tm_relinked tms tms' ->
  timer_queue tms' (head l') l'.
Proof.
  intros tms l' [Hd Hs He] Hp Hd' Hr.
  assert (Hxp : expiry tms p = u32 (tm_delay tp + k_jiffies s)).
  { unfold expiry, tms. by rewrite lookup_insert_eq. }
  constructor; [done| |].
  - eapply expiry_sorted_ext; [intros; by apply tm_relinked_expiry|].
    unfold l'. rewrite <- Hxp. apply tm_ins_sorted. eapply expiry_sorted_ext; [|exact Hs].
    intros x Hx. unfold expiry, tms. rewrite lookup_insert_ne; [done|]. by intros ->.
  - intros x t [->|Hx]%elem_of_tm_ins Ht.
    + destruct (tm_relinked_lookup tms tms' p (armed (k_jiffies s) tp) Hr) as (n & q & E).
      { unfold tms. apply lookup_insert_eq. }
      simplify_eq. rewrite timer_enabled_links. apply armed_enabled.
    + assert (x <> p) by (by intros ->).
      destruct (Hr x) as [E|(t0 & n & q & E & E')]; unfold tms in E;
        rewrite lookup_insert_ne in E by done.
      * rewrite Ht in E. eauto.
      * simplify_eq. rewrite timer_enabled_links. eauto.
Qed.

(** ** Removal *)

(** A timer can be removed unless it is the last of several: the code follows
    the link of the removed timer to mend the back link. *)
Definition removable (l1 l2 : list positive) : Prop := l1 = [] \/ l2 <> [].

Lemma remove_timer_run s l1 p l2 :
  dchain tm_next tm_prev (k_timers s) (k_timer_head s) (l1 ++ p :: l2) -> removable l1 l2 ->
  exists tms',
    __rx_remove_from_timer_list (Some p) s = Done tt (tm_upd tms' (head (l1 ++ l2)) s) /\
    dchain tm_next tm_prev tms' (head (l1 ++ l2)) (l1 ++ l2) /\
    tm_relinked (k_timers s) tms'.
Proof.
  intros Hd Hrm. assert (Hnd := dchain_NoDup _ _ _ _ _ Hd).
  destruct (dchain_mid _ _ _ _ _ _ _ Hd) as (tp & Hp & Hpr & Hnx & _ & Hl2).
  pose proof (dchain_head _ _ _ Hd) as Hh. unfold __rx_remove_from_timer_list.
  erewrite bind_run by apply enter_run. step.
  destruct (last_snoc_inv l1) as [->|(l & y & ->)]; cbn [app] in *.
  - rewrite Hh. cbn [head]. rewrite decide_False, decide_True by done. step. rewrite Hnx.
    destruct l2 as [|z l2]; cbn [head] in *.
    + exists (k_timers s). step. rewrite exit_run. unfold tm_upd.
      split_and!; [crit_eq|done|apply tm_relinked_refl].
    + destruct Hl2 as (_ & tz & Hz & Hpz & Hl2). rewrite !NoDup_cons in Hnd.
      exists (<[z := set_tm_prev None tz]> (k_timers s)). split_and!.
      * repeat step. rewrite exit_run. unfold tm_upd. crit_eq.
      * by eapply dchain_pop.
      * by apply tm_relinked_prev.
  - destruct Hrm as [Hrm|Hrm]; [by destruct l|]. destruct l2 as [|z l2]; [done|].
    rewrite last_snoc in Hpr. cbn [head] in Hnx. destruct Hl2 as (_ & tz & Hz & Hpz & Hl2).
    destruct (seg_lookup _ _ _ _ _ y (dseg_seg _ _ _ _ _ _ _ Hd) ltac:(set_solver)) as [ty Hy].
    assert (y <> p /\ y <> z /\ p <> z /\ k_timer_head s <> Some p) as (? & ? & ? & ?).
    { rewrite Hh. apply NoDup_app in Hnd as (_ & Hd12 & Hn2). rewrite !NoDup_cons in Hn2.
      split_and!; [intros ->; apply (Hd12 p); set_solver|intros ->; apply (Hd12 z); set_solver
        |set_solver|]. intros ?. apply (Hd12 p); [|set_solver].
      destruct l; simplify_eq/=; set_solver. }
    assert (Hhd : head ((l ++ [y]) ++ z :: l2) = k_timer_head s) by (rewrite Hh; by destruct l).
    rewrite decide_False, decide_False by (rewrite ?Hh; destruct l; done || congruence).
    rewrite Hhd. eexists. split_and!.
    + step. rewrite Hpr. step. step. rewrite Hpr, Hnx. step. rewrite exit_run. unfold tm_upd. crit_eq.
    + by eapply dchain_unlink.
    + eapply tm_relinked_trans; [by apply (tm_relinked_next _ y ty)|].
      apply tm_relinked_prev. by rewrite lookup_insert_ne.
Qed.

Lemma remove_timer_last_crash s l y p :
  dchain tm_next tm_prev (k_timers s) (k_timer_head s) (l ++ [y; p]) ->
  __rx_remove_from_timer_list (Some p) s = Crash NullDeref.
Proof.
  intros Hd. assert (Hnd := dchain_NoDup _ _ _ _ _ Hd). assert (Hd2 := Hd).
  replace (l ++ [y; p]) with ((l ++ [y]) ++ [p]) in Hd by by rewrite <- app_assoc.
  destruct (dchain_mid _ _ _ _ _ _ _ Hd) as (tp & Hp & Hpr & Hnx & _).
  destruct (dchain_mid _ _ _ _ _ _ _ Hd2) as (ty & Hy & _).
  rewrite last_snoc in Hpr. pose proof (dchain_head _ _ _ Hd2) as Hh.
  assert (y <> p /\ k_timer_head s <> Some p) as [? ?].
  { rewrite Hh. apply NoDup_app in Hnd as (_ & Hd12 & Hn2). rewrite !NoDup_cons in Hn2.
    split; [set_solver|]. destruct l as [|w l]; simpl; [set_solver|].
    intros ?. simplify_eq. apply (Hd12 p); set_solver. }
  unfold __rx_remove_from_timer_list. erewrite bind_run by apply enter_run. step.
  rewrite decide_False, decide_False by (rewrite ?Hh; destruct l; done || congruence).
  step. rewrite Hpr. step. step. rewrite Hnx. by step.
Qed.

Lemma tm_ins_split tms tick p l :
  expiry_sorted tms l ->
  exists la lb, l = la ++ lb /\ tm_ins tms tick p l = la ++ p :: lb /\
    Forall (fun y => expiry tms y < tick) la /\ Forall (fun y => tick <= expiry tms y) lb.
Proof.
  unfold expiry_sorted. induction l as [|x l IH]; intros Hs; simpl.
  { exists [], []. by repeat constructor. }
  apply StronglySorted_inv in Hs as [Hs Hx]. case_decide.
  - exists [], (x :: l). split_and!; [done..|constructor|]. constructor; [lia|].
    eapply Forall_impl; [exact Hx|]. simpl. lia.
  - destruct (IH Hs) as (la & lb & -> & -> & Ha & Hb). exists (x :: la), lb.
    split_and!; [done..| |done]. constructor; [lia|done].
Qed.

Lemma expiry_sorted_remove tms l1 x l2 :
  expiry_sorted tms (l1 ++ x :: l2) -> expiry_sorted tms (l1 ++ l2).
Proof.
  unfold expiry_sorted. induction l1 as [|y l1 IH]; simpl; intros [Hs Hx]%StronglySorted_inv;
    [done|]. constructor; [by apply IH|]. rewrite Forall_forall in Hx |- *.
  intros z Hz. apply Hx. set_solver.
Qed.

(** Taking a timer out of the active list, seen from the list's invariant. *)
Lemma timer_queue_remove s l1 p l2 :
  timer_queue (k_timers s) (k_timer_head s) (l1 ++ p :: l2) -> removable l1 l2 ->
  exists tms',
    __rx_remove_from_timer_list (Some p) s = Done tt (tm_upd tms' (head (l1 ++ l2)) s) /\
    timer_queue tms' (head (l1 ++ l2)) (l1 ++ l2) /\ tm_relinked (k_timers s) tms'.
Proof.
  intros Hq Hrm. destruct (remove_timer_run s l1 p l2 (tq_chain _ _ _ Hq) Hrm)
    as (tms' & E & Hd & Hr).
  exists tms'. split_and!; [done| |done]. eapply timer_queue_relinked; [done..| | |done].
  - intros x. rewrite !elem_of_app, elem_of_cons. tauto.
  - eapply expiry_sorted_remove, Hq.
Qed.

(** Assigning to a timer outside the list. *)
Lemma timer_queue_out tms h l x t :
  timer_queue tms h l -> x ∉ l -> timer_queue (<[x := t]> tms) h l.
Proof.
  intros [Hd Hs He] Hx. constructor.
  - by apply dseg_insert_ne.
  - eapply expiry_sorted_ext; [|exact Hs]. intros y Hy. unfold expiry.
    rewrite lookup_insert_ne; [done|]. by intros ->.
  - intros y ty Hy. rewrite lookup_insert_ne by (by intros ->). by apply He.
Qed.

Lemma land_disabled f : Z.land (Z.land f RX_TIMER_DISABLED) RX_TIMER_ENABLED = 0.
Proof. rewrite <- Z.land_assoc. change (Z.land RX_TIMER_DISABLED _) with 0. apply Z.land_0_r. Qed.

(** Arming a timer that is not in the list. *)
Lemma arm_run s l p tp :
  timer_queue (k_timers s) (k_timer_head s) l -> p ∉ l -> k_timers s !! p = Some tp ->
  let tick := u32 (tm_delay tp + k_jiffies s) in
  exists tms' la lb n q,
    __rx_add_to_active_timer_list (Some p) s = Done tt (tm_upd tms' (head (la ++ p :: lb)) s) /\
    l = la ++ lb /\ timer_queue tms' (head (la ++ p :: lb)) (la ++ p :: lb) /\
    tms' !! p = Some (set_tm_next n (set_tm_prev q (armed (k_jiffies s) tp))) /\
    Forall (fun y => expiry tms' y < tick) la /\ Forall (fun y => tick <= expiry tms' y) lb /\
    tm_relinked (<[p := armed (k_jiffies s) tp]> (k_timers s)) tms'.
Proof.
  intros Hq Hni Hp tick.
  destruct (add_active_run s l p tp (tq_chain _ _ _ Hq) Hni Hp) as (tms' & E & Hd & Hr).
  pose proof (timer_queue_armed s l p tp tms' Hq Hni Hd Hr) as Hq'.
  set (tms := <[p := _]> _) in *.
  assert (Hs : expiry_sorted tms l).
  { eapply expiry_sorted_ext; [|apply Hq]. intros x Hx. unfold expiry, tms.
    rewrite lookup_insert_ne; [done|]. by intros ->. }
  destruct (tm_ins_split tms tick p l Hs) as (la & lb & Hl & Hi & Ha & Hb).
  fold tick in E, Hq'. rewrite Hi in E, Hq'.
  destruct (tm_relinked_lookup tms tms' p (armed (k_jiffies s) tp) Hr) as (n & q & Hn).
  { unfold tms. apply lookup_insert_eq. }
  assert (He : forall x, expiry tms' x = expiry tms x) by (intros; by apply tm_relinked_expiry).
  exists tms', la, lb, n, q. split_and!; [done..| | |done];
    (eapply Forall_impl; [done|]; intros x; simpl; by rewrite He).
Qed.

(** C23: Starting an idle timer puts it at its place in the active list: its
    expiry is [delay + jiffies] on 32 bits, the timers in front of it expire
    earlier, those behind it do not, and the list's invariant (well linked both
    ways, sorted by expiry, all marked active) holds. *)
Theorem start_timer_sorted s l p tp :
  timer_queue (k_timers s) (k_timer_head s) l -> k_timers s !! p = Some tp ->
  timer_enabled tp = false ->
  let tick := u32 (tm_delay tp + k_jiffies s) in
  exists s' la lb,
    rx_start_timer (Some p) s = Done tt s' /\ l = la ++ lb /\
    timer_queue (k_timers s') (k_timer_head s') (la ++ p :: lb) /\
    expiry (k_timers s') p = tick /\
    Forall (fun y => expiry (k_timers s') y < tick) la /\
    Forall (fun y => tick <= expiry (k_timers s') y) lb.
Proof.
  intros Hq Hp Hoff tick.
  assert (Hni : p ∉ l) by (intros Hin; by rewrite (tq_enabled _ _ _ Hq p tp Hin Hp) in Hoff).
  destruct (arm_run s l p tp Hq Hni Hp) as (tms' & la & lb & n & q & E & Hl & Hq' & Hp' & Ha & Hb & _).
  exists (tm_upd tms' (head (la ++ p :: lb)) s), la, lb.
  split_and!; [|done|exact Hq'| |done..].
  - unfold rx_start_timer. step. rewrite Hoff. exact E.
  - norm. by rewrite (expiry_lookup _ _ _ Hp').
Qed.

(** Timer 1 (expiry 10) and timer 2 (expiry 30) are active, timer 3 is idle
    with a delay of 15 ticks; it is tick 5. *)
Definition timers2 : gmap positive timer_list :=
  <[1%positive := mk_timer 10 7 1 (Some (H_app 1)) None (Some 1%positive) (Some 2%positive) None]>
  (<[2%positive := mk_timer 30 30 1 (Some (H_app 1)) None (Some 1%positive) None (Some 1%positive)]>
  (<[3%positive := mk_timer 0 15 0 (Some (H_app 1)) None (Some 1%positive) None None]> ∅)).

Definition sample_timers : kst :=
  set_k_jiffies 5 (set_k_timer_head (Some 1%positive) (set_k_timers timers2 sample)).

Lemma sample_timer_queue :
  timer_queue (k_timers sample_timers) (k_timer_head sample_timers) [1; 2]%positive.
Proof.
  constructor.
  - by vm_compute; eauto 10.
  - repeat constructor; vm_compute; by intros.
  - intros x t [->|[->|?%elem_of_nil]%elem_of_cons]%elem_of_cons Ht; [..|done];
      vm_compute in Ht; by simplify_eq.
Qed.

Lemma start_timer_sorted_witness :
  exists s' la lb,
    rx_start_timer (Some 3%positive) sample_timers = Done tt s' /\ [1; 2]%positive = la ++ lb /\
    timer_queue (k_timers s') (k_timer_head s') (la ++ 3%positive :: lb) /\
    expiry (k_timers s') 3 = 20 /\
    Forall (fun y => expiry (k_timers s') y < 20) la /\
    Forall (fun y => 20 <= expiry (k_timers s') y) lb.
Proof.
  apply (start_timer_sorted sample_timers [1; 2]%positive 3
    (mk_timer 0 15 0 (Some (H_app 1)) None (Some 1%positive) None None));
    [apply sample_timer_queue|reflexivity|reflexivity].
Defined.

(** Stopping an active timer. *)
Lemma stop_timer_run s l1 p l2 :
  timer_queue (k_timers s) (k_timer_head s) (l1 ++ p :: l2) -> removable l1 l2 ->
  exists tms' t',
    rx_stop_timer (Some p) s = Done tt (tm_upd tms' (head (l1 ++ l2)) s) /\
    timer_queue tms' (head (l1 ++ l2)) (l1 ++ l2) /\
    tms' !! p = Some t' /\ timer_enabled t' = false.
Proof.
  intros Hq Hrm. destruct (timer_queue_remove s l1 p l2 Hq Hrm) as (tms' & E & Hq' & Hr).
  destruct (dchain_mid _ _ _ _ _ _ _ (tq_chain _ _ _ Hq)) as (tp & Hp & _).
  destruct (tm_relinked_lookup _ _ _ _ Hr Hp) as (n & q & Hp').
  assert (Hni : p ∉ l1 ++ l2) by (eapply nodup_mid, dchain_NoDup, Hq).
  pose proof (tq_enabled _ _ _ Hq p tp ltac:(set_solver) Hp) as Hon.
  set (t1 := set_tm_next n (set_tm_prev q tp)) in *.
  set (t2 := set_tm_flag (Z.land (tm_flag t1) RX_TIMER_DISABLED) t1).
  exists (<[p := t2]> tms'), t2. split_and!.
  - unfold rx_stop_timer. step. rewrite Hon. erewrite bind_run by exact E.
    erewrite modify_run by (unfold tm_upd; lk). reflexivity.
  - by apply timer_queue_out.
  - apply lookup_insert_eq.
  - unfold timer_enabled. cbn. by rewrite land_disabled.
Qed.

(** Stopping an active timer that is first in the list or has another one
    behind it takes it out, keeps the order of the others and the list's
    invariant, and clears its active bit, so that it can be started again. *)
Theorem stop_timer_removes s l1 p l2 :
  timer_queue (k_timers s) (k_timer_head s) (l1 ++ p :: l2) -> removable l1 l2 ->
  exists s' t',
    rx_stop_timer (Some p) s = Done tt s' /\
    timer_queue (k_timers s') (k_timer_head s') (l1 ++ l2) /\
    k_timers s' !! p = Some t' /\ timer_enabled t' = false.
Proof.
  intros Hq Hrm. destruct (stop_timer_run s l1 p l2 Hq Hrm) as (tms' & t' & E & Hq' & Ht & Hoff).
  by exists (tm_upd tms' (head (l1 ++ l2)) s), t'.
Qed.

Lemma stop_timer_removes_witness :
  exists s' t',
    rx_stop_timer (Some 1%positive) sample_timers = Done tt s' /\
    timer_queue (k_timers s') (k_timer_head s') [2]%positive /\
    k_timers s' !! 1%positive = Some t' /\ timer_enabled t' = false.
Proof.
  apply (stop_timer_removes sample_timers [] 1 [2]%positive);
    [apply sample_timer_queue|by left].
Defined.

(** Stopping the last of two or more active timers faults: the removal
    writes the back link through the NULL [next] of the removed timer. *)
Theorem stop_last_timer_faults s l y p :
  timer_queue (k_timers s) (k_timer_head s) (l ++ [y; p]) ->
  rx_stop_timer (Some p) s = Crash NullDeref.
Proof.
  intros Hq. assert (Hd := tq_chain _ _ _ Hq).
  destruct (dchain_mid tm_next tm_prev (k_timers s) (k_timer_head s) (l ++ [y]) p [])
    as (tp & Hp & _); [by rewrite <- app_assoc|].
  unfold rx_stop_timer. step.
  rewrite (tq_enabled _ _ _ Hq p tp ltac:(set_solver) Hp).
  eapply bind_crash, remove_timer_last_crash, Hd.
Qed.

Lemma stop_last_timer_faults_witness :
  rx_stop_timer (Some 2%positive) sample_timers = Crash NullDeref.
Proof. apply (stop_last_timer_faults sample_timers [] 1 2), sample_timer_queue. Defined.

(** ** Sleeping *)

(** A task that arms a timer without handler sleeps: it leaves the ready queue,
    and the next task runs. *)
Lemma add_timer_sleep s c tc l1 l2 h l p tp L delay :
  k_curr s = Some c -> k_tasks s !! c = Some tc ->
  ready_queue (k_tasks s) (k_ready s) (l1 ++ c :: l2) -> l1 ++ l2 = h :: l ->
  timer_queue (k_timers s) (k_timer_head s) L -> p ∉ L -> k_timers s !! p = Some tp ->
  exists s' la lb,
    __rx_add_timer (Some p) None delay (Some c) s = Switch s' (fun s2 => Done OS_OK s2) /\
    k_curr s' = Some h /\ ready_queue (k_tasks s') (k_ready s') (h :: l) /\
    k_tasks s' !! c
      = Some (set_t_next None (set_t_state RX_TASK_SUSPEND (set_t_timer (Some p) tc))) /\
    L = la ++ lb /\ timer_queue (k_timers s') (k_timer_head s') (la ++ p :: lb) /\
    expiry (k_timers s') p = u32 (u32 delay + k_jiffies s).
Proof.
  intros Hc Htc Hq Hl HL Hp Htp. unfold __rx_add_timer. step.
  set (tp1 := set_tm_prev None _). set (s1 := set_k_timers _ _).
  destruct (arm_run s1 L p tp1) as (tms' & la & lb & n & q & E & -> & HL' & Hp' & _);
    [by apply timer_queue_out|done|apply lookup_insert_eq|].
  erewrite bind_run by exact E. unfold tm_upd. step. step. rewrite insert_insert_eq.
  set (s2 := set_k_tasks _ (set_k_tasks _ _)).
  destruct (leave_queue s2 (k_tasks s) l1 c l2 tc (set_t_state RX_TASK_SUSPEND (set_t_timer (Some p) tc)))
    as (ts2 & E2 & Hq2 & Hc2 & _); [done..|].
  erewrite bind_run by exact E2. rewrite Hl in *. set (s3 := rq_upd ts2 _ _ s2).
  assert (Hch : c ∉ h :: l).
  { rewrite <- Hl. eapply nodup_mid, ready_queue_nodup, Hq. }
  edestruct (sched_away s3 c) as (th & Hth & E3 & Hq3); [exact Hc|exact Hc2|exact Hch|exact Hq2|].
  eexists _, la, lb. split_and!.
  - unfold bind at 1. rewrite E3. reflexivity.
  - done.
  - exact Hq3.
  - unfold switched. norm. rewrite lookup_insert_ne by set_solver. exact Hc2.
  - done.
  - exact HL'.
  - unfold switched, s3, s2. norm. by rewrite (expiry_lookup _ _ _ Hp').
Qed.

Lemma msleep_ticks time :
  0 < time <= 100000 ->
  u32 (if decide (time / CONFIG_HZ = 0) then 1 else time / CONFIG_HZ)
    = Z.max 1 (time / CONFIG_HZ).
Proof.
  unfold CONFIG_HZ. intros Ht. pose proof (Z.div_pos time 100 ltac:(lia) ltac:(lia)).
  pose proof (Z.div_le_mono time 100000 100 ltac:(lia) ltac:(lia)) as Hm.
  change (100000 / 100) with 1000 in Hm.
  case_decide; rewrite u32_small; lia.
Qed.

(** A task that calls [rx_msleep] leaves the ready queue and the processor:
    it is SUSPENDed on the timer of its stack frame, which is armed to expire
    [max 1 (time / CONFIG_HZ)] ticks from now, the most urgent other task runs,
    and the call returns [OS_OK] when the sleeper is switched back to; a time of
    zero or above 100000 is refused and nobody sleeps. *)
Theorem msleep_suspends s c tc l1 l2 h l p tp L time :
  k_curr s = Some c -> k_tasks s !! c = Some tc ->
  ready_queue (k_tasks s) (k_ready s) (l1 ++ c :: l2) -> l1 ++ l2 = h :: l ->
  timer_queue (k_timers s) (k_timer_head s) L -> p ∉ L -> k_timers s !! p = Some tp ->
  0 <= time ->
  (time = 0 \/ 100000 < time ->
    rx_msleep (Some p) time s = Done OS_ERR (set_k_critical (crit_out s) s)) /\
  (0 < time <= 100000 -> exists s' la lb,
    rx_msleep (Some p) time s = Switch s' (fun s2 => Done OS_OK s2) /\
    k_curr s' = Some h /\ ready_queue (k_tasks s') (k_ready s') (h :: l) /\
    k_tasks s' !! c
      = Some (set_t_next None (set_t_state RX_TASK_SUSPEND (set_t_timer (Some p) tc))) /\
    L = la ++ lb /\ timer_queue (k_timers s') (k_timer_head s') (la ++ p :: lb) /\
    expiry (k_timers s') p = u32 (Z.max 1 (time / CONFIG_HZ) + k_jiffies s)).
Proof.
  intros Hc Htc Hq Hl HL Hp Htp H0. unfold rx_msleep. split; intros Ht.
  { rewrite decide_True by lia. erewrite bind_run by apply pr_error_run. done. }
  rewrite decide_False by lia. step. rewrite Hc.
  edestruct (add_timer_sleep s c tc l1 l2 h l p tp L) as (s' & la & lb & E & ?); eauto.
  destruct_and!. exists s', la, lb. split_and!; try done.
  - unfold bind at 1. rewrite E. reflexivity.
  - rewrite <- msleep_ticks by lia. done.
Qed.

(** Task 1 runs and sleeps 250 ms on the timer 3. *)
Lemma msleep_suspends_witness :
  (250 = 0 \/ 100000 < 250 ->
    rx_msleep (Some 3%positive) 250 sample_timers
      = Done OS_ERR (set_k_critical (crit_out sample_timers) sample_timers)) /\
  (0 < 250 <= 100000 -> exists s' la lb,
    rx_msleep (Some 3%positive) 250 sample_timers = Switch s' (fun s2 => Done OS_OK s2) /\
    k_curr s' = Some 2%positive /\ ready_queue (k_tasks s') (k_ready s') [2; 3]%positive /\
    k_tasks s' !! 1%positive
      = Some (set_t_next None (set_t_state RX_TASK_SUSPEND
          (set_t_timer (Some 3%positive) (task 1 RX_TASK_RUNNING (Some 2%positive))))) /\
    [1; 2]%positive = la ++ lb /\
    timer_queue (k_timers s') (k_timer_head s') (la ++ 3%positive :: lb) /\
    expiry (k_timers s') 3 = u32 (Z.max 1 (250 / CONFIG_HZ) + k_jiffies sample_timers)).
Proof.
  apply (msleep_suspends sample_timers 1 (task 1 RX_TASK_RUNNING (Some 2%positive))
           [] [2; 3]%positive 2 [3]%positive 3
           (mk_timer 0 15 0 (Some (H_app 1)) None (Some 1%positive) None None) [1; 2]%positive);
    try reflexivity; try done.
  - by apply ready_queueb_ok; vm_compute.
  - apply sample_timer_queue.
  - set_solver.
Defined.

(** ** The timers of waiting tasks *)

(** The timer of a waiting task can be stopped. *)
Definition timer_stoppable (s : kst) (t : tcb) : Prop :=
  match t_timer t with
  | None => True
  | Some p => exists L1 L2, removable L1 L2 /\
      timer_queue (k_timers s) (k_timer_head s) (L1 ++ p :: L2)
  end.

(** The fields that stopping a timer changes. *)
Definition tm_st (tms : gmap positive timer_list) (h : ptr) (cr : Z) (s : kst) : kst :=
  set_k_critical cr (set_k_timer_head h (set_k_timers tms s)).

Lemma stop_task_timer_run s x t :
  k_tasks s !! x = Some t -> timer_stoppable s t ->
  exists tms h cr, stop_task_timer (Some x) s
    = Done tt (set_k_tasks (<[x := set_t_timer None t]> (k_tasks s)) (tm_st tms h cr s)).
Proof.
  unfold timer_stoppable, stop_task_timer. intros Hx Ht. step.
  destruct (t_timer t) as [p|] eqn:Et.
  - destruct Ht as (L1 & L2 & Hrm & Hq).
    destruct (stop_timer_run s L1 p L2 Hq Hrm) as (tms' & t' & E & _).
    exists tms', (head (L1 ++ L2)), (crit_out s). erewrite bind_run by exact E.
    by erewrite modify_run by (unfold tm_upd; lk).
  - exists (k_timers s), (k_timer_head s), (k_critical s).
    replace (set_t_timer None t) with t by (destruct t; simpl in Et; by subst).
    rewrite insert_id by done. by destruct s.
Qed.

Lemma drop_task_timer_run s x t :
  k_tasks s !! x = Some t -> timer_stoppable s t ->
  exists tms h cr, drop_task_timer (Some x) s
    = Done tt (set_k_tasks (<[x := set_t_timer None t]> (k_tasks s)) (tm_st tms h cr s)).
Proof.
  unfold timer_stoppable, drop_task_timer. intros Hx Ht. step.
  destruct (t_timer t) as [p|] eqn:Et.
  - destruct Ht as (L1 & L2 & Hrm & Hq).
    destruct (timer_queue_remove s L1 p L2 Hq Hrm) as (tms' & E & _).
    exists tms', (head (L1 ++ L2)), (crit_out s). erewrite bind_run by exact E.
    by erewrite modify_run by (unfold tm_upd; lk).
  - exists (k_timers s), (k_timer_head s), (k_critical s).
    replace (set_t_timer None t) with t by (destruct t; simpl in Et; by subst).
    rewrite insert_id by done. by destruct s.
Qed.
