(* ===== verification/Mutex.v ===== *)
(** * Mutexes with priority inheritance (src/kernel/rx_mutex.c)

    A mutex is locked or not, has an owner and a first-in first-out queue of
    waiting tasks.  The owner inherits the priority of the most urgent waiting
    task ([CONFIG_PRIO_INHERITANCE] is set).  A task that waits with a timeout
    also has a timer on its stack; its address is the argument [timer]. *)

From stdpp Require Import base gmap list sorting.
From Stdlib Require Import ZArith Lia.
From S2P Require Import Prelude State Samples Chains Port ReadyQueue Sched TaskQueue Task Timer.
#[local] Open Scope Z_scope.
#[local] Open Scope rosx_scope.

#[export] Instance mutex_waiters : WaitService mutex.
Proof. by refine {| ws_head := m_task; ws_set := set_m_task |}; intros []. Defined.

Definition rx_create_mutex (m : ptr) : M Z :=
  let! imask := rx_enter_critical in
  on_mutex m (set_m_lock RX_MUTEX_UNLOCKED) ;;;
  on_mutex m (set_m_owner None) ;;;
  on_mutex m (set_m_next None) ;;;
  on_mutex m (set_m_task None) ;;;
  rx_exit_critical imask ;;;
  ret OS_OK.

Fixpoint delete_mutex_loop (fuel : nat) (m : ptr) : M unit :=
  match fuel with
  | O => crash NoFuel
  | S fuel =>
    let! mx := ld_mutex m in
    match m_task mx with
    | None => ret tt
    | Some _ =>
      let ready := m_task mx in
      on_task ready (set_t_state RX_TASK_READY) ;;;
      on_task ready (set_t_mutex None) ;;;
      stop_task_timer ready ;;;
      let! t := ld_task ready in
      on_mutex m (set_m_task (t_next t)) ;;;
      let! _ := __rx_add_to_ready_q ready in
      delete_mutex_loop fuel m
    end
  end.

Definition rx_delete_mutex (m : ptr) : M unit :=
  let! imask := rx_enter_critical in
  let! fuel := gets task_fuel in
  delete_mutex_loop fuel m ;;;
  on_mutex m (set_m_owner None) ;;;
  rx_exit_critical imask.

(** The owner inherits the priority of the waiting tasks from [t] on. *)
Fixpoint inherit_loop (fuel : nat) (p t : ptr) : M unit :=
  match fuel with
  | O => crash NoFuel
  | S fuel =>
    match t with
    | None => ret tt
    | Some _ =>
      let! mx := ld_mutex p in
      let! o := ld_task (m_owner mx) in
      let! w := ld_task t in
      (if decide (t_prio o > t_prio w) then on_task (m_owner mx) (set_t_prio (t_prio w))
       else ret tt) ;;;
      let! w := ld_task t in
      inherit_loop fuel p (t_next w)
    end
  end.

(** The owner's own priority comes back. *)
Definition restore_prio (p : ptr) : M unit :=
  let! mx := ld_mutex p in
  let! o := ld_task (m_owner mx) in
  if decide (t_prio o <> t_orig_prio o) then
    on_task (m_owner mx) (set_t_prio (t_orig_prio o)) ;;;
    let! _ := __rx_remove_from_ready_q (m_owner mx) in
    let! curr := gets k_curr in
    let! _ := __rx_add_to_ready_q curr in
    ret tt
  else ret tt.

(** The lock goes to the first waiting task [t]. *)
Definition hand_off (p t : ptr) : M unit :=
  let! w := ld_task t in
  on_mutex p (set_m_task (t_next w)) ;;;
  stop_task_timer t ;;;
  on_mutex p (set_m_owner t) ;;;
  let! mx := ld_mutex p in
  let! fuel := gets task_fuel in
  inherit_loop fuel p (m_task mx) ;;;
  on_task t (set_t_state RX_TASK_READY) ;;;
  on_task t (set_t_mutex None) ;;;
  on_mutex p (set_m_lock RX_MUTEX_LOCKED) ;;;
  let! _ := __rx_add_to_ready_q t in
  ret tt.

Definition rx_mutex_unlock (p : ptr) : M Z :=
  let! imask := rx_enter_critical in
  let! mx := ld_mutex p in
  if decide (m_lock mx = RX_MUTEX_LOCKED) then
    let! curr := gets k_curr in
    if decide (m_owner mx <> curr) then
      let! _ := ld_task (m_owner mx) in
      let! _ := ld_task curr in
      pr_error ;;;
      rx_exit_critical imask ;;;
      ret OS_ERR
    else
      on_mutex p (set_m_lock RX_MUTEX_UNLOCKED) ;;;
      restore_prio p ;;;
      let! mx := ld_mutex p in
      (match m_task mx with
       | Some _ => hand_off p (m_task mx)
       | None => ret tt
       end) ;;;
      rx_exit_critical imask ;;;
      ret OS_OK
  else
    rx_exit_critical imask ;;;
    ret OS_OK.

(** The owner gives an inherited priority back and inherits again from the
    tasks that still wait. *)
Definition disinherit (mutex task : ptr) : M unit :=
  let! mx := ld_mutex mutex in
  let! o := ld_task (m_owner mx) in
  let! t := ld_task task in
  if decide (t_prio o = t_prio t) then
    on_task (m_owner mx) (set_t_prio (t_orig_prio o)) ;;;
    let! fuel := gets task_fuel in
    inherit_loop fuel mutex (m_task mx)
  else ret tt.

(** [if(x->state == RX_TASK_READY) { remove; add; }]: the place in the ready
    queue follows the new priority. *)
Definition rearrange (x : ptr) : M unit :=
  let! t := ld_task x in
  if decide (t_state t = RX_TASK_READY) then
    let! _ := __rx_remove_from_ready_q x in
    let! _ := __rx_add_to_ready_q x in
    ret tt
  else ret tt.

(** The handler of the timer of a task that waits with a timeout. *)
Definition __rx_mutex_handler (task : ptr) : M unit :=
  let! t := ld_task task in
  let mutex := t_mutex t in
  let! mx := ld_mutex mutex in
  if decide (m_owner mx = task) then ret tt
  else
    dequeue_from State.mutex mutex task ;;;
    disinherit mutex task ;;;
    let! mx := ld_mutex mutex in
    rearrange (m_owner mx) ;;;
    on_task task (set_t_timer None) ;;;
    on_task task (set_t_mutex None) ;;;
    on_task task (set_t_state RX_TASK_READY) ;;;
    let! _ := __rx_add_to_ready_q task in
    ret tt.

Definition __rx_mutex_timeout (timer p : ptr) (timeout : Z) : M Z :=
  let! curr := gets k_curr in
  let! _ := rx_init_timer timer (Some H_mutex) curr timeout in
  rx_start_timer timer ;;;
  let! curr := gets k_curr in
  on_task curr (set_t_timer timer) ;;;
  let! _ := rx_suspend_task None in
  let! mx := ld_mutex p in
  let! curr := gets k_curr in
  if decide (m_owner mx = curr) then ret OS_OK else ret E_OS_TIMEOUT.

(** The owner inherits the priority of the running task. *)
Definition inherit_prio (p curr : ptr) : M unit :=
  let! mx := ld_mutex p in
  let! o := ld_task (m_owner mx) in
  let! c := ld_task curr in
  if decide (t_prio o > t_prio c) then
    on_task (m_owner mx) (set_t_prio (t_prio c)) ;;;
    rearrange (m_owner mx)
  else ret tt.

Definition rx_mutex_lock (timer p : ptr) (timeout : Z) : M Z :=
  let! imask := rx_enter_critical in
  let! mx := ld_mutex p in
  let! curr := gets k_curr in
  if decide (m_lock mx = RX_MUTEX_UNLOCKED) then
    on_mutex p (set_m_lock RX_MUTEX_LOCKED) ;;;
    on_mutex p (set_m_owner curr) ;;;
    rx_exit_critical imask ;;;
    ret OS_OK
  else if decide (timeout = OS_NO_WAIT) then
    rx_exit_critical imask ;;;
    ret E_OS_UNAVAIL
  else
    on_task curr (set_t_state RX_TASK_SUSPEND) ;;;
    on_task curr (set_t_mutex p) ;;;
    let! _ := __rx_remove_from_ready_q curr in
    on_task curr (set_t_next None) ;;;
    enqueue_on mutex p curr ;;;
    inherit_prio p curr ;;;
    if decide (timeout > 0) then
      rx_exit_critical imask ;;;
      __rx_mutex_timeout timer p timeout
    else
      rx_exit_critical imask ;;;
      rx_sched ;;;
      match p with
      | None => ret E_OS_UNAVAIL
      | Some _ => ret OS_OK
      end.

(** ** The abstract mutex

    What the service promises: a mutex is free, or held by one task with a
    queue of waiting tasks.  Locking a free mutex takes it, locking a held one
    queues behind the others; unlocking hands it to the first in the queue. *)

Inductive amutex :=
  | AFree
  | AHeld (o : positive) (ws : list positive).

Definition a_lock (c : positive) (a : amutex) : amutex :=
  match a with
  | AFree => AHeld c []
  | AHeld o ws => AHeld o (ws ++ [c])
  end.

Definition a_unlock (a : amutex) : amutex :=
  match a with
  | AFree => AFree
  | AHeld o [] => AFree
  | AHeld o (w :: ws) => AHeld w ws
  end.

Definition waits_for (m : positive) (t : tcb) : Prop :=
  t_state t = RX_TASK_SUSPEND /\ t_mutex t = Some m.

(** A held mutex: the waiting tasks are linked in order, suspended and outside
    the ready queue, and the owner is at least as urgent as each of them. *)
Record mutex_held (ts : gmap positive tcb) (mx : mutex) (m o : positive) (ws : list positive)
  : Prop := {
  mh_lock : m_lock mx = RX_MUTEX_LOCKED;
  mh_owner : m_owner mx = Some o;
  mh_wait : waiting (waits_for m) ts (m_task mx) ws;
  mh_out : o ∉ ws;
  mh_inherit : forall x, x ∈ ws -> prio ts o <= prio ts x;
}.

Definition mutex_rep (s : kst) (m : positive) (a : amutex) : Prop :=
  exists mx, k_mutexes s !! m = Some mx /\
  match a with
  | AFree => m_lock mx = RX_MUTEX_UNLOCKED /\ m_task mx = None
  | AHeld o ws => mutex_held (k_tasks s) mx m o ws
  end.

(** ** Locking *)

(** The owner's priority has become [p]; a READY owner moves in the ready
    queue. *)
Lemma rearrange_run s ts o to p rl :
  ts !! o = Some to -> k_tasks s = <[o := set_t_prio p to]> ts ->
  ready_queue ts (k_ready s) rl -> (o ∈ rl <-> t_state to = RX_TASK_READY) ->
  exists ts' r cr rl',
    rearrange (Some o) s = Done tt (rq_st ts' (head rl') r cr s) /\
    ready_queue ts' (head rl') rl' /\ rl' ≡ₚ rl /\
    relinked rl (<[o := set_t_prio p to]> ts) ts'.
Proof.
  intros Ho Hts Hq Hrdy. unfold rearrange.
  assert (Ho' : k_tasks s !! o = Some (set_t_prio p to)) by (rewrite Hts; apply lookup_insert_eq).
  step. cbn [t_state set_t_prio]. case_decide as Hst.
  - destruct (list_elem_of_split rl o) as (l1 & l2 & ->); [tauto|].
    edestruct (requeue_run s ts l1 o l2 to (set_t_prio p to))
      as (s2 & ts3 & r & n & l' & E1 & E2 & Hq' & Hp & Hr & _); [done..|by left|done|].
    erewrite bind_run by exact E1. erewrite bind_run by exact E2.
    exists ts3, r, (crit_out s), l'. by split_and!.
  - assert (Hni : o ∉ rl) by tauto.
    exists (<[o := set_t_prio p to]> ts), (k_need_resched s), (k_critical s), rl.
    rewrite <- (ready_queue_head _ _ _ Hq), <- Hts, rq_st_id.
    split_and!; [done|rewrite Hts; by apply ready_queue_out|done|apply relinked_refl].
Qed.

Lemma inherit_prio_run s m mx o to c tc ws rl :
  k_mutexes s !! m = Some mx -> m_owner mx = Some o -> k_tasks s !! o = Some to ->
  k_tasks s !! c = Some tc -> waiting (waits_for m) (k_tasks s) (m_task mx) (ws ++ [c]) ->
  o ∉ ws ++ [c] -> (forall x, x ∈ ws -> prio (k_tasks s) o <= prio (k_tasks s) x) ->
  ready_queue (k_tasks s) (k_ready s) rl -> (o ∈ rl <-> t_state to = RX_TASK_READY) ->
  exists ts' r cr rl',
    inherit_prio (Some m) (Some c) s = Done tt (rq_st ts' (head rl') r cr s) /\
    ready_queue ts' (head rl') rl' /\ rl' ≡ₚ rl /\
    waiting (waits_for m) ts' (m_task mx) (ws ++ [c]) /\
    (forall x, x ∈ ws ++ [c] -> prio ts' o <= prio ts' x) /\
    (forall x, x ∈ ws ++ [c] -> ts' !! x = k_tasks s !! x) /\
    exists p, relinked rl (<[o := set_t_prio p to]> (k_tasks s)) ts'.
Proof.
  intros Hm Ho Hto Htc Hw Hni Hinh Hq Hrdy. unfold inherit_prio. step. rewrite Ho. step. step.
  assert (Hpo := prio_lookup _ _ _ Hto). assert (Hpc := prio_lookup _ _ _ Htc).
  pose proof (waiting_disjoint _ _ _ _ _ _ Hw Hq) as Hdis.
  case_decide as Hgt.
  - step. edestruct (rearrange_run (set_k_tasks (<[o := set_t_prio (t_prio tc) to]> (k_tasks s)) s)
      (k_tasks s) o to (t_prio tc) rl) as (ts' & r & cr & rl' & E & Hq' & Hp & Hr); [done..|].
    assert (Hsame : forall x, x ∈ ws ++ [c] -> ts' !! x = k_tasks s !! x).
    { intros x Hx. rewrite (relinked_out _ _ _ _ Hr) by auto.
      rewrite lookup_insert_ne; [done|]. by intros ->. }
    exists ts', r, cr, rl'. split_and!; [exact E|done..|by eapply waiting_frame| |done|by eexists].
    intros x Hx. assert (Hpx : prio ts' x = prio (k_tasks s) x) by (unfold prio; by rewrite Hsame).
    rewrite Hpx, (relinked_prio _ _ _ _ Hr), prio_insert, decide_True by done. cbn.
    apply elem_of_app in Hx as [Hx|Hx]; [specialize (Hinh x Hx); lia|].
    apply list_elem_of_singleton in Hx. subst x. lia.
  - exists (k_tasks s), (k_need_resched s), (k_critical s), rl.
    rewrite <- (ready_queue_head _ _ _ Hq), rq_st_id. split_and!; [done..| |done|].
    + intros x [Hx|Hx]%elem_of_app; [auto|]. apply list_elem_of_singleton in Hx. subst x. lia.
    + exists (t_prio to). replace (set_t_prio (t_prio to) to) with to by (by destruct to).
      rewrite insert_id by done. apply relinked_refl.
Qed.

(** The running task leaves the ready queue and joins the mutex' queue. *)
Definition mutex_sleeper (m : positive) (t : tcb) : tcb :=
  set_t_next None (set_t_mutex (Some m) (set_t_state RX_TASK_SUSPEND t)).

(** A task that finds the mutex held, seen from the state in which the mutex'
    critical section ends. *)
Lemma lock_blocked_run s m mx c tc l1 l2 o to ws timer timeout :
  k_curr s = Some c -> k_tasks s !! c = Some tc ->
  ready_queue (k_tasks s) (k_ready s) (l1 ++ c :: l2) ->
  k_mutexes s !! m = Some mx -> mutex_held (k_tasks s) mx m o ws -> o <> c ->
  k_tasks s !! o = Some to -> (o ∈ l1 ++ l2 <-> t_state to = RX_TASK_READY) ->
  timeout <> OS_NO_WAIT ->
  exists s' rl tc',
    (k_sems s' = k_sems s /\ (forall b, b <> m -> k_mutexes s' !! b = k_mutexes s !! b) /\
     tc' = mutex_sleeper m tc /\
     exists p, relinked ((l1 ++ c :: l2) ++ ws)
       (delete c (<[o := set_t_prio p to]> (k_tasks s))) (delete c (k_tasks s'))) /\
    rx_mutex_lock timer (Some m) timeout s
      = (if decide (timeout > 0) then __rx_mutex_timeout timer (Some m) timeout s'
         else (rx_sched ;;; ret OS_OK) s') /\
    k_curr s' = Some c /\ k_tasks s' !! c = Some tc' /\ t_next tc' = None /\
    t_timer tc' = t_timer tc /\
    k_timers s' = k_timers s /\ k_timer_head s' = k_timer_head s /\
    k_jiffies s' = k_jiffies s /\
    rl ≡ₚ l1 ++ l2 /\ ready_queue (k_tasks s') (k_ready s') rl /\
    mutex_rep s' m (AHeld o (ws ++ [c])).
Proof.
  intros Hc Htc Hq Hm Hh Hoc Hto Hrdy Htime. unfold rx_mutex_lock.
  erewrite bind_run by apply enter_run. step. step.
  assert (Hh' := Hh). destruct Hh' as [Hlk Ho Hw Hout Hinh]. rewrite Hc, Hlk, decide_False, decide_False by done.
  set (s1 := set_k_critical _ s).
  step. step. rewrite insert_insert_eq.
  edestruct (sleep_on_run (waits_for m) ltac:(done) s1 m mx ws c tc
    (set_t_mutex (Some m) (set_t_state RX_TASK_SUSPEND tc)) l1 l2)
    as (ts3 & h' & E & Hq3 & Hw3 & Hc3 & Hp3 & Hot & Hrel);
    [done..|by apply suspended_not_runnable|done|].
  cbn [set_store store_of mutex_store ws_set mutex_waiters] in E.
  rewrite E. clear E. set (s3 := set_k_mutexes _ _).
  destruct (Hot o to Hoc Hto) as [n Hto3].
  assert (Hout' : o ∉ ws ++ [c]) by set_solver.
  edestruct (inherit_prio_run s3 m (set_m_task h' mx) o (set_t_next n to) c (mutex_sleeper m tc) ws (l1 ++ l2))
    as (ts4 & r & cr & rl & E4 & Hq4 & Hperm & Hw4 & Hi4 & Hsame & p & Hrel4);
    [apply lookup_insert_eq|exact Ho|exact Hto3|exact Hc3|exact Hw3|done| |exact Hq3|done|].
  { intros x Hx. change (k_tasks s3) with ts3. rewrite !Hp3. by apply Hinh. }
  erewrite bind_run by exact E4. set (s4 := rq_st _ _ _ _ s3).
  exists (set_k_critical (crit_out s4) s4), rl, (mutex_sleeper m tc). split_and!; try done.
  - intros b Hb. norm. by rewrite lookup_insert_ne.
  - exists p. apply (relinked_delete _ _ _ c) in Hrel4. rewrite delete_insert_ne in Hrel4 |- * by done.
    eapply relinked_trans; [|eapply relinked_mono; [|exact Hrel4]; set_solver].
    eapply relinked_set_prio; [exact Hrel| |]; by rewrite lookup_delete_ne.
  - case_decide; erewrite bind_run by apply exit_run; done.
  - norm. rewrite Hsame by set_solver. done.
  - exists (set_m_task h' mx). split; [apply lookup_insert_eq|]. by constructor.
Qed.

(** A free mutex. *)
Lemma lock_free_run s m mx c timer timeout :
  k_curr s = Some c -> k_mutexes s !! m = Some mx -> m_lock mx = RX_MUTEX_UNLOCKED ->
  rx_mutex_lock timer (Some m) timeout s = Done OS_OK (set_k_critical (crit_out s)
    (set_k_mutexes (<[m := set_m_owner (Some c) (set_m_lock RX_MUTEX_LOCKED mx)]> (k_mutexes s)) s)).
Proof.
  intros Hc Hm Hlk. unfold rx_mutex_lock. erewrite bind_run by apply enter_run.
  step. step. rewrite Hlk, Hc, decide_True by done. step. step.
  erewrite bind_run by apply exit_run. rewrite insert_insert_eq. crit_eq.
Qed.

Lemma lock_refused_run s m mx timer :
  k_mutexes s !! m = Some mx -> m_lock mx = RX_MUTEX_LOCKED ->
  rx_mutex_lock timer (Some m) OS_NO_WAIT s = Done E_OS_UNAVAIL (set_k_critical (crit_out s) s).
Proof.
  intros Hm Hlk. unfold rx_mutex_lock. erewrite bind_run by apply enter_run. step. step.
  rewrite Hlk, decide_False, decide_True by done. erewrite bind_run by apply exit_run. crit_eq.
Qed.

Lemma mutex_held_free ts mx m c :
  m_task mx = None -> mutex_held ts (set_m_owner (Some c) (set_m_lock RX_MUTEX_LOCKED mx)) m c [].
Proof.
  intros Hnil. constructor; try done; cbn.
  - rewrite Hnil. apply waiting_nil.
  - set_solver.
  - intros x ?%elem_of_nil. done.
Qed.

(** Without a timeout the processor goes to the first of the ready tasks. *)
Lemma lock_block_run s m mx c tc l1 l2 o to ws timer timeout :
  k_curr s = Some c -> k_tasks s !! c = Some tc ->
  ready_queue (k_tasks s) (k_ready s) (l1 ++ c :: l2) -> l1 ++ l2 <> [] ->
  k_mutexes s !! m = Some mx -> mutex_held (k_tasks s) mx m o ws -> o <> c ->
  k_tasks s !! o = Some to -> (o ∈ l1 ++ l2 <-> t_state to = RX_TASK_READY) -> timeout < 0 ->
  exists s1 th h rl p,
    rx_mutex_lock timer (Some m) timeout s = Switch (switched h th s1) (fun s2 => Done OS_OK s2) /\
    gave_up (set_k_tasks (<[o := set_t_prio p to]> (k_tasks s)) s) c (mutex_sleeper m tc)
      ((l1 ++ c :: l2) ++ ws) h th rl s1 /\
    h :: rl ≡ₚ l1 ++ l2 /\ mutex_rep (switched h th s1) m (AHeld o (ws ++ [c])) /\
    k_sems s1 = k_sems s /\ (forall b, b <> m -> k_mutexes s1 !! b = k_mutexes s !! b).
Proof.
  intros Hc Htc Hq Hne Hm Hh Hoc Hto Hrdy Htime.
  edestruct (lock_blocked_run s m mx c tc l1 l2 o to ws timer timeout)
    as (s' & rl & tc' & (Hsem & Hoth & -> & p & Hrel) & E & Hc' & Htc' & _ & _ & _ & _ & _ & Hp & Hq' & Hrep);
    [done..|unfold OS_NO_WAIT; lia|].
  rewrite decide_False in E by lia. destruct rl as [|h rl]; [by apply Permutation_nil in Hp|].
  assert (Hni : c ∉ h :: rl) by (rewrite Hp; eapply nodup_mid, ready_queue_nodup, Hq).
  destruct (sched_away s' c _ h rl Hc' Htc' Hni Hq') as (th & Hth & Es & Hq2).
  exists s', th, h, rl, p. split_and!; [|by constructor|done| |done|done].
  - rewrite E. unfold bind. by rewrite Es.
  - destruct Hrep as (mx' & Hm' & [? ? Hw ? Hi]). exists mx'. split; [done|].
    pose proof (waiting_disjoint _ _ _ _ _ _ Hw Hq') as Hd.
    assert (Hpr : forall x, prio (k_tasks (switched h th s')) x = prio (k_tasks s') x).
    { intros x. unfold switched. norm. rewrite prio_insert. case_decide; [subst|done].
      by rewrite dispatched_prio, (prio_lookup _ _ _ Hth). }
    constructor; try done; [|intros x Hx; rewrite !Hpr; auto].
    apply waiting_insert; [|done]. intros Hx. apply (Hd h Hx). set_solver.
Qed.


(** Task 2 (priority 5, ready) holds the mutex 7 that the running task 1
    (priority 1) asks for. *)
Definition sample_mutex : kst :=
  set_k_mutexes {[ 7%positive := mk_mutex RX_MUTEX_LOCKED (Some 2%positive) None None ]} sample.


(** ** Unlocking *)

(** The priority a task inherits from the tasks [ws]. *)
Definition inherited (ts : gmap positive tcb) (p : Z) (ws : list positive) : Z :=
  fold_left (fun p x => Z.min p (prio ts x)) ws p.

Lemma inherited_le ts p ws :
  inherited ts p ws <= p /\ forall x, x ∈ ws -> inherited ts p ws <= prio ts x.
Proof.
  unfold inherited. revert p. induction ws as [|y ws IH]; intros p; simpl.
  { split; [lia|]. intros x ?%elem_of_nil. done. }
  destruct (IH (Z.min p (prio ts y))) as [H1 H2]. split; [lia|].
  intros x [->|Hx]%elem_of_cons; [lia|auto].
Qed.

Lemma inherited_insert ts o t p ws :
  o ∉ ws -> inherited (<[o := t]> ts) p ws = inherited ts p ws.
Proof.
  unfold inherited. revert p. induction ws as [|y ws IH]; intros p Hni; simpl; [done|].
  rewrite prio_insert, decide_False by set_solver. apply IH. set_solver.
Qed.

Lemma inherit_loop_run fuel s m mx o to h ws :
  (length ws < fuel)%nat -> k_mutexes s !! m = Some mx -> m_owner mx = Some o ->
  k_tasks s !! o = Some to -> o ∉ ws -> chain t_next (k_tasks s) h ws ->
  inherit_loop fuel (Some m) h s
    = Done tt (set_k_tasks
        (<[o := set_t_prio (inherited (k_tasks s) (t_prio to) ws) to]> (k_tasks s)) s).
Proof.
  revert fuel s to h.
  induction ws as [|w ws IH]; intros fuel s to h Hf Hm Ho Hto Hni Hc;
    (destruct fuel as [|fuel]; [simpl in Hf; lia|]); cbn [inherit_loop];
    unfold inherited; cbn [fold_left].
  - assert (h = None) as -> by done. replace (set_t_prio (t_prio to) to) with to by (by destruct to).
    rewrite insert_id by done. by destruct s.
  - destruct Hc as (-> & tw & Hw & Hc). assert (o <> w) by set_solver.
    rewrite (prio_lookup _ _ _ Hw). step. rewrite Ho. step. step. case_decide as Hgt.
    + step. step. rewrite Z.min_r by lia.
      rewrite (IH fuel _ (set_t_prio (t_prio tw) to)); try done.
      * norm. rewrite inherited_insert by set_solver. by rewrite insert_insert_eq.
      * simpl in Hf. lia.
      * apply lookup_insert_eq.
      * set_solver.
      * apply seg_insert_ne; [set_solver|done].
    + step. step. rewrite Z.min_l by lia. apply IH; auto; [simpl in Hf; lia|set_solver].
Qed.

(** The owner, which runs, goes back to its own priority. *)
Lemma restore_prio_run s m mx c tc l1 l2 :
  k_mutexes s !! m = Some mx -> m_owner mx = Some c -> k_curr s = Some c ->
  k_tasks s !! c = Some tc -> ready_queue (k_tasks s) (k_ready s) (l1 ++ c :: l2) ->
  exists ts' r cr rl',
    restore_prio (Some m) s = Done tt (rq_st ts' (head rl') r cr s) /\
    ready_queue ts' (head rl') rl' /\ rl' ≡ₚ l1 ++ c :: l2 /\
    relinked (l1 ++ c :: l2) (<[c := set_t_prio (t_orig_prio tc) tc]> (k_tasks s)) ts'.
Proof.
  intros Hm Ho Hc Htc Hq. unfold restore_prio. step. rewrite Ho. step. case_decide as Hp.
  - step. set (s1 := set_k_tasks _ _).
    destruct (ready_queue_lookup _ _ _ c Hq ltac:(set_solver)) as (t & ? & Hrun). simplify_eq.
    edestruct (requeue_run s1 (k_tasks s) l1 c l2 tc (set_t_prio (t_orig_prio tc) tc))
      as (s2 & ts3 & r & n & l' & E1 & E2 & Hq' & Hpm & Hr & _); [done..|].
    assert (Hc2 : k_curr s2 = Some c).
    { pose proof (leave_queue s1 (k_tasks s) l1 c l2 tc (set_t_prio (t_orig_prio tc) tc)
        Hq Htc eq_refl eq_refl) as (? & E & _). rewrite E1 in E. by simplify_eq. }
    erewrite bind_run by exact E1. step. rewrite Hc2. erewrite bind_run by exact E2.
    exists ts3, r, (crit_out s), l'. by split_and!.
  - exists (k_tasks s), (k_need_resched s), (k_critical s), (l1 ++ c :: l2).
    rewrite <- (ready_queue_head _ _ _ Hq), rq_st_id.
    replace (set_t_prio (t_orig_prio tc) tc) with tc.
    + rewrite insert_id by done. split_and!; [done..|apply relinked_refl].
    + destruct (decide (t_prio tc = t_orig_prio tc)) as [<-|]; [by destruct tc|done].
Qed.

(** The control block of the task the mutex is handed to. *)
Definition handed (n : ptr) (p : Z) (t : tcb) : tcb :=
  set_t_next n (set_t_mutex None (set_t_state RX_TASK_READY (set_t_prio p (set_t_timer None t)))).

Lemma hand_off_run s m mx w tw ws rl :
  k_mutexes s !! m = Some mx -> waiting (waits_for m) (k_tasks s) (m_task mx) (w :: ws) ->
  k_tasks s !! w = Some tw -> timer_stoppable s tw ->
  ready_queue (k_tasks s) (k_ready s) rl ->
  exists s' mx' rl',
    hand_off (Some m) (Some w) s = Done tt s' /\
    k_mutexes s' !! m = Some mx' /\ mutex_held (k_tasks s') mx' m w ws /\
    ready_queue (k_tasks s') (k_ready s') rl' /\ rl' ≡ₚ w :: rl /\ k_curr s' = k_curr s /\
    (forall x, x <> w -> prio (k_tasks s') x = prio (k_tasks s) x) /\
    k_sems s' = k_sems s /\ (forall b, b <> m -> k_mutexes s' !! b = k_mutexes s !! b) /\
    (exists n p, k_tasks s' !! w = Some (handed n p tw)) /\
    relinked (w :: rl) (delete w (k_tasks s)) (delete w (k_tasks s')).
Proof.
  intros Hm Hw Htw Hst Hq. pose proof (waiting_disjoint _ _ _ _ _ _ Hw Hq) as Hdis.
  pose proof (waiting_cons _ _ _ _ _ Hw) as (Hh & Hni & t & ? & _ & _ & Hw'). simplify_eq.
  unfold hand_off. step. step.
  edestruct (stop_task_timer_run (set_k_mutexes (<[m := set_m_task (t_next tw) mx]> (k_mutexes s)) s)
    w tw) as (tms & th & cr & E); [done..|].
  erewrite bind_run by exact E. unfold tm_st. step. step. step.
  erewrite bind_run; cycle 1.
  { eapply (inherit_loop_run _ _ m _ w (set_t_timer None tw) (t_next tw) ws); [|lk|done|lk|done|].
    - pose proof (chain_length _ _ _ _ (wt_chain _ _ _ _ Hw)) as Hl. simpl in Hl.
      unfold task_fuel. norm. rewrite map_size_insert_Some by done. lia.
    - apply seg_insert_ne; [done|]. apply Hw'. }
  set (p := inherited _ _ _). do 3 step. rewrite !insert_insert_eq.
  set (tw' := set_t_mutex None _).
  match goal with |- context [__rx_add_to_ready_q (Some w)] =>
    match goal with |- context [bind _ _ ?st = _] => set (s1 := st) end end.
  destruct (make_ready s1 (k_tasks s) rl w tw') as (ts2 & n & E2 & Hq2 & Hr2 & Hw2);
    [done|apply Hdis; left|by left|done|].
  erewrite bind_run by exact E2.
  assert (Hpr : forall x, x <> w -> prio ts2 x = prio (k_tasks s) x).
  { intros x Hx. rewrite (relinked_prio _ _ _ x Hr2), prio_insert. by case_decide. }
  eexists _, _, _. split_and!; [reflexivity|apply lookup_insert_eq| |exact Hq2|by rewrite ins_perm
    |done|exact Hpr|done| |by eexists _, _|].
  2: { intros b Hb. norm. by rewrite !lookup_insert_ne. }
  2: { apply (relinked_delete _ _ _ w) in Hr2. by rewrite delete_insert_eq in Hr2. }
  constructor; try done.
  - cbn. eapply waiting_relinked; [exact Hr2| |by apply waiting_insert].
    intros x Hx [->|Hx']%elem_of_cons; [done|]. apply (Hdis x); [by right|done].
  - intros x Hx. norm. rewrite (Hpr x) by (intros He; apply Hni; by rewrite <- He).
    rewrite (prio_lookup _ _ _ Hw2). cbn.
    transitivity (prio (<[w:=set_t_timer None tw]> (k_tasks s)) x); [by apply inherited_le|].
    rewrite prio_insert, decide_False; [done|]. intros He. apply Hni. by rewrite He.
Qed.

(** Unlocking by a task that does not own the mutex. *)
Lemma unlock_illegal_run s m mx o to c tc :
  k_mutexes s !! m = Some mx -> m_lock mx = RX_MUTEX_LOCKED -> m_owner mx = Some o ->
  k_curr s = Some c -> o <> c -> k_tasks s !! o = Some to -> k_tasks s !! c = Some tc ->
  rx_mutex_unlock (Some m) s = Done OS_ERR (set_k_critical (crit_out s) s).
Proof.
  intros Hm Hlk Ho Hc Hoc Hto Htc. unfold rx_mutex_unlock. erewrite bind_run by apply enter_run.
  step. rewrite Hlk, decide_True by done. step. rewrite Ho, Hc, decide_True by congruence.
  step. step. erewrite bind_run by apply pr_error_run. erewrite bind_run by apply exit_run.
  crit_eq.
Qed.

Lemma unlock_free_run s m mx :
  k_mutexes s !! m = Some mx -> m_lock mx = RX_MUTEX_UNLOCKED ->
  rx_mutex_unlock (Some m) s = Done OS_OK (set_k_critical (crit_out s) s).
Proof.
  intros Hm Hlk. unfold rx_mutex_unlock. erewrite bind_run by apply enter_run.
  step. rewrite Hlk, decide_False by done. erewrite bind_run by apply exit_run. crit_eq.
Qed.

(** Unlocking by the owner, with what happens to the other tasks. *)
Lemma unlock_run s m c tc l1 l2 ws :
  k_curr s = Some c -> k_tasks s !! c = Some tc ->
  ready_queue (k_tasks s) (k_ready s) (l1 ++ c :: l2) -> mutex_rep s m (AHeld c ws) ->
  (forall w tw, head ws = Some w -> k_tasks s !! w = Some tw -> timer_stoppable s tw) ->
  let ts0 := <[c := set_t_prio (t_orig_prio tc) tc]> (k_tasks s) in
  exists s' rl,
    rx_mutex_unlock (Some m) s = Done OS_OK s' /\
    mutex_rep s' m (a_unlock (AHeld c ws)) /\
    ready_queue (k_tasks s') (k_ready s') rl /\ rl ≡ₚ take 1 ws ++ l1 ++ c :: l2 /\
    k_curr s' = Some c /\ prio (k_tasks s') c = t_orig_prio tc /\
    k_sems s' = k_sems s /\ (forall b, b <> m -> k_mutexes s' !! b = k_mutexes s !! b) /\
    match ws with
    | [] => relinked (l1 ++ c :: l2) ts0 (k_tasks s')
    | w :: _ => (exists n p tw, k_tasks s !! w = Some tw /\ k_tasks s' !! w = Some (handed n p tw)) /\
        relinked (w :: l1 ++ c :: l2) (delete w ts0) (delete w (k_tasks s'))
    end.
Proof.
  intros Hc Htc Hq (mx & Hm & [Hlk Ho Hw Hout Hinh]) Hstop ts0.
  unfold rx_mutex_unlock. erewrite bind_run by apply enter_run. step.
  rewrite Hlk, decide_True by done. step. rewrite Ho, Hc, decide_False by tauto. step.
  set (s1 := set_k_mutexes _ _).
  edestruct (restore_prio_run s1 m (set_m_lock RX_MUTEX_UNLOCKED mx) c tc l1 l2)
    as (ts2 & r & cr & rl & E2 & Hq2 & Hp2 & Hr2); [apply lookup_insert_eq|done..|].
  erewrite bind_run by exact E2. set (s2 := rq_st _ _ _ _ s1). step. cbn [m_task set_m_lock].
  pose proof (waiting_disjoint _ _ _ _ _ _ Hw Hq) as Hdis.
  assert (Hsame : forall x, x ∈ ws -> ts2 !! x = k_tasks s !! x).
  { intros x Hx. rewrite (relinked_out _ _ _ _ Hr2) by auto. norm.
    rewrite lookup_insert_ne; [done|]. by intros ->. }
  assert (Hw2 : waiting (waits_for m) (k_tasks s2) (m_task mx) ws) by (by eapply waiting_frame).
  assert (Hpc : prio ts2 c = t_orig_prio tc).
  { rewrite (relinked_prio _ _ _ _ Hr2), prio_insert. by rewrite decide_True. }
  assert (Hoth : forall b, b <> m -> k_mutexes s1 !! b = k_mutexes s !! b).
  { intros b Hb. unfold s1. norm. by rewrite lookup_insert_ne. }
  destruct ws as [|w ws].
  - rewrite (chain_head _ _ _ _ (wt_chain _ _ _ _ Hw2)). cbn [head]. step.
    erewrite bind_run by apply exit_run. exists (set_k_critical (crit_out s2) s2), rl.
    split_and!; [done| |done..]. exists (set_m_lock RX_MUTEX_UNLOCKED mx).
    split; [apply lookup_insert_eq|]. split; [done|].
    exact (chain_head _ _ _ _ (wt_chain _ _ _ _ Hw2)).
  - pose proof (waiting_cons _ _ _ _ _ Hw2) as (Hh & Hni & tw & Htw & _). rewrite Hh.
    assert (Htw0 : k_tasks s !! w = Some tw) by (rewrite <- Htw; symmetry; apply Hsame; left).
    edestruct (hand_off_run s2 m (set_m_lock RX_MUTEX_UNLOCKED mx) w tw ws rl)
      as (s3 & mx3 & rl3 & E3 & Hm3 & Hheld & Hq3 & Hp3 & Hc3 & Hpr & Hsem3 & Hoth3 & (n & p & Hw3) & Hr3);
      [apply lookup_insert_eq|exact Hw2|exact Htw|by apply (Hstop w tw)|exact Hq2|].
    erewrite bind_run by exact E3. erewrite bind_run by apply exit_run.
    exists (set_k_critical (crit_out s3) s3), rl3. split_and!; [done|by exists mx3|done|by rewrite Hp3, Hp2| | |done| | |].
    + by rewrite <- Hc.
    + norm. rewrite Hpr; [done|]. intros ->. apply Hout. left.
    + intros b Hb. norm. rewrite Hoth3 by done. by apply Hoth.
    + by exists n, p, tw.
    + eapply relinked_trans; [|eapply relinked_mono; [|exact Hr3]; intros y; rewrite !elem_of_cons, Hp2; tauto].
      eapply relinked_mono; [|apply relinked_delete, Hr2]. set_solver.
Qed.


(** Task 1 (own priority 6, running at the inherited priority 1) holds the
    mutex 7, the suspended task 4 (priority 1) waits for it. *)
Definition sample_unlock : kst :=
  set_k_tasks (<[1%positive := set_t_orig_prio 6 (task 1 RX_TASK_RUNNING (Some 2%positive))]>
    (<[4%positive := set_t_mutex (Some 7%positive) (task 1 RX_TASK_SUSPEND None)]> tasks3))
  (set_k_mutexes
    {[ 7%positive := mk_mutex RX_MUTEX_LOCKED (Some 1%positive) (Some 4%positive) None ]} sample).


(** ** Timeouts *)

Lemma disinherit_run s m mx o to x tx ws :
  k_mutexes s !! m = Some mx -> m_owner mx = Some o -> k_tasks s !! o = Some to ->
  k_tasks s !! x = Some tx -> chain t_next (k_tasks s) (m_task mx) ws -> o ∉ ws ->
  (forall y, y ∈ ws -> prio (k_tasks s) o <= prio (k_tasks s) y) ->
  exists p,
    disinherit (Some m) (Some x) s
      = Done tt (set_k_tasks (<[o := set_t_prio p to]> (k_tasks s)) s) /\
    (forall y, y ∈ ws -> p <= prio (k_tasks s) y).
Proof.
  intros Hm Ho Hto Hx Hc Hni Hinh. unfold disinherit. step. rewrite Ho. step. step. case_decide.
  - exists (inherited (<[o := set_t_prio (t_orig_prio to) to]> (k_tasks s)) (t_orig_prio to) ws).
    split.
    + step. step. erewrite inherit_loop_run; [|..|by apply seg_insert_ne]; [| |lk|done|lk|done].
      * norm. by rewrite insert_insert_eq.
      * apply chain_length in Hc. unfold task_fuel. norm. rewrite map_size_insert_Some by done. lia.
    + intros y Hy. rewrite inherited_insert by done. by apply inherited_le.
  - exists (t_prio to). split.
    + replace (set_t_prio (t_prio to) to) with to by (by destruct to).
      rewrite insert_id by done. by destruct s.
    + intros y Hy. rewrite <- (prio_lookup _ _ _ Hto). auto.
Qed.

(** The part of the handler that concerns the mutex and its owner. *)
Lemma mutex_withdraw_run s m mx o to wa x wb tx rl :
  k_mutexes s !! m = Some mx -> mutex_held (k_tasks s) mx m o (wa ++ x :: wb) ->
  k_tasks s !! o = Some to -> k_tasks s !! x = Some tx ->
  ready_queue (k_tasks s) (k_ready s) rl -> (o ∈ rl <-> t_state to = RX_TASK_READY) ->
  exists s' rl', 
    (forall B (k : M B), (dequeue_from mutex (Some m) (Some x) ;;;
      disinherit (Some m) (Some x) ;;;
      let! mx := ld_mutex (Some m) in
      rearrange (m_owner mx) ;;; k) s = k s') /\
    mutex_rep s' m (AHeld o (wa ++ wb)) /\
    ready_queue (k_tasks s') (k_ready s') rl' /\ rl' ≡ₚ rl /\ k_tasks s' !! x = Some tx.
Proof.
  intros Hm [Hlk Ho Hw Hout Hinh] Hto Hx Hq Hrdy.
  pose proof (waiting_disjoint _ _ _ _ _ _ Hw Hq) as Hdis.
  pose proof (nodup_mid _ _ _ (chain_NoDup _ _ _ _ (wt_chain _ _ _ _ Hw))) as Hxn.
  assert (Hsub : forall y, y ∈ wa ++ wb -> y ∈ wa ++ x :: wb).
  { intros y. rewrite !elem_of_app, elem_of_cons. tauto. }
  assert (Hwa : forall y, y ∈ wa -> y ∈ wa ++ wb) by (intros y ?; apply elem_of_app; by left).
  assert (Hxin : x ∈ wa ++ x :: wb) by (apply elem_of_app; right; left).
  assert (Hxo : o <> x) by (by intros ->).
  edestruct (dequeue_from_run (T:=mutex) (waits_for m) ltac:(done) s m mx wa x wb tx)
    as (ts1 & h' & E1 & Hw1 & Hr1); [exact Hm|exact Hx|exact Hw|].
  cbn [set_store store_of mutex_store ws_set mutex_waiters] in E1. set (s1 := set_k_mutexes _ _) in E1.
  assert (Hto1 : ts1 !! o = Some to) by (rewrite (relinked_out _ _ _ o Hr1); auto).
  assert (Hx1 : ts1 !! x = Some tx) by (rewrite (relinked_out _ _ _ x Hr1); auto).
  edestruct (disinherit_run s1 m (set_m_task h' mx) o to x tx (wa ++ wb)) as (p & E2 & Hp);
    [apply lookup_insert_eq|done|done|done|apply Hw1|by intros ?%Hsub| |].
  { intros y Hy. change (k_tasks s1) with ts1. rewrite !(relinked_prio _ _ _ _ Hr1). auto. }
  assert (Hq1 : ready_queue ts1 (k_ready s) rl).
  { eapply ready_queue_relinked; [exact Hr1|exact Hq|by left| |eapply relinked_sorted; [exact Hr1|apply Hq]].
    eapply relinked_seg; [exact Hr1| |apply Hq]. intros y Hy Hya. apply (Hdis y); auto. }
  edestruct (rearrange_run (set_k_tasks (<[o := set_t_prio p to]> (k_tasks s1)) s1) ts1 o to p rl)
    as (ts3 & r & cr & rl3 & E3 & Hq3 & Hp3 & Hr3); [done..|].
  set (s3 := rq_st ts3 _ _ _ _) in E3. exists s3, rl3.
  assert (Hsame : forall y, y ∈ wa ++ x :: wb -> ts3 !! y = ts1 !! y).
  { intros y Hy. rewrite (relinked_out _ _ _ y Hr3) by auto.
    rewrite lookup_insert_ne; [done|]. by intros ->. }
  split_and!; [|exists (set_m_task h' mx); split; [apply lookup_insert_eq|]|done|done|].
  - intros B k. erewrite bind_run by exact E1. erewrite bind_run by exact E2. step. cbn [m_owner set_m_task]. rewrite Ho.
    by erewrite bind_run by exact E3.
  - constructor; [done..| |by intros ?%Hsub|].
    + eapply waiting_frame; [|exact Hw1]. intros y Hy. apply Hsame. auto.
    + intros y Hy. change (k_tasks s3) with ts3. rewrite !(relinked_prio _ _ _ _ Hr3), !prio_insert.
      rewrite decide_True by done. case_decide; [cbn; lia|]. by apply Hp.
  - change (k_tasks s3) with ts3. by rewrite Hsame.
Qed.

(** C32: When a task's wait for a mutex times out, [__rx_mutex_handler] takes it
    out of the mutex' queue wherever it stands and makes it ready, with the timer
    and the mutex forgotten; the others keep their order, the mutex stays with
    its owner, and the owner keeps a priority at least as urgent as that of every
    task that still waits. *)
Theorem mutex_timeout_leaves_queue s m o to wa x wb tx rl :
  mutex_rep s m (AHeld o (wa ++ x :: wb)) -> k_tasks s !! o = Some to ->
  k_tasks s !! x = Some tx -> ready_queue (k_tasks s) (k_ready s) rl ->
  (o ∈ rl <-> t_state to = RX_TASK_READY) ->
  exists s' rl' tx',
    __rx_mutex_handler (Some x) s = Done tt s' /\
    mutex_rep s' m (AHeld o (wa ++ wb)) /\
    ready_queue (k_tasks s') (k_ready s') rl' /\ rl' ≡ₚ x :: rl /\
    k_tasks s' !! x = Some tx' /\ t_state tx' = RX_TASK_READY /\
    t_timer tx' = None /\ t_mutex tx' = None /\ t_prio tx' = t_prio tx.
Proof.
  intros (mx & Hm & Hh) Hto Hx Hq Hrdy.
  edestruct (mutex_withdraw_run s m mx o to wa x wb tx rl)
    as (s1 & rl1 & E1 & (mx1 & Hm1 & [Hlk1 Ho1 Hw1 Hout1 Hi1]) & Hq1 & Hp1 & Hx1); [done..|].
  destruct Hh as [Hlk Ho Hw Hout Hinh].
  assert (Hxin : x ∈ wa ++ x :: wb) by (apply elem_of_app; right; left).
  pose proof (nodup_mid _ _ _ (chain_NoDup _ _ _ _ (wt_chain _ _ _ _ Hw))) as Hxn.
  destruct (wt_states _ _ _ _ Hw x tx Hxin Hx) as [_ [_ Hxm]].
  assert (Hxo : o <> x) by (by intros ->).
  assert (Hxr : x ∉ rl1) by (rewrite Hp1; by apply (waiting_disjoint _ _ _ _ _ _ Hw Hq)).
  unfold __rx_mutex_handler. step. rewrite Hxm. step. rewrite Ho, decide_False by congruence.
  rewrite E1. do 3 step. rewrite !insert_insert_eq. set (tx' := set_t_state RX_TASK_READY _).
  match goal with |- context [bind (__rx_add_to_ready_q _) _ ?st] => set (s2 := st) end.
  destruct (make_ready s2 (k_tasks s1) rl1 x tx') as (ts2 & n & E2 & Hq2 & Hr2 & Hx2);
    [done|done|by left|done|].
  erewrite bind_run by exact E2.
  eexists _, _, _. split_and!; [reflexivity| |exact Hq2|by rewrite ins_perm, Hp1|exact Hx2|done..].
  pose proof (waiting_disjoint _ _ _ _ _ _ Hw1 Hq1) as Hdis.
  exists mx1. split; [done|]. constructor; [done..| |done|].
  - cbn. eapply waiting_relinked; [exact Hr2| |by apply waiting_insert].
    intros y Hy [->|Hy']%elem_of_cons; [done|]. by apply (Hdis y).
  - intros y Hy. norm. rewrite !(relinked_prio _ _ _ _ Hr2), !prio_insert.
    rewrite decide_False by congruence. rewrite decide_False by (by intros <-). auto.
Qed.

(** In the state above, the wait of task 4 times out while task 1 is ready. *)
Definition sample_timeout : kst :=
  set_k_tasks (<[1%positive := set_t_orig_prio 6 (task 1 RX_TASK_READY (Some 2%positive))]>
    (k_tasks sample_unlock)) sample_unlock.

Lemma mutex_timeout_leaves_queue_witness :
  exists s' rl' tx',
    __rx_mutex_handler (Some 4%positive) sample_timeout = Done tt s' /\
    mutex_rep s' 7 (AHeld 1 []) /\
    ready_queue (k_tasks s') (k_ready s') rl' /\ rl' ≡ₚ [4; 1; 2; 3]%positive /\
    k_tasks s' !! 4%positive = Some tx' /\ t_state tx' = RX_TASK_READY /\
    t_timer tx' = None /\ t_mutex tx' = None /\ t_prio tx' = 1.
Proof.
  apply (mutex_timeout_leaves_queue sample_timeout 7 1
    (set_t_orig_prio 6 (task 1 RX_TASK_READY (Some 2%positive))) [] 4 []
    (set_t_mutex (Some 7%positive) (task 1 RX_TASK_SUSPEND None)) [1; 2; 3]%positive);
    try reflexivity.
  - eexists. split; [reflexivity|]. constructor; try done.
    + constructor; [by apply chainb_ok; vm_compute|].
      intros x t Hx Ht. apply list_elem_of_singleton in Hx. subst x. vm_compute in Ht.
      simplify_eq. split; [by apply suspended_not_runnable|done].
    + set_solver.
    + intros x Hx. apply list_elem_of_singleton in Hx. subst x. vm_compute. congruence.
  - by apply ready_queueb_ok; vm_compute.
  - split; [done|]. intros _. set_solver.
Defined.
