(* ===== verification/Semaphore.v ===== *)
(** * Counting semaphores (src/kernel/rx_semaphore.c)

    The value of a semaphore counts down with every wait; when it is negative,
    its absolute value is the number of tasks in the semaphore's queue. *)

From stdpp Require Import base gmap list sorting.
From Stdlib Require Import ZArith Lia.
From S2P Require Import Prelude State Samples Chains Port ReadyQueue Sched TaskQueue Task Timer.
#[local] Open Scope Z_scope.
#[local] Open Scope rosx_scope.

#[export] Instance sem_waiters : WaitService semaphore.
Proof. by refine {| ws_head := sem_task; ws_set := set_sem_task |}; intros []. Defined.

Definition rx_create_semaphore (sem : ptr) (val : Z) : M Z :=
  if decide (val <= 0) then
    pr_error ;;;
    ret OS_ERR
  else
    let! imask := rx_enter_critical in
    on_sem sem (set_sem_init_val val) ;;;
    on_sem sem (set_sem_curr_val val) ;;;
    on_sem sem (set_sem_task None) ;;;
    rx_exit_critical imask ;;;
    ret OS_OK.

Fixpoint delete_sem_loop (fuel : nat) (p : ptr) : M unit :=
  match fuel with
  | O => crash NoFuel
  | S fuel =>
    let! sm := ld_sem p in
    match sem_task sm with
    | None => ret tt
    | Some _ =>
      let ready := sem_task sm in
      on_task ready (set_t_state RX_TASK_READY) ;;;
      on_task ready (set_t_sem None) ;;;
      drop_task_timer ready ;;;
      let! t := ld_task ready in
      on_sem p (set_sem_task (t_next t)) ;;;
      let! _ := __rx_add_to_ready_q ready in
      delete_sem_loop fuel p
    end
  end.

Definition rx_delete_semaphore (p : ptr) : M unit :=
  let! imask := rx_enter_critical in
  let! fuel := gets task_fuel in
  delete_sem_loop fuel p ;;;
  rx_exit_critical imask.

Definition rx_semaphore_post (sem : ptr) : M Z :=
  let! imask := rx_enter_critical in
  let! sm := ld_sem sem in
  (match sem_task sm with
   | Some _ =>
     let t := sem_task sm in
     let! w := ld_task t in
     on_sem sem (set_sem_task (t_next w)) ;;;
     on_task t (set_t_state RX_TASK_READY) ;;;
     on_task t (set_t_sem None) ;;;
     let! _ := __rx_add_to_ready_q t in
     on_sem sem (fun m => set_sem_curr_val (s32 (sem_curr_val m + 1)) m)
   | None => ret tt
   end) ;;;
  rx_exit_critical imask ;;;
  ret OS_OK.

(** The handler of the timer of a task that waits with a timeout;
    [rx_early_printk] is empty in this configuration. *)
Definition __rx_sem_handler (task : ptr) : M unit :=
  let! t := ld_task task in
  let sem := t_sem t in
  match sem with
  | None => ret tt
  | Some _ =>
    dequeue_from semaphore sem task ;;;
    on_sem sem (fun m => set_sem_curr_val (s32 (sem_curr_val m + 1)) m) ;;;
    on_task task (set_t_timer None) ;;;
    on_task task (set_t_timeout E_OS_TIMEOUT) ;;;
    on_task task (set_t_state RX_TASK_READY) ;;;
    let! _ := __rx_add_to_ready_q task in
    on_task task (set_t_sem None)
  end.

(** [timer] is the address of the local variable of that name. *)
Definition __rx_sem_timeout (timer p : ptr) (timeout : Z) : M Z :=
  let! curr := gets k_curr in
  let! _ := rx_init_timer timer (Some H_sem) curr timeout in
  rx_start_timer timer ;;;
  let! curr := gets k_curr in
  on_task curr (set_t_timeout RX_TIMER_ON) ;;;
  on_task curr (set_t_timer timer) ;;;
  let! _ := rx_suspend_task None in
  let! curr := gets k_curr in
  let! t := ld_task curr in
  if decide (t_timeout t = E_OS_TIMEOUT) then ret E_OS_TIMEOUT else ret OS_OK.

Definition rx_semaphore_wait (timer sem : ptr) (timeout : Z) : M Z :=
  let! imask := rx_enter_critical in
  on_sem sem (fun m => set_sem_curr_val (s32 (sem_curr_val m - 1)) m) ;;;
  let! sm := ld_sem sem in
  if decide (sem_curr_val sm >= 0) then
    rx_exit_critical imask ;;;
    ret OS_OK
  else if decide (timeout = OS_NO_WAIT) then
    on_sem sem (fun m => set_sem_curr_val (s32 (sem_curr_val m + 1)) m) ;;;
    rx_exit_critical imask ;;;
    ret E_OS_UNAVAIL
  else
    let! curr := gets k_curr in
    on_task curr (set_t_state RX_TASK_SUSPEND) ;;;
    on_task curr (set_t_sem sem) ;;;
    on_task curr (set_t_timeout RX_TIMER_OFF) ;;;
    let! _ := __rx_remove_from_ready_q curr in
    on_task curr (set_t_next None) ;;;
    enqueue_on semaphore sem curr ;;;
    if decide (timeout > 0) then
      rx_exit_critical imask ;;;
      __rx_sem_timeout timer sem timeout
    else
      rx_exit_critical imask ;;;
      rx_sched ;;;
      match sem with
      | None => ret E_OS_UNAVAIL
      | Some _ => ret OS_OK
      end.

(** ** The semaphore's invariant *)

Definition waits_sem (a : positive) (t : tcb) : Prop :=
  t_state t = RX_TASK_SUSPEND /\ t_sem t = Some a.

(** The tasks [ws] wait for the semaphore [a], whose value is [v]: their number
    is what the value is below zero. *)
Record sem_ok (s : kst) (a : positive) (v : Z) (ws : list positive) : Prop := {
  so_range : - 2 ^ 31 < v < 2 ^ 31;
  so_count : Z.of_nat (length ws) = Z.max 0 (- v);
  so_wait : exists sm, k_sems s !! a = Some sm /\ sem_curr_val sm = v /\
    waiting (waits_sem a) (k_tasks s) (sem_task sm) ws;
}.

(** Another semaphore is not touched. *)
Definition other_sems (a : positive) (s s' : kst) : Prop :=
  forall b, b <> a -> k_sems s' !! b = k_sems s !! b.

(** A call that does not wait changes the semaphore and nothing else of these. *)
Definition only_sem (a : positive) (s s' : kst) : Prop :=
  k_tasks s' = k_tasks s /\ k_ready s' = k_ready s /\ k_curr s' = k_curr s /\
  k_mutexes s' = k_mutexes s /\ other_sems a s s'.

Lemma sem_take_run s a v ws timer timeout :
  sem_ok s a v ws -> 0 < v ->
  exists s', rx_semaphore_wait timer (Some a) timeout s = Done OS_OK s' /\
    sem_ok s' a (v - 1) [] /\ only_sem a s s'.
Proof.
  intros [Hr Hn (sm & Hsm & <- & Hw)] Hpos.
  unfold rx_semaphore_wait. erewrite bind_run by apply enter_run. step. step.
  cbn [sem_curr_val set_sem_curr_val]. rewrite s32_small, decide_True by lia.
  erewrite bind_run by apply exit_run.
  assert (ws = []) as -> by (destruct ws; simpl in Hn; [done|lia]).
  eexists. split; [reflexivity|]. split; [constructor; [lia|simpl; lia|]|split_and!; try done].
  - eexists. split; [apply lookup_insert_eq|]. done.
  - intros b Hb. norm. by rewrite lookup_insert_ne.
Qed.

Lemma sem_refuse_run s a v ws timer :
  sem_ok s a v ws -> v <= 0 -> - 2 ^ 31 + 1 < v ->
  exists s', rx_semaphore_wait timer (Some a) OS_NO_WAIT s = Done E_OS_UNAVAIL s' /\
    sem_ok s' a v ws /\ only_sem a s s'.
Proof.
  intros [Hr Hn (sm & Hsm & <- & Hw)] Hneg Hlow.
  unfold rx_semaphore_wait. erewrite bind_run by apply enter_run. step. step.
  cbn [sem_curr_val set_sem_curr_val]. rewrite s32_small, decide_False, decide_True by done || lia.
  step. erewrite bind_run by apply exit_run. rewrite insert_insert_eq.
  eexists. split; [reflexivity|]. split; [constructor; [lia|done|]|split_and!; try done].
  - eexists. split; [apply lookup_insert_eq|]. split; [|done]. cbn. rewrite s32_small; lia.
  - intros b Hb. norm. by rewrite lookup_insert_ne.
Qed.

(** The control block of a task that waits for [a]. *)
Definition sem_sleeper (a : positive) (t : tcb) : tcb :=
  set_t_next None (set_t_timeout RX_TIMER_OFF (set_t_sem (Some a) (set_t_state RX_TASK_SUSPEND t))).

Lemma sem_block_run s a v ws c tc l1 l2 h l timer timeout :
  k_curr s = Some c -> k_tasks s !! c = Some tc ->
  ready_queue (k_tasks s) (k_ready s) (l1 ++ c :: l2) -> l1 ++ l2 = h :: l ->
  sem_ok s a v ws -> v <= 0 -> timeout < 0 -> - 2 ^ 31 + 1 < v ->
  exists s1 th,
    rx_semaphore_wait timer (Some a) timeout s = Switch (switched h th s1) (fun s2 => Done OS_OK s2) /\
    gave_up s c (sem_sleeper a tc) ((l1 ++ c :: l2) ++ ws) h th l s1 /\
    sem_ok (switched h th s1) a (v - 1) (ws ++ [c]) /\ other_sems a s s1 /\ k_mutexes s1 = k_mutexes s.
Proof.
  intros Hc Htc Hq Hl [Hr Hn (sm & Hsm & <- & Hw)] Hneg Htime Hlow.
  assert (Hni : c ∉ h :: l) by (rewrite <- Hl; eapply nodup_mid, ready_queue_nodup, Hq).
  unfold rx_semaphore_wait. erewrite bind_run by apply enter_run. step. step.
  cbn [sem_curr_val set_sem_curr_val]. rewrite s32_small, decide_False, decide_False by (unfold OS_NO_WAIT; lia).
  step. rewrite Hc. do 3 step. rewrite !insert_insert_eq.
  match goal with |- context [set_k_tasks _ (set_k_tasks _ (set_k_tasks _ ?st))] => set (s1 := st) end.
  set (sm1 := set_sem_curr_val (sem_curr_val sm - 1) sm) in *.
  edestruct (sleep_on_run (T:=semaphore) (waits_sem a) ltac:(done) s1 a sm1 ws c tc
    (set_t_timeout RX_TIMER_OFF (set_t_sem (Some a) (set_t_state RX_TASK_SUSPEND tc))) l1 l2)
    as (ts3 & h' & E & Hq3 & Hw3 & Hc3 & _ & _ & Hrel);
    [done|done|apply lookup_insert_eq|done|done|done|by apply suspended_not_runnable|done|].
  cbn [set_store store_of sem_store ws_set sem_waiters] in E.
  rewrite Hl in Hq3. set (s3 := set_k_sems _ (rq_upd ts3 _ _ s1)) in E.
  destruct (sched_away (set_k_critical (crit_out s3) s3) c _ h l Hc Hc3 Hni) as (th & Hth & Es & Hq4).
  { unfold s3. norm. by rewrite Hl. }
  exists (set_k_critical (crit_out s3) s3), th.
  split_and!; [|by constructor|constructor; [lia|rewrite length_app; simpl; lia|]| |done].
  - etransitivity; [apply E|]. rewrite decide_False by lia. erewrite bind_run by apply exit_run.
    unfold bind at 1. by rewrite Es.
  - eexists. split; [apply lookup_insert_eq|]. split; [done|].
    apply waiting_insert; [|done]. intros Hx. apply (waiting_disjoint _ _ _ _ _ _ Hw3 Hq3 h Hx). left.
  - intros b Hb. unfold s3, s1. norm. by rewrite !lookup_insert_ne.
Qed.

(** C21: Waiting on a semaphore.  With a positive value the call takes one unit
    and returns [OS_OK] at once.  Otherwise [OS_NO_WAIT] returns [E_OS_UNAVAIL]
    and leaves the semaphore as it was, and a negative timeout puts the caller at
    the end of the semaphore's queue and gives the processor to the most urgent
    ready task.  In every case the number of waiting tasks is what the value is
    below zero. *)
Theorem semaphore_wait_ok s a v ws c tc l1 l2 h l timer timeout :
  k_curr s = Some c -> k_tasks s !! c = Some tc ->
  ready_queue (k_tasks s) (k_ready s) (l1 ++ c :: l2) -> l1 ++ l2 = h :: l ->
  sem_ok s a v ws -> timeout <= 0 -> - 2 ^ 31 + 1 < v ->
  if decide (0 < v) then
    exists s', rx_semaphore_wait timer (Some a) timeout s = Done OS_OK s' /\
      sem_ok s' a (v - 1) [] /\ k_tasks s' = k_tasks s
  else if decide (timeout = OS_NO_WAIT) then
    exists s', rx_semaphore_wait timer (Some a) timeout s = Done E_OS_UNAVAIL s' /\
      sem_ok s' a v ws /\ k_tasks s' = k_tasks s
  else
    exists s', rx_semaphore_wait timer (Some a) timeout s
        = Switch s' (fun s2 => Done OS_OK s2) /\
      sem_ok s' a (v - 1) (ws ++ [c]) /\ k_curr s' = Some h /\
      ready_queue (k_tasks s') (k_ready s') (h :: l).
Proof.
  intros Hc Htc Hq Hl Hok Htime Hlow. repeat case_decide.
  - edestruct (sem_take_run s a v ws timer timeout) as (s' & E & Hok' & Ht & _); [done..|]. by exists s'.
  - subst timeout. edestruct (sem_refuse_run s a v ws timer) as (s' & E & Hok' & Ht & _); [done|lia|done|]. by exists s'.
  - edestruct (sem_block_run s a v ws c tc l1 l2 h l timer timeout) as (s1 & th & E & [] & Hok' & _); [done..|lia| |done|].
    { unfold OS_NO_WAIT in *. lia. }
    by exists (switched h th s1).
Qed.

(** Semaphore 8 has the value 1; task 1 of [sample] runs. *)
Definition sample_sem (v : Z) (h : ptr) : kst :=
  set_k_sems {[ 8%positive := mk_sem 1 v h None ]} sample.

Lemma sample_sem_ok v : 0 <= v < 2 ^ 31 -> sem_ok (sample_sem v None) 8 v [].
Proof.
  intros Hv. constructor; [lia|simpl; lia|]. eexists. split; [apply lookup_insert_eq|].
  split; [done|]. apply waiting_nil.
Qed.

Lemma semaphore_wait_ok_witness :
  exists s', rx_semaphore_wait None (Some 8%positive) OS_WAIT_FOREVER (sample_sem 0 None)
      = Switch s' (fun s2 => Done OS_OK s2) /\
    sem_ok s' 8 (0 - 1) ([] ++ [1%positive]) /\ k_curr s' = Some 2%positive /\
    ready_queue (k_tasks s') (k_ready s') [2; 3]%positive.
Proof.
  refine (semaphore_wait_ok (sample_sem 0 None) 8 0 [] 1
    (task 1 RX_TASK_RUNNING (Some 2%positive)) [] [2; 3]%positive 2 [3]%positive None
    OS_WAIT_FOREVER _ _ _ _ _ _ _); try reflexivity; try done.
  - by apply ready_queueb_ok; vm_compute.
  - apply sample_sem_ok. lia.
Defined.

(** ** Posting *)

Lemma sem_ok_cons s a v w ws :
  sem_ok s a v (w :: ws) -> v < 0 /\ Z.of_nat (length ws) = Z.max 0 (- (v + 1)).
Proof. intros [_ Hn _]. simpl in Hn. lia. Qed.

Lemma sem_post_run s a v w ws tw rl :
  sem_ok s a v (w :: ws) -> k_tasks s !! w = Some tw ->
  ready_queue (k_tasks s) (k_ready s) rl ->
  exists s' n,
    rx_semaphore_post (Some a) s = Done OS_OK s' /\ sem_ok s' a (v + 1) ws /\
    ready_queue (k_tasks s') (k_ready s') (ins (k_tasks s) (t_prio tw) w rl) /\
    k_tasks s' !! w = Some (set_t_next n (set_t_sem None (set_t_state RX_TASK_READY tw))) /\
    k_curr s' = k_curr s /\ other_sems a s s' /\ k_mutexes s' = k_mutexes s /\
    relinked (w :: rl) (delete w (k_tasks s)) (delete w (k_tasks s')).
Proof.
  intros Hok Hw Hq. pose proof (sem_ok_cons _ _ _ _ _ Hok) as [Hneg Hlen].
  destruct Hok as [Hr Hn (sm & Hsm & <- & Hwt)].
  pose proof (waiting_disjoint _ _ _ _ _ _ Hwt Hq) as Hdis.
  pose proof (waiting_cons _ _ _ _ _ Hwt) as (Hh & Hni & t & ? & _ & _ & Hwt'). simplify_eq.
  unfold rx_semaphore_post. erewrite bind_run by apply enter_run. step. rewrite Hh.
  do 5 step. rewrite insert_insert_eq. set (tw' := set_t_sem None _).
  match goal with |- context [bind (__rx_add_to_ready_q _) _ ?st] => set (s1 := st) end.
  destruct (make_ready s1 (k_tasks s) rl w tw') as (ts2 & n & E2 & Hq2 & Hr2 & Hw2);
    [done|apply Hdis; left|by left|done|].
  erewrite bind_run by exact E2. unfold rq_upd. repeat step.
  erewrite bind_run by apply exit_run. rewrite insert_insert_eq.
  eexists _, _. split_and!; [reflexivity|constructor|exact Hq2|exact Hw2|done| |done|].
  - lia.
  - done.
  - eexists. split; [apply lookup_insert_eq|]. split; [cbn; rewrite s32_small; lia|].
    cbn. eapply waiting_relinked; [exact Hr2| |by apply waiting_insert].
    intros x Hx [->|Hx']%elem_of_cons; [done|]. apply (Hdis x); [by right|done].
  - intros b Hb. norm. by rewrite !lookup_insert_ne.
  - apply (relinked_delete _ _ _ w) in Hr2. by rewrite delete_insert_eq in Hr2.
Qed.

(** C22: Posting with tasks waiting wakes exactly the first of them: it leaves
    the semaphore's queue and joins the ready queue by its priority, the others
    keep waiting in order, the value grows by one and still counts them. *)
Theorem semaphore_post_wakes_first s a v w ws tw rl :
  sem_ok s a v (w :: ws) -> k_tasks s !! w = Some tw ->
  ready_queue (k_tasks s) (k_ready s) rl ->
  exists s' tw',
    rx_semaphore_post (Some a) s = Done OS_OK s' /\ sem_ok s' a (v + 1) ws /\
    ready_queue (k_tasks s') (k_ready s') (ins (k_tasks s) (t_prio tw) w rl) /\
    k_tasks s' !! w = Some tw' /\ t_state tw' = RX_TASK_READY /\ t_sem tw' = None.
Proof.
  intros Hok Hw Hq. edestruct sem_post_run as (s' & n & E & Hok' & Hq' & Hw' & _); [done..|].
  by eexists s', _.
Qed.

(** Task 4 waits for semaphore 8. *)
Definition sample_post : kst :=
  set_k_tasks (<[4%positive := set_t_sem (Some 8%positive) (task 2 RX_TASK_SUSPEND None)]> tasks3)
    (sample_sem (-1) (Some 4%positive)).

Lemma sample_post_ok : sem_ok sample_post 8 (-1) [4]%positive.
Proof.
  constructor; [lia|done|]. eexists. split; [reflexivity|]. split; [done|].
  constructor; [by apply chainb_ok; vm_compute|].
  intros x t Hx Ht. apply list_elem_of_singleton in Hx. subst x. vm_compute in Ht.
  simplify_eq. split; [by apply suspended_not_runnable|done].
Qed.

Lemma semaphore_post_wakes_first_witness :
  exists s' tw',
    rx_semaphore_post (Some 8%positive) sample_post = Done OS_OK s' /\ sem_ok s' 8 (-1 + 1) [] /\
    ready_queue (k_tasks s') (k_ready s') (ins (k_tasks sample_post) 2 4 [1; 2; 3]%positive) /\
    k_tasks s' !! 4%positive = Some tw' /\ t_state tw' = RX_TASK_READY /\ t_sem tw' = None.
Proof.
  apply (semaphore_post_wakes_first sample_post 8 (-1) 4 []
    (set_t_sem (Some 8%positive) (task 2 RX_TASK_SUSPEND None)) [1; 2; 3]%positive);
    [apply sample_post_ok|reflexivity|by apply ready_queueb_ok; vm_compute].
Defined.

Lemma post_without_waiter_run s a v :
  sem_ok s a v [] -> rx_semaphore_post (Some a) s = Done OS_OK (set_k_critical (crit_out s) s).
Proof.
  intros [_ _ (sm & Hsm & _ & Hw)]. unfold rx_semaphore_post.
  erewrite bind_run by apply enter_run. step.
  rewrite (chain_head _ _ _ _ (wt_chain _ _ _ _ Hw) : sem_task sm = None). step.
  erewrite bind_run by apply exit_run. crit_eq.
Qed.

(** [n] calls of [rx_semaphore_post]. *)
Fixpoint post_many (n : nat) (sem : ptr) : M unit :=
  match n with
  | O => ret tt
  | S n => let! _ := rx_semaphore_post sem in post_many n sem
  end.

(** A post that finds no task waiting is lost: the value only grows when a
    task is woken.  However often a semaphore of value 0 is posted while nobody
    waits, a task that then asks for it without waiting is turned away. *)
Theorem semaphore_post_lost s a n timer :
  sem_ok s a 0 [] ->
  exists s', post_many n (Some a) s = Done tt s' /\ sem_ok s' a 0 [] /\
    exists s2, rx_semaphore_wait timer (Some a) OS_NO_WAIT s' = Done E_OS_UNAVAIL s2.
Proof.
  revert s. induction n as [|n IH]; intros s Hok; cbn [post_many].
  - exists s. split; [done|]. split; [done|]. destruct Hok as [_ _ (sm & Hsm & Hv & _)].
    unfold rx_semaphore_wait. erewrite bind_run by apply enter_run. step. step.
    cbn [sem_curr_val set_sem_curr_val]. rewrite Hv, decide_False, decide_True by (vm_compute; congruence).
    step. erewrite bind_run by apply exit_run. by eexists.
  - erewrite bind_run by (eapply post_without_waiter_run; exact Hok). apply IH.
    destruct Hok as [? ? (sm & ? & ? & ?)]. constructor; eauto.
Qed.

Lemma semaphore_post_lost_witness :
  exists s', post_many 3 (Some 8%positive) (sample_sem 0 None) = Done tt s' /\ sem_ok s' 8 0 [] /\
    exists s2, rx_semaphore_wait None (Some 8%positive) OS_NO_WAIT s' = Done E_OS_UNAVAIL s2.
Proof. apply (semaphore_post_lost (sample_sem 0 None) 8 3 None), sample_sem_ok. lia. Defined.

(** ** Timeouts *)

(** When a task's wait for a semaphore times out, [__rx_sem_handler] takes
    it out of the semaphore's queue wherever it stands, gives its unit back, marks
    it with [E_OS_TIMEOUT] and makes it ready; the others keep waiting in
    order. *)
Theorem sem_timeout_leaves_queue s a v wa x wb tx rl :
  sem_ok s a v (wa ++ x :: wb) -> k_tasks s !! x = Some tx ->
  ready_queue (k_tasks s) (k_ready s) rl ->
  exists s' tx',
    __rx_sem_handler (Some x) s = Done tt s' /\ sem_ok s' a (v + 1) (wa ++ wb) /\
    ready_queue (k_tasks s') (k_ready s') (ins (k_tasks s) (t_prio tx) x rl) /\
    k_tasks s' !! x = Some tx' /\ t_state tx' = RX_TASK_READY /\ t_sem tx' = None /\
    t_timer tx' = None /\ t_timeout tx' = E_OS_TIMEOUT.
Proof.
  intros [Hr Hn (sm & Hsm & <- & Hw)] Hx Hq.
  pose proof (waiting_disjoint _ _ _ _ _ _ Hw Hq) as Hdis.
  assert (Hxin : x ∈ wa ++ x :: wb) by (apply elem_of_app; right; left).
  pose proof (nodup_mid _ _ _ (chain_NoDup _ _ _ _ (wt_chain _ _ _ _ Hw))) as Hxn.
  destruct (wt_states _ _ _ _ Hw x tx Hxin Hx) as [_ [_ Hxs]].
  edestruct (dequeue_from_run (T:=semaphore) (waits_sem a) ltac:(done) s a sm wa x wb tx)
    as (ts1 & h' & E1 & Hw1 & Hr1); [exact Hsm|exact Hx|exact Hw|].
  assert (Hwa : forall y, y ∈ wa -> y ∈ wa ++ x :: wb) by (intros y ?; apply elem_of_app; by left).
  assert (Hx1 : ts1 !! x = Some tx).
  { rewrite (relinked_out _ _ _ x Hr1); [done|]. intros ?. apply Hxn, elem_of_app. by left. }
  assert (Hq1 : ready_queue ts1 (k_ready s) rl).
  { eapply ready_queue_relinked; [exact Hr1|exact Hq|by left| |eapply relinked_sorted; [exact Hr1|apply Hq]].
    eapply relinked_seg; [exact Hr1| |apply Hq]. intros y Hy Hya. apply (Hdis y); auto. }
  unfold __rx_sem_handler. step. rewrite Hxs. erewrite bind_run by exact E1.
  cbn [set_store store_of sem_store ws_set sem_waiters]. do 4 step. rewrite !insert_insert_eq.
  set (tx1 := set_t_state RX_TASK_READY _).
  match goal with |- context [bind (__rx_add_to_ready_q _) _ ?st] => set (s1 := st) end.
  destruct (make_ready s1 ts1 rl x tx1) as (ts2 & n & E2 & Hq2 & Hr2 & Hx2);
    [done|by apply Hdis|by left|done|].
  erewrite bind_run by exact E2. unfold rq_upd. erewrite modify_run by lk.
  assert (Hi : ins ts1 (t_prio tx1) x rl = ins (k_tasks s) (t_prio tx) x rl).
  { apply ins_ext. intros y _. by rewrite (relinked_prio _ _ _ _ Hr1). }
  rewrite Hi in *.
  assert (Hsub : forall y, y ∈ wa ++ wb -> y ∈ wa ++ x :: wb).
  { intros y. rewrite !elem_of_app, elem_of_cons. tauto. }
  eexists _, _. split_and!; [reflexivity|constructor| |apply lookup_insert_eq|done..].
  - rewrite length_app in Hn. simpl in Hn. lia.
  - rewrite length_app in Hn |- *. simpl in Hn. lia.
  - eexists. split; [apply lookup_insert_eq|]. split.
    { cbn. rewrite s32_small; rewrite length_app in Hn; simpl in Hn; lia. }
    cbn. apply waiting_insert; [done|]. eapply waiting_relinked; [exact Hr2| |by apply waiting_insert].
    intros y Hy [->|Hy']%elem_of_cons; [done|]. by apply (Hdis y); auto.
  - norm. eapply ready_queue_in; [exact Hx2|done..|exact Hq2].
Qed.

Lemma sem_timeout_leaves_queue_witness :
  exists s' tx',
    __rx_sem_handler (Some 4%positive) sample_post = Done tt s' /\ sem_ok s' 8 (-1 + 1) [] /\
    ready_queue (k_tasks s') (k_ready s') (ins (k_tasks sample_post) 2 4 [1; 2; 3]%positive) /\
    k_tasks s' !! 4%positive = Some tx' /\ t_state tx' = RX_TASK_READY /\ t_sem tx' = None /\
    t_timer tx' = None /\ t_timeout tx' = E_OS_TIMEOUT.
Proof.
  apply (sem_timeout_leaves_queue sample_post 8 (-1) [] 4 []
    (set_t_sem (Some 8%positive) (task 2 RX_TASK_SUSPEND None)) [1; 2; 3]%positive);
    [apply sample_post_ok|reflexivity|by apply ready_queueb_ok; vm_compute].
Defined.
