(* ===== verification/Queue.v ===== *)
(** * Message queues (src/kernel/rx_queue.c)

    A queue keeps messages of a fixed size in a ring of blocks between [start]
    and the block after the last one; [head] is the next block to write, [tail]
    the next one to read.  Several tasks may wait to write, one to read. *)

From stdpp Require Import base gmap list sorting.
From Stdlib Require Import ZArith Lia.
From S2P Require Import Prelude Mem State Samples Chains Port ReadyQueue Sched TaskQueue Task Timer.
#[local] Open Scope Z_scope.
#[local] Open Scope rosx_scope.

Definition RX_QUEUE_FULL : Z := 1.
Definition RX_QUEUE_EMPTY : Z := Z.lnot RX_QUEUE_FULL.
Definition RX_Q_CYCLIC_FULL : Z := 2.
Definition RX_Q_BLOCK : Z := 8.
Definition RX_Q_NAME_SIZE : nat := 8.

(** [flag & bit]. *)
Definition flag_on (flag bit : Z) : bool := negb (Z.land flag bit =? 0).

(** A function of the C library that changes memory. *)
Definition in_mem (f : mem -> option mem) : M unit := fun s =>
  match f (k_mem s) with
  | Some m => Done tt (set_k_mem m s)
  | None => Crash BadAddr
  end.

(** [strncpy(old, name, 8)] of src/lib/string.c: no padding. *)
Definition strncpy_name (name old : list Z) : list Z :=
  let n := take RX_Q_NAME_SIZE (name ++ [0]) in n ++ drop (length n) old.

Definition rx_create_queue (mq : ptr) (name : list Z) (size_of_block num_of_blocks queue_start flag : Z)
  : M Z :=
  if decide (size_of_block > 64 \/ size_of_block <= 0 \/ num_of_blocks = 0) then
    pr_error ;;;
    ret OS_ERR
  else
    on_mq mq (fun q => set_mq_name (strncpy_name name (mq_name q)) q) ;;;
    on_mq mq (set_mq_start queue_start) ;;;
    on_mq mq (set_mq_size_of_block size_of_block) ;;;
    on_mq mq (set_mq_num_of_blocks num_of_blocks) ;;;
    on_mq mq (fun q => set_mq_head (mq_start q) (set_mq_tail (mq_start q) q)) ;;;
    on_mq mq (fun q => set_mq_flag (Z.lor (mq_flag q) (Z.land RX_QUEUE_EMPTY flag)) q) ;;;
    on_mq mq (fun q => set_mq_write_task None (set_mq_read_task None q)) ;;;
    ret OS_OK.

(** The first waiting writer leaves the queue and becomes ready; [cancel] ends
    its timer. *)
Definition wake_writer (cancel : ptr -> M unit) (mq : ptr) : M unit :=
  let! q := ld_mq mq in
  let ready := mq_write_task q in
  cancel ready ;;;
  on_task ready (set_t_state RX_TASK_READY) ;;;
  on_task ready (set_t_mq None) ;;;
  let! t := ld_task ready in
  on_mq mq (set_mq_write_task (t_next t)) ;;;
  let! _ := __rx_add_to_ready_q ready in
  ret tt.

Definition wake_reader (cancel : ptr -> M unit) (mq : ptr) : M unit :=
  let! q := ld_mq mq in
  let ready := mq_read_task q in
  cancel ready ;;;
  on_task ready (set_t_state RX_TASK_READY) ;;;
  on_task ready (set_t_mq None) ;;;
  let! _ := __rx_add_to_ready_q ready in
  ret tt.

Fixpoint delete_queue_loop (fuel : nat) (mq : ptr) : M unit :=
  match fuel with
  | O => crash NoFuel
  | S fuel =>
    let! q := ld_mq mq in
    match mq_write_task q with
    | None => ret tt
    | Some _ =>
      wake_writer stop_task_timer mq ;;;
      delete_queue_loop fuel mq
    end
  end.

(** The function returns inside its critical section. *)
Definition rx_delete_queue (mq : ptr) : M Z :=
  let! imask := rx_enter_critical in
  let! fuel := gets task_fuel in
  delete_queue_loop fuel mq ;;;
  let! q := ld_mq mq in
  (match mq_read_task q with
   | Some _ => wake_reader stop_task_timer mq
   | None => ret tt
   end) ;;;
  ret OS_OK.

(** The next block of the ring after the one at [p]. *)
Definition next_block (q : msg_queue) (p : Z) : Z :=
  if decide (p + mq_size_of_block q > mq_start q + mq_size_of_block q * mq_num_of_blocks q)
  then mq_start q
  else p + mq_size_of_block q.

(** [(mq->head == mq->tail) && !(mq->flag & RX_QUEUE_FULL)]. *)
Definition queue_empty (q : msg_queue) : bool :=
  bool_decide (mq_head q = mq_tail q) && negb (flag_on (mq_flag q) RX_QUEUE_FULL).

(** A reader waits for a message.  [Some r] is an early return of [r], [None]
    goes on to read the message.  A [timeout] of 0 waits without limit. *)
Definition read_wait (timer mq : ptr) (timeout imask : Z) : M (option Z) :=
  let! curr := gets k_curr in
  if decide (timeout = 0) then
    on_mq mq (set_mq_read_task curr) ;;;
    on_task curr (set_t_state RX_TASK_SUSPEND) ;;;
    on_task curr (set_t_err OS_OK) ;;;
    let! _ := __rx_remove_from_ready_q curr in
    rx_exit_critical imask ;;;
    rx_sched ;;;
    let! imask := rx_enter_critical in
    let! curr := gets k_curr in
    let! t := ld_task curr in
    if decide (t_err t <> 0) then
      rx_exit_critical imask ;;;
      ret (Some (t_err t))
    else ret None
  else
    on_mq mq (set_mq_read_task curr) ;;;
    let! jiffies := gets k_jiffies in
    rx_exit_critical imask ;;;
    let! _ := __rx_add_timer timer None (s32 (timeout + jiffies)) curr in
    let! imask := rx_enter_critical in
    let! q := ld_mq mq in
    if queue_empty q then
      rx_exit_critical imask ;;;
      ret (Some E_OS_TIMEOUT)
    else ret None.

(** The message at [tail] is copied out and a waiting writer woken up. *)
Definition read_take (mq : ptr) (msg_buffer : Z) (imask : Z) : M Z :=
  let! q := ld_mq mq in
  in_mem (memcpy msg_buffer (mq_tail q) (Z.to_nat (mq_size_of_block q))) ;;;
  on_mq mq (fun q => set_mq_tail (next_block q (mq_tail q)) q) ;;;
  let! q := ld_mq mq in
  (if decide (mq_head q = mq_tail q)
   then on_mq mq (fun q => set_mq_flag (Z.land (mq_flag q) RX_QUEUE_EMPTY) q) else ret tt) ;;;
  let! q := ld_mq mq in
  (match mq_write_task q with
   | Some _ => wake_writer drop_task_timer mq
   | None => ret tt
   end) ;;;
  rx_exit_critical imask ;;;
  ret OS_OK.

Definition rx_read_from_queue (timer mq : ptr) (msg_buffer size timeout : Z) : M Z :=
  match mq with
  | None =>
    pr_error ;;;
    ret OS_ERR
  | Some _ =>
    let! q := ld_mq mq in
    if decide (msg_buffer = 0 \/ size <> mq_size_of_block q) then
      pr_error ;;;
      ret OS_ERR
    else
      let! imask := rx_enter_critical in
      if decide (mq_read_task q <> None) then
        rx_exit_critical imask ;;;
        ret E_OS_BUSY
      else if queue_empty q then
        if flag_on (mq_flag q) RX_Q_BLOCK then
          let! r := read_wait timer mq timeout imask in
          match r with
          | Some e => ret e
          | None => read_take mq msg_buffer imask
          end
        else
          rx_exit_critical imask ;;;
          ret E_OS_UNAVAIL
      else read_take mq msg_buffer imask
  end.

(** The queue is full and a writer is allowed to wait. *)
Definition write_wait (timer mq : ptr) (timeout imask : Z) : M (option Z) :=
  let! curr := gets k_curr in
  on_task curr (set_t_state RX_TASK_SUSPEND) ;;;
  on_task curr (set_t_err OS_OK) ;;;
  let! _ := __rx_remove_from_ready_q curr in
  let! q := ld_mq mq in
  (match mq_write_task q with
   | None => on_mq mq (set_mq_write_task curr)
   | Some _ => append_task (mq_write_task q) curr
   end) ;;;
  if decide (timeout = 0) then
    rx_exit_critical imask ;;;
    rx_sched ;;;
    let! imask := rx_enter_critical in
    let! curr := gets k_curr in
    let! t := ld_task curr in
    if decide (t_err t <> 0) then
      rx_exit_critical imask ;;;
      ret (Some (t_err t))
    else ret None
  else
    let! jiffies := gets k_jiffies in
    rx_exit_critical imask ;;;
    let! _ := __rx_add_timer timer None (s32 (timeout + jiffies)) curr in
    let! imask := rx_enter_critical in
    let! q := ld_mq mq in
    if bool_decide (mq_head q = mq_tail q) && flag_on (mq_flag q) RX_QUEUE_FULL then
      rx_exit_critical imask ;;;
      ret (Some E_OS_TIMEOUT)
    else ret None.

(** The message is copied to [head] and the waiting reader woken up. *)
Definition write_put (mq : ptr) (msg_buffer : Z) (imask : Z) : M Z :=
  let! q := ld_mq mq in
  in_mem (memcpy (mq_head q) msg_buffer (Z.to_nat (mq_size_of_block q))) ;;;
  on_mq mq (fun q => set_mq_head (next_block q (mq_head q)) q) ;;;
  let! q := ld_mq mq in
  (if decide (mq_head q = mq_tail q)
   then on_mq mq (fun q => set_mq_flag (Z.lor (mq_flag q) RX_QUEUE_FULL) q) else ret tt) ;;;
  let! q := ld_mq mq in
  (match mq_read_task q with
   | Some _ =>
     wake_reader drop_task_timer mq ;;;
     on_mq mq (set_mq_read_task None)
   | None => ret tt
   end) ;;;
  rx_exit_critical imask ;;;
  ret OS_OK.

Definition rx_write_to_queue (timer mq : ptr) (msg_buffer size timeout : Z) : M Z :=
  match mq with
  | None =>
    pr_error ;;;
    ret OS_ERR
  | Some _ =>
    let! q := ld_mq mq in
    if decide (msg_buffer = 0 \/ size <> mq_size_of_block q) then
      pr_error ;;;
      ret OS_ERR
    else
      let! imask := rx_enter_critical in
      if bool_decide (mq_head q = mq_tail q) && flag_on (mq_flag q) RX_QUEUE_FULL
         && negb (flag_on (mq_flag q) RX_Q_CYCLIC_FULL) then
        if flag_on (mq_flag q) RX_Q_BLOCK then
          let! r := write_wait timer mq timeout imask in
          match r with
          | Some e => ret e
          | None => write_put mq msg_buffer imask
          end
        else
          pr_error ;;;
          rx_exit_critical imask ;;;
          ret E_OS_UNAVAIL
      else write_put mq msg_buffer imask
  end.

(** ** The ring

    The test for the end of the buffer lets [head] and [tail] reach the block
    behind the last one: the ring has [num_of_blocks + 1] places. *)

Definition places (q : msg_queue) : Z := mq_num_of_blocks q + 1.

(** The address of the [k]th place, counted round the ring. *)
Definition place (q : msg_queue) (k : Z) : Z :=
  mq_start q + mq_size_of_block q * (k mod places q).

(** The messages [msgs], oldest first, are in the ring from place [t] on. *)
Record ring_data (m : mem) (q : msg_queue) (t : Z) (msgs : list (list Z)) : Prop := {
  r_size : 0 < mq_size_of_block q;
  r_num : 1 <= mq_num_of_blocks q;
  r_tail : mq_tail q = place q t;
  r_head : mq_head q = place q (t + Z.of_nat (length msgs));
  r_len : Z.of_nat (length msgs) <= places q;
  r_mapped : mapped m (mq_start q) (Z.to_nat (mq_size_of_block q * places q));
  r_msgs : forall i msg, msgs !! i = Some msg ->
    Z.of_nat (length msg) = mq_size_of_block q /\ bytes msg /\
    block m (place q (t + Z.of_nat i)) msg;
}.

(** When the ends meet, [RX_QUEUE_FULL] tells a full ring from an empty one. *)
Record ring (m : mem) (q : msg_queue) (t : Z) (msgs : list (list Z)) : Prop := {
  r_data : ring_data m q t msgs;
  r_flag : mq_head q = mq_tail q -> (flag_on (mq_flag q) RX_QUEUE_FULL = true <-> msgs <> []);
}.

Definition queue_rep (s : kst) (a : positive) (msgs : list (list Z)) : Prop :=
  exists q t, k_mqs s !! a = Some q /\ ring (k_mem s) q t msgs.

(** A buffer of one message outside the places of the ring. *)
Definition outside (q : msg_queue) (buf : Z) : Prop :=
  buf + mq_size_of_block q <= mq_start q \/
  mq_start q + mq_size_of_block q * places q <= buf.

Lemma mod_inj K a b : 0 < K -> a mod K = b mod K -> Z.abs (a - b) < K -> a = b.
Proof.
  intros HK He Hab. pose proof (Z.div_mod a K ltac:(lia)) as Ha.
  pose proof (Z.div_mod b K ltac:(lia)) as Hb. rewrite He in Ha.
  assert (a - b = K * (a / K - b / K)) by lia.
  assert (a / K - b / K = 0) by nia. lia.
Qed.

Lemma place_range q k :
  1 <= mq_num_of_blocks q -> 0 < mq_size_of_block q ->
  exists j, 0 <= j < places q /\ j = k mod places q /\
    place q k = mq_start q + mq_size_of_block q * j.
Proof.
  intros Hn Hs. exists (k mod places q). unfold place, places.
  pose proof (Z.mod_pos_bound k (mq_num_of_blocks q + 1) ltac:(lia)). done.
Qed.

Lemma next_place q k :
  1 <= mq_num_of_blocks q -> 0 < mq_size_of_block q ->
  next_block q (place q k) = place q (k + 1).
Proof.
  intros Hn Hs. destruct (place_range q k Hn Hs) as (j & Hj & Ej & ->). unfold next_block, place.
  unfold places in *. rewrite <- (Z.add_mod_idemp_l k 1) by lia. rewrite <- Ej.
  case_decide as Hd.
  - assert (j = mq_num_of_blocks q) as -> by nia. rewrite Z.mod_same by lia. lia.
  - assert (j < mq_num_of_blocks q) by nia. rewrite Z.mod_small by lia. lia.
Qed.

(** Different places do not overlap. *)
Lemma place_apart q i j :
  1 <= mq_num_of_blocks q -> 0 < mq_size_of_block q -> i <> j -> Z.abs (i - j) < places q ->
  place q i + mq_size_of_block q <= place q j \/ place q j + mq_size_of_block q <= place q i.
Proof.
  intros Hn Hs Hij Hab. unfold place.
  assert (i mod places q <> j mod places q).
  { intros He. apply Hij. apply (mod_inj (places q)); [unfold places; lia|done|done]. }
  nia.
Qed.

Lemma place_outside q buf k :
  1 <= mq_num_of_blocks q -> 0 < mq_size_of_block q -> outside q buf ->
  buf + mq_size_of_block q <= place q k \/ place q k + mq_size_of_block q <= buf.
Proof.
  intros Hn Hs Ho. destruct (place_range q k Hn Hs) as (j & Hj & _ & ->).
  unfold outside, places in *. nia.
Qed.

Lemma place_mapped m q k :
  1 <= mq_num_of_blocks q -> 0 < mq_size_of_block q ->
  mapped m (mq_start q) (Z.to_nat (mq_size_of_block q * places q)) ->
  mapped m (place q k) (Z.to_nat (mq_size_of_block q)).
Proof.
  intros Hn Hs Hm j Hj. destruct (place_range q k Hn Hs) as (i & Hi & _ & ->).
  replace (mq_start q + mq_size_of_block q * i + Z.of_nat j)
    with (mq_start q + Z.of_nat (Z.to_nat (mq_size_of_block q * i + Z.of_nat j))) by lia.
  apply Hm. unfold places in *. nia.
Qed.

(** The two ends meet when the ring is empty or full. *)
Lemma ends_meet q t n :
  1 <= mq_num_of_blocks q -> 0 < mq_size_of_block q -> 0 <= n <= places q ->
  place q (t + n) = place q t <-> n = 0 \/ n = places q.
Proof.
  intros Hn Hs Hr. unfold place. split.
  - intros He. assert (Hm : (t + n) mod places q = t mod places q) by nia.
    destruct (decide (n = places q)); [by right|left].
    apply (mod_inj (places q)) in Hm; [lia|unfold places; lia|lia].
  - intros [->| ->]; [by rewrite Z.add_0_r|].
    rewrite <- (Z.mul_1_l (places q)) at 1. rewrite Z.mod_add by (unfold places; lia). done.
Qed.

Lemma flag_on_set f : flag_on (Z.lor f RX_QUEUE_FULL) RX_QUEUE_FULL = true.
Proof.
  unfold flag_on. apply negb_true_iff, Z.eqb_neq. intros H.
  apply (f_equal (fun z => Z.testbit z 0)) in H. rewrite Z.land_spec, Z.lor_spec in H.
  by rewrite orb_true_r in H.
Qed.

Lemma flag_on_clear f : flag_on (Z.land f RX_QUEUE_EMPTY) RX_QUEUE_FULL = false.
Proof.
  unfold flag_on. rewrite <- Z.land_assoc. change (Z.land RX_QUEUE_EMPTY _) with 0.
  by rewrite Z.land_0_r.
Qed.

(** The queue's record after a message has been written, or read. *)
Definition after_write (q : msg_queue) : msg_queue :=
  let q := set_mq_head (next_block q (mq_head q)) q in
  if decide (mq_head q = mq_tail q) then set_mq_flag (Z.lor (mq_flag q) RX_QUEUE_FULL) q else q.

Definition after_read (q : msg_queue) : msg_queue :=
  let q := set_mq_tail (next_block q (mq_tail q)) q in
  if decide (mq_head q = mq_tail q) then set_mq_flag (Z.land (mq_flag q) RX_QUEUE_EMPTY) q else q.

Lemma ring_write m q t msgs msg :
  ring_data m q t msgs -> Z.of_nat (length msgs) < places q ->
  Z.of_nat (length msg) = mq_size_of_block q -> bytes msg ->
  ring (store_list m (mq_head q) msg) (after_write q) t (msgs ++ [msg]).
Proof.
  intros [Hs Hn Ht Hh Hlen Hm Hmsgs] Hroom Hlm Hby.
  assert (Hh' : mq_head (after_write q) = place q (t + Z.of_nat (length (msgs ++ [msg])))).
  { unfold after_write. rewrite Hh, next_place by done. rewrite length_app. simpl.
    case_decide; cbn; f_equal; lia. }
  assert (Ht' : mq_tail (after_write q) = place q t) by (unfold after_write; by case_decide).
  assert (Hp : forall k, place (after_write q) k = place q k)
    by (intros; unfold after_write; by case_decide).
  constructor; [constructor; try (unfold after_write; case_decide; done)|].
  - by rewrite Hp.
  - replace (places (after_write q)) with (places q) by (unfold after_write; by case_decide).
    rewrite length_app. simpl. lia.
  - replace (mq_start (after_write q)) with (mq_start q) by (unfold after_write; by case_decide).
    replace (mq_size_of_block (after_write q)) with (mq_size_of_block q)
      by (unfold after_write; by case_decide).
    replace (places (after_write q)) with (places q) by (unfold after_write; by case_decide).
    by apply store_list_mapped.
  - intros i x Hi. rewrite Hp.
    replace (mq_size_of_block (after_write q)) with (mq_size_of_block q)
      by (unfold after_write; by case_decide).
    apply lookup_app_Some in Hi as [Hi|[Hge Hi]].
    + destruct (Hmsgs i x Hi) as (Hl & Hb & Hbl). split_and!; [done..|].
      apply lookup_lt_Some in Hi. apply store_list_keeps; [|done]. rewrite Hh.
      destruct (place_apart q (t + Z.of_nat i) (t + Z.of_nat (length msgs))) as [?|?]; lia.
    + apply list_lookup_singleton_Some in Hi as [Hi <-].
      replace (t + Z.of_nat i) with (t + Z.of_nat (length msgs)) by lia.
      split_and!; [done..|]. rewrite Hh. apply store_list_block.
  - intros He. split; [intros _ ?; by destruct msgs|intros _].
    revert He. unfold after_write. case_decide; [intros _; apply flag_on_set|done].
Qed.

Lemma ring_read m m' q t msg msgs :
  ring m q t (msg :: msgs) ->
  mapped m' (mq_start q) (Z.to_nat (mq_size_of_block q * places q)) ->
  (forall x k, mq_start q <= x < mq_start q + mq_size_of_block q * places q ->
    m !! x = Some k -> m' !! x = Some k) ->
  ring m' (after_read q) (t + 1) msgs.
Proof.
  intros [[Hs Hn Ht Hh Hlen Hm Hmsgs] _] Hm' Hsame.
  assert (Hh' : mq_head (after_read q) = place q (t + 1 + Z.of_nat (length msgs))).
  { unfold after_read. case_decide; cbn; rewrite Hh; f_equal; simpl; lia. }
  assert (Ht' : mq_tail (after_read q) = place q (t + 1)).
  { unfold after_read. rewrite Ht, next_place by done. by case_decide. }
  assert (Hp : forall k, place (after_read q) k = place q k)
    by (intros; unfold after_read; by case_decide).
  simpl in Hlen.
  constructor; [constructor; try (unfold after_read; case_decide; done)|].
  - by rewrite Hp.
  - by rewrite Hp.
  - replace (places (after_read q)) with (places q) by (unfold after_read; by case_decide). lia.
  - intros i x Hi. rewrite Hp.
    replace (mq_size_of_block (after_read q)) with (mq_size_of_block q)
      by (unfold after_read; by case_decide).
    destruct (Hmsgs (S i) x Hi) as (Hl & Hb & Hbl). split_and!; [done..|].
    replace (t + 1 + Z.of_nat i) with (t + Z.of_nat (S i)) by lia.
    intros j b Hj. apply Hsame; [|by apply Hbl]. apply lookup_lt_Some in Hj.
    destruct (place_range q (t + Z.of_nat (S i)) Hn Hs) as (k & Hk & _ & ->).
    unfold places in *. nia.
  - intros He. rewrite Hh', Ht' in He. apply ends_meet in He; [|done|done|lia].
    destruct He as [He|He]; [|lia]. assert (msgs = []) as -> by (apply nil_length_inv; lia).
    split; [|done]. unfold after_read. case_decide as Hd.
    { cbn [mq_flag set_mq_flag]. by rewrite flag_on_clear. }
    exfalso. apply Hd. cbn. rewrite Ht, next_place by done. rewrite Hh. done.
Qed.

(** ** Writing and reading *)

Lemma bind_in_mem {B} f m (k : unit -> M B) s :
  f (k_mem s) = Some m -> bind (in_mem f) k s = k tt (set_k_mem m s).
Proof. intros E. unfold bind, in_mem. by rewrite E. Qed.

Lemma flag_step_run s a q g :
  k_mqs s !! a = Some q ->
  (if decide (mq_head q = mq_tail q) then on_mq (Some a) g else ret tt) s
    = Done tt (set_k_mqs
        (<[a := if decide (mq_head q = mq_tail q) then g q else q]> (k_mqs s)) s).
Proof.
  intros Ha. case_decide.
  - by erewrite modify_run by lk.
  - rewrite insert_id by done. by destruct s.
Qed.

(** A suspended task outside the ready queue, whose timer can be ended. *)
Definition wakeable (s : kst) (rl : list positive) (x : ptr) : Prop :=
  forall r, x = Some r -> exists tr, k_tasks s !! r = Some tr /\ r ∉ rl /\ timer_stoppable s tr.

(** The ready queue once the task [x], if any, has been woken up. *)
Definition woken (ts : gmap positive tcb) (x : ptr) (rl : list positive) : list positive :=
  match x with
  | None => rl
  | Some r => ins ts (prio ts r) r rl
  end.

(** The reader, if any, is READY and keeps its error code. *)
Definition reader_woken (s s' : kst) (x : ptr) : Prop :=
  forall r tr, x = Some r -> k_tasks s !! r = Some tr ->
    exists tr', k_tasks s' !! r = Some tr' /\ t_state tr' = RX_TASK_READY /\ t_err tr' = t_err tr.

Lemma wake_reader_run s a q r rl :
  k_mqs s !! a = Some q -> mq_read_task q = Some r ->
  ready_queue (k_tasks s) (k_ready s) rl -> wakeable s rl (Some r) ->
  exists s', wake_reader drop_task_timer (Some a) s = Done tt s' /\
    k_mqs s' = k_mqs s /\ k_mem s' = k_mem s /\
    ready_queue (k_tasks s') (k_ready s') (woken (k_tasks s) (Some r) rl) /\
    reader_woken s s' (Some r).
Proof.
  intros Ha Hr Hq Hw. destruct (Hw r eq_refl) as (tr & Htr & Hni & Hst).
  unfold wake_reader. step. rewrite Hr.
  destruct (drop_task_timer_run s r tr Htr Hst) as (tms & th & cr & E).
  erewrite bind_run by exact E. unfold tm_st. do 2 step. rewrite !insert_insert_eq.
  set (tr' := set_t_mq None _).
  match goal with |- context [bind (__rx_add_to_ready_q _) _ ?st] => set (s1 := st) end.
  destruct (make_ready s1 (k_tasks s) rl r tr') as (ts2 & n & E2 & Hq2 & _ & Hr2);
    [done|done|by left|done|].
  erewrite bind_run by exact E2. eexists. split; [reflexivity|].
  cbn [woken]. rewrite (prio_lookup _ _ _ Htr).
  split_and!; [done|done|exact Hq2|]. intros r' tr0 [= <-] Htr0. eexists. split; [exact Hr2|].
  split; [done|]. by simplify_eq.
Qed.

Lemma write_put_run s a q t msgs msg buf imask rl :
  k_mqs s !! a = Some q -> ring_data (k_mem s) q t msgs ->
  Z.of_nat (length msgs) < places q -> Z.of_nat (length msg) = mq_size_of_block q ->
  bytes msg -> block (k_mem s) buf msg -> outside q buf ->
  ready_queue (k_tasks s) (k_ready s) rl -> wakeable s rl (mq_read_task q) ->
  exists s' q', write_put (Some a) buf imask s = Done OS_OK s' /\
    k_mqs s' !! a = Some q' /\ mq_read_task q' = None /\
    ring (k_mem s') q' t (msgs ++ [msg]) /\
    ready_queue (k_tasks s') (k_ready s') (woken (k_tasks s) (mq_read_task q) rl) /\
    reader_woken s s' (mq_read_task q) /\ k_mem s' = store_list (k_mem s) (mq_head q) msg /\
    q' = set_mq_read_task None (after_write q).
Proof.
  intros Ha Hring Hroom Hlm Hby Hb Ho Hq Hw. pose proof Hring as [Hs Hn Ht Hh _ Hm _].
  assert (Hcpy : memcpy (mq_head q) buf (Z.to_nat (mq_size_of_block q)) (k_mem s)
    = Some (store_list (k_mem s) (mq_head q) msg)).
  { replace (Z.to_nat (mq_size_of_block q)) with (length msg) by lia.
    apply memcpy_run; [done|done| |].
    - rewrite Hh. replace (length msg) with (Z.to_nat (mq_size_of_block q)) by lia.
      by apply place_mapped.
    - rewrite Hh. unfold apart. destruct (place_outside q buf (t + Z.of_nat (length msgs)) Hn Hs Ho); lia. }
  unfold write_put. step. erewrite bind_in_mem by exact Hcpy. step. step.
  erewrite bind_run by (apply flag_step_run; lk). norm. rewrite insert_insert_eq.
  set (q' := if decide _ then _ else _).
  change q' with (after_write q). clear q'. step.
  assert (Hrt : mq_read_task (after_write q) = mq_read_task q) by (unfold after_write; by case_decide).
  rewrite Hrt. pose proof (ring_write _ _ _ _ _ Hring Hroom Hlm Hby) as Hring'.
  match goal with |- context [bind (if mq_read_task q then _ else _) _ ?st] => set (s1 := st) end.
  destruct (mq_read_task q) as [r|] eqn:Er.
  - destruct (wake_reader_run s1 a (after_write q) r rl) as (s2 & E2 & Emq & Emem & Hq2 & Hrw);
      [apply lookup_insert_eq|done|done|done|].
    step. erewrite bind_run by exact E2. erewrite modify_run by (cbn; rewrite Emq; apply lookup_insert_eq).
    cbn [obind]. erewrite bind_run by apply exit_run. eexists _, _.
    split_and!; [reflexivity|apply lookup_insert_eq|done| |exact Hq2|exact Hrw|exact Emem|done].
    norm. rewrite Emem. destruct Hring' as [[] ?]. constructor; [by constructor|done].
  - step. erewrite bind_run by apply exit_run. eexists _, _.
    split_and!; [reflexivity|apply lookup_insert_eq|done|done|done| |done|]; [by intros r tr [=]|].
    destruct (after_write q) eqn:Ew. cbn in Hrt |- *. by rewrite Hrt.
Qed.

Lemma wake_writer_run s a q w rl :
  k_mqs s !! a = Some q -> mq_write_task q = Some w ->
  ready_queue (k_tasks s) (k_ready s) rl -> wakeable s rl (Some w) ->
  exists s', wake_writer drop_task_timer (Some a) s = Done tt s' /\
    k_mqs s' = <[a := set_mq_write_task (k_tasks s !! w ≫= t_next) q]> (k_mqs s) /\ k_mem s' = k_mem s /\
    ready_queue (k_tasks s') (k_ready s') (woken (k_tasks s) (Some w) rl) /\
    reader_woken s s' (Some w).
Proof.
  intros Ha Hr Hq Hw. destruct (Hw w eq_refl) as (tr & Htr & Hni & Hst).
  unfold wake_writer. step. rewrite Hr.
  destruct (drop_task_timer_run s w tr Htr Hst) as (tms & th & cr & E).
  erewrite bind_run by exact E. unfold tm_st. do 4 step. rewrite !insert_insert_eq.
  set (tr' := set_t_mq None _).
  match goal with |- context [bind (__rx_add_to_ready_q _) _ ?st] => set (s1 := st) end.
  destruct (make_ready s1 (k_tasks s) rl w tr') as (ts2 & n & E2 & Hq2 & _ & Hr2);
    [done|done|by left|done|].
  erewrite bind_run by exact E2. eexists. split; [reflexivity|].
  cbn [woken]. rewrite (prio_lookup _ _ _ Htr), Htr. split_and!; [reflexivity|done|exact Hq2|].
  intros r' tr0 [= <-] Htr0. eexists. split; [exact Hr2|]. split; [done|]. by simplify_eq.
Qed.

Lemma store_list_same m a l x k :
  x < a \/ a + Z.of_nat (length l) <= x -> m !! x = Some k -> store_list m a l !! x = Some k.
Proof. intros Hx Hk. by rewrite store_list_out. Qed.

(** The writer that waits behind the first one. *)
Definition next_writer (s : kst) (q : msg_queue) : ptr := w ← mq_write_task q; k_tasks s !! w ≫= t_next.

Lemma read_take_run s a q t msg msgs buf imask rl :
  k_mqs s !! a = Some q -> ring (k_mem s) q t (msg :: msgs) ->
  mapped (k_mem s) buf (length msg) -> outside q buf ->
  ready_queue (k_tasks s) (k_ready s) rl -> wakeable s rl (mq_write_task q) ->
  exists s' q', read_take (Some a) buf imask s = Done OS_OK s' /\
    k_mqs s' !! a = Some q' /\ mq_read_task q' = mq_read_task q /\
    ring (k_mem s') q' (t + 1) msgs /\ block (k_mem s') buf msg /\
    ready_queue (k_tasks s') (k_ready s') (woken (k_tasks s) (mq_write_task q) rl) /\
    reader_woken s s' (mq_write_task q) /\ k_mem s' = store_list (k_mem s) buf msg /\
    q' = set_mq_write_task (next_writer s q) (after_read q).
Proof.
  intros Ha Hring Hmb Ho Hq Hw. pose proof Hring as [[Hs Hn Ht Hh _ Hm Hmsgs] _].
  destruct (Hmsgs 0%nat msg eq_refl) as (Hlm & Hby & Hb). rewrite Z.add_0_r in Hb.
  pose proof (place_outside q buf t Hn Hs Ho) as Hap.
  assert (Hcpy : memcpy buf (mq_tail q) (Z.to_nat (mq_size_of_block q)) (k_mem s)
    = Some (store_list (k_mem s) buf msg)).
  { replace (Z.to_nat (mq_size_of_block q)) with (length msg) by lia.
    rewrite Ht. apply memcpy_run; [done|done|done|]. unfold apart. lia. }
  assert (Hring' : ring (store_list (k_mem s) buf msg) (after_read q) (t + 1) msgs).
  { eapply ring_read; [exact Hring|by apply store_list_mapped|].
    intros x k Hx. apply store_list_same. unfold outside in Ho. lia. }
  unfold read_take. step. erewrite bind_in_mem by exact Hcpy. step. step.
  erewrite bind_run by (apply flag_step_run; lk). norm. rewrite insert_insert_eq.
  set (q' := if decide _ then _ else _). change q' with (after_read q). clear q'. step.
  assert (Hwt : mq_write_task (after_read q) = mq_write_task q) by (unfold after_read; by case_decide).
  assert (Hrt : mq_read_task (after_read q) = mq_read_task q) by (unfold after_read; by case_decide).
  rewrite Hwt.
  match goal with |- context [bind (if mq_write_task q then _ else _) _ ?st] => set (s1 := st) end.
  destruct (mq_write_task q) as [w|] eqn:Er.
  - destruct (wake_writer_run s1 a (after_read q) w rl) as (s2 & E2 & Emq & Emem & Hq2 & Hrw);
      [apply lookup_insert_eq|done|done|done|].
    erewrite bind_run by exact E2. erewrite bind_run by apply exit_run. eexists _, _.
    split_and!; [reflexivity|norm; rewrite Emq; apply lookup_insert_eq|done|..|exact Hq2|exact Hrw|exact Emem|];
      [..|unfold next_writer; by rewrite Er];
      norm; rewrite Emem; [destruct Hring' as [[] ?]; constructor; [by constructor|done]|apply store_list_block].
  - step. erewrite bind_run by apply exit_run. eexists _, _.
    split_and!; [reflexivity|apply lookup_insert_eq|done|done|apply store_list_block|done|by intros r tr [=]|done|].
    unfold next_writer. rewrite Er. destruct (after_read q) eqn:Ew. cbn in Hwt |- *. by rewrite Hwt.
Qed.

(** The ring depends on the memory of its places only. *)
Lemma ring_frame m m' q t msgs :
  ring m q t msgs ->
  (forall x k, mq_start q <= x < mq_start q + mq_size_of_block q * places q ->
    m !! x = Some k -> m' !! x = Some k) ->
  ring m' q t msgs.
Proof.
  intros [[Hs Hn Ht Hh Hlen Hm Hmsgs] Hf] Hsame. constructor; [constructor; try done|done].
  - intros j Hj. destruct (Hm j Hj) as [k Hk]. exists k. apply Hsame; [|done]. lia.
  - intros i msg Hi. destruct (Hmsgs i msg Hi) as (Hl & Hb & Hbl). split_and!; [done..|].
    intros j b Hj. apply Hsame; [|by apply Hbl]. apply lookup_lt_Some in Hj.
    destruct (place_range q (t + Z.of_nat i) Hn Hs) as (k & Hk & _ & ->). unfold places in *. nia.
Qed.

(** A ring with a free place is not taken for a full one. *)
Lemma room_not_full m q t msgs :
  ring m q t msgs -> Z.of_nat (length msgs) < places q ->
  bool_decide (mq_head q = mq_tail q) && flag_on (mq_flag q) RX_QUEUE_FULL = false.
Proof.
  intros Hring Hroom. case_bool_decide as He; [|done]. simpl.
  destruct (flag_on _ _) eqn:Ef; [|done].
  pose proof Hring as [[Hs Hn Ht Hh _ _ _] Hf]. apply (Hf He) in Ef.
  rewrite Ht, Hh in He. apply ends_meet in He; [|done|done|lia].
  destruct He as [He|He]; [|lia]. by destruct msgs.
Qed.

(** Nor is a ring with a message taken for an empty one. *)
Lemma message_not_empty m q t msg msgs : ring m q t (msg :: msgs) -> queue_empty q = false.
Proof.
  intros [_ Hf]. unfold queue_empty. case_bool_decide as He; [|done].
  destruct (Hf He) as [_ Hf']. rewrite Hf' by done. done.
Qed.

(** Copying a message into the ring, and out of it. *)
Lemma write_copy m q t msgs msg buf :
  ring_data m q t msgs -> Z.of_nat (length msg) = mq_size_of_block q ->
  bytes msg -> block m buf msg -> outside q buf ->
  memcpy (mq_head q) buf (Z.to_nat (mq_size_of_block q)) m = Some (store_list m (mq_head q) msg).
Proof.
  intros [Hs Hn Ht Hh _ Hm _] Hlm Hby Hb Ho.
  replace (Z.to_nat (mq_size_of_block q)) with (length msg) by lia.
  apply memcpy_run; [done|done| |].
  - rewrite Hh. replace (length msg) with (Z.to_nat (mq_size_of_block q)) by lia.
    by apply place_mapped.
  - rewrite Hh. unfold apart. destruct (place_outside q buf (t + Z.of_nat (length msgs)) Hn Hs Ho); lia.
Qed.

Lemma read_copy m q t msg msgs buf :
  ring m q t (msg :: msgs) -> mapped m buf (length msg) -> outside q buf ->
  memcpy buf (mq_tail q) (Z.to_nat (mq_size_of_block q)) m = Some (store_list m buf msg).
Proof.
  intros [[Hs Hn Ht Hh _ Hm Hmsgs] _] Hmb Ho.
  destruct (Hmsgs 0%nat msg eq_refl) as (Hlm & Hby & Hb). rewrite Z.add_0_r in Hb.
  pose proof (place_outside q buf t Hn Hs Ho) as Hap.
  replace (Z.to_nat (mq_size_of_block q)) with (length msg) by lia.
  rewrite Ht. apply memcpy_run; [done|done|done|]. unfold apart. lia.
Qed.

(** The result of a write with no reader waiting, and of a read with no task
    waiting at all. *)
Lemma write_plain_run timer s a q t msgs msg buf timeout :
  k_mqs s !! a = Some q -> ring (k_mem s) q t msgs ->
  Z.of_nat (length msgs) < places q -> Z.of_nat (length msg) = mq_size_of_block q ->
  bytes msg -> block (k_mem s) buf msg -> outside q buf -> buf <> 0 -> mq_read_task q = None ->
  rx_write_to_queue timer (Some a) buf (mq_size_of_block q) timeout s
    = Done OS_OK (set_k_critical (crit_out s) (set_k_mqs (<[a := after_write q]> (k_mqs s))
        (set_k_mem (store_list (k_mem s) (mq_head q) msg) s))).
Proof.
  intros Ha Hring Hroom Hlm Hby Hb Ho Hbuf Hr.
  unfold rx_write_to_queue. step. rewrite decide_False by tauto. erewrite bind_run by apply enter_run.
  rewrite (room_not_full _ _ _ _ Hring Hroom). cbn [andb]. unfold write_put. step.
  erewrite bind_in_mem by (eapply write_copy; [apply Hring|done..]). step. step.
  erewrite bind_run by (apply flag_step_run; lk). norm. rewrite insert_insert_eq.
  set (q' := if decide _ then _ else _). change q' with (after_write q). clear q'. step.
  replace (mq_read_task (after_write q)) with (mq_read_task q) by (unfold after_write; by case_decide).
  rewrite Hr. step. erewrite bind_run by apply exit_run. crit_eq.
Qed.

Lemma read_plain_run timer s a q t msg msgs buf timeout :
  k_mqs s !! a = Some q -> ring (k_mem s) q t (msg :: msgs) -> mapped (k_mem s) buf (length msg) ->
  outside q buf -> buf <> 0 -> mq_read_task q = None -> mq_write_task q = None ->
  rx_read_from_queue timer (Some a) buf (mq_size_of_block q) timeout s
    = Done OS_OK (set_k_critical (crit_out s) (set_k_mqs (<[a := after_read q]> (k_mqs s))
        (set_k_mem (store_list (k_mem s) buf msg) s))).
Proof.
  intros Ha Hring Hm Ho Hbuf Hr Hw.
  unfold rx_read_from_queue. step. rewrite decide_False by tauto. erewrite bind_run by apply enter_run.
  rewrite Hr, decide_False by (intros Hne; by apply Hne).
  rewrite (message_not_empty _ _ _ _ _ Hring). unfold read_take. step.
  erewrite bind_in_mem by (eapply read_copy; done). step. step.
  erewrite bind_run by (apply flag_step_run; lk). norm. rewrite insert_insert_eq.
  set (q' := if decide _ then _ else _). change q' with (after_read q). clear q'. step.
  replace (mq_write_task (after_read q)) with (mq_write_task q) by (unfold after_read; by case_decide).
  rewrite Hw. step. erewrite bind_run by apply exit_run. crit_eq.
Qed.

Lemma write_run timer s a q t msgs msg buf rl timeout :
  k_mqs s !! a = Some q -> ring (k_mem s) q t msgs ->
  Z.of_nat (length msgs) < places q -> Z.of_nat (length msg) = mq_size_of_block q ->
  bytes msg -> block (k_mem s) buf msg -> outside q buf -> buf <> 0 ->
  ready_queue (k_tasks s) (k_ready s) rl -> wakeable s rl (mq_read_task q) ->
  exists s' q',
    rx_write_to_queue timer (Some a) buf (mq_size_of_block q) timeout s = Done OS_OK s' /\
    k_mqs s' !! a = Some q' /\ mq_read_task q' = None /\ ring (k_mem s') q' t (msgs ++ [msg]) /\
    ready_queue (k_tasks s') (k_ready s') (woken (k_tasks s) (mq_read_task q) rl) /\
    reader_woken s s' (mq_read_task q) /\ k_mem s' = store_list (k_mem s) (mq_head q) msg /\
    q' = set_mq_read_task None (after_write q).
Proof.
  intros Ha Hring Hroom Hlm Hby Hb Ho Hbuf Hq Hw.
  unfold rx_write_to_queue. step. rewrite decide_False by tauto. erewrite bind_run by apply enter_run.
  rewrite (room_not_full _ _ _ _ Hring Hroom). cbn [andb].
  edestruct (write_put_run (set_k_critical (crit_in s) s) a q t msgs msg buf 0 rl)
    as (s' & q' & E & Hres); [done|apply Hring|done..|].
  exists s', q'. split; [exact E|exact Hres].
Qed.

Lemma read_run timer s a q t msg msgs buf rl timeout :
  k_mqs s !! a = Some q -> ring (k_mem s) q t (msg :: msgs) -> mq_read_task q = None ->
  mapped (k_mem s) buf (length msg) -> outside q buf -> buf <> 0 ->
  ready_queue (k_tasks s) (k_ready s) rl -> wakeable s rl (mq_write_task q) ->
  exists s' q',
    rx_read_from_queue timer (Some a) buf (mq_size_of_block q) timeout s = Done OS_OK s' /\
    k_mqs s' !! a = Some q' /\ mq_read_task q' = None /\
    ring (k_mem s') q' (t + 1) msgs /\ block (k_mem s') buf msg /\
    ready_queue (k_tasks s') (k_ready s') (woken (k_tasks s) (mq_write_task q) rl) /\
    reader_woken s s' (mq_write_task q) /\ k_mem s' = store_list (k_mem s) buf msg /\
    q' = set_mq_write_task (next_writer s q) (after_read q).
Proof.
  intros Ha Hring Hrt Hmb Ho Hbuf Hq Hw.
  unfold rx_read_from_queue. step. rewrite decide_False by tauto.
  erewrite bind_run by apply enter_run. rewrite Hrt, decide_False by tauto.
  rewrite (message_not_empty _ _ _ _ _ Hring).
  edestruct (read_take_run (set_k_critical (crit_in s) s) a q t msg msgs buf 0 rl)
    as (s' & q' & E & Hm' & Hr' & Hres); [done..|].
  exists s', q'. split; [exact E|]. split; [done|]. split; [congruence|]. exact Hres.
Qed.


(** C15: Reading takes the oldest message: with no other reader the call returns
    [OS_OK], the caller's buffer holds exactly the bytes that were written, the
    other messages stay in order, and the first waiting writer becomes ready. *)
Theorem queue_read_takes_oldest timer s a q t msg msgs buf rl timeout :
  k_mqs s !! a = Some q -> ring (k_mem s) q t (msg :: msgs) -> mq_read_task q = None ->
  mapped (k_mem s) buf (length msg) -> outside q buf -> buf <> 0 ->
  ready_queue (k_tasks s) (k_ready s) rl -> wakeable s rl (mq_write_task q) ->
  exists s' q',
    rx_read_from_queue timer (Some a) buf (mq_size_of_block q) timeout s = Done OS_OK s' /\
    k_mqs s' !! a = Some q' /\ mq_read_task q' = None /\
    ring (k_mem s') q' (t + 1) msgs /\ block (k_mem s') buf msg /\
    ready_queue (k_tasks s') (k_ready s') (woken (k_tasks s) (mq_write_task q) rl).
Proof.
  intros Ha Hring Hrt Hmb Ho Hbuf Hq Hw.
  destruct (read_run timer s a q t msg msgs buf rl timeout) as (s' & q' & E & Hm & Hr & Hq' & Hb & Hrl & _); [done..|].
  by exists s', q'.
Qed.

(** ** Samples: a queue of two blocks of four bytes at address 100, with a
    message of the caller at address 200 *)

Definition sample_q : msg_queue := mk_mq [] 100 100 100 0 4 2 None None.

(** The block behind the buffer is mapped too. *)
Definition sample_qmem : mem :=
  store_list (store_list ∅ 100 (replicate 12 0)) 200 [7; 8; 9; 10].

Definition sample_queue : kst :=
  set_k_mqs {[ 5%positive := sample_q ]} (set_k_mem sample_qmem sample).

Lemma sample_ring : ring (k_mem sample_queue) sample_q 0 [].
Proof.
  constructor; [constructor; try done|done].
  eapply (block_mapped _ _ (replicate 12 0)); [done|].
  apply store_list_keeps; [left; simpl; lia|apply store_list_block].
Qed.

Lemma wakeable_none s rl : wakeable s rl None.
Proof. by intros r. Qed.


(** The same queue with the message in it. *)
Definition sample_queue1 : kst :=
  set_k_mqs {[ 5%positive := after_write sample_q ]}
    (set_k_mem (store_list sample_qmem 100 [7; 8; 9; 10]) sample).

Lemma sample_ring1 : ring (k_mem sample_queue1) (after_write sample_q) 0 [[7; 8; 9; 10]].
Proof.
  apply (ring_write (k_mem sample_queue) sample_q 0 [] [7; 8; 9; 10]);
    [apply sample_ring|done|done|by repeat constructor].
Qed.

Lemma queue_read_takes_oldest_witness :
  exists s' q',
    rx_read_from_queue None (Some 5%positive) 200 4 OS_NO_WAIT sample_queue1 = Done OS_OK s' /\
    k_mqs s' !! 5%positive = Some q' /\ mq_read_task q' = None /\
    ring (k_mem s') q' (0 + 1) [] /\ block (k_mem s') 200 [7; 8; 9; 10] /\
    ready_queue (k_tasks s') (k_ready s') [1; 2; 3]%positive.
Proof.
  apply (queue_read_takes_oldest None sample_queue1 5 (after_write sample_q) 0 [7; 8; 9; 10] [] 200
    [1; 2; 3]%positive OS_NO_WAIT); try done.
  - apply sample_ring1.
  - apply store_list_mapped. eapply block_mapped; [|apply store_list_block]. simpl. lia.
  - right. by vm_compute.
  - by apply ready_queueb_ok; vm_compute.
Defined.

(** ** What goes wrong at the ends of the ring *)

Lemma memcpy_unmapped dest src n m :
  (0 < n)%nat -> dest <> src -> m !! dest = None -> memcpy dest src n m = None.
Proof.
  intros Hn Hne Hd. unfold memcpy. rewrite decide_False by congruence.
  assert (Hb : forall c, (0 < c)%nat -> copy_bytes c m dest src = None).
  { intros [|c] Hc; [lia|]. simpl. destruct (m !! src); [|done]. simpl.
    unfold store_byte. by rewrite Hd. }
  case_decide; [|by apply Hb].
  destruct (n `div` 4)%nat eqn:Ed.
  - cbn [copy_words]. apply Hb. pose proof (Nat.div_mod n 4 ltac:(lia)) as Hdm.
    rewrite Ed in Hdm. lia.
  - cbn [copy_words]. destruct (load_word m src); [|done]. cbn. unfold store_word, store_byte.
    by rewrite Hd.
Qed.

(** The test for the end of the buffer is off by one block: with [head] one
    block behind a buffer of [num_of_blocks] blocks, which it reaches after that
    many messages, the next message is written outside the buffer. *)
Theorem queue_write_past_buffer timer s a q buf timeout :
  k_mqs s !! a = Some q -> 0 < mq_size_of_block q ->
  mq_head q = mq_start q + mq_size_of_block q * mq_num_of_blocks q ->
  mq_head q <> mq_tail q -> buf <> 0 -> buf <> mq_head q ->
  k_mem s !! (mq_start q + mq_size_of_block q * mq_num_of_blocks q) = None ->
  rx_write_to_queue timer (Some a) buf (mq_size_of_block q) timeout s = Crash BadAddr.
Proof.
  intros Ha Hs Hh Hne Hb Hbh Hm. unfold rx_write_to_queue. step. rewrite decide_False by tauto.
  erewrite bind_run by apply enter_run. rewrite bool_decide_false by done. cbn [andb].
  unfold write_put. step. apply bind_crash. unfold in_mem. norm.
  rewrite memcpy_unmapped; [done|lia|congruence|by rewrite Hh].
Qed.

(** Two messages fill the buffer of [sample_q], with exactly its eight bytes
    mapped; then the third write faults. *)
Definition sample_queue2 : kst :=
  set_k_mqs {[ 5%positive := after_write (after_write sample_q) ]}
    (set_k_mem (store_list (store_list ∅ 100 (replicate 8 0)) 200 [7; 8; 9; 10]) sample).

Lemma queue_write_past_buffer_witness :
  rx_write_to_queue None (Some 5%positive) 200 4 OS_NO_WAIT sample_queue2 = Crash BadAddr.
Proof.
  apply (queue_write_past_buffer None sample_queue2 5 (after_write (after_write sample_q)) 200
    OS_NO_WAIT); by vm_compute.
Defined.

(** In a cyclic queue a write to a full ring does not drop the oldest
    message but all of them: [tail] stays behind, so that the ring then holds the
    new message alone. *)
Theorem queue_cyclic_drops_all timer s a q t msgs msg buf rl timeout :
  k_mqs s !! a = Some q -> ring (k_mem s) q t msgs ->
  Z.of_nat (length msgs) = places q -> flag_on (mq_flag q) RX_Q_CYCLIC_FULL = true ->
  Z.of_nat (length msg) = mq_size_of_block q ->
  bytes msg -> block (k_mem s) buf msg -> outside q buf -> buf <> 0 ->
  ready_queue (k_tasks s) (k_ready s) rl -> wakeable s rl (mq_read_task q) ->
  exists s' q',
    rx_write_to_queue timer (Some a) buf (mq_size_of_block q) timeout s = Done OS_OK s' /\
    k_mqs s' !! a = Some q' /\ ring (k_mem s') q' t [msg].
Proof.
  intros Ha Hring Hfull Hcyc Hlm Hby Hb Ho Hbuf Hq Hw.
  pose proof Hring as [[Hs Hn Ht Hh _ Hm _] _].
  assert (Hht : mq_head q = mq_tail q).
  { rewrite Hh, Ht, Hfull. apply ends_meet; [done|done|unfold places; lia|by right]. }
  unfold rx_write_to_queue. step. rewrite decide_False by tauto.
  erewrite bind_run by apply enter_run. rewrite Hcyc, andb_false_r.
  edestruct (write_put_run (set_k_critical (crit_in s) s) a q t [] msg buf 0 rl)
    as (s' & q' & E & Hq' & _ & Hring' & _); try done.
  - constructor; try done; [|cbn; unfold places; lia]. cbn. by rewrite Z.add_0_r, Hht.
  - cbn. unfold places. lia.
  - exists s', q'. split; [exact E|]. by split.
Qed.

(** The queue 5 with room for one message per place, full and cyclic. *)
Definition sample_cyclic : kst :=
  set_k_mqs {[ 5%positive := mk_mq [] 100 100 100 3 4 2 None None ]}
    (set_k_mem (store_list sample_qmem 100 [1; 1; 1; 1; 2; 2; 2; 2; 3; 3; 3; 3]) sample).

Lemma queue_cyclic_drops_all_witness :
  exists s' q',
    rx_write_to_queue None (Some 5%positive) 200 4 OS_NO_WAIT sample_cyclic = Done OS_OK s' /\
    k_mqs s' !! 5%positive = Some q' /\ ring (k_mem s') q' 0 [[7; 8; 9; 10]].
Proof.
  apply (queue_cyclic_drops_all None sample_cyclic 5 (mk_mq [] 100 100 100 3 4 2 None None) 0
    [[1; 1; 1; 1]; [2; 2; 2; 2]; [3; 3; 3; 3]] [7; 8; 9; 10] 200 [1; 2; 3]%positive OS_NO_WAIT);
    try done.
  - constructor; [|done]. constructor; try done.
    + eapply (block_mapped _ _ [1; 1; 1; 1; 2; 2; 2; 2; 3; 3; 3; 3]); [done|apply store_list_block].
    + pose proof (store_list_block sample_qmem 100 ([1; 1; 1; 1] ++ [2; 2; 2; 2] ++ [3; 3; 3; 3])) as H.
      rewrite !block_app in H. destruct H as (H1 & H2 & H3).
      intros [|[|[|i]]] msg Hi; cbn in Hi; simplify_eq; (split; [reflexivity|]);
        (split; [by repeat constructor|]); [exact H1|exact H2|exact H3].
  - by repeat constructor.
  - apply store_list_keeps; [right; simpl; lia|apply store_list_block].
  - right. by vm_compute.
  - by apply ready_queueb_ok; vm_compute.
Defined.
