(* ===== verification/Rendezvous.v ===== *)
(** * Tasks that meet at a message queue (src/kernel/rx_queue.c)

    A call that has to wait, from its beginning to its end: what it does before it gives
    up the processor, what the task on the other side of the queue then does, and what is
    left of the call when its task runs again.  Between the two the kernel may do anything
    that leaves the queue, its memory and the task's error code alone. *)

From stdpp Require Import base gmap list.
From Stdlib Require Import ZArith Lia.
From S2P Require Import Prelude Mem State Samples Port ReadyQueue Sched TaskQueue Task Timer Queue.
#[local] Open Scope Z_scope.
#[local] Open Scope rosx_scope.

Lemma ring_empty m q t : ring m q t [] -> mq_head q = mq_tail q /\ queue_empty q = true.
Proof.
  intros [[Hs Hn Ht Hh Hlen Hm Hmsgs] Hf]. assert (E : mq_head q = mq_tail q) by (rewrite Ht, Hh; f_equal; simpl; lia).
  split; [done|]. unfold queue_empty. rewrite bool_decide_true by done. destruct (flag_on _ _) eqn:Ef; [|done].
  by destruct (proj1 (Hf E) eq_refl).
Qed.

Lemma obind_eq {S A B} (o o' : outcome S A) (k : A -> proc S B) r : o = o' -> obind o' k = r -> obind o k = r.
Proof. by intros ->. Qed.

(** A ring with a message in every place is full. *)
Lemma ring_full m q t msgs :
  ring m q t msgs -> Z.of_nat (length msgs) = places q ->
  bool_decide (mq_head q = mq_tail q) && flag_on (mq_flag q) RX_QUEUE_FULL = true.
Proof.
  intros [[Hs Hn Ht Hh Hlen Hm Hmsgs] Hf] Hl. assert (E : mq_head q = mq_tail q).
  { rewrite Ht, Hh, Hl. unfold place. rewrite <- Z.add_mod_idemp_r, Z.mod_same, Z.add_0_r; unfold places; lia. }
  rewrite bool_decide_true by done. apply (Hf E). intros ->. unfold places in Hl. simpl in Hl. lia.
Qed.

(** What a waiting call does when its task runs again: it returns the error it was woken
    up with, if any, or goes on. *)
Definition after_wait : M (option Z) :=
  let! imask := rx_enter_critical in
  let! curr := gets k_curr in
  let! t := ld_task curr in
  if decide (t_err t <> 0) then
    rx_exit_critical imask ;;;
    ret (Some (t_err t))
  else ret None.

Definition reader_rest (a : positive) (buf : Z) : M Z :=
  let! r := after_wait in
  match r with
  | Some e => ret e
  | None => read_take (Some a) buf 0
  end.

Definition writer_rest (a : positive) (buf : Z) : M Z :=
  let! r := after_wait in
  match r with
  | Some e => ret e
  | None => write_put (Some a) buf 0
  end.

Lemma after_wait_ok s c tc :
  k_curr s = Some c -> k_tasks s !! c = Some tc -> t_err tc = OS_OK ->
  after_wait s = Done None (set_k_critical (crit_in s) s).
Proof.
  intros Hc Htc He. unfold after_wait. erewrite bind_run by apply enter_run. step. norm. rewrite Hc. step.
  rewrite He. by rewrite decide_False by (intros Hx; by apply Hx).
Qed.

(** The task that waits, and the others as they were but for their links. *)
Record blocked (s : kst) (c : positive) (tc : tcb) (h : positive) (l : list positive) (s1 : kst) : Prop := {
  bl_curr : k_curr s1 = Some h;
  bl_ready : ready_queue (k_tasks s1) (k_ready s1) (h :: l);
  bl_task : k_tasks s1 !! c = Some (set_t_next None (set_t_err OS_OK (set_t_state RX_TASK_SUSPEND tc)));
  bl_timers : k_timers s1 = k_timers s /\ k_timer_head s1 = k_timer_head s;
}.

Section Blocking.
Context (s : kst) (a : positive) (q : msg_queue) (t : Z) (c : positive) (tc : tcb).
Context (l1 l2 : list positive) (h : positive) (l : list positive).
Context (Ha : k_mqs s !! a = Some q) (Hc : k_curr s = Some c) (Htc : k_tasks s !! c = Some tc).
Context (Hq : ready_queue (k_tasks s) (k_ready s) (l1 ++ c :: l2)) (Hl : l1 ++ l2 = h :: l).
Context (Hblock : flag_on (mq_flag q) RX_Q_BLOCK = true).

(** The part both calls share: the task, SUSPENDed, leaves the ready queue and gives up
    the processor.  In between, [note] is what the call does with the queue alone;
    [k] is what it does when its task runs again. *)
Lemma give_up_run s0 (note : M (option Z) -> M (option Z)) mqs k :
  k_tasks s0 = <[c := set_t_err OS_OK (set_t_state RX_TASK_SUSPEND tc)]> (k_tasks s) ->
  k_curr s0 = k_curr s -> k_ready s0 = k_ready s ->
  (forall k s', k_mqs s' = k_mqs s0 -> note k s' = k (set_k_mqs mqs s')) ->
  exists s1,
    (let! _ := __rx_remove_from_ready_q (Some c) in note (rx_exit_critical 0 ;;; rx_sched ;;; k)) s0 = Switch s1 k /\
    k_curr s1 = Some h /\ ready_queue (k_tasks s1) (k_ready s1) (h :: l) /\
    k_tasks s1 !! c = Some (set_t_next None (set_t_err OS_OK (set_t_state RX_TASK_SUSPEND tc))) /\
    k_timers s1 = k_timers s0 /\ k_timer_head s1 = k_timer_head s0 /\ k_mqs s1 = mqs /\ k_mem s1 = k_mem s0.
Proof using Hc Htc Hq Hl.
  clear Ha Hblock. intros Ets Ec Er Hnote.
  assert (Hni : c ∉ h :: l) by (rewrite <- Hl; eapply nodup_mid, ready_queue_nodup, Hq).
  destruct (leave_queue s0 (k_tasks s) l1 c l2 tc (set_t_err OS_OK (set_t_state RX_TASK_SUSPEND tc)))
    as (ts2 & E2 & Hq2 & Hc2 & _); [by rewrite Er|done..|].
  set (s2 := rq_upd ts2 (head (l1 ++ l2)) (k_need_resched s0) s0) in *.
  set (s3 := set_k_critical (crit_out (set_k_mqs mqs s2)) (set_k_mqs mqs s2)).
  destruct (sched_away s3 c (set_t_next None (set_t_err OS_OK (set_t_state RX_TASK_SUSPEND tc))) h l)
    as (th & Hth & Es & Hq3); [unfold s3, s2; norm; by rewrite Ec|done|done|by rewrite <- Hl|].
  exists (switched h th s3). split_and!; [|done|exact Hq3| |done..].
  - erewrite bind_run by exact E2. rewrite Hnote by done.
    erewrite bind_run by apply exit_run. fold s3. unfold bind. by rewrite Es.
  - unfold switched. norm. rewrite lookup_insert_ne by set_solver. done.
Qed.

Lemma reader_blocks timer buf :
  ring (k_mem s) q t [] -> mq_read_task q = None -> buf <> 0 ->
  exists s1, rx_read_from_queue timer (Some a) buf (mq_size_of_block q) 0 s = Switch s1 (reader_rest a buf) /\
    blocked s c tc h l s1 /\ k_mqs s1 = <[a := set_mq_read_task (Some c) q]> (k_mqs s) /\ k_mem s1 = k_mem s.
Proof using Ha Hc Htc Hq Hl Hblock.
  intros Hring Hrd Hbuf. destruct (ring_empty _ _ _ Hring) as [_ He].
  unfold rx_read_from_queue. step. rewrite decide_False by tauto. erewrite bind_run by apply enter_run.
  rewrite Hrd, decide_False by tauto. rewrite He, Hblock. unfold read_wait. rewrite bind_bind. step.
  rewrite decide_True by done. rewrite Hc. do 3 step. rewrite !insert_insert_eq.
  match goal with |- context [obind (bind (__rx_remove_from_ready_q _) _ ?st) _] => set (s0 := st) end.
  destruct (give_up_run s0 (fun k => k) (k_mqs s0) after_wait) as (s1 & E & Hc1 & Hq1 & Ht1 & Etm & Eth & Emq & Emem); [done..| |].
  { intros k s' <-. by destruct s'. }
  exists s1. split_and!; [by apply (obind_eq _ _ _ _ E)|by constructor|by rewrite Emq|by rewrite Emem].
Qed.

Lemma writer_blocks timer buf msgs :
  ring (k_mem s) q t msgs -> Z.of_nat (length msgs) = places q ->
  flag_on (mq_flag q) RX_Q_CYCLIC_FULL = false -> mq_write_task q = None -> buf <> 0 ->
  exists s1, rx_write_to_queue timer (Some a) buf (mq_size_of_block q) 0 s = Switch s1 (writer_rest a buf) /\
    blocked s c tc h l s1 /\ k_mqs s1 = <[a := set_mq_write_task (Some c) q]> (k_mqs s) /\ k_mem s1 = k_mem s.
Proof using Ha Hc Htc Hq Hl Hblock.
  intros Hring Hfull Hcyc Hwt Hbuf.
  unfold rx_write_to_queue. step. rewrite decide_False by tauto. erewrite bind_run by apply enter_run.
  rewrite (ring_full _ _ _ _ Hring Hfull), Hcyc, Hblock. cbn [andb negb]. unfold write_wait. rewrite bind_bind. step.
  norm. rewrite Hc. do 2 step. rewrite !insert_insert_eq.
  match goal with |- context [obind (bind (__rx_remove_from_ready_q _) _ ?st) _] => set (s0 := st) end.
  set (note := fun k : M (option Z) => let! q := ld_mq (Some a) in
    match mq_write_task q with
    | None => on_mq (Some a) (set_mq_write_task (Some c))
    | Some _ => append_task (mq_write_task q) (Some c)
    end ;;; k).
  destruct (give_up_run s0 note (<[a := set_mq_write_task (Some c) q]> (k_mqs s)) after_wait)
    as (s1 & E & Hc1 & Hq1 & Ht1 & Etm & Eth & Emq & Emem); [done..| |].
  { intros k s' Es. assert (Ha' : k_mqs s' !! a = Some q) by (rewrite Es; done). unfold note. step.
    rewrite Hwt. step. by rewrite Es. }
  exists s1. split_and!; [by apply (obind_eq _ _ _ _ E)|by constructor|by rewrite Emq|by rewrite Emem].
Qed.
End Blocking.

(** The reader runs again and finds a message. *)
Lemma reader_resumes s a q t msg msgs buf c tc rl :
  k_curr s = Some c -> k_tasks s !! c = Some tc -> t_err tc = OS_OK ->
  k_mqs s !! a = Some q -> ring (k_mem s) q t (msg :: msgs) -> mapped (k_mem s) buf (length msg) -> outside q buf ->
  ready_queue (k_tasks s) (k_ready s) rl -> wakeable s rl (mq_write_task q) ->
  exists s' q', reader_rest a buf s = Done OS_OK s' /\ block (k_mem s') buf msg /\
    k_mqs s' !! a = Some q' /\ ring (k_mem s') q' (t + 1) msgs.
Proof.
  intros Hc Htc He Ha Hring Hm Ho Hq Hw. unfold reader_rest.
  erewrite bind_run by by eapply after_wait_ok.
  destruct (read_take_run (set_k_critical (crit_in s) s) a q t msg msgs buf 0 rl)
    as (s' & q' & E & Hq' & _ & Hring' & Hb & _); [done..|]. by exists s', q'.
Qed.


(** Task 1 waits at an empty queue for a message that task 2 writes. *)
Definition sample_bq : msg_queue := mk_mq [] 100 100 100 RX_Q_BLOCK 4 2 None None.
Definition sample_bqueue : kst :=
  set_k_mqs {[ 5%positive := sample_bq ]} (set_k_mem (store_list sample_qmem 300 [0; 0; 0; 0]) sample).

Lemma sample_bring : ring (k_mem sample_bqueue) sample_bq 0 [].
Proof.
  constructor; [constructor; try done|done].
  eapply (block_mapped _ _ (replicate 12 0)); [done|].
  do 2 (apply store_list_keeps; [left; simpl; lia|]). apply store_list_block.
Qed.


(** ** A writer that waits for a free place *)

(** The writer runs again and finds a free place. *)
Lemma writer_resumes s a q t msgs msg buf c tc rl :
  k_curr s = Some c -> k_tasks s !! c = Some tc -> t_err tc = OS_OK ->
  k_mqs s !! a = Some q -> ring (k_mem s) q t msgs -> Z.of_nat (length msgs) < places q ->
  Z.of_nat (length msg) = mq_size_of_block q -> bytes msg -> block (k_mem s) buf msg -> outside q buf ->
  ready_queue (k_tasks s) (k_ready s) rl -> wakeable s rl (mq_read_task q) ->
  exists s' q', writer_rest a buf s = Done OS_OK s' /\
    k_mqs s' !! a = Some q' /\ ring (k_mem s') q' t (msgs ++ [msg]).
Proof.
  intros Hc Htc He Ha Hring Hroom Hlm Hby Hb Ho Hq Hw. unfold writer_rest.
  erewrite bind_run by by eapply after_wait_ok.
  destruct (write_put_run (set_k_critical (crit_in s) s) a q t msgs msg buf 0 rl)
    as (s' & q' & E & Hq' & _ & Hring' & _); [done|apply Hring|done..|]. by exists s', q'.
Qed.

(** Where a queue lies in memory does not change. *)
Lemma after_read_geometry q w :
  let q' := set_mq_write_task w (after_read q) in
  mq_start q' = mq_start q /\ mq_size_of_block q' = mq_size_of_block q /\ places q' = places q.
Proof. unfold after_read, places. by case_decide. Qed.


(** Task 1 waits at a full queue, of one block and the place behind it, for task 2 to read. *)
Definition sample_fq : msg_queue := mk_mq [] 100 100 100 (Z.lor RX_Q_BLOCK RX_QUEUE_FULL) 4 1 None None.
(** A block of a concrete memory, byte by byte. *)
Ltac solve_block := repeat (apply block_cons; split; [by vm_compute|]); apply block_nil.

Definition sample_fqueue : kst :=
  set_k_mqs {[ 5%positive := sample_fq ]}
    (set_k_mem (store_list (store_list sample_qmem 300 [0; 0; 0; 0]) 100 [1; 2; 3; 4; 5; 6; 7; 8]) sample).

Lemma sample_fring : ring (k_mem sample_fqueue) sample_fq 0 [[1; 2; 3; 4]; [5; 6; 7; 8]].
Proof.
  constructor; [constructor; try done|done].
  - eapply (block_mapped _ _ [1; 2; 3; 4; 5; 6; 7; 8]); [done|]. apply store_list_block.
  - intros [|[|i]] msg Hi; [| |done]; injection Hi as <-;
      (split_and!; [done|by repeat constructor|solve_block]).
Qed.

