(* ===== verification/Wait.v ===== *)
(** * Wait queues (src/kernel/rx_wait.c, src/kernel/include/rx_wait.h)

    A task waits in a wait queue until it is woken up or its timeout has passed.
    The wait queues with waiting tasks are in a doubly linked list of the system,
    [__rx_sys_wait_list]; the event thread goes through it on every event and
    wakes up the tasks whose wait may end. *)

From stdpp Require Import base gmap list sorting.
From Stdlib Require Import ZArith Lia.
From S2P Require Import Prelude State Samples Chains Port ReadyQueue Sched TaskQueue Task Timer.
#[local] Open Scope Z_scope.
#[local] Open Scope rosx_scope.

#[export] Instance wq_waiters : WaitService wait_queue.
Proof. by refine {| ws_head := wq_task; ws_set := set_wq_task |}; intros []. Defined.

Definition __rx_finish_wait : M Z :=
  let! imask := rx_enter_critical in
  let! curr := gets k_curr in
  drop_task_timer curr ;;;
  let! t := ld_task curr in
  let r := if decide (t_timeout t = E_OS_TIMEOUT) then E_OS_TIMEOUT else 0 in
  on_task curr (set_t_timeout RX_TIMER_OFF) ;;;
  on_task curr (set_t_wq None) ;;;
  rx_exit_critical imask ;;;
  ret r.

Definition __rx_wait_timeout (timer : ptr) : M unit :=
  let! curr := gets k_curr in
  let! t := ld_task curr in
  let! r := rx_create_timer timer (Some H_wait) curr (t_timeout t) in
  (if decide (OS_OK <> r) then pr_panic else ret tt) ;;;
  let! curr := gets k_curr in
  on_task curr (set_t_timer timer) ;;;
  rx_start_timer timer ;;;
  on_task curr (set_t_timeout RX_TIMER_ON).

(** The handler of the timer: the event thread will find the task. *)
Definition __rx_wait_handler (t : ptr) : M unit :=
  on_task t (set_t_timeout E_OS_TIMEOUT) ;;;
  on_task t (set_t_timer None).

(** [while(ride->next) { if(ride == wq) break; ride = ride->next; }]. *)
Fixpoint wait_list_find (fuel : nat) (wq ride : ptr) : M ptr :=
  match fuel with
  | O => crash NoFuel
  | S fuel =>
    let! r := ld_wq ride in
    match wq_next r with
    | None => ret ride
    | Some _ => if decide (ride = wq) then ret ride else wait_list_find fuel wq (wq_next r)
    end
  end.

Definition wq_fuel (s : kst) : nat := S (size (k_wqs s)).

(** The wait queue joins the list of the system unless it is in it. *)
Definition wait_list_add (wq : ptr) : M unit :=
  let! hd := gets k_wait_list in
  match hd with
  | None => upd (set_k_wait_list wq)
  | Some _ =>
    let! fuel := gets wq_fuel in
    let! ride := wait_list_find fuel wq hd in
    if decide (ride = wq) then ret tt
    else
      on_wq ride (set_wq_next wq) ;;;
      on_wq wq (set_wq_prev ride)
  end.

Definition __rx_add_to_wait_queue (wq : ptr) (task_state : task_state) (timeout : Z) (timer : ptr)
  : M Z :=
  let! imask := rx_enter_critical in
  let! curr := gets k_curr in
  on_task curr (set_t_state task_state) ;;;
  on_task curr (set_t_wq wq) ;;;
  let! _ := __rx_remove_from_ready_q curr in
  on_task curr (set_t_next None) ;;;
  enqueue_on wait_queue wq curr ;;;
  wait_list_add wq ;;;
  let! t := ld_task curr in
  (if decide (timeout > 0 /\ t_timeout t = RX_TIMER_OFF) then
     on_task curr (set_t_timeout timeout) ;;;
     __rx_wait_timeout timer
   else ret tt) ;;;
  rx_exit_critical imask ;;;
  ret 0.

(** Every task from [t] on becomes ready. *)
Fixpoint wake_all_loop (fuel : nat) (t : ptr) : M unit :=
  match fuel with
  | O => crash NoFuel
  | S fuel =>
    match t with
    | None => ret tt
    | Some _ =>
      on_task t (set_t_state RX_TASK_READY) ;;;
      let! r := ld_task t in
      let! _ := __rx_add_to_ready_q t in
      wake_all_loop fuel (t_next r)
    end
  end.

(** [wq->prev->next = wq->next; wq->next->prev = wq->prev;]. *)
Definition wait_list_unlink (wq : ptr) : M unit :=
  let! q := ld_wq wq in
  on_wq (wq_prev q) (set_wq_next (wq_next q)) ;;;
  let! q := ld_wq wq in
  on_wq (wq_next q) (set_wq_prev (wq_prev q)).

(** The wait queue leaves the list of the system. *)
Definition wait_list_remove (wq : ptr) : M unit :=
  let! hd := gets k_wait_list in
  if decide (wq = hd) then
    let! q := ld_wq wq in
    upd (set_k_wait_list (wq_next q)) ;;;
    match wq_next q with
    | Some _ => on_wq (wq_next q) (set_wq_prev None)
    | None => ret tt
    end
  else
    wait_list_unlink wq ;;;
    on_wq wq (fun q => set_wq_prev None (set_wq_next None q)).

Definition rx_wakeup (wq : ptr) : M Z :=
  let! imask := rx_enter_critical in
  let! q := ld_wq wq in
  let! fuel := gets task_fuel in
  wake_all_loop fuel (wq_task q) ;;;
  on_wq wq (set_wq_task None) ;;;
  wait_list_remove wq ;;;
  rx_exit_critical imask ;;;
  ret 0.

(** [tn->state == RX_TASK_INTERRUPTIBLE || tn->timeout == E_OS_TIMEOUT]. *)
Definition may_wake (t : tcb) : bool :=
  bool_decide (t_state t = RX_TASK_INTERRUPTIBLE) || bool_decide (t_timeout t = E_OS_TIMEOUT).

Fixpoint wake_queue_loop (fuel : nat) (ride tn tp : ptr) : M unit :=
  match fuel with
  | O => crash NoFuel
  | S fuel =>
    match tn with
    | None => ret tt
    | Some _ =>
      let! t := ld_task tn in
      if may_wake t then
        on_task tn (set_t_state RX_TASK_READY) ;;;
        let! q := ld_wq ride in
        if decide (tn = wq_task q) then
          on_wq ride (set_wq_task (t_next t)) ;;;
          let! _ := __rx_add_to_ready_q tn in
          wake_queue_loop fuel ride (t_next t) (t_next t)
        else
          on_task tp (set_t_next (t_next t)) ;;;
          let! _ := __rx_add_to_ready_q tn in
          wake_queue_loop fuel ride (t_next t) tp
      else wake_queue_loop fuel ride (t_next t) tn
    end
  end.

Definition rx_wake_task_in_the_queue (ride : ptr) : M unit :=
  let! q := ld_wq ride in
  let! fuel := gets task_fuel in
  wake_queue_loop fuel ride (wq_task q) (wq_task q).

Fixpoint wake_loop (fuel : nat) (ride : ptr) : M unit :=
  match fuel with
  | O => crash NoFuel
  | S fuel =>
    match ride with
    | None => ret tt
    | Some _ =>
      let! hd := gets k_wait_list in
      rx_wake_task_in_the_queue ride ;;;
      let! q := ld_wq ride in
      (if decide (wq_task q = None) then
         if decide (ride = hd) then
           upd (set_k_wait_list (wq_next q)) ;;;
           on_wq ride (fun q => set_wq_prev None (set_wq_next None q)) ;;;
           match wq_next q with
           | Some _ => on_wq (wq_next q) (set_wq_prev None)
           | None => ret tt
           end
         else
           wait_list_unlink ride ;;;
           on_wq ride (fun q => set_wq_prev None (set_wq_next None q))
       else ret tt) ;;;
      let! q := ld_wq ride in
      wake_loop fuel (wq_next q)
    end
  end.

Definition __rx_wake : M unit :=
  let! hd := gets k_wait_list in
  match hd with
  | None => ret tt
  | Some _ =>
    let! fuel := gets wq_fuel in
    wake_loop fuel hd
  end.

(** The macros of rx_wait.h.  [rx_wait_queue] tests its condition, an expression
    of the caller, each time the task is switched back to; [fuel] bounds how
    often it is found false. *)
Definition rx_wait_on (wq : ptr) : M Z :=
  let! _ := __rx_add_to_wait_queue wq RX_TASK_UNINTERRUPTIBLE 0 None in
  rx_sched ;;;
  __rx_finish_wait.

Definition rx_wait_on_timeout (wq : ptr) (timeout : Z) (timer : ptr) : M Z :=
  let! _ := __rx_add_to_wait_queue wq RX_TASK_UNINTERRUPTIBLE timeout timer in
  rx_sched ;;;
  __rx_finish_wait.

Fixpoint wait_until (fuel : nat) (wq : ptr) (condition : M bool) : M Z :=
  match fuel with
  | O => crash NoFuel
  | S fuel =>
    let! _ := __rx_add_to_wait_queue wq RX_TASK_INTERRUPTIBLE 0 None in
    rx_sched ;;;
    let! c := condition in
    if c then __rx_finish_wait else wait_until fuel wq condition
  end.

Definition rx_wait_queue (fuel : nat) (wq : ptr) (condition : M bool) : M Z :=
  let! c := condition in
  if c then ret 0 else wait_until fuel wq condition.

(** ** Waking up every task of a queue *)

Definition waits_wq (a : positive) (t : tcb) : Prop := t_wq t = Some a.

(** The tasks [ws] join the ready queue [rl] one after the other. *)
Definition wake_list (ts : gmap positive tcb) (ws rl : list positive) : list positive :=
  fold_left (fun l x => ins ts (prio ts x) x l) ws rl.

Lemma wake_list_cons ts x ws rl :
  wake_list ts (x :: ws) rl = wake_list ts ws (ins ts (prio ts x) x rl).
Proof. done. Qed.

Lemma wake_list_perm ts ws rl : wake_list ts ws rl ≡ₚ ws ++ rl.
Proof.
  unfold wake_list. revert rl. induction ws as [|x ws IH]; intros rl; simpl; [done|].
  rewrite IH, ins_perm. by rewrite Permutation_middle.
Qed.

Lemma wake_list_ext ts ts' ws rl :
  (forall x, prio ts' x = prio ts x) -> wake_list ts' ws rl = wake_list ts ws rl.
Proof.
  intros He. unfold wake_list. revert rl. induction ws as [|x ws IH]; intros rl; simpl; [done|].
  rewrite He, (ins_ext ts ts') by auto. apply IH.
Qed.

Lemma set_state_prio ts x t st y :
  ts !! x = Some t -> prio (<[x := set_t_state st t]> ts) y = prio ts y.
Proof.
  intros Hx. rewrite prio_insert. case_decide; [subst|done]. cbn. symmetry. by apply prio_lookup.
Qed.

Lemma wake_all_loop_run P (Pnext : forall n t, P t -> P (set_t_next n t)) fuel s h ws rl :
  (length ws < fuel)%nat -> waiting P (k_tasks s) h ws ->
  ready_queue (k_tasks s) (k_ready s) rl ->
  exists ts' r cr,
    wake_all_loop fuel h s
      = Done tt (rq_st ts' (head (wake_list (k_tasks s) ws rl)) r cr s) /\
    ready_queue ts' (head (wake_list (k_tasks s) ws rl)) (wake_list (k_tasks s) ws rl) /\
    (forall x, prio ts' x = prio (k_tasks s) x) /\
    (forall x t, x ∉ ws -> k_tasks s !! x = Some t -> exists n, ts' !! x = Some (set_t_next n t)).
Proof.
  revert fuel s h rl. induction ws as [|x ws IH]; intros fuel s h rl Hf Hw Hq;
    (destruct fuel as [|fuel]; [simpl in Hf; lia|]); cbn [wake_all_loop].
  - rewrite (chain_head _ _ _ _ (wt_chain _ _ _ _ Hw)). cbn [head wake_list fold_left].
    exists (k_tasks s), (k_need_resched s), (k_critical s).
    rewrite <- (ready_queue_head _ _ _ Hq), rq_st_id. split_and!; [done..|].
    intros y t _ Ht. exists (t_next t). by rewrite set_next_id.
  - pose proof (waiting_disjoint _ _ _ _ _ _ Hw Hq) as Hdis.
    pose proof (waiting_cons _ _ _ _ _ Hw) as (-> & Hni & t & Ht & _ & _ & Hw').
    step. step. set (s1 := set_k_tasks _ _).
    destruct (make_ready s1 (k_tasks s) rl x (set_t_state RX_TASK_READY t))
      as (ts2 & n & E2 & Hq2 & Hr2 & Hx2); [done|apply Hdis; left|by left|done|].
    erewrite bind_run by exact E2. set (s2 := rq_upd ts2 _ _ s1). cbn [t_next set_t_state].
    assert (Hpr : forall y, prio ts2 y = prio (k_tasks s) y).
    { intros y. rewrite (relinked_prio _ _ _ y Hr2). by apply set_state_prio. }
    cbn [t_prio set_t_state] in *.
    edestruct (IH fuel s2 (t_next t) (ins (k_tasks s) (t_prio t) x rl)) as (ts' & r & cr & E & Hq' & Hp' & Hk);
      [simpl in Hf; lia| |exact Hq2|].
    { eapply waiting_relinked; [exact Hr2| |by apply waiting_insert].
      intros y Hy [->|Hy']%elem_of_cons; [done|]. apply (Hdis y); [by right|done]. }
    change (k_tasks s2) with ts2 in E, Hq'.
    rewrite (wake_list_ext (k_tasks s) ts2) in E, Hq' by done.
    rewrite wake_list_cons, (prio_lookup _ _ _ Ht).
    exists ts', r, cr. split_and!; [exact E|exact Hq'|intros y; by rewrite Hp', Hpr|].
    intros y ty Hy Hty. apply not_elem_of_cons in Hy as [Hyx Hy].
    destruct (relinked_lookup _ _ _ y ty Hr2) as [n' Hn']; [by rewrite lookup_insert_ne|].
    destruct (Hk y _ Hy Hn') as [n'' Hn'']. by exists n''.
Qed.

(** ** The list of the system *)

Definition wait_list (s : kst) (l : list positive) : Prop :=
  dchain wq_next wq_prev (k_wqs s) (k_wait_list s) l.

Lemma wait_list_remove_run s L1 a L2 q :
  wait_list s (L1 ++ a :: L2) -> removable L1 L2 -> k_wqs s !! a = Some q ->
  exists wqs' h' q',
    wait_list_remove (Some a) s = Done tt (set_k_wait_list h' (set_k_wqs wqs' s)) /\
    dchain wq_next wq_prev wqs' h' (L1 ++ L2) /\
    wqs' !! a = Some q' /\ wq_task q' = wq_task q.
Proof.
  unfold wait_list. intros Hd Hrm Ha. assert (Hnd := dchain_NoDup _ _ _ _ _ Hd).
  destruct (dchain_mid _ _ _ _ _ _ _ Hd) as (t & ? & Hpr & Hnx & _ & Hl2). simplify_eq.
  pose proof (chain_head _ _ _ _ (dchain_chain _ _ _ _ _ Hd)) as Hh. unfold wait_list_remove. step.
  destruct (last_snoc_inv L1) as [->|(l & y & ->)]; cbn [app] in *.
  - rewrite Hh. cbn [head]. rewrite decide_True by done. step. step. rewrite Hnx.
    destruct L2 as [|z L2]; cbn [head] in *.
    + exists (k_wqs s), None, q. split_and!; [by destruct s|done..].
    + destruct Hl2 as (_ & tz & Hz & Hpz & Hl2). rewrite !NoDup_cons in Hnd.
      exists (<[z := set_wq_prev None tz]> (k_wqs s)), (Some z), q.
      erewrite modify_run by lk. split_and!; [done|by eapply dchain_pop| |done].
      rewrite lookup_insert_ne by set_solver. done.
  - destruct Hrm as [Hrm|Hrm]; [by destruct l|]. destruct L2 as [|z L2]; [done|].
    rewrite last_snoc in Hpr. cbn [head] in Hnx. destruct Hl2 as (_ & tz & Hz & Hpz & Hl2).
    destruct (seg_lookup _ _ _ _ _ y (dseg_seg _ _ _ _ _ _ _ Hd) ltac:(set_solver)) as [ty Hy].
    assert (y <> a /\ y <> z /\ a <> z /\ k_wait_list s <> Some a) as (? & ? & ? & ?).
    { rewrite Hh. apply NoDup_app in Hnd as (_ & Hd12 & Hn2). rewrite !NoDup_cons in Hn2.
      split_and!; [intros ->; apply (Hd12 a); set_solver|intros ->; apply (Hd12 z); set_solver
        |set_solver|]. intros ?. apply (Hd12 a); [|set_solver].
      destruct l; simplify_eq/=; set_solver. }
    rewrite decide_False by congruence. unfold wait_list_unlink.
    exists (<[a := set_wq_prev None (set_wq_next None q)]> (<[z := set_wq_prev (Some y) tz]>
      (<[y := set_wq_next (Some z) ty]> (k_wqs s)))), (k_wait_list s),
      (set_wq_prev None (set_wq_next None q)). split_and!.
    + do 2 step. rewrite Hpr. repeat (step; rewrite ?Hpr, ?Hnx).
      by destruct s.
    + apply dseg_insert_ne; [exact (nodup_mid _ _ _ Hnd)|by eapply dchain_unlink].
    + apply lookup_insert_eq.
    + done.
Qed.

(** [rx_wakeup] on a wait queue that is first in the system's list, or has
    another one behind it, makes every task that waits in the queue ready, in
    order and by priority, empties the queue and takes it out of the system's
    list; the other wait queues stay in order. *)
Theorem wakeup_wakes_all s L1 a L2 q ws rl :
  wait_list s (L1 ++ a :: L2) -> removable L1 L2 -> k_wqs s !! a = Some q ->
  waiting (waits_wq a) (k_tasks s) (wq_task q) ws ->
  ready_queue (k_tasks s) (k_ready s) rl ->
  exists s' q',
    rx_wakeup (Some a) s = Done 0 s' /\
    ready_queue (k_tasks s') (k_ready s') (wake_list (k_tasks s) ws rl) /\
    k_wqs s' !! a = Some q' /\ wq_task q' = None /\ wait_list s' (L1 ++ L2).
Proof.
  intros Hl Hrm Ha Hw Hq. unfold rx_wakeup. erewrite bind_run by apply enter_run. step. step.
  edestruct (wake_all_loop_run (waits_wq a) ltac:(done)
    (task_fuel (set_k_critical (crit_in s) s)) (set_k_critical (crit_in s) s))
    as (ts' & r & cr & E & Hq' & _); [|exact Hw|exact Hq|].
  { pose proof (chain_length _ _ _ _ (wt_chain _ _ _ _ Hw)). unfold task_fuel. norm. lia. }
  erewrite bind_run by exact E. unfold rq_st. step. clear E.
  match goal with |- context [bind (wait_list_remove _) _ ?st] => set (s1 := st) end.
  edestruct (wait_list_remove_run s1 L1 a L2 (set_wq_task None q))
    as (wqs' & h' & q' & E1 & Hd & Hq1 & Ht); [|done|apply lookup_insert_eq|].
  { eapply dseg_frame_links; [|exact Hl]. intros x t Hx. exists (if decide (x = a) then set_wq_task None t else t).
    unfold s1. norm. rewrite lookup_insert. case_decide; [subst; rewrite decide_True by done; by simplify_eq|].
    rewrite decide_False by congruence. done. }
  erewrite bind_run by exact E1. erewrite bind_run by apply exit_run.
  eexists _, q'. split_and!; [reflexivity|exact Hq'|exact Hq1|by rewrite Ht|exact Hd].
Qed.

(** Task 4 waits in the wait queue 6, the only one of the system. *)
Definition sample_wait : kst :=
  set_k_wait_list (Some 6%positive)
  (set_k_wqs {[ 6%positive := mk_wq (Some 4%positive) None None ]}
  (set_k_tasks (<[4%positive :=
     set_t_wq (Some 6%positive) (task 2 RX_TASK_INTERRUPTIBLE None)]> tasks3) sample)).

Lemma sample_waiting :
  waiting (waits_wq 6) (k_tasks sample_wait) (Some 4%positive) [4]%positive.
Proof.
  constructor; [by apply chainb_ok; vm_compute|].
  intros x t Hx Ht. apply list_elem_of_singleton in Hx. subst x. vm_compute in Ht.
  simplify_eq. split; [by intros [?|?]|done].
Qed.

Lemma sample_wait_list : wait_list sample_wait [6]%positive.
Proof. split; [done|]. eexists. split; [reflexivity|done]. Qed.

Lemma wakeup_wakes_all_witness :
  exists s' q',
    rx_wakeup (Some 6%positive) sample_wait = Done 0 s' /\
    ready_queue (k_tasks s') (k_ready s')
      (wake_list (k_tasks sample_wait) [4]%positive [1; 2; 3]%positive) /\
    k_wqs s' !! 6%positive = Some q' /\ wq_task q' = None /\ wait_list s' [].
Proof.
  apply (wakeup_wakes_all sample_wait [] 6 [] (mk_wq (Some 4%positive) None None)
    [4]%positive [1; 2; 3]%positive); [apply sample_wait_list|by left|reflexivity
    |apply sample_waiting|by apply ready_queueb_ok; vm_compute].
Defined.

(** ** Waking up the tasks whose wait may end *)

Definition wakes (ts : gmap positive tcb) (x : positive) : bool :=
  from_option may_wake false (ts !! x).

(** The tasks of a queue that are woken up, and those that stay. *)
Definition to_wake (ts : gmap positive tcb) (l : list positive) : list positive :=
  List.filter (wakes ts) l.
Definition to_keep (ts : gmap positive tcb) (l : list positive) : list positive :=
  List.filter (fun x => negb (wakes ts x)) l.

Lemma wake_split_ext ts ts' l :
  (forall x, x ∈ l -> wakes ts' x = wakes ts x) ->
  to_wake ts' l = to_wake ts l /\ to_keep ts' l = to_keep ts l.
Proof.
  intros H. unfold to_wake, to_keep. split; apply filter_ext_in; intros x Hx%list_elem_of_In;
    by rewrite H.
Qed.

Lemma wakes_relinked D ts ts' x : relinked D ts ts' -> wakes ts' x = wakes ts x.
Proof. intros Hr. unfold wakes. destruct (Hr x) as [->|(_ & t & n & -> & ->)]; done. Qed.

Lemma wakes_insert_ne ts x t y : y <> x -> wakes (<[x := t]> ts) y = wakes ts y.
Proof. intros Hy. unfold wakes. by rewrite lookup_insert_ne. Qed.

(** A task leaves from the middle of the queue, is marked ready and joins the
    ready queue. *)
Lemma wake_step_mid s a h ka y x rs ty t rl :
  waiting (waits_wq a) (k_tasks s) h ((ka ++ [y]) ++ x :: rs) ->
  k_tasks s !! y = Some ty -> k_tasks s !! x = Some t ->
  ready_queue (k_tasks s) (k_ready s) rl ->
  let s1 := set_k_tasks (<[y := set_t_next (t_next t) ty]>
    (<[x := set_t_state RX_TASK_READY t]> (k_tasks s))) s in
  let rl' := ins (k_tasks s) (t_prio t) x rl in
  exists ts2 r cr,
    __rx_add_to_ready_q (Some x) s1 = Done OS_OK (rq_st ts2 (head rl') r cr s) /\
    waiting (waits_wq a) ts2 h ((ka ++ [y]) ++ rs) /\ ready_queue ts2 (head rl') rl' /\
    (forall z, prio ts2 z = prio (k_tasks s) z) /\
    (forall z, z <> x -> wakes ts2 z = wakes (k_tasks s) z).
Proof.
  intros Hw Hy Hx Hq s1 rl'. pose proof (waiting_disjoint _ _ _ _ _ _ Hw Hq) as Hdis.
  pose proof (chain_NoDup _ _ _ _ (wt_chain _ _ _ _ Hw)) as Hnd.
  pose proof (nodup_mid _ _ _ Hnd) as Hxn.
  assert (Hxy : x <> y) by set_solver.
  rewrite <- app_assoc in Hw. cbn [app] in Hw.
  pose proof (waiting_unlink (waits_wq a) ltac:(done) _ _ _ _ _ _ _ _ Hw Hy Hx) as Hw1.
  replace (ka ++ y :: rs) with ((ka ++ [y]) ++ rs) in Hw1 by by rewrite <- app_assoc.
  set (ts1 := <[y := set_t_next (t_next t) ty]> (k_tasks s)) in *.
  assert (Hyr : y ∉ rl) by (apply Hdis; set_solver).
  destruct (make_ready s1 ts1 rl x (set_t_state RX_TASK_READY t))
    as (ts2 & n & E2 & Hq2 & Hr2 & Hx2).
  { by apply ready_queue_out. }
  { apply Hdis. set_solver. }
  { by left. }
  { unfold s1, ts1. norm. by rewrite insert_insert_ne by congruence. }
  assert (Hp1 : forall z, prio ts1 z = prio (k_tasks s) z).
  { intros z. unfold ts1. rewrite prio_insert. case_decide; [subst z|done].
    symmetry. exact (prio_lookup _ _ _ Hy). }
  assert (Hi : ins ts1 (t_prio (set_t_state RX_TASK_READY t)) x rl = rl').
  { apply ins_ext. intros z _. apply Hp1. }
  rewrite Hi in *. eexists ts2, _, _. split_and!; [exact E2| |done| |].
  - eapply waiting_relinked; [exact Hr2| |by apply waiting_insert].
    intros z Hz [->|Hz']%elem_of_cons; [done|]. apply (Hdis z); [|done]. set_solver.
  - intros z. rewrite (relinked_prio _ _ _ z Hr2), set_state_prio; [apply Hp1|].
    unfold ts1. by rewrite lookup_insert_ne.
  - intros z Hz. rewrite (wakes_relinked _ _ _ z Hr2), wakes_insert_ne by done.
    unfold ts1, wakes. rewrite lookup_insert. case_decide; [subst z|done]. by rewrite Hy.
Qed.

(** The first task of the queue is woken up. *)
Lemma wake_step_head s a h x rs t rl :
  waiting (waits_wq a) (k_tasks s) h (x :: rs) -> k_tasks s !! x = Some t ->
  ready_queue (k_tasks s) (k_ready s) rl ->
  forall s1, k_tasks s1 = <[x := set_t_state RX_TASK_READY t]> (k_tasks s) ->
  k_ready s1 = k_ready s ->
  let rl' := ins (k_tasks s) (t_prio t) x rl in
  exists ts2 r cr,
    __rx_add_to_ready_q (Some x) s1 = Done OS_OK (rq_st ts2 (head rl') r cr s1) /\
    waiting (waits_wq a) ts2 (t_next t) rs /\ ready_queue ts2 (head rl') rl' /\
    (forall z, prio ts2 z = prio (k_tasks s) z) /\
    (forall z, z <> x -> wakes ts2 z = wakes (k_tasks s) z).
Proof.
  intros Hw Hx Hq s1 Ht1 Hr1 rl'. pose proof (waiting_disjoint _ _ _ _ _ _ Hw Hq) as Hdis.
  pose proof (waiting_cons _ _ _ _ _ Hw) as (_ & Hni & t' & ? & _ & _ & Hw'). simplify_eq.
  destruct (make_ready s1 (k_tasks s) rl x (set_t_state RX_TASK_READY t))
    as (ts2 & n & E2 & Hq2 & Hr2 & Hx2); [by rewrite Hr1|apply Hdis; left|by left|done|].
  eexists ts2, _, _. split_and!; [exact E2| |done| |].
  - eapply waiting_relinked; [exact Hr2| |by apply waiting_insert].
    intros z Hz [->|Hz']%elem_of_cons; [done|]. apply (Hdis z); [by right|done].
  - intros z. rewrite (relinked_prio _ _ _ z Hr2). by apply set_state_prio.
  - intros z Hz. by rewrite (wakes_relinked _ _ _ z Hr2), wakes_insert_ne.
Qed.

Lemma to_wake_cons ts x l :
  to_wake ts (x :: l) = if wakes ts x then x :: to_wake ts l else to_wake ts l.
Proof. done. Qed.
Lemma to_keep_cons ts x l :
  to_keep ts (x :: l) = if wakes ts x then to_keep ts l else x :: to_keep ts l.
Proof. unfold to_keep. simpl. by destruct (wakes ts x). Qed.

(** A round of the walk that wakes [x]: the walk goes on behind it, with [x] ready and
    out of the queue. *)
Lemma wake_round fuel s a q ka x rs t tp rl :
  k_wqs s !! a = Some q -> waiting (waits_wq a) (k_tasks s) (wq_task q) (ka ++ x :: rs) ->
  k_tasks s !! x = Some t -> may_wake t = true ->
  ready_queue (k_tasks s) (k_ready s) rl -> (ka <> [] -> tp = last ka) ->
  let rl' := ins (k_tasks s) (t_prio t) x rl in
  exists ts2 h2 r cr tp2,
    wake_queue_loop (S fuel) (Some a) (Some x) tp s
      = wake_queue_loop fuel (Some a) (head rs) tp2
          (set_k_wqs (<[a := set_wq_task h2 q]> (k_wqs s)) (rq_st ts2 (head rl') r cr s)) /\
    waiting (waits_wq a) ts2 h2 (ka ++ rs) /\ ready_queue ts2 (head rl') rl' /\
    (ka <> [] -> tp2 = last ka) /\ (forall z, prio ts2 z = prio (k_tasks s) z) /\
    (forall z, z <> x -> wakes ts2 z = wakes (k_tasks s) z).
Proof.
  intros Ha Hw Ht Hmw Hq Htp rl'.
  pose proof (nodup_mid _ _ _ (chain_NoDup _ _ _ _ (wt_chain _ _ _ _ Hw))) as Hxn.
  assert (Hnx : t_next t = head rs).
  { pose proof (wt_chain _ _ _ _ Hw) as (p & _ & (-> & t' & ? & Hc))%seg_app. simplify_eq.
    by apply chain_head in Hc. }
  assert (Hhd : wq_task q = head (ka ++ x :: rs)) by exact (chain_head _ _ _ _ (wt_chain _ _ _ _ Hw)).
  cbn [wake_queue_loop]. step. rewrite Hmw. step. step.
  destruct (last_snoc_inv ka) as [->|(l & y & ->)].
  - cbn [app head] in *. rewrite Hhd, decide_True by done. step.
    match goal with |- context [bind (__rx_add_to_ready_q _) _ ?st] => set (s1 := st) end.
    edestruct (wake_step_head s a) as (ts2 & r & cr & E & Hw2 & Hq2 & Hp2 & Hk2);
      [exact Hw|exact Ht|exact Hq|by instantiate (1 := s1)|done|].
    erewrite bind_run by exact E. exists ts2, (t_next t), r, cr, (t_next t). rewrite <- Hnx.
    split_and!; [unfold s1; norm; f_equal; state_eq|done..].
  - rewrite decide_False by (rewrite Hhd; intros He; apply Hxn; destruct l; simplify_eq/=; set_solver).
    rewrite Htp, last_snoc by (by destruct l).
    destruct (seg_lookup _ _ _ _ _ y (wt_chain _ _ _ _ Hw)) as [ty Hy]; [set_solver|].
    assert (x <> y) by set_solver. step.
    destruct (wake_step_mid s a (wq_task q) l y x rs ty t rl Hw Hy Ht Hq)
      as (ts2 & r & cr & E & Hw2 & Hq2 & Hp2 & Hk2).
    erewrite bind_run by exact E. exists ts2, (wq_task q), r, cr, (Some y). rewrite Hnx.
    split_and!; [|done..].
    replace (set_wq_task (wq_task q) q) with q by (by destruct q).
    replace (<[a := q]> (k_wqs s)) with (k_wqs s) by (by rewrite insert_id). f_equal.
Qed.

(** The loop, from any point of its walk: the tasks [ka] stay. *)
Lemma wake_queue_loop_run fuel s a q ka rs tp rl :
  (length rs < fuel)%nat -> k_wqs s !! a = Some q ->
  waiting (waits_wq a) (k_tasks s) (wq_task q) (ka ++ rs) ->
  ready_queue (k_tasks s) (k_ready s) rl -> (ka <> [] -> tp = last ka) ->
  let rl' := wake_list (k_tasks s) (to_wake (k_tasks s) rs) rl in
  exists ts' h' r cr,
    wake_queue_loop fuel (Some a) (head rs) tp s
      = Done tt (set_k_wqs (<[a := set_wq_task h' q]> (k_wqs s)) (rq_st ts' (head rl') r cr s)) /\
    waiting (waits_wq a) ts' h' (ka ++ to_keep (k_tasks s) rs) /\ ready_queue ts' (head rl') rl'.
Proof.
  revert fuel s q ka tp rl. induction rs as [|x rs IH]; intros fuel s q ka tp rl Hf Ha Hw Hq Htp rl';
    (destruct fuel as [|fuel]; [simpl in Hf; lia|]).
  { exists (k_tasks s), (wq_task q), (k_need_resched s), (k_critical s). cbn in rl'. subst rl'.
    rewrite <- (ready_queue_head _ _ _ Hq), rq_st_id. split_and!; [|done..].
    replace (set_wq_task (wq_task q) q) with q by (by destruct q).
    rewrite insert_id by done. by destruct s. }
  pose proof (nodup_mid _ _ _ (chain_NoDup _ _ _ _ (wt_chain _ _ _ _ Hw))) as Hxn.
  destruct (seg_lookup _ _ _ _ _ x (wt_chain _ _ _ _ Hw)) as [t Ht]; [set_solver|].
  assert (Hwx : wakes (k_tasks s) x = may_wake t) by (unfold wakes; by rewrite Ht).
  subst rl'. rewrite to_wake_cons, to_keep_cons, Hwx. cbn [head length] in *. destruct (may_wake t) eqn:Hmw.
  - destruct (wake_round fuel s a q ka x rs t tp rl) as (ts2 & h2 & r & cr & tp2 & E & Hw2 & Hq2 & Htp2 & Hp2 & Hk2);
      [done..|].
    destruct (wake_split_ext (k_tasks s) ts2 rs) as [Hsw Hsk].
    { intros z Hz. apply Hk2. intros ->. apply Hxn, elem_of_app. by right. }
    match type of E with _ = _ ?st =>
      destruct (IH fuel st (set_wq_task h2 q) ka tp2 _ ltac:(lia) (lookup_insert_eq _ _ _) Hw2 Hq2 Htp2)
        as (ts' & h' & r' & cr' & E' & Hw' & Hq') end.
    cbn [k_tasks rq_st set_k_critical set_k_need_resched set_k_ready set_k_tasks set_k_wqs] in E', Hw', Hq'.
    rewrite E, wake_list_cons, (prio_lookup _ _ _ Ht).
    rewrite Hsw, Hsk, (wake_list_ext (k_tasks s) ts2) in * by done.
    exists ts', h', r', cr'. split_and!; [|exact Hw'|exact Hq'].
    rewrite E'. f_equal. norm. rewrite insert_insert_eq. state_eq.
  - assert (Hnx : t_next t = head rs).
    { pose proof (wt_chain _ _ _ _ Hw) as (p & _ & (-> & t' & ? & Hc))%seg_app. simplify_eq.
      by apply chain_head in Hc. }
    cbn [wake_queue_loop]. step. rewrite Hmw, Hnx. rewrite cons_middle, app_assoc in Hw.
    destruct (IH fuel s q (ka ++ [x]) (Some x) rl) as (ts' & h' & r & cr & E & Hw' & Hq');
      [lia|done|done|done|intros _; by rewrite last_snoc|].
    rewrite <- app_assoc in Hw'. eauto 10.
Qed.

Lemma wake_queue_run s a q ws rl :
  k_wqs s !! a = Some q -> waiting (waits_wq a) (k_tasks s) (wq_task q) ws ->
  ready_queue (k_tasks s) (k_ready s) rl ->
  let rl' := wake_list (k_tasks s) (to_wake (k_tasks s) ws) rl in
  exists ts' h' r cr,
    rx_wake_task_in_the_queue (Some a) s
      = Done tt (set_k_wqs (<[a := set_wq_task h' q]> (k_wqs s)) (rq_st ts' (head rl') r cr s)) /\
    waiting (waits_wq a) ts' h' (to_keep (k_tasks s) ws) /\ ready_queue ts' (head rl') rl'.
Proof.
  intros Ha Hw Hq rl'. unfold rx_wake_task_in_the_queue. step. step.
  pose proof (chain_length _ _ _ _ (wt_chain _ _ _ _ Hw)) as Hl.
  rewrite (chain_head _ _ _ _ (wt_chain _ _ _ _ Hw)).
  apply (wake_queue_loop_run _ s a q []); try done. unfold task_fuel. lia.
Qed.

(** C34: The walk through one wait queue wakes up exactly the tasks whose wait
    may end, those that wait interruptibly and those whose timeout has passed:
    they leave the queue and join the ready queue in order and by priority, and
    the others stay in the queue in order. *)
Theorem wake_queue_wakes_exactly s a q ws rl :
  k_wqs s !! a = Some q -> waiting (waits_wq a) (k_tasks s) (wq_task q) ws ->
  ready_queue (k_tasks s) (k_ready s) rl ->
  exists s' q',
    rx_wake_task_in_the_queue (Some a) s = Done tt s' /\ k_wqs s' !! a = Some q' /\
    waiting (waits_wq a) (k_tasks s') (wq_task q') (to_keep (k_tasks s) ws) /\
    ready_queue (k_tasks s') (k_ready s')
      (wake_list (k_tasks s) (to_wake (k_tasks s) ws) rl).
Proof.
  intros Ha Hw Hq. destruct (wake_queue_run s a q ws rl Ha Hw Hq) as (ts' & h' & r & cr & E & Hw' & Hq').
  eexists _, _. split_and!; [exact E|apply lookup_insert_eq|exact Hw'|exact Hq'].
Qed.

Lemma wake_queue_wakes_exactly_witness :
  exists s' q',
    rx_wake_task_in_the_queue (Some 6%positive) sample_wait = Done tt s' /\
    k_wqs s' !! 6%positive = Some q' /\
    waiting (waits_wq 6) (k_tasks s') (wq_task q') (to_keep (k_tasks sample_wait) [4]%positive) /\
    ready_queue (k_tasks s') (k_ready s')
      (wake_list (k_tasks sample_wait) (to_wake (k_tasks sample_wait) [4]%positive)
         [1; 2; 3]%positive).
Proof.
  apply (wake_queue_wakes_exactly sample_wait 6 (mk_wq (Some 4%positive) None None)
    [4]%positive [1; 2; 3]%positive);
    [reflexivity|apply sample_waiting|by apply ready_queueb_ok; vm_compute].
Defined.

(** [__rx_wake] ends early.  When every task of the first wait queue is
    woken up, the queue is taken out of the list and its link cleared before it
    is followed: the walk ends there, and the tasks of the other wait queues are
    not looked at. *)
Theorem wake_stops_after_emptied_queue s a L q ws rl :
  wait_list s (a :: L) -> k_wqs s !! a = Some q ->
  waiting (waits_wq a) (k_tasks s) (wq_task q) ws -> to_keep (k_tasks s) ws = [] ->
  ready_queue (k_tasks s) (k_ready s) rl ->
  exists s',
    __rx_wake s = Done tt s' /\ wait_list s' L /\
    ready_queue (k_tasks s') (k_ready s') (wake_list (k_tasks s) ws rl) /\
    (forall b qb, b ∈ L -> k_wqs s !! b = Some qb ->
      exists qb', k_wqs s' !! b = Some qb' /\ wq_task qb' = wq_task qb).
Proof.
  intros Hl Ha Hw Hnone Hq. unfold wait_list in Hl. pose proof (dchain_NoDup _ _ _ _ _ Hl) as Hnd.
  destruct (dchain_mid _ _ _ _ [] a L Hl) as (t & ? & _ & Hnx & _ & Hl2). simplify_eq.
  assert (Hall : to_wake (k_tasks s) ws = ws).
  { revert Hnone. clear. unfold to_keep, to_wake. induction ws as [|x ws IH]; simpl; [done|].
    destruct (wakes _ x); simpl; [|done]. intros. f_equal. auto. }
  destruct (wake_queue_run s a q ws rl Ha Hw Hq) as (ts' & h' & r & cr & E & Hw' & Hq').
  rewrite Hnone in Hw'. rewrite Hall in *.
  assert (h' = None) as -> by exact (chain_head _ _ _ _ (wt_chain _ _ _ _ Hw')).
  pose proof (chain_head _ _ _ _ (dchain_chain _ _ _ _ _ Hl)) as Hh. cbn [head] in Hh.
  assert (Hsz : exists n, size (k_wqs s) = S n).
  { destruct (size (k_wqs s)) eqn:Es; [|eauto]. apply map_size_empty_inv in Es. by rewrite Es in Ha. }
  destruct Hsz as [n Hn].
  unfold __rx_wake. step. rewrite Hh. step. unfold wq_fuel. rewrite Hn. cbn [wake_loop]. step. rewrite Hh.
  erewrite bind_run by exact E. unfold rq_st. step. cbn [wq_task set_wq_task wq_next].
  rewrite decide_True, decide_True by done. step. step. step. rewrite Hnx. rewrite insert_insert_eq.
  set (q' := set_wq_prev None _).
  destruct L as [|b L]; cbn [head] in *.
  - repeat step. cbn [wq_next set_wq_prev set_wq_next]. eexists. split_and!; [reflexivity|done|exact Hq'|].
    intros b qb ?%elem_of_nil. done.
  - destruct Hl2 as (_ & tb & Hb & Hpb & Hl2). apply NoDup_cons in Hnd as [Hna _].
    assert (Hab : a <> b) by (intros ->; apply Hna; left).
    repeat step. cbn [wq_next set_wq_prev set_wq_next]. eexists. split_and!; [reflexivity| |exact Hq'|].
    + unfold wait_list. norm. rewrite insert_insert_ne by done. apply dseg_insert_ne; [done|].
      by eapply dchain_pop.
    + intros c qc Hc Hqc. norm. rewrite lookup_insert. case_decide; [subst; simplify_eq; eauto|].
      rewrite lookup_insert_ne by (by intros ->). eauto.
Qed.

(** Task 4 waits in the wait queue 6 and task 5 in the wait queue 9, both
    interruptibly. *)
Definition sample_wait2 : kst :=
  set_k_wqs (<[6%positive := mk_wq (Some 4%positive) (Some 9%positive) None]>
    {[ 9%positive := mk_wq (Some 5%positive) None (Some 6%positive) ]})
  (set_k_tasks (<[5%positive :=
     set_t_wq (Some 9%positive) (task 2 RX_TASK_INTERRUPTIBLE None)]> (k_tasks sample_wait))
   sample_wait).

Lemma wake_stops_after_emptied_queue_witness :
  exists s',
    __rx_wake sample_wait2 = Done tt s' /\ wait_list s' [9]%positive /\
    ready_queue (k_tasks s') (k_ready s')
      (wake_list (k_tasks sample_wait2) [4]%positive [1; 2; 3]%positive) /\
    (forall b qb, b ∈ [9]%positive -> k_wqs sample_wait2 !! b = Some qb ->
      exists qb', k_wqs s' !! b = Some qb' /\ wq_task qb' = wq_task qb).
Proof.
  apply (wake_stops_after_emptied_queue sample_wait2 6 [9]%positive
    (mk_wq (Some 4%positive) (Some 9%positive) None) [4]%positive [1; 2; 3]%positive);
    [|reflexivity| |reflexivity|by apply ready_queueb_ok; vm_compute].
  - split; [done|]. eexists. split; [reflexivity|]. split; [done|].
    split; [done|]. eexists. split; [reflexivity|done].
  - constructor; [by apply chainb_ok; vm_compute|].
    intros x t Hx Ht. apply list_elem_of_singleton in Hx. subst x. vm_compute in Ht.
    simplify_eq. split; [by intros [?|?]|done].
Defined.
