(* ===== verification/Delete.v ===== *)
(** * Deletion of a service that tasks wait for
      (src/kernel/rx_mutex.c, src/kernel/rx_semaphore.c, src/kernel/rx_queue.c)

    [rx_delete_mutex], [rx_delete_semaphore] and [rx_delete_queue] make every waiting task
    ready, in a loop that ends when the queue is empty.  The three loops are instances of
    one scheme: a round takes the first task out of the queue and puts it into the ready
    queue. *)

From stdpp Require Import base gmap list sorting.
From Stdlib Require Import ZArith Lia.
From S2P Require Import Prelude State Samples Chains Port ReadyQueue Sched TaskQueue Task Timer.
From S2P Require Import Mutex Semaphore Queue Wait.
#[local] Open Scope Z_scope.
#[local] Open Scope rosx_scope.

(** ** The scheme *)

(** [Q s ws]: the tasks [ws] wait in the queue in the state [s]; [W t]: a woken task's
    control block. *)
Class Drain (loop : nat -> M unit) (Q : kst -> list positive -> Prop) (W : tcb -> Prop) : Prop := {
  drain_end fuel s : Q s [] -> loop (S fuel) s = Done tt s;
  drain_round fuel s x t ws rl :
    Q s (x :: ws) -> k_tasks s !! x = Some t -> ready_queue (k_tasks s) (k_ready s) rl ->
    exists s' t', loop (S fuel) s = loop fuel s' /\ Q s' ws /\
      ready_queue (k_tasks s') (k_ready s') (ins (k_tasks s) (t_prio t) x rl) /\
      k_tasks s' !! x = Some t' /\ W t' /\ t_prio t' = t_prio t /\
      relinked (x :: rl) (delete x (k_tasks s)) (delete x (k_tasks s'));
  drain_tasks s ws x : Q s ws -> x ∈ ws -> is_Some (k_tasks s !! x);
  drain_nodup s ws : Q s ws -> NoDup ws;
  drain_next n t : W t -> W (set_t_next n t);
}.

Section Drain.
Context (loop : nat -> M unit) (Q : kst -> list positive -> Prop) (W : tcb -> Prop).
Context `{D : !Drain loop Q W}.

(** The loop ends within one round more than there are waiting tasks, with the queue empty
    and all of them ready, in order and by priority; the other tasks only have their links
    changed. *)
Lemma drain_run ws : forall fuel s rl,
  (length ws < fuel)%nat -> Q s ws -> ready_queue (k_tasks s) (k_ready s) rl ->
  exists s', loop fuel s = Done tt s' /\ Q s' [] /\
    ready_queue (k_tasks s') (k_ready s') (wake_list (k_tasks s) ws rl) /\
    (forall x, x ∈ ws -> exists t, k_tasks s' !! x = Some t /\ W t) /\
    (forall x t, x ∉ ws -> k_tasks s !! x = Some t -> exists n, k_tasks s' !! x = Some (set_t_next n t)) /\
    (forall x, prio (k_tasks s') x = prio (k_tasks s) x).
Proof using D.
  induction ws as [|x ws IH]; intros fuel s rl Hf HQ Hq; (destruct fuel as [|fuel]; [simpl in Hf; lia|]).
  { exists s. rewrite (drain_end fuel s HQ). split_and!; [done..|by intros x ?%elem_of_nil| |done].
    intros x t _ Ht. exists (t_next t). by rewrite set_next_id. }
  pose proof (drain_nodup s (x :: ws) HQ) as [Hxn _]%NoDup_cons.
  destruct (drain_tasks s (x :: ws) x HQ) as [t Ht]; [left|].
  destruct (drain_round fuel s x t ws rl HQ Ht Hq) as (s1 & t' & -> & HQ1 & Hq1 & Ht' & HW & Hp & Hr).
  assert (Hpr : forall y, prio (k_tasks s1) y = prio (k_tasks s) y).
  { intros y. destruct (decide (y = x)) as [->|Hy]; [by rewrite (prio_lookup _ _ _ Ht'), (prio_lookup _ _ _ Ht)|].
    pose proof (relinked_steady t_prio _ _ _ y Hr) as E. rewrite !lookup_delete_ne in E by done.
    unfold prio. destruct (k_tasks s1 !! y), (k_tasks s !! y); cbn in *; congruence. }
  destruct (IH fuel s1 (ins (k_tasks s) (t_prio t) x rl)) as (s' & E & HQ' & Hq' & Hw' & Hk' & Hpr'); [simpl in Hf; lia|done..|].
  exists s'. rewrite E, wake_list_cons, (prio_lookup _ _ _ Ht). rewrite (wake_list_ext (k_tasks s)) in Hq' by done.
  split_and!; [done..| | |intros y; by rewrite Hpr'].
  - intros y [->|Hy]%elem_of_cons; [|by apply Hw']. destruct (Hk' x t' Hxn Ht') as [n Hn].
    exists (set_t_next n t'). split; [done|]. by apply drain_next.
  - intros y ty [Hyx Hy]%not_elem_of_cons Hty. destruct (relinked_others _ _ _ _ _ _ Hr Hyx Hty) as [n Hn].
    destruct (Hk' y _ Hy Hn) as [n' Hn']. by exists n'.
Qed.
End Drain.

(** The first task of the queue becomes ready, once its control block and the head of the
    queue have changed. *)
Lemma woken_first P s s1 x t tx' h ws rl :
  waiting P (k_tasks s) h (x :: ws) -> k_tasks s !! x = Some t ->
  ready_queue (k_tasks s) (k_ready s) rl -> k_tasks s1 = <[x := tx']> (k_tasks s) -> k_ready s1 = k_ready s ->
  t_prio tx' = t_prio t -> runnable tx' ->
  exists ts2 hd r n,
    __rx_add_to_ready_q (Some x) s1 = Done OS_OK (rq_upd ts2 hd r s1) /\
    waiting P ts2 (t_next t) ws /\ ready_queue ts2 hd (ins (k_tasks s) (t_prio t) x rl) /\
    ts2 !! x = Some (set_t_next n tx') /\ relinked (x :: rl) (delete x (k_tasks s)) (delete x ts2).
Proof.
  intros Hw Ht Hq Hts Hrd Hp Hrun. pose proof (waiting_disjoint _ _ _ _ _ _ Hw Hq) as Hdis.
  pose proof (waiting_cons _ _ _ _ _ Hw) as (_ & Hni & t0 & ? & _ & _ & Hw'). simplify_eq.
  destruct (make_ready s1 (k_tasks s) rl x tx') as (ts2 & n & E & Hq2 & Hr & Hx);
    [by rewrite Hrd|apply Hdis; left|done|done|].
  rewrite Hp in *. eexists ts2, _, _, n. split_and!; [exact E| |exact Hq2|exact Hx|].
  - eapply waiting_relinked; [exact Hr| |by apply waiting_insert].
    intros y Hy [->|Hy']%elem_of_cons; [done|]. apply (Hdis y); [by right|done].
  - apply (relinked_delete _ _ _ x) in Hr. by rewrite delete_insert_eq in Hr.
Qed.

(** A round for each waiting task and one more. *)
Lemma fuel_enough P s h ws : waiting P (k_tasks s) h ws -> (length ws < task_fuel s)%nat.
Proof. intros Hw. pose proof (chain_length _ _ _ _ (wt_chain _ _ _ _ Hw)). unfold task_fuel. lia. Qed.

(** A task that waits without a timeout has no timer to end. *)
Lemma no_timer_to_drop s x t : k_tasks s !! x = Some t -> t_timer t = None -> drop_task_timer (Some x) s = Done tt s.
Proof. intros Hx Ht. unfold drop_task_timer. step. by rewrite Ht. Qed.

Lemma no_timer_to_stop s x t : k_tasks s !! x = Some t -> t_timer t = None -> stop_task_timer (Some x) s = Done tt s.
Proof. intros Hx Ht. unfold stop_task_timer. step. by rewrite Ht. Qed.

(** ** Semaphores *)

(** The tasks [ws] wait for the semaphore [a] without a timeout. *)
Definition sem_queue (a : positive) (s : kst) (ws : list positive) : Prop :=
  exists sm, k_sems s !! a = Some sm /\
    waiting (fun t => waits_sem a t /\ t_timer t = None) (k_tasks s) (sem_task sm) ws.

Definition sem_woken (t : tcb) : Prop := t_state t = RX_TASK_READY /\ t_sem t = None.

#[export] Instance sem_drain a : Drain (fun fuel => delete_sem_loop fuel (Some a)) (sem_queue a) sem_woken.
Proof.
  constructor.
  - intros fuel s (sm & Hsm & Hw). cbn [delete_sem_loop]. step. by rewrite (chain_head _ _ _ _ (wt_chain _ _ _ _ Hw)).
  - intros fuel s x t ws rl (sm & Hsm & Hw) Ht Hq.
    pose proof (waiting_cons _ _ _ _ _ Hw) as (Hh & _ & t0 & ? & _ & [_ Htm] & _). simplify_eq.
    cbn [delete_sem_loop]. step. rewrite Hh. do 2 step. rewrite insert_insert_eq.
    erewrite bind_run by (eapply no_timer_to_drop; [apply lookup_insert_eq|done]). do 2 step.
    match goal with |- context [bind (__rx_add_to_ready_q _) _ ?st] => set (s1 := st) end.
    destruct (woken_first _ s s1 x t (set_t_sem None (set_t_state RX_TASK_READY t)) _ ws rl Hw Ht Hq)
      as (ts2 & hd & r & n & E & Hw2 & Hq2 & Hx & Hr); [done..|by left|].
    erewrite bind_run by exact E. eexists _, _. split_and!; [reflexivity| |exact Hq2|exact Hx|done|done|exact Hr].
    eexists. split; [apply lookup_insert_eq|exact Hw2].
  - intros s ws x (sm & _ & Hw) Hx. destruct (seg_lookup _ _ _ _ _ x (wt_chain _ _ _ _ Hw) Hx). by eexists.
  - intros s ws (sm & _ & Hw). eapply chain_NoDup, Hw.
  - done.
Qed.



(** ** Mutexes *)

Definition mutex_queue (m : positive) (s : kst) (ws : list positive) : Prop :=
  exists mx, k_mutexes s !! m = Some mx /\ m_lock mx = RX_MUTEX_LOCKED /\
    waiting (fun t => waits_for m t /\ t_timer t = None) (k_tasks s) (m_task mx) ws.

Definition mutex_woken (t : tcb) : Prop := t_state t = RX_TASK_READY /\ t_mutex t = None.

#[export] Instance mutex_drain m : Drain (fun fuel => delete_mutex_loop fuel (Some m)) (mutex_queue m) mutex_woken.
Proof.
  constructor.
  - intros fuel s (mx & Hm & _ & Hw). cbn [delete_mutex_loop]. step. by rewrite (chain_head _ _ _ _ (wt_chain _ _ _ _ Hw)).
  - intros fuel s x t ws rl (mx & Hm & Hlk & Hw) Ht Hq.
    pose proof (waiting_cons _ _ _ _ _ Hw) as (Hh & _ & t0 & ? & _ & [_ Htm] & _). simplify_eq.
    cbn [delete_mutex_loop]. step. rewrite Hh. do 2 step. rewrite insert_insert_eq.
    erewrite bind_run by (eapply no_timer_to_stop; [apply lookup_insert_eq|done]). do 2 step.
    match goal with |- context [bind (__rx_add_to_ready_q _) _ ?st] => set (s1 := st) end.
    destruct (woken_first _ s s1 x t (set_t_mutex None (set_t_state RX_TASK_READY t)) _ ws rl Hw Ht Hq)
      as (ts2 & hd & r & n & E & Hw2 & Hq2 & Hx & Hr); [done..|by left|].
    erewrite bind_run by exact E. eexists _, _. split_and!; [reflexivity| |exact Hq2|exact Hx|done|done|exact Hr].
    eexists. split; [apply lookup_insert_eq|]. split; [done|exact Hw2].
  - intros s ws x (mx & _ & _ & Hw) Hx. destruct (seg_lookup _ _ _ _ _ x (wt_chain _ _ _ _ Hw) Hx). by eexists.
  - intros s ws (mx & _ & _ & Hw). eapply chain_NoDup, Hw.
  - done.
Qed.

(** Deleting a mutex that is held: the waiting tasks become ready as above, and none of
    them owns it.  The lock stays set with no owner, so that the next lock that waits
    follows the NULL pointer. *)
Theorem delete_mutex_wakes_all s m ws rl :
  mutex_queue m s ws -> ready_queue (k_tasks s) (k_ready s) rl ->
  exists s' mx', rx_delete_mutex (Some m) s = Done tt s' /\
    ready_queue (k_tasks s') (k_ready s') (wake_list (k_tasks s) ws rl) /\
    (forall x, x ∈ ws -> exists t, k_tasks s' !! x = Some t /\ t_state t = RX_TASK_READY /\ t_mutex t = None) /\
    (forall x t, x ∉ ws -> k_tasks s !! x = Some t -> exists n, k_tasks s' !! x = Some (set_t_next n t)) /\
    k_mutexes s' !! m = Some mx' /\ m_task mx' = None /\ m_owner mx' = None /\ m_lock mx' = RX_MUTEX_LOCKED.
Proof.
  intros HQ Hq. unfold rx_delete_mutex. erewrite bind_run by apply enter_run. step.
  set (s0 := set_k_critical _ s).
  edestruct (drain_run (fun fuel => delete_mutex_loop fuel (Some m)) _ _ ws (task_fuel s0) s0 rl)
    as (s' & E & (mx & Hm & Hlk & Hw) & Hq' & Hw' & Hk' & _); [|exact HQ|exact Hq|].
  { destruct HQ as (mx & _ & _ & Hw). by eapply fuel_enough. }
  erewrite bind_run by exact E. step. rewrite exit_run. eexists _, (set_m_owner None mx).
  split_and!; [reflexivity|exact Hq'|exact Hw'|exact Hk'|apply lookup_insert_eq| |done|done].
  exact (chain_head _ _ _ _ (wt_chain _ _ _ _ Hw)).
Qed.

Lemma delete_mutex_wakes_all_witness :
  exists s' mx', rx_delete_mutex (Some 7%positive) sample_unlock = Done tt s' /\
    ready_queue (k_tasks s') (k_ready s') (wake_list (k_tasks sample_unlock) [4]%positive [1; 2; 3]%positive) /\
    (forall x, x ∈ [4]%positive -> exists t, k_tasks s' !! x = Some t /\ t_state t = RX_TASK_READY /\ t_mutex t = None) /\
    (forall x t, x ∉ [4]%positive -> k_tasks sample_unlock !! x = Some t ->
      exists n, k_tasks s' !! x = Some (set_t_next n t)) /\
    k_mutexes s' !! 7%positive = Some mx' /\ m_task mx' = None /\ m_owner mx' = None /\ m_lock mx' = RX_MUTEX_LOCKED.
Proof.
  apply (delete_mutex_wakes_all sample_unlock 7 [4]%positive [1; 2; 3]%positive).
  - eexists. split; [reflexivity|]. split; [done|]. constructor; [by apply chainb_ok; vm_compute|].
    intros x t ->%list_elem_of_singleton Ht. vm_compute in Ht. simplify_eq. split; [by apply suspended_not_runnable|done].
  - by apply ready_queueb_ok; vm_compute.
Defined.

(** ** Message queues *)

(** The tasks [ws] wait to write into the queue [a]. *)
Definition writers (a : positive) (rd : ptr) (s : kst) (ws : list positive) : Prop :=
  exists q, k_mqs s !! a = Some q /\ mq_read_task q = rd /\
    waiting (fun t => t_timer t = None) (k_tasks s) (mq_write_task q) ws.

Definition mq_woken (t : tcb) : Prop := t_state t = RX_TASK_READY /\ t_mq t = None.

#[export] Instance mq_drain a rd : Drain (fun fuel => delete_queue_loop fuel (Some a)) (writers a rd) mq_woken.
Proof.
  constructor.
  - intros fuel s (q & Hm & _ & Hw). cbn [delete_queue_loop]. step. by rewrite (chain_head _ _ _ _ (wt_chain _ _ _ _ Hw)).
  - intros fuel s x t ws rl (q & Hm & Hrd & Hw) Ht Hq.
    pose proof (waiting_cons _ _ _ _ _ Hw) as (Hh & _ & t0 & ? & _ & Htm & _). simplify_eq.
    cbn [delete_queue_loop]. step. rewrite Hh. unfold wake_writer. do 2 step. rewrite Hh.
    erewrite bind_run by (by eapply no_timer_to_stop). do 4 step. rewrite insert_insert_eq.
    match goal with |- context [bind (__rx_add_to_ready_q _) _ ?st] => set (s1 := st) end.
    destruct (woken_first _ s s1 x t (set_t_mq None (set_t_state RX_TASK_READY t)) _ ws rl Hw Ht Hq)
      as (ts2 & hd & r & n & E & Hw2 & Hq2 & Hx & Hr); [done..|by left|].
    erewrite bind_run by exact E. step. eexists _, _. split_and!; [reflexivity| |exact Hq2|exact Hx|done|done|exact Hr].
    eexists. split; [apply lookup_insert_eq|]. split; [done|exact Hw2].
  - intros s ws x (q & _ & _ & Hw) Hx. destruct (seg_lookup _ _ _ _ _ x (wt_chain _ _ _ _ Hw) Hx). by eexists.
  - intros s ws (q & _ & _ & Hw). eapply chain_NoDup, Hw.
  - done.
Qed.

(** Deleting a message queue makes the waiting writers ready and then the reader [rd], if
    one waits, which only one can. *)
Theorem delete_queue_wakes_all s a rd ws rl :
  writers a rd s ws -> ready_queue (k_tasks s) (k_ready s) rl ->
  (forall y, rd = Some y -> y ∉ ws ++ rl /\ exists t, k_tasks s !! y = Some t /\ t_timer t = None) ->
  exists s', rx_delete_queue (Some a) s = Done OS_OK s' /\
    ready_queue (k_tasks s') (k_ready s') (wake_list (k_tasks s) (ws ++ option_list rd) rl).
Proof.
  intros HQ Hq Hrd. unfold rx_delete_queue. erewrite bind_run by apply enter_run. step.
  set (s0 := set_k_critical _ s).
  edestruct (drain_run (fun fuel => delete_queue_loop fuel (Some a)) (writers a rd) _ ws (task_fuel s0) s0 rl)
    as (s1 & E & (q & Hm & Eq & _) & Hq1 & _ & Hk1 & Hp1); [|exact HQ|exact Hq|].
  { destruct HQ as (q & _ & _ & Hw). by eapply fuel_enough. }
  erewrite bind_run by exact E. step. rewrite Eq. destruct rd as [y|]; cycle 1.
  { step. unfold ret. cbn [option_list]. rewrite app_nil_r. by exists s1. }
  destruct (Hrd y eq_refl) as [Hy (t & Ht & Htm)]. apply not_elem_of_app in Hy as [Hyw Hyr].
  destruct (Hk1 y t Hyw Ht) as [n Hn]. unfold wake_reader. do 2 step. rewrite Eq.
  erewrite bind_run by (by eapply no_timer_to_stop). do 2 step. rewrite insert_insert_eq.
  match goal with |- context [bind (__rx_add_to_ready_q _) _ ?st] => set (s2 := st) end.
  destruct (make_ready s2 (k_tasks s1) (wake_list (k_tasks s) ws rl) y (set_t_mq None (set_t_state RX_TASK_READY (set_t_next n t))))
    as (ts2 & n' & E2 & Hq2 & _); [done| |by left|done|].
  { rewrite wake_list_perm. by apply not_elem_of_app. }
  erewrite bind_run by exact E2. repeat step. eexists. split; [reflexivity|].
  assert (Ew : wake_list (k_tasks s) (ws ++ [y]) rl
    = ins (k_tasks s1) (t_prio t) y (wake_list (k_tasks s) ws rl)).
  { unfold wake_list. rewrite fold_left_app. cbn [fold_left]. rewrite (prio_lookup _ _ _ Ht). apply ins_ext. auto. }
  change (option_list (Some y)) with [y]. rewrite Ew. exact Hq2.
Qed.

(** Task 4 waits to write into the queue 9 and no task to read from it. *)
Definition sample_delq : kst :=
  set_k_tasks (<[4%positive := set_t_mq (Some 9%positive) (task 2 RX_TASK_SUSPEND None)]> tasks3)
    (set_k_mqs {[ 9%positive := mk_mq [] 100 100 100 0 4 2 (Some 4%positive) None ]} sample).

Lemma delete_queue_wakes_all_witness :
  exists s', rx_delete_queue (Some 9%positive) sample_delq = Done OS_OK s' /\
    ready_queue (k_tasks s') (k_ready s') (wake_list (k_tasks sample_delq) ([4]%positive ++ []) [1; 2; 3]%positive).
Proof.
  apply (delete_queue_wakes_all sample_delq 9 None [4]%positive [1; 2; 3]%positive).
  - eexists. split; [reflexivity|]. split; [done|]. constructor; [by apply chainb_ok; vm_compute|].
    intros x t ->%list_elem_of_singleton Ht. vm_compute in Ht. simplify_eq. split; [by apply suspended_not_runnable|done].
  - by apply ready_queueb_ok; vm_compute.
  - done.
Defined.
