(* ===== verification/Tasklet.v ===== *)
(** * Tasklets (src/kernel/rx_tasklet.c)

    Deferred work: a scheduled tasklet is in the doubly linked list
    [sys_tasklet_list] until the bottom-half thread takes it out and calls its
    function.  The functions are the application's: [call] stands for the call
    [run->func(run->data)]. *)

From stdpp Require Import base gmap list sorting.
From Stdlib Require Import ZArith Lia.
From S2P Require Import Prelude State Samples Chains Port ReadyQueue Sched TaskQueue Task Timer Wait.
#[local] Open Scope Z_scope.
#[local] Open Scope rosx_scope.

Definition RX_DISABLE_TASKLET : Z := 0.
Definition RX_ENABLE_TASKLET : Z := 1.
Definition RX_SCHED_TASKLET : Z := 2.
Definition RX_RUNNING_TASKLET : Z := 4.

(** [t->status & bit]. *)
Definition status_has (t : tasklet) (bit : Z) : bool := negb (Z.land (tl_status t) bit =? 0).

Definition rx_init_tasklet (t : ptr) (func data : Z) : M Z :=
  match t with
  | None => ret OS_ERR
  | Some _ =>
    if decide (func = 0) then ret OS_ERR
    else
      on_tl t (set_tl_status RX_DISABLE_TASKLET) ;;;
      on_tl t (set_tl_func func) ;;;
      on_tl t (set_tl_data data) ;;;
      on_tl t (set_tl_next None) ;;;
      on_tl t (set_tl_prev None) ;;;
      ret OS_OK
  end.

Definition rx_enable_tasklet (t : ptr) : M unit :=
  match t with
  | None => ret tt
  | Some _ =>
    let! imask := rx_enter_critical in
    let! k := ld_tl t in
    (if decide (tl_status k = RX_DISABLE_TASKLET) then on_tl t (set_tl_status RX_ENABLE_TASKLET)
     else ret tt) ;;;
    rx_exit_critical imask
  end.

(** The tasklet leaves the list. *)
Definition tasklet_unlink (t : ptr) : M unit :=
  let! k := ld_tl t in
  (match tl_prev k, tl_next k with
   | None, None => upd (set_k_tasklet_list None)
   | _, _ =>
     (match tl_prev k with
      | Some _ => on_tl (tl_prev k) (set_tl_next (tl_next k))
      | None => upd (set_k_tasklet_list (tl_next k))
      end) ;;;
     let! k := ld_tl t in
     match tl_next k with
     | Some _ => on_tl (tl_next k) (set_tl_prev (tl_prev k))
     | None => ret tt
     end
   end) ;;;
  on_tl t (set_tl_next None) ;;;
  on_tl t (set_tl_prev None).

Definition rx_disable_tasklet (t : ptr) : M unit :=
  match t with
  | None => ret tt
  | Some _ =>
    let! imask := rx_enter_critical in
    let! k := ld_tl t in
    (if decide (tl_status k <> RX_DISABLE_TASKLET) then
       (if status_has k RX_SCHED_TASKLET then tasklet_unlink t else ret tt) ;;;
       on_tl t (set_tl_status RX_DISABLE_TASKLET)
     else ret tt) ;;;
    rx_exit_critical imask
  end.

(** [while(ride->next) ride = ride->next;]. *)
Fixpoint tasklet_tail (fuel : nat) (ride : ptr) : M ptr :=
  match fuel with
  | O => crash NoFuel
  | S fuel =>
    let! k := ld_tl ride in
    match tl_next k with
    | Some _ => tasklet_tail fuel (tl_next k)
    | None => ret ride
    end
  end.

Definition tasklet_fuel (s : kst) : nat := S (size (k_tasklets s)).

Definition rx_schedule_tasklet (t : ptr) : M unit :=
  match t with
  | None => ret tt
  | Some _ =>
    let! imask := rx_enter_critical in
    let! k := ld_tl t in
    (if negb (status_has k RX_SCHED_TASKLET) && status_has k RX_ENABLE_TASKLET then
       on_tl t (fun k => set_tl_status (Z.lor (tl_status k) RX_SCHED_TASKLET) k) ;;;
       let! hd := gets k_tasklet_list in
       match hd with
       | None => upd (set_k_tasklet_list t)
       | Some _ =>
         let! fuel := gets tasklet_fuel in
         let! ride := tasklet_tail fuel hd in
         on_tl ride (set_tl_next t) ;;;
         on_tl t (set_tl_prev ride)
       end
     else ret tt) ;;;
    rx_exit_critical imask
  end.

Section BottomHalf.
  (** The call of a tasklet's function with its data. *)
  Context (call : Z -> Z -> M unit).

(** What the bottom-half thread does with the first tasklet of the list. *)
Definition bh_run : M unit :=
  let! imask := rx_enter_critical in
  let! run := gets k_tasklet_list in
  let! k := ld_tl run in
  upd (set_k_tasklet_list (tl_next k)) ;;;
  on_tl run (fun k => set_tl_status (Z.lor (tl_status k) RX_RUNNING_TASKLET) k) ;;;
  on_tl run (fun k => set_tl_status (Z.land (tl_status k) (Z.lnot RX_SCHED_TASKLET)) k) ;;;
  rx_exit_critical imask ;;;
  let! k := ld_tl run in
  call (tl_func k) (tl_data k) ;;;
  let! imask := rx_enter_critical in
  on_tl run (fun k => set_tl_status (Z.land (tl_status k) (Z.lnot RX_RUNNING_TASKLET)) k) ;;;
  rx_exit_critical imask.

(** [n] rounds of the endless loop of the thread, with the wait queue [w] of its
    stack; [fuel] bounds the waits of one round. *)
Fixpoint rx_bh_thread (n fuel : nat) (w : ptr) : M unit :=
  match n with
  | O => ret tt
  | S n =>
    let! r := rx_wait_queue fuel w (gets (fun s => bool_decide (k_tasklet_list s <> None))) in
    (if decide (r = 0) then bh_run else ret tt) ;;;
    rx_bh_thread n fuel w
  end.

End BottomHalf.

(** ** The list of scheduled tasklets *)

(** The invariant: the list is well linked both ways, its members are marked as
    scheduled, and a tasklet outside it that is not scheduled has no links. *)
Record tasklet_list (s : kst) (l : list positive) : Prop := {
  tl_chain : dchain tl_next tl_prev (k_tasklets s) (k_tasklet_list s) l;
  tl_sched : forall x k, x ∈ l -> k_tasklets s !! x = Some k -> status_has k RX_SCHED_TASKLET = true;
  tl_idle : forall x k, k_tasklets s !! x = Some k -> status_has k RX_SCHED_TASKLET = false ->
    tl_next k = None /\ tl_prev k = None;
}.

Lemma tasklet_tail_run fuel s h l y :
  (length l < fuel)%nat -> chain tl_next (k_tasklets s) h (l ++ [y]) ->
  tasklet_tail fuel h s = Done (Some y) s.
Proof.
  revert fuel h. induction l as [|x l IH]; intros fuel h Hf Hc;
    (destruct fuel as [|fuel]; [simpl in Hf; lia|]); cbn [tasklet_tail].
  - destruct Hc as (-> & t & Ht & Hn). simpl in Hn. step. by rewrite Hn.
  - destruct Hc as (-> & t & Ht & Hc). step. pose proof (chain_head _ _ _ _ Hc) as Hn.
    destruct (tl_next t) as [n|] eqn:E; [|by destruct l]. apply IH; [simpl in Hf; lia|done].
Qed.

Lemma status_lor k bit b : status_has (set_tl_status (Z.lor (tl_status k) bit) k) b
  = status_has k b || negb (Z.land bit b =? 0).
Proof.
  unfold status_has. cbn. rewrite Z.land_lor_distr_l.
  destruct (Z.eqb_spec (Z.land (tl_status k) b) 0) as [->|H]; [by rewrite Z.lor_0_l|].
  simpl. apply negb_true_iff, Z.eqb_neq. intros E%Z.lor_eq_0_iff. tauto.
Qed.

(** Assigning to the status of a tasklet keeps the links. *)
Lemma dchain_status m h l x k st :
  m !! x = Some k -> dchain tl_next tl_prev m h l ->
  dchain tl_next tl_prev (<[x := set_tl_status st k]> m) h l.
Proof.
  intros Hx. apply dseg_frame_links. intros y t Ht. rewrite lookup_insert.
  case_decide; [subst; simplify_eq|]; eauto.
Qed.

(** The tasklet with the flag set. *)
Definition scheduled (k : tasklet) : tasklet := set_tl_status (Z.lor (tl_status k) RX_SCHED_TASKLET) k.

Lemma scheduled_on k : status_has (scheduled k) RX_SCHED_TASKLET = true.
Proof. unfold scheduled. rewrite status_lor. apply orb_true_r. Qed.

(** The list with the first tasklet, and with one more. *)
Lemma tasklet_list_first s s' t k :
  tasklet_list s [] -> k_tasklets s !! t = Some k -> tl_next k = None -> tl_prev k = None ->
  k_tasklets s' = <[t := scheduled k]> (k_tasklets s) -> k_tasklet_list s' = Some t -> tasklet_list s' [t].
Proof.
  intros [Hd Hs Hi] Ht Hn Hp Em Eh. constructor; rewrite ?Eh, Em.
  - split; [done|]. exists (scheduled k). rewrite lookup_insert_eq. split_and!; [done..|exact Hn].
  - intros x kx Hx. apply list_elem_of_singleton in Hx. subst x.
    rewrite lookup_insert_eq. intros [= <-]. apply scheduled_on.
  - intros x kx. rewrite lookup_insert. case_decide; [|apply Hi].
    intros [= <-] Hoff. by rewrite scheduled_on in Hoff.
Qed.

Lemma tasklet_list_append s s' l y t k ky :
  tasklet_list s (l ++ [y]) -> k_tasklets s !! t = Some k -> k_tasklets s !! y = Some ky ->
  t ∉ l ++ [y] -> tl_next k = None ->
  k_tasklets s' = <[t := set_tl_prev (Some y) (scheduled k)]>
    (<[y := set_tl_next (Some t) ky]> (<[t := scheduled k]> (k_tasklets s))) ->
  k_tasklet_list s' = k_tasklet_list s -> tasklet_list s' ((l ++ [y]) ++ [t]).
Proof.
  intros [Hd Hs Hi] Ht Hy Hni Hn Em Eh. assert (Hty : t <> y) by set_solver.
  pose proof (scheduled_on k) as Hk1. constructor; rewrite ?Eh, Em.
  - eapply (dchain_append _ _ _ _ _ _ _ ky (scheduled k)); try done.
    + by apply dchain_status.
    + by rewrite lookup_insert_ne.
    + apply lookup_insert_eq.
  - intros x kx Hx. rewrite lookup_insert. case_decide; [by intros; simplify_eq|].
    rewrite lookup_insert. case_decide as Hyx; [subst x; intros ?; simplify_eq|].
    { exact (Hs y ky ltac:(set_solver) Hy). }
    rewrite lookup_insert_ne by done. apply Hs. set_solver.
  - intros x kx. rewrite lookup_insert. case_decide.
    { intros [= <-] Hoff. change (status_has (scheduled k) RX_SCHED_TASKLET = false) in Hoff. congruence. }
    rewrite lookup_insert. case_decide as Hyx.
    + intros [= <-] Hoff. change (status_has ky RX_SCHED_TASKLET = false) in Hoff.
      rewrite (Hs y ky) in Hoff; [done|set_solver|done].
    + rewrite lookup_insert_ne by done. apply Hi.
Qed.


(** Tasklet 1 is scheduled, tasklet 2 is enabled and idle. *)
Definition sample_tasklets : kst :=
  set_k_tasklet_list (Some 1%positive)
  (set_k_tasklets (<[1%positive := mk_tl 3 70 0 None None]>
    {[ 2%positive := mk_tl 1 71 0 None None ]}) sample).

Lemma sample_tasklet_list : tasklet_list sample_tasklets [1]%positive.
Proof.
  constructor.
  - split; [done|]. eexists. split; [reflexivity|done].
  - intros x k Hx Hk. apply list_elem_of_singleton in Hx. subst x. vm_compute in Hk. by simplify_eq.
  - intros x k Hk Hoff. cbn in Hk. rewrite lookup_insert in Hk. case_decide; simplify_eq.
    apply lookup_singleton_Some in Hk as [_ <-]. done.
Qed.


(** ** Disabling *)

(** The links of a tasklet's neighbours change, nothing else. *)
Definition tl_relinked (l : list positive) (m m' : gmap positive tasklet) : Prop :=
  forall x, m' !! x = m !! x \/
    (x ∈ l /\ exists k n p, m !! x = Some k /\ m' !! x = Some (set_tl_next n (set_tl_prev p k))).

Lemma tl_links_id k : set_tl_next (tl_next k) (set_tl_prev (tl_prev k) k) = k.
Proof. by destruct k. Qed.

Lemma unlink_mid_run s l y t z l2 k ky kz :
  dchain tl_next tl_prev (k_tasklets s) (k_tasklet_list s) ((l ++ [y]) ++ t :: z :: l2) ->
  k_tasklets s !! t = Some k -> k_tasklets s !! y = Some ky -> k_tasklets s !! z = Some kz ->
  tl_prev k = Some y -> tl_next k = Some z -> y <> t -> t <> z -> y <> z ->
  tasklet_unlink (Some t) s = Done tt (set_k_tasklets
    (<[t := set_tl_next None (set_tl_prev None k)]> (<[z := set_tl_prev (Some y) kz]>
      (<[y := set_tl_next (Some z) ky]> (k_tasklets s)))) s).
Proof.
  intros Hd Ht Hy Hz Hp Hn ???. unfold tasklet_unlink. step. rewrite Hp, Hn.
  repeat (step; rewrite ?Hp, ?Hn).
  rewrite insert_insert_eq. done.
Qed.

Lemma tasklet_unlink_run s l1 t l2 k :
  dchain tl_next tl_prev (k_tasklets s) (k_tasklet_list s) (l1 ++ t :: l2) ->
  k_tasklets s !! t = Some k ->
  exists m h,
    tasklet_unlink (Some t) s = Done tt (set_k_tasklet_list h (set_k_tasklets
      (<[t := set_tl_next None (set_tl_prev None k)]> m) s)) /\
    dchain tl_next tl_prev m h (l1 ++ l2) /\ tl_relinked (l1 ++ l2) (k_tasklets s) m.
Proof.
  intros Hd Ht. assert (Hnd := dchain_NoDup _ _ _ _ _ Hd).
  destruct (dchain_mid _ _ _ _ _ _ _ Hd) as (k' & ? & Hp & Hn & Hd1 & Hd2). simplify_eq.
  pose proof (chain_head _ _ _ _ (dchain_chain _ _ _ _ _ Hd)) as Hh.
  unfold tl_relinked.
  destruct (last_snoc_inv l1) as [->|(l & y & ->)]; destruct l2 as [|z l2];
    cbn [app] in *; rewrite ?last_snoc in Hp; cbn [head last] in Hp, Hn.
  - exists (k_tasklets s), None. split_and!; [|done|by left].
    unfold tasklet_unlink. step. rewrite Hp, Hn. repeat step.
    rewrite insert_insert_eq. done.
  - destruct Hd2 as (_ & kz & Hz & Hpz & Hd2). rewrite !NoDup_cons in Hnd.
    assert (t <> z) by set_solver.
    exists (<[z := set_tl_prev None kz]> (k_tasklets s)), (Some z). split_and!.
    + unfold tasklet_unlink. step. rewrite Hp, Hn. repeat (step; rewrite ?Hp, ?Hn).
      rewrite insert_insert_eq. done.
    + by eapply dchain_pop.
    + intros x. rewrite lookup_insert. case_decide; [subst x; right|by left].
      split; [left|]. exists kz, (tl_next kz), None. by destruct kz.
  - destruct (seg_lookup _ _ _ _ _ y (dseg_seg _ _ _ _ _ _ _ Hd) ltac:(set_solver)) as [ky Hy].
    apply NoDup_app in Hnd as (Hn1 & Hd12 & _). apply NoDup_app in Hn1 as (_ & Hd1' & _).
    assert (y <> t) by (intros ->; apply (Hd12 t); set_solver).
    assert (y ∉ l) by (intros ?; apply (Hd1' y); [done|set_solver]).
    exists (<[y := set_tl_next None ky]> (k_tasklets s)), (k_tasklet_list s). split_and!.
    + unfold tasklet_unlink. step. rewrite Hp, Hn. repeat (step; rewrite ?Hp, ?Hn).
      rewrite insert_insert_eq. by destruct s.
    + rewrite app_nil_r. by eapply dseg_relink_last.
    + intros x. rewrite lookup_insert. case_decide; [subst x; right|by left].
      split; [set_solver|]. exists ky, None, (tl_prev ky). by destruct ky.
  - destruct (seg_lookup _ _ _ _ _ y (dseg_seg _ _ _ _ _ _ _ Hd) ltac:(set_solver)) as [ky Hy].
    destruct Hd2 as (_ & kz & Hz & Hpz & Hd2).
    apply NoDup_app in Hnd as (_ & Hd12 & Hn2). rewrite !NoDup_cons in Hn2.
    assert (y <> t) by (intros ->; apply (Hd12 t); set_solver).
    assert (y <> z) by (intros ->; apply (Hd12 z); set_solver). assert (t <> z) by set_solver.
    exists (<[z := set_tl_prev (Some y) kz]> (<[y := set_tl_next (Some z) ky]> (k_tasklets s))),
      (k_tasklet_list s). split_and!.
    + erewrite unlink_mid_run by eassumption. by destruct s.
    + by eapply dchain_unlink.
    + intros x. rewrite lookup_insert. case_decide; [subst x|].
      { right. split; [set_solver|]. exists kz, (tl_next kz), (Some y). by destruct kz. }
      rewrite lookup_insert. case_decide; [subst x|by left].
      right. split; [set_solver|]. exists ky, (Some z), (tl_prev ky). by destruct ky.
Qed.

(** Disabling a scheduled tasklet takes it out of the list wherever it
    stands, clears its links and its status and keeps the list's invariant: the
    others stay scheduled in order. *)
Theorem disable_tasklet_unlinks s l1 t l2 :
  tasklet_list s (l1 ++ t :: l2) ->
  exists s' k',
    rx_disable_tasklet (Some t) s = Done tt s' /\ tasklet_list s' (l1 ++ l2) /\
    k_tasklets s' !! t = Some k' /\ tl_status k' = RX_DISABLE_TASKLET.
Proof.
  intros [Hd Hs Hi]. destruct (dchain_mid _ _ _ _ _ _ _ Hd) as (k & Ht & _).
  pose proof (nodup_mid _ _ _ (dchain_NoDup _ _ _ _ _ Hd)) as Hni.
  pose proof (Hs t k ltac:(set_solver) Ht) as Hon.
  unfold rx_disable_tasklet. erewrite bind_run by apply enter_run. step.
  rewrite decide_True by (intros E; unfold status_has in Hon; by rewrite E in Hon).
  rewrite Hon. set (s1 := set_k_critical _ s).
  destruct (tasklet_unlink_run s1 l1 t l2 k Hd Ht) as (m & h & E & Hd' & Hr).
  step. erewrite bind_run by exact E. erewrite modify_run by lk. cbn [obind]. rewrite exit_run.
  eexists _, _. split_and!; [reflexivity| |apply lookup_insert_eq|done].
  constructor; norm; rewrite ?insert_insert_eq.
  - by apply dseg_insert_ne.
  - intros x kx Hx. rewrite lookup_insert_ne by (by intros ->). intros Hkx.
    assert (Hin : x ∈ l1 ++ t :: l2) by set_solver.
    destruct (Hr x) as [E1|(_ & k0 & n & p & E0 & E1)]; rewrite E1 in Hkx; [by eapply Hs|].
    simplify_eq. exact (Hs x k0 Hin E0).
  - intros x kx. rewrite lookup_insert. case_decide as Hxt; [intros [= <-] _; done|].
    intros Hkx Hoff. destruct (Hr x) as [E1|(Hin & k0 & n & p & E0 & E1)]; rewrite E1 in Hkx.
    { by eapply Hi. }
    simplify_eq. change (status_has k0 RX_SCHED_TASKLET = false) in Hoff.
    rewrite (Hs x k0) in Hoff; [done|set_solver|done].
Qed.

Lemma disable_tasklet_unlinks_witness :
  exists s' k',
    rx_disable_tasklet (Some 1%positive) sample_tasklets = Done tt s' /\ tasklet_list s' [] /\
    k_tasklets s' !! 1%positive = Some k' /\ tl_status k' = RX_DISABLE_TASKLET.
Proof. apply (disable_tasklet_unlinks sample_tasklets [] 1 []), sample_tasklet_list. Defined.

(** ** The bottom-half thread *)

(** The status of a tasklet while its function runs, and afterwards. *)
Definition running (k : tasklet) : tasklet :=
  set_tl_status (Z.land (Z.lor (tl_status k) RX_RUNNING_TASKLET) (Z.lnot RX_SCHED_TASKLET)) k.
Definition after_run (k : tasklet) : tasklet :=
  set_tl_status (Z.land (tl_status (running k)) (Z.lnot RX_RUNNING_TASKLET)) k.

(** One round of the thread when the function called leaves the kernel's state
    alone: the tasklet leaves the list and keeps its links. *)
Lemma bh_run_run (call : Z -> Z -> M unit) s a k :
  (forall f d s0, call f d s0 = Done tt s0) ->
  k_tasklet_list s = Some a -> k_tasklets s !! a = Some k ->
  bh_run call s = Done tt (set_k_critical (crit_out s) (set_k_tasklet_list (tl_next k)
    (set_k_tasklets (<[a := after_run k]> (k_tasklets s)) s))).
Proof.
  intros Hcall Hh Ha. unfold bh_run. erewrite bind_run by apply enter_run. step. rewrite Hh.
  do 4 step. erewrite bind_run by apply exit_run. step. erewrite bind_run by apply Hcall.
  erewrite bind_run by apply enter_run. step. rewrite exit_run, !insert_insert_eq.
  crit_eq.
Qed.

(** The bottom-half thread takes the first tasklet out of the list without
    clearing its link: when two tasklets are scheduled and the first is scheduled
    again after it has run (its function leaves the list alone), the list becomes
    a cycle: each of the two is the successor of the other. *)
Theorem bh_reschedule_makes_cycle (call : Z -> Z -> M unit) s a b ka kb :
  (forall f d s0, call f d s0 = Done tt s0) ->
  tasklet_list s [a; b] -> k_tasklets s !! a = Some ka -> k_tasklets s !! b = Some kb ->
  tl_status ka = 3 ->
  exists s1 s2 ka' kb',
    bh_run call s = Done tt s1 /\ rx_schedule_tasklet (Some a) s1 = Done tt s2 /\
    k_tasklet_list s2 = Some b /\
    k_tasklets s2 !! a = Some ka' /\ tl_next ka' = Some b /\
    k_tasklets s2 !! b = Some kb' /\ tl_next kb' = Some a.
Proof.
  intros Hcall [Hd Hs Hi] Ha Hb Hst. pose proof (dchain_NoDup _ _ _ _ _ Hd) as Hnd.
  destruct (dchain_mid _ _ _ _ [] a [b] Hd) as (k & ? & _ & Hna & _). simplify_eq.
  destruct (dchain_mid _ _ _ _ [a] b [] Hd) as (k & ? & _ & Hnb & _). simplify_eq.
  cbn [head] in Hna, Hnb. rewrite !NoDup_cons in Hnd. assert (Hab : a <> b) by set_solver.
  pose proof (chain_head _ _ _ _ (dchain_chain _ _ _ _ _ Hd)) as Hh. cbn [head] in Hh.
  rewrite (bh_run_run call s a ka) by done. set (s1 := set_k_critical _ _). exists s1.
  assert (Hst1 : tl_status (after_run ka) = 1) by (unfold after_run, running; cbn; by rewrite Hst).
  unfold rx_schedule_tasklet. erewrite bind_run by apply enter_run. unfold s1. step.
  unfold status_has at 1 2. rewrite Hst1. change (negb (negb (Z.land 1 RX_SCHED_TASKLET =? 0)) &&
    negb (Z.land 1 RX_ENABLE_TASKLET =? 0)) with true. cbn iota. do 3 step. rewrite Hna. repeat step.
  erewrite bind_run; cycle 1.
  { apply (tasklet_tail_run _ _ _ [] b); [cbn [length]; unfold tasklet_fuel; lia|].
    split; [done|]. exists kb. norm. rewrite !lookup_insert_ne by done. done. }
  repeat step. rewrite exit_run. eexists _, _, _. split_and!; [done|reflexivity|done|lk|done|lk|done].
Qed.

(** Two tasklets, both scheduled. *)
Definition sample_two_tasklets : kst :=
  set_k_tasklet_list (Some 1%positive)
  (set_k_tasklets (<[1%positive := mk_tl 3 70 0 (Some 2%positive) None]>
    {[ 2%positive := mk_tl 3 71 0 None (Some 1%positive) ]}) sample).

Lemma sample_two_tasklet_list : tasklet_list sample_two_tasklets [1; 2]%positive.
Proof.
  assert (Hall : forall x k, k_tasklets sample_two_tasklets !! x = Some k -> tl_status k = 3).
  { intros x k Hk. cbn in Hk. rewrite lookup_insert in Hk. case_decide; simplify_eq; [done|].
    by apply lookup_singleton_Some in Hk as [_ <-]. }
  constructor.
  - split; [done|]. eexists. split; [reflexivity|]. split; [done|]. split; [done|].
    eexists. split; [reflexivity|done].
  - intros x k _ Hk. unfold status_has. by rewrite (Hall x k Hk).
  - intros x k Hk. unfold status_has. by rewrite (Hall x k Hk).
Qed.

Lemma bh_reschedule_makes_cycle_witness :
  exists s1 s2 ka' kb',
    bh_run (fun _ _ => ret tt) sample_two_tasklets = Done tt s1 /\
    rx_schedule_tasklet (Some 1%positive) s1 = Done tt s2 /\
    k_tasklet_list s2 = Some 2%positive /\
    k_tasklets s2 !! 1%positive = Some ka' /\ tl_next ka' = Some 2%positive /\
    k_tasklets s2 !! 2%positive = Some kb' /\ tl_next kb' = Some 1%positive.
Proof.
  by apply (bh_reschedule_makes_cycle (fun _ _ => ret tt) sample_two_tasklets 1 2
    (mk_tl 3 70 0 (Some 2%positive) None) (mk_tl 3 71 0 None (Some 1%positive)));
    [|apply sample_two_tasklet_list|..].
Defined.
