(* ===== verification/Blockpool.v ===== *)
(** * Block pools (src/kernel/rx_blockpool.c)

    A pool hands out blocks of one size.  Each block is preceded by a header
    ([struct block_chain]): the headers of the free blocks are linked in a list,
    the header of a block in use points to its pool.  The headers live in
    [k_chains], keyed by their address; the contents of the blocks are the
    application's. *)

From stdpp Require Import base gmap list sorting.
From Stdlib Require Import ZArith Lia.
From S2P Require Import Prelude State Samples Chains Port ReadyQueue Sched TaskQueue Task.
#[local] Open Scope Z_scope.
#[local] Open Scope rosx_scope.

Definition BLOCK_POOL_NAME_LEN : Z := 12.
Definition RX_BLOCK_POOL_MAGIC : Z := 1431655765. (* 0x55555555 *)
(** [sizeof(struct block_chain)]: two 32-bit pointers. *)
Definition CHAIN_SIZE : Z := 8.

#[export] Instance bp_waiters : WaitService block_pool.
Proof. by refine {| ws_head := bp_task; ws_set := set_bp_task |}; intros []. Defined.

(** The header at the address [a]. *)
Definition ld_chain (a : Z) : M block_chain := fun s =>
  match k_chains s !! a with
  | Some c => Done c s
  | None => Crash BadAddr
  end.

Definition on_chain (a : Z) (f : block_chain -> block_chain) : M unit := fun s =>
  match k_chains s !! a with
  | Some c => Done tt (set_k_chains (<[a := f c]> (k_chains s)) s)
  | None => Crash BadAddr
  end.

(** Write a header into the raw memory of a pool. *)
Definition new_chain (a block : Z) (next : chain_ptr) : M unit :=
  upd (fun s => set_k_chains (<[a := mk_bc block next]> (k_chains s)) s).

(** The first [BLOCK_POOL_NAME_LEN - 1] characters of a longer name. *)
Definition pool_name (name : list Z) : list Z :=
  if decide (Z.of_nat (length name) > BLOCK_POOL_NAME_LEN - 1)
  then take (Z.to_nat (BLOCK_POOL_NAME_LEN - 1)) name else name.

(** The distance of two blocks, [block_size + sizeof(struct block_chain)]. *)
Definition block_stride (block_size : Z) : Z := u32 (block_size + CHAIN_SIZE).

(** The address of the [i]-th header: [start_of_pool], cast to a pointer to
    [struct block_chain], plus [i * (block_size + sizeof(struct block_chain))],
    which counts headers of [CHAIN_SIZE] bytes. *)
Definition block_addr (start_of_pool block_size i : Z) : Z :=
  u32 (start_of_pool + CHAIN_SIZE * u32 (i * block_stride block_size)).

(** The last [n] rounds of the loop over [i]. *)
Fixpoint create_pool_loop (n : nat) (pool : ptr) (start block_size i : Z) : M unit :=
  match n with
  | O => ret tt
  | S n =>
    let temp := block_addr start block_size i in
    let! p := ld_bp pool in
    (if decide (bp_free_blocks p = CNull) then
       new_chain temp (u32 (temp + CHAIN_SIZE)) CNull ;;;
       on_bp pool (set_bp_free_blocks (CBlock temp))
     else
       new_chain temp (u32 (temp + CHAIN_SIZE)) (bp_free_blocks p) ;;;
       on_bp pool (set_bp_free_blocks (CBlock temp))) ;;;
    create_pool_loop n pool start block_size (i + 1)
  end.

(** [name] is the caller's string without its terminator. *)
Definition rx_create_block_pool (pool_data : ptr) (name : list Z)
    (block_size start_of_pool pool_size : Z) : M Z :=
  if decide (block_size = 0 \/ pool_size = 0 \/ pool_size < block_stride block_size) then
    pr_error ;;;
    ret OS_ERR
  else
    on_bp pool_data (set_bp_name (pool_name name)) ;;;
    on_bp pool_data (set_bp_start_of_pool start_of_pool) ;;;
    on_bp pool_data (set_bp_pool_size pool_size) ;;;
    on_bp pool_data (set_bp_block_size block_size) ;;;
    (if decide (block_stride block_size = 0) then crash DivByZero
     else on_bp pool_data (set_bp_available (pool_size / block_stride block_size))) ;;;
    on_bp pool_data (set_bp_free_blocks CNull) ;;;
    let! p := ld_bp pool_data in
    create_pool_loop (Z.to_nat (bp_available p)) pool_data start_of_pool block_size 0 ;;;
    on_bp pool_data (set_bp_magic RX_BLOCK_POOL_MAGIC) ;;;
    ret OS_OK.

Definition rx_delete_block_pool (pool_data : ptr) : M Z :=
  let! imask := rx_enter_critical in
  let! p := ld_bp pool_data in
  if decide (bp_magic p = RX_BLOCK_POOL_MAGIC) then
    on_bp pool_data (set_bp_magic 0) ;;;
    rx_exit_critical imask ;;;
    ret OS_OK
  else
    rx_exit_critical imask ;;;
    ret OS_ERR.

(** The result is the return value and what is stored through [block_ptr], if
    anything.  A task that has to wait is taken off the ready queue, and the
    function goes on in it: the scheduler is not called. *)
Definition rx_allocate_block (pool_data : ptr) (flags : Z) : M (Z * option Z) :=
  let! imask := rx_enter_critical in
  let! p := ld_bp pool_data in
  if decide (bp_magic p <> RX_BLOCK_POOL_MAGIC) then
    rx_exit_critical imask ;;;
    ret (OS_ERR, None)
  else
    match bp_free_blocks p with
    | CNull =>
      if decide (flags = OS_NO_WAIT) then
        rx_exit_critical imask ;;;
        ret (OS_ERR, None)
      else
        let! curr := gets k_curr in
        on_task curr (set_t_state RX_TASK_SUSPEND) ;;;
        on_task curr (set_t_bpool pool_data) ;;;
        let! _ := __rx_remove_from_ready_q curr in
        on_task curr (set_t_next None) ;;;
        enqueue_on block_pool pool_data curr ;;;
        rx_exit_critical imask ;;;
        ret (OS_OK, None)
    | CBlock temp =>
      let! c := ld_chain temp in
      on_bp pool_data (set_bp_free_blocks (bc_next c)) ;;;
      (match pool_data with
       | Some q => on_chain temp (set_bc_next (CPool q))
       | None => crash NullDeref
       end) ;;;
      let! c := ld_chain temp in
      on_bp pool_data (fun p => set_bp_available (u32 (bp_available p - 1)) p) ;;;
      rx_exit_critical imask ;;;
      ret (OS_OK, Some (bc_block c))
    | CPool _ => crash WildPtr
    end.

(** What a header's [next] points to, taken for a [struct block_pool]: its
    [magic].  A free block's successor is a header, whose first word is its
    [block]. *)
Definition magic_of (p : chain_ptr) : M Z :=
  match p with
  | CNull => crash NullDeref
  | CBlock a => let! c := ld_chain a in ret (bc_block c)
  | CPool q => let! p := ld_bp (Some q) in ret (bp_magic p)
  end.

Definition rx_release_block (block_ptr : Z) : M Z :=
  let start_of_block := u32 (block_ptr - CHAIN_SIZE) in
  let! c := ld_chain start_of_block in
  let! imask := rx_enter_critical in
  let! magic := magic_of (bc_next c) in
  if decide (magic <> RX_BLOCK_POOL_MAGIC) then
    pr_error ;;;
    ret OS_ERR
  else
    match bc_next c with
    | CPool q =>
      let pool_data := Some q in
      let! p := ld_bp pool_data in
      (if decide (bp_free_blocks p = CNull) then
         on_bp pool_data (set_bp_free_blocks (CBlock start_of_block)) ;;;
         on_chain start_of_block (set_bc_next CNull)
       else
         on_chain start_of_block (set_bc_next (bp_free_blocks p)) ;;;
         on_bp pool_data (set_bp_free_blocks (CBlock start_of_block))) ;;;
      on_bp pool_data (fun p => set_bp_available (u32 (bp_available p + 1)) p) ;;;
      let! p := ld_bp pool_data in
      (match bp_task p with
       | Some _ =>
         let t := bp_task p in
         let! w := ld_task t in
         on_bp pool_data (set_bp_task (t_next w)) ;;;
         on_task t (set_t_state RX_TASK_READY) ;;;
         on_task t (set_t_bpool None) ;;;
         let! _ := __rx_add_to_ready_q t in
         ret tt
       | None => ret tt
       end) ;;;
      rx_exit_critical imask ;;;
      ret OS_OK
    | _ => crash WildPtr
    end.

Definition rx_prioritize_block_pool (pool_data : ptr) : M Z := ret OS_OK.

(** ** The free list *)

(** The blocks whose headers are at [fs] are linked in this order from [h], and
    each header points to the block behind it. *)
Fixpoint free_list (m : gmap Z block_chain) (h : chain_ptr) (fs : list Z) : Prop :=
  match fs with
  | [] => h = CNull
  | a :: fs => h = CBlock a /\ exists c, m !! a = Some c /\ bc_block c = u32 (a + CHAIN_SIZE) /\
      free_list m (bc_next c) fs
  end.

(** The pool [p] is live, the headers at [fs] are free, those at [us] in use,
    and the tasks [ws] wait for a block. *)
Record pool_rep (s : kst) (p : positive) (fs us : list Z) (ws : list positive) : Prop := {
  pr_pool : exists o, k_pools s !! p = Some o /\ bp_magic o = RX_BLOCK_POOL_MAGIC /\
    bp_available o = Z.of_nat (length fs) /\
    free_list (k_chains s) (bp_free_blocks o) fs /\
    waiting (fun t => t_state t = RX_TASK_SUSPEND /\ t_bpool t = Some p) (k_tasks s) (bp_task o) ws;
  pr_used : forall a, a ∈ us -> k_chains s !! a = Some (mk_bc (u32 (a + CHAIN_SIZE)) (CPool p));
  pr_addr : forall a, a ∈ fs ++ us -> 0 <= a < 2 ^ 32;
  pr_nodup : NoDup (fs ++ us);
  pr_count : Z.of_nat (length (fs ++ us)) < 2 ^ 32;
}.

Lemma free_list_insert m h fs a c : a ∉ fs -> free_list m h fs -> free_list (<[a := c]> m) h fs.
Proof.
  revert h. induction fs as [|b fs IH]; intros h Hni; [done|].
  intros (-> & cb & Hb & Hbb & Hf). apply not_elem_of_cons in Hni as [Hab Hni].
  split; [done|]. exists cb. rewrite lookup_insert_ne by done. split_and!; auto.
Qed.

Lemma chain_load_run {B} a c (k : block_chain -> M B) s :
  k_chains s !! a = Some c -> bind (ld_chain a) k s = k c s.
Proof. intros E. unfold bind, ld_chain. by rewrite E. Qed.

Lemma chain_store_run {B} a c f (k : unit -> M B) s :
  k_chains s !! a = Some c ->
  bind (on_chain a f) k s = k tt (set_k_chains (<[a := f c]> (k_chains s)) s).
Proof. intros E. unfold bind, on_chain. by rewrite E. Qed.

Lemma unshift a : 0 <= a < 2 ^ 32 -> u32 (u32 (a + CHAIN_SIZE) - CHAIN_SIZE) = a.
Proof. intros. unfold u32. rewrite Zminus_mod_idemp_l, Z.add_simpl_r. by apply Z.mod_small. Qed.

(** Taking the first free block. *)
Lemma allocate_run s p a fs us ws flags :
  pool_rep s p (a :: fs) us ws ->
  exists s', rx_allocate_block (Some p) flags s = Done (OS_OK, Some (u32 (a + CHAIN_SIZE))) s' /\
    pool_rep s' p fs (a :: us) ws /\ k_tasks s' = k_tasks s /\ k_ready s' = k_ready s /\
    k_critical s' = crit_out s.
Proof.
  intros [(o & Ho & Hm & Hav & (Hh & c & Ha & Hb & Hf) & Hw) Hu Haddr Hnd Hcnt].
  unfold rx_allocate_block. erewrite bind_run by apply enter_run. step.
  rewrite decide_False by (intros Hne; by apply Hne). rewrite Hh.
  erewrite chain_load_run by exact Ha. step. erewrite chain_store_run by exact Ha.
  erewrite chain_load_run by apply lookup_insert_eq. step.
  erewrite bind_run by apply exit_run. eexists. split; [unfold ret; cbn [bc_block set_bc_next]; by rewrite Hb|].
  cbn [app] in *. assert (Hperm : fs ++ a :: us ≡ₚ a :: fs ++ us) by (symmetry; apply Permutation_middle).
  pose proof Hnd as [Hni _]%NoDup_cons. rewrite elem_of_app in Hni.
  split; [constructor|crit_eq; split_and!; done].
  - eexists. split; [rewrite insert_insert_eq; apply lookup_insert_eq|]. cbn -[length].
    split_and!; [done| | |done].
    + rewrite Hav. simpl length in Hcnt |- *. rewrite length_app in Hcnt. rewrite u32_small; lia.
    + apply free_list_insert; [tauto|done].
  - intros b [->|Hb']%elem_of_cons.
    + norm. rewrite lookup_insert_eq. unfold set_bc_next. by rewrite Hb.
    + norm. rewrite lookup_insert_ne by (intros ->; tauto). by apply Hu.
  - intros b Hb'. apply Haddr. by rewrite Hperm in Hb'.
  - by rewrite Hperm.
  - by rewrite Hperm.
Qed.

(** C35: Allocation.  When a block is free the call takes the first one in
    constant time, whatever the flags: it returns its address, marks its header
    with the pool and counts it.  When none is free, [OS_NO_WAIT] returns
    [OS_ERR] and changes nothing. *)
Theorem allocate_block_takes_free s p fs us ws flags :
  pool_rep s p fs us ws ->
  match fs with
  | a :: fs' =>
    exists s', rx_allocate_block (Some p) flags s = Done (OS_OK, Some (u32 (a + CHAIN_SIZE))) s' /\
      pool_rep s' p fs' (a :: us) ws /\ k_tasks s' = k_tasks s /\ k_ready s' = k_ready s
  | [] => flags = OS_NO_WAIT ->
    rx_allocate_block (Some p) flags s = Done (OS_ERR, None) (set_k_critical (crit_out s) s)
  end.
Proof.
  intros Hp. destruct fs as [|a fs].
  - intros ->. destruct Hp as [(o & Ho & Hm & _ & Hf & _) _ _ _ _]. simpl in Hf.
    unfold rx_allocate_block. erewrite bind_run by apply enter_run. step.
    rewrite decide_False by (intros Hne; by apply Hne). rewrite Hf, decide_True by done.
    erewrite bind_run by apply exit_run. crit_eq.
  - destruct (allocate_run s p a fs us ws flags Hp) as (s' & E & H & ? & ? & _). eauto.
Qed.

(** A block has been put back and the tasks [r] are left waiting. *)
Lemma pool_rep_freed s s' p fs us1 a us2 ws o h r :
  pool_rep s p fs (us1 ++ a :: us2) ws -> k_pools s !! p = Some o ->
  k_pools s' = <[p := set_bp_task h (set_bp_available (u32 (bp_available o + 1))
                        (set_bp_free_blocks (CBlock a) o))]> (k_pools s) ->
  k_chains s' = <[a := mk_bc (u32 (a + CHAIN_SIZE)) (bp_free_blocks o)]> (k_chains s) ->
  waiting (fun t => t_state t = RX_TASK_SUSPEND /\ t_bpool t = Some p) (k_tasks s') h r ->
  pool_rep s' p (a :: fs) (us1 ++ us2) r.
Proof.
  intros [(o' & ? & Hm & Hav & Hf & _) Hu Haddr Hnd Hcnt] Ho Ep Ec Hw. simplify_eq.
  assert (Hperm : fs ++ us1 ++ a :: us2 ≡ₚ (a :: fs) ++ us1 ++ us2).
  { cbn [app]. rewrite !app_assoc. symmetry. apply Permutation_middle. }
  assert (Hni : a ∉ fs ++ us1 ++ us2) by (rewrite Hperm in Hnd; by apply NoDup_cons in Hnd as [? _]).
  rewrite !elem_of_app in Hni. constructor; rewrite ?Ep, ?Ec.
  - eexists. split; [apply lookup_insert_eq|]. cbn -[length]. split_and!; [done| |done| |done].
    + rewrite Hav. rewrite !length_app in Hcnt. simpl in Hcnt |- *. rewrite u32_small; lia.
    + eexists. split; [apply lookup_insert_eq|]. split; [done|].
      apply free_list_insert; [tauto|done].
  - intros b Hb. rewrite elem_of_app in Hb. rewrite lookup_insert_ne by (intros ->; tauto).
    apply Hu. rewrite elem_of_app, elem_of_cons. tauto.
  - intros b. rewrite <- Hperm. apply Haddr.
  - by rewrite <- Hperm.
  - by rewrite <- Hperm.
Qed.

(** C36: Releasing a block in use puts it at the head of the pool's free list and
    counts it.  When tasks wait for a block, the first of them leaves the pool's
    queue and joins the ready queue by its priority. *)
Theorem release_block_frees s p fs us1 a us2 ws rl :
  pool_rep s p fs (us1 ++ a :: us2) ws -> ready_queue (k_tasks s) (k_ready s) rl ->
  exists s', rx_release_block (u32 (a + CHAIN_SIZE)) s = Done OS_OK s' /\
    pool_rep s' p (a :: fs) (us1 ++ us2) (tail ws) /\
    match ws with
    | [] => k_tasks s' = k_tasks s /\ k_ready s' = k_ready s
    | w :: _ => exists tw tw', k_tasks s !! w = Some tw /\
        ready_queue (k_tasks s') (k_ready s') (ins (k_tasks s) (t_prio tw) w rl) /\
        k_tasks s' !! w = Some tw' /\ t_state tw' = RX_TASK_READY
    end.
Proof.
  intros Hp Hq. pose proof Hp as [(o & Ho & Hm & Hav & Hf & Hw) Hu Haddr _ _].
  assert (Ha : a ∈ us1 ++ a :: us2) by (apply elem_of_app; right; left).
  pose proof (Hu a Ha) as Hca. unfold rx_release_block.
  rewrite unshift by (apply Haddr, elem_of_app; by right).
  erewrite chain_load_run by exact Hca. erewrite bind_run by apply enter_run.
  unfold magic_of. cbn [bc_next]. repeat step. rewrite decide_False by (intros Hne; by apply Hne).
  step. match goal with |- context [if decide (bp_free_blocks o = CNull) then ?m1 else ?m2] =>
    set (put_back := if decide (bp_free_blocks o = CNull) then m1 else m2) end.
  match goal with |- context [bind put_back _ ?st] => set (s0 := st) end.
  assert (Ep : put_back s0 = Done tt (set_k_pools (<[p := set_bp_free_blocks (CBlock a) o]> (k_pools s))
    (set_k_chains (<[a := mk_bc (u32 (a + CHAIN_SIZE)) (bp_free_blocks o)]> (k_chains s)) s0))).
  { unfold put_back. case_decide as Hnil.
    - rewrite Hnil. step. unfold on_chain. norm. by rewrite Hca.
    - erewrite chain_store_run by exact Hca. by erewrite modify_run by lk. }
  clearbody put_back. erewrite bind_run by exact Ep. do 2 step. rewrite insert_insert_eq.
  change (bp_task (set_bp_available _ _)) with (bp_task o).
  change (bp_available (set_bp_free_blocks _ o)) with (bp_available o).
  destruct ws as [|w ws].
  - pose proof (chain_head _ _ _ _ (wt_chain _ _ _ _ Hw)) as Hn. cbn [head] in Hn. rewrite Hn.
    step. erewrite bind_run by apply exit_run. eexists. split; [reflexivity|]. split; [|done].
    eapply (pool_rep_freed s _ p fs us1 a us2 []); [exact Hp|exact Ho| |reflexivity|apply waiting_nil].
    norm. by rewrite <- Hn.
  - pose proof (waiting_disjoint _ _ _ _ _ _ Hw Hq) as Hdis.
    pose proof (waiting_cons _ _ _ _ _ Hw) as (Hh & Hni & tw & Htw & _ & _ & Hw'). rewrite Hh.
    do 5 step. rewrite !insert_insert_eq. set (tw' := set_t_bpool None _).
    match goal with |- context [obind (bind (__rx_add_to_ready_q _) _ ?st)] => set (s1 := st) end.
    destruct (make_ready s1 (k_tasks s) rl w tw') as (ts2 & n & E2 & Hq2 & Hr2 & Hw2);
      [done|apply Hdis; left|by left|done|].
    erewrite bind_run by exact E2. unfold rq_upd. step. erewrite bind_run by apply exit_run.
    eexists. split; [reflexivity|]. split; [|exists tw; eexists; split_and!; [done|exact Hq2|exact Hw2|done]].
    eapply (pool_rep_freed s _ p fs us1 a us2); [exact Hp|exact Ho|reflexivity|reflexivity|].
    eapply waiting_relinked; [exact Hr2| |by apply waiting_insert].
    intros x Hx [->|Hx']%elem_of_cons; [done|]. apply (Hdis x); [by right|done].
Qed.

(** ** Creation *)

Section Create.
  Context (start block_size pool_size : Z).
  Context (Hbs : 0 < block_size) (Hst : 0 <= start).
  Context (Hsz : block_size + CHAIN_SIZE <= pool_size) (Hend : start + CHAIN_SIZE * pool_size < 2 ^ 32).

(** The address of the [i]-th header, and those of the [n] headers from the
    [i]-th on. *)
Definition header (i : Z) : Z := start + CHAIN_SIZE * (i * (block_size + CHAIN_SIZE)).
Definition headers (i : Z) (n : nat) : list Z := header <$> seqZ i (Z.of_nat n).

Lemma stride_small : block_stride block_size = block_size + CHAIN_SIZE.
Proof. unfold block_stride. unfold CHAIN_SIZE in *. rewrite u32_small; lia. Qed.

Lemma header_addr i :
  0 <= i < pool_size / (block_size + CHAIN_SIZE) ->
  block_addr start block_size i = header i /\ 0 <= header i < 2 ^ 32.
Proof.
  intros Hi. unfold block_addr, header. rewrite stride_small. unfold CHAIN_SIZE in *.
  assert (Hm : i * (block_size + 8) <= pool_size).
  { pose proof (Z.mul_div_le pool_size (block_size + 8) ltac:(lia)). nia. }
  assert (0 <= i * (block_size + 8)) by nia.
  rewrite (u32_small (i * _)), u32_small; lia.
Qed.

Lemma header_inj i j : header i = header j -> i = j.
Proof. unfold header, CHAIN_SIZE in *. nia. Qed.

Lemma headers_S i n : headers i (S n) = header i :: headers (i + 1) n.
Proof.
  unfold headers. rewrite seqZ_cons by lia. rewrite fmap_cons.
  do 2 f_equal. f_equal; lia.
Qed.

Lemma elem_of_headers a i n : a ∈ headers i n <-> exists j, a = header j /\ i <= j < i + Z.of_nat n.
Proof. unfold headers. rewrite list_elem_of_fmap. setoid_rewrite elem_of_seqZ. done. Qed.

Lemma create_loop_run n i s p o fs :
  0 <= i -> i + Z.of_nat n <= pool_size / (block_size + CHAIN_SIZE) ->
  k_pools s !! p = Some o -> free_list (k_chains s) (bp_free_blocks o) fs ->
  (forall j, i <= j -> header j ∉ fs) ->
  exists m h,
    create_pool_loop n (Some p) start block_size i s
      = Done tt (set_k_pools (<[p := set_bp_free_blocks h o]> (k_pools s)) (set_k_chains m s)) /\
    free_list m h (reverse (headers i n) ++ fs).
Proof.
  revert i s o fs. induction n as [|n IH]; intros i s o fs Hi Hin Ho Hf Hni; cbn [create_pool_loop].
  - exists (k_chains s), (bp_free_blocks o). split; [|done]. unfold ret. f_equal.
    rewrite insert_id by (rewrite Ho; by destruct o). by destruct s.
  - destruct (header_addr i ltac:(lia)) as [-> Hr]. step.
    set (a := header i) in *.
    set (s1 := set_k_pools (<[p := set_bp_free_blocks (CBlock a) o]> (k_pools s))
      (set_k_chains (<[a := mk_bc (u32 (a + CHAIN_SIZE)) (bp_free_blocks o)]> (k_chains s)) s)).
    match goal with |- context [bind (if _ then ?m1 else ?m2) ?k _] =>
      assert (E : forall b : {bp_free_blocks o = CNull} + {bp_free_blocks o <> CNull},
        (if b then m1 else m2) s = Done tt s1) end.
    { intros [Hn|Hn]; unfold new_chain; step; rewrite ?Hn; erewrite modify_run by lk;
        unfold s1; by rewrite ?Hn. }
    erewrite bind_run by apply E.
    destruct (IH (i + 1) s1 (set_bp_free_blocks (CBlock a) o) (a :: fs)) as (m & h & Er & Hfl);
      [lia|lia|apply lookup_insert_eq| | |].
    + split; [done|]. eexists. split; [apply lookup_insert_eq|]. split; [done|].
      apply free_list_insert; [|done]. apply Hni. lia.
    + intros j Hj [Hx|Hx]%elem_of_cons; [apply header_inj in Hx; lia|]. apply (Hni j); [lia|done].
    + exists m, h. rewrite Er. split.
      * f_equal. unfold s1. norm. rewrite insert_insert_eq. state_eq.
      * rewrite headers_S, reverse_cons, <- app_assoc. exact Hfl.
Qed.

End Create.

(** The pool's fields after creation, with the free list from [h]. *)
Definition created (name : list Z) (start block_size pool_size : Z) (h : chain_ptr) (o : block_pool) :=
  set_bp_magic RX_BLOCK_POOL_MAGIC (set_bp_free_blocks h
    (set_bp_available (pool_size / (block_size + CHAIN_SIZE)) (set_bp_block_size block_size
      (set_bp_pool_size pool_size (set_bp_start_of_pool start (set_bp_name (pool_name name) o)))))).

Lemma create_pool_run s p o name start block_size pool_size :
  k_pools s !! p = Some o -> 0 < block_size -> 0 <= start ->
  block_size + CHAIN_SIZE <= pool_size -> start + CHAIN_SIZE * pool_size < 2 ^ 32 ->
  exists m h, rx_create_block_pool (Some p) name block_size start pool_size s
      = Done OS_OK (set_k_pools (<[p := created name start block_size pool_size h o]> (k_pools s))
          (set_k_chains m s)) /\
    free_list m h
      (reverse (headers start block_size 0 (Z.to_nat (pool_size / (block_size + CHAIN_SIZE))))).
Proof.
  intros Ho Hbs Hst Hsz Hend. set (n := Z.to_nat _).
  assert (Hn : Z.of_nat n = pool_size / (block_size + CHAIN_SIZE)).
  { unfold n. rewrite Z2Nat.id; [done|]. unfold CHAIN_SIZE in *. apply Z.div_pos; lia. }
  pose proof (stride_small start block_size pool_size Hbs Hst Hsz Hend) as Hs.
  unfold rx_create_block_pool. rewrite Hs, decide_False by (unfold CHAIN_SIZE in *; lia).
  do 4 step. rewrite decide_False by (unfold CHAIN_SIZE in *; lia). do 3 step.
  rewrite !insert_insert_eq. cbn [bp_available set_bp_free_blocks set_bp_available].
  fold n. match goal with |- context [bind (create_pool_loop _ _ _ _ _) _ ?st] => set (s1 := st) end.
  match goal with s1 := context [<[p := ?o1]> (k_pools s)] |- _ => set (o1' := o1) in s1 end.
  destruct (create_loop_run start block_size pool_size Hbs Hst Hsz Hend n 0 s1 p o1' [])
    as (m & h & E & Hf); [lia|lia|apply lookup_insert_eq|done| |].
  { intros j _ ?%elem_of_nil. done. }
  exists m, h. rewrite app_nil_r in Hf. split; [|done].
  erewrite bind_run by exact E. step. unfold ret, s1, created, o1'. norm. rewrite !insert_insert_eq. state_eq.
Qed.

(** Creating a pool of [n = pool_size / (block_size + 8)] blocks makes all
    of them free, none in use, each behind its header, and the headers all
    different, as long as nothing wraps around the 32-bit addresses; the queue of
    tasks is left as it was, so it has to be empty before. *)
Theorem create_pool_all_free s p o name start block_size pool_size :
  k_pools s !! p = Some o -> bp_task o = None -> 0 < block_size -> 0 <= start ->
  block_size + CHAIN_SIZE <= pool_size -> start + CHAIN_SIZE * pool_size < 2 ^ 32 ->
  exists s', rx_create_block_pool (Some p) name block_size start pool_size s = Done OS_OK s' /\
    pool_rep s' p
      (reverse (headers start block_size 0 (Z.to_nat (pool_size / (block_size + CHAIN_SIZE))))) [] [].
Proof.
  intros Ho Htask Hbs Hst Hsz Hend.
  destruct (create_pool_run s p o name start block_size pool_size) as (m & h & E & Hf); [done..|].
  set (n := Z.to_nat _) in *.
  assert (Hn : Z.of_nat n = pool_size / (block_size + CHAIN_SIZE)).
  { unfold n. rewrite Z2Nat.id; [done|]. unfold CHAIN_SIZE in *. apply Z.div_pos; lia. }
  assert (Hlen : length (reverse (headers start block_size 0 n)) = n).
  { unfold headers. rewrite length_reverse, length_fmap, length_seqZ. lia. }
  eexists. split; [exact E|]. constructor; rewrite ?app_nil_r.
  - eexists. split; [apply lookup_insert_eq|]. cbn -[length]. split_and!; [done| |done|].
    + rewrite Hlen. lia.
    + rewrite Htask. apply waiting_nil.
  - intros a Ha%elem_of_nil. done.
  - intros a. rewrite elem_of_reverse, elem_of_headers.
    intros (j & -> & Hj). eapply (header_addr start block_size pool_size); eauto. lia.
  - rewrite reverse_Permutation. unfold headers. apply NoDup_fmap_2_strong; [|apply NoDup_seqZ].
    intros i j _ _ Hij. by eapply (header_inj start block_size).
  - rewrite Hlen, Hn. unfold CHAIN_SIZE in *.
    apply Z.le_lt_trans with pool_size; [|lia]. apply Z.div_le_upper_bound; nia.
Qed.

(** A pool of two or more blocks does not stay in its memory: the index of a
    header is scaled by the size of a header, so the header of the last block lies
    behind the end of the pool. *)
Theorem create_pool_overruns s p o name start block_size pool_size :
  k_pools s !! p = Some o -> 0 < block_size -> 0 <= start ->
  block_size + CHAIN_SIZE <= pool_size -> start + CHAIN_SIZE * pool_size < 2 ^ 32 ->
  2 <= pool_size / (block_size + CHAIN_SIZE) ->
  exists s' o' a, rx_create_block_pool (Some p) name block_size start pool_size s = Done OS_OK s' /\
    k_pools s' !! p = Some o' /\ bp_free_blocks o' = CBlock a /\ start + pool_size <= a.
Proof.
  intros Ho Hbs Hst Hsz Hend H2.
  destruct (create_pool_run s p o name start block_size pool_size) as (m & h & E & Hf); [done..|].
  set (n := pool_size / _) in *. replace (Z.to_nat n) with (Z.to_nat (n - 1) + 1)%nat in Hf by lia.
  unfold headers in Hf. rewrite Nat2Z.inj_add, seqZ_app, fmap_app, reverse_app in Hf by lia.
  rewrite Z2Nat.id in Hf by lia. rewrite seqZ_cons, (seqZ_nil _ (Z.pred _)) in Hf by lia.
  destruct Hf as (-> & _). eexists _, _, _. split_and!; [exact E|apply lookup_insert_eq|reflexivity|].
  unfold header, CHAIN_SIZE in *.
  pose proof (Z.div_mod pool_size (block_size + 8) ltac:(lia)) as Hdm. fold n in Hdm.
  pose proof (Z.mod_pos_bound pool_size (block_size + 8) ltac:(lia)). nia.
Qed.

(** ** A small pool *)

(** Pool 9 at the address 4096, 48 bytes of memory: two blocks of 16 bytes. *)
Definition sample_bp : block_pool := mk_bp 0 [] 0 0 0 0 CNull None.
Definition sample_pool : kst := set_k_pools {[ 9%positive := sample_bp ]} sample.

Lemma create_pool_all_free_witness :
  exists s', rx_create_block_pool (Some 9%positive) [112] 16 4096 48 sample_pool = Done OS_OK s' /\
    pool_rep s' 9 [4288; 4096] [] [].
Proof.
  apply (create_pool_all_free sample_pool 9 sample_bp [112] 4096 16 48); done.
Defined.

Lemma create_pool_overruns_witness :
  exists s' o' a, rx_create_block_pool (Some 9%positive) [112] 16 4096 48 sample_pool = Done OS_OK s' /\
    k_pools s' !! 9%positive = Some o' /\ bp_free_blocks o' = CBlock a /\ 4096 + 48 <= a.
Proof.
  apply (create_pool_overruns sample_pool 9 sample_bp [112] 4096 16 48); done.
Defined.

(** The same pool with one block in use and task 4 waiting for a block. *)
Definition sample_pool_used : kst :=
  set_k_tasks (<[4%positive := set_t_bpool (Some 9%positive) (task 2 RX_TASK_SUSPEND None)]> tasks3)
  (set_k_chains (<[4096 := mk_bc 4104 CNull]> {[ 4288 := mk_bc 4296 (CPool 9) ]})
  (set_k_pools {[ 9%positive := mk_bp RX_BLOCK_POOL_MAGIC [] 4096 48 16 1 (CBlock 4096)
    (Some 4%positive) ]} sample)).

Lemma sample_pool_rep : pool_rep sample_pool_used 9 [4096] [4288] [4]%positive.
Proof.
  constructor.
  - eexists. split; [reflexivity|]. split_and!; [done..| |].
    + split; [done|]. eexists. split; [reflexivity|done].
    + constructor; [by apply chainb_ok; vm_compute|].
      intros x t Hx Ht. apply list_elem_of_singleton in Hx. subst x. vm_compute in Ht.
      simplify_eq. split; [by apply suspended_not_runnable|done].
  - intros a Ha. apply list_elem_of_singleton in Ha. by subst.
  - intros a. cbn [app]. rewrite !elem_of_cons, elem_of_nil. lia.
  - cbn [app]. apply NoDup_cons. rewrite list_elem_of_singleton. split; [lia|apply NoDup_singleton].
  - done.
Qed.

Lemma allocate_block_takes_free_witness :
  exists s', rx_allocate_block (Some 9%positive) OS_NO_WAIT sample_pool_used
      = Done (OS_OK, Some 4104) s' /\
    pool_rep s' 9 [] [4096; 4288] [4]%positive /\ k_tasks s' = k_tasks sample_pool_used /\
    k_ready s' = k_ready sample_pool_used.
Proof.
  exact (allocate_block_takes_free sample_pool_used 9 [4096] [4288] [4]%positive OS_NO_WAIT
    sample_pool_rep).
Defined.

Lemma release_block_frees_witness :
  exists s', rx_release_block 4296 sample_pool_used = Done OS_OK s' /\
    pool_rep s' 9 [4288; 4096] [] [] /\
    exists tw tw', k_tasks sample_pool_used !! 4%positive = Some tw /\
      ready_queue (k_tasks s') (k_ready s')
        (ins (k_tasks sample_pool_used) (t_prio tw) 4 [1; 2; 3]%positive) /\
      k_tasks s' !! 4%positive = Some tw' /\ t_state tw' = RX_TASK_READY.
Proof.
  apply (release_block_frees sample_pool_used 9 [4096] [] 4288 [] [4]%positive [1; 2; 3]%positive
    sample_pool_rep). by apply ready_queueb_ok; vm_compute.
Defined.
