(* ===== verification/Event.v ===== *)
(** * Event groups (src/kernel/rx_event.c)

    A task waits in an event group for the events of its flag.  A notification,
    also from an interrupt, is a message in the system's event queue; the event
    thread reads it, wakes up the wait queues and the task of the group that
    waits for one of the events. *)

From stdpp Require Import base gmap list sorting.
From Stdlib Require Import ZArith Lia.
From S2P Require Import Prelude Mem State Samples Chains Port ReadyQueue Sched TaskQueue Task Timer.
From S2P Require Import Queue Wait.
#[local] Open Scope Z_scope.
#[local] Open Scope rosx_scope.

Definition CONFIG_SYS_EVENT_QUEUE_BLOCKS : Z := 8.
(** [sizeof(struct event)]: a 32-bit pointer and a 32-bit flag. *)
Definition EVENT_SIZE : Z := 8.

#[export] Instance eg_waiters : WaitService event_group.
Proof. by refine {| ws_head := eg_task; ws_set := set_eg_task |}; intros []. Defined.

Definition rx_create_event_group (event : ptr) : M Z :=
  let! imask := rx_enter_critical in
  on_eg event (set_eg_task None) ;;;
  on_eg event (set_eg_next None) ;;;
  rx_exit_critical imask ;;;
  ret OS_OK.

Fixpoint delete_event_loop (fuel : nat) (p : ptr) : M unit :=
  match fuel with
  | O => crash NoFuel
  | S fuel =>
    let! g := ld_eg p in
    match eg_task g with
    | None => ret tt
    | Some _ =>
      let ready := eg_task g in
      on_task ready (set_t_state RX_TASK_READY) ;;;
      on_task ready (set_t_event None) ;;;
      let! t := ld_task ready in
      on_eg p (set_eg_task (t_next t)) ;;;
      let! _ := __rx_add_to_ready_q ready in
      delete_event_loop fuel p
    end
  end.

Definition rx_delete_event_group (p : ptr) : M unit :=
  let! imask := rx_enter_critical in
  let! fuel := gets task_fuel in
  delete_event_loop fuel p ;;;
  rx_exit_critical imask.

Definition rx_set_event_flag (flag : Z) : M Z :=
  let! curr := gets k_curr in
  on_task curr (fun t => set_t_event_flag (Z.lor (t_event_flag t) flag) t) ;;;
  ret OS_OK.

Definition rx_clear_event_flag (flag : Z) : M Z :=
  let! curr := gets k_curr in
  on_task curr (fun t => set_t_event_flag (Z.land (t_event_flag t) (u32 (Z.lnot flag))) t) ;;;
  on_task curr (fun t => set_t_event_recv (Z.land (t_event_recv t) (u32 (Z.lnot flag))) t) ;;;
  ret OS_OK.

(** [while(tmp) tmp = tmp->next;]. *)
Fixpoint walk_off (fuel : nat) (tmp : ptr) : M unit :=
  match fuel with
  | O => crash NoFuel
  | S fuel =>
    match tmp with
    | None => ret tt
    | Some _ => let! t := ld_task tmp in walk_off fuel (t_next t)
    end
  end.

(** When the group has a task already, the code walks off the end of its queue
    and assigns the running task to the local variable [tmp]: the task is linked
    nowhere. *)
Definition rx_wait_event_group (p : ptr) (flag : Z) : M Z :=
  let! imask := rx_enter_critical in
  let! curr := gets k_curr in
  on_task curr (fun t => set_t_event_flag (Z.lor (t_event_flag t) (u32 flag)) t) ;;;
  on_task curr (set_t_state RX_TASK_SUSPEND) ;;;
  on_task curr (set_t_event p) ;;;
  let! _ := __rx_remove_from_ready_q curr in
  on_task curr (set_t_next None) ;;;
  let! g := ld_eg p in
  (match eg_task g with
   | None => on_eg p (set_eg_task curr)
   | Some _ =>
     let! fuel := gets task_fuel in
     walk_off fuel (eg_task g)
   end) ;;;
  rx_exit_critical imask ;;;
  rx_sched ;;;
  let! curr := gets k_curr in
  let! t := ld_task curr in
  ret (s32 (t_event_recv t)).

(** [start->event_flag & flag]. *)
Definition event_match (t : tcb) (flag : Z) : bool := negb (Z.land (t_event_flag t) flag =? 0).

Fixpoint process_loop (fuel : nat) (hd : ptr) (flag : Z) (start prev : ptr) : M unit :=
  match fuel with
  | O => crash NoFuel
  | S fuel =>
    match start with
    | None => ret tt
    | Some _ =>
      let! t := ld_task start in
      if event_match t flag then
        on_task start (set_t_event_recv flag) ;;;
        on_task start (set_t_state RX_TASK_READY) ;;;
        on_task start (set_t_event None) ;;;
        on_task start (set_t_next None) ;;;
        let! g := ld_eg hd in
        let! t := ld_task start in
        if decide (start = eg_task g) then
          on_eg hd (set_eg_task (t_next t)) ;;;
          let! _ := __rx_add_to_ready_q start in
          let! g := ld_eg hd in
          match eg_task g with
          | None => ret tt
          | Some _ =>
            let! n := ld_task (eg_task g) in
            process_loop fuel hd flag (t_next n) (eg_task g)
          end
        else
          on_task prev (set_t_next (t_next t)) ;;;
          let! _ := __rx_add_to_ready_q start in
          let! p := ld_task prev in
          process_loop fuel hd flag (t_next p) prev
      else process_loop fuel hd flag (t_next t) start
    end
  end.

Definition rx_process_event (hd : ptr) (flag : Z) : M Z :=
  let! imask := rx_enter_critical in
  __rx_wake ;;;
  match hd with
  | None =>
    pr_error ;;;
    rx_exit_critical imask ;;;
    ret OS_ERR
  | Some _ =>
    let! g := ld_eg hd in
    let! fuel := gets task_fuel in
    process_loop fuel hd flag (eg_task g) (eg_task g) ;;;
    rx_exit_critical imask ;;;
    ret OS_OK
  end.

(** ** The event queue *)

(** The address of an event group as a 32-bit word, NULL as 0. *)
Definition word_of_ptr (p : ptr) : Z := from_option Zpos 0 p.
Definition ptr_of_word (w : Z) : ptr := match w with Zpos p => Some p | _ => None end.

(** A 32-bit word of memory read, and written. *)
Definition ld_word (a : Z) : M Z := fun s =>
  match load_word (k_mem s) a with
  | Some w => Done w s
  | None => Crash BadAddr
  end.
Definition st_word (a w : Z) : M unit := in_mem (fun m => store_word m a w).

Section EventQueue.
  (** The addresses of [rx_event_recv_q] and of [rx_event_recv_q_start], and those
      of the local variables: the [struct event] and the queue's timer. *)
  Context (rx_event_recv_q : positive) (rx_event_recv_q_start : Z).

Definition rx_notify_event (e : Z) (timer : ptr) (eg : ptr) (flag : Z) : M unit :=
  st_word e (word_of_ptr eg) ;;;
  st_word (e + 4) flag ;;;
  let! _ := rx_write_to_queue timer (Some rx_event_recv_q) e EVENT_SIZE OS_WAIT_FOREVER in
  ret tt.

(** One round of the event thread's endless loop. *)
Definition event_round (e : Z) (timer : ptr) : M unit :=
  let! _ := rx_read_from_queue timer (Some rx_event_recv_q) e EVENT_SIZE OS_NO_WAIT in
  let! p := ld_word e in
  let! flag := ld_word (e + 4) in
  let! _ := rx_process_event (ptr_of_word p) flag in
  ret tt.

Fixpoint event_rounds (n : nat) (e : Z) (timer : ptr) : M unit :=
  match n with
  | O => ret tt
  | S n => event_round e timer ;;; event_rounds n e timer
  end.

(** The event thread; "event_q" is its queue's name. *)
Definition rx_event_thread (n : nat) (e : Z) (timer : ptr) : M unit :=
  let! r := rx_create_queue (Some rx_event_recv_q) [101; 118; 101; 110; 116; 95; 113]
    EVENT_SIZE CONFIG_SYS_EVENT_QUEUE_BLOCKS rx_event_recv_q_start
    (Z.lor RX_Q_BLOCK RX_Q_CYCLIC_FULL) in
  (if decide (OS_OK <> r) then pr_panic else ret tt) ;;;
  event_rounds n e timer.

End EventQueue.

(** ** Processing an event *)

(** A task that waits in the event group [g]. *)
Definition waits_eg (g : positive) (t : tcb) : Prop :=
  t_state t = RX_TASK_SUSPEND /\ t_event t = Some g.

Definition matches (ts : gmap positive tcb) (flag : Z) (x : positive) : bool :=
  from_option (fun t => event_match t flag) false (ts !! x).

(** The control block of a task that has received the events [flag]. *)
Definition received (flag : Z) (t : tcb) : tcb :=
  set_t_next None (set_t_event None (set_t_state RX_TASK_READY (set_t_event_recv flag t))).

(** The walk passes by the tasks that wait for other events. *)
Lemma process_walk fuel hd flag s h prev wa x l :
  chain t_next (k_tasks s) h (wa ++ x :: l) ->
  (forall y, y ∈ wa -> matches (k_tasks s) flag y = false) ->
  process_loop (length wa + fuel) hd flag h prev s = process_loop fuel hd flag (Some x) (dlast prev wa) s.
Proof.
  revert h prev. induction wa as [|y wa IH]; intros h prev Hc Hm.
  - destruct Hc as (-> & _). done.
  - destruct Hc as (-> & t & Ht & Hc). cbn [length Nat.add process_loop dlast]. step.
    pose proof (Hm y ltac:(left)) as Hy. unfold matches in Hy. rewrite Ht in Hy. cbn in Hy. rewrite Hy.
    apply IH; [done|]. intros z Hz. apply Hm. by right.
Qed.

(** A queue of waiting tasks cut off behind [y]. *)
Lemma waiting_cut P (Pnext : forall n t, P t -> P (set_t_next n t)) ts h l y ty rest :
  waiting P ts h ((l ++ [y]) ++ rest) -> ts !! y = Some ty ->
  waiting P (<[y := set_t_next None ty]> ts) h (l ++ [y]).
Proof.
  intros [Hc Hs] Hy. pose proof (chain_NoDup _ _ _ _ Hc) as Hnd.
  apply NoDup_app in Hnd as (Hnd & _ & _). apply NoDup_app in Hnd as (_ & Hd & _).
  assert (Hyl : y ∉ l) by (intros Hin; apply (Hd y Hin); left). constructor.
  - rewrite <- app_assoc in Hc. apply seg_app in Hc as (q & Ha & (-> & t & ? & _)). simplify_eq.
    apply seg_app. exists (Some y). split; [by apply seg_insert_ne|].
    split; [done|]. eexists. split; [apply lookup_insert_eq|done].
  - intros z t Hz. rewrite lookup_insert. case_decide as He.
    + intros ?. simplify_eq. destruct (Hs z ty) as [? ?]; [set_solver|done|auto].
    + apply Hs. set_solver.
Qed.

Section take_matching.
Context (s : kst) (g : positive) (o : event_group) (flag : Z) (x : positive) (wb : list positive).
Context (tx : tcb) (rl : list positive).
Context (Ho : k_events s !! g = Some o) (Hx : k_tasks s !! x = Some tx) (Hmx : event_match tx flag = true).
Context (Hq : ready_queue (k_tasks s) (k_ready s) rl).

(** What taking the first matching task [x] of [wa ++ x :: wb] leaves: the tasks before
    it wait, [x] is ready with the flag, and those behind it are in no list. *)
Definition takes (wa : list positive) (c : M unit) : Prop :=
  let rl' := ins (k_tasks s) (t_prio tx) x rl in
  exists ts' h' n r cr,
    c s = Done tt (set_k_events (<[g := set_eg_task h' o]> (k_events s)) (rq_st ts' (head rl') r cr s)) /\
    waiting (waits_eg g) ts' h' wa /\ ready_queue ts' (head rl') rl' /\
    ts' !! x = Some (set_t_next n (received flag tx)) /\
    (forall y, y ∈ wb -> ts' !! y = k_tasks s !! y).

Lemma process_take_first f :
  waiting (waits_eg g) (k_tasks s) (eg_task o) (x :: wb) ->
  takes [] (process_loop (S (S f)) (Some g) flag (Some x) (eg_task o)).
Proof using Ho Hx Hmx Hq.
  intros Hw. pose proof (waiting_disjoint _ _ _ _ _ _ Hw Hq) as Hdis.
  pose proof (chain_NoDup _ _ _ _ (wt_chain _ _ _ _ Hw)) as [Hxn _]%NoDup_cons.
  pose proof (chain_head _ _ _ _ (wt_chain _ _ _ _ Hw)) as Hh. cbn [head] in Hh.
  unfold takes. cbn [process_loop]. step. rewrite Hmx. do 6 step. rewrite !insert_insert_eq.
  change (set_t_next None _) with (received flag tx). cbn [t_next received set_t_next].
  rewrite Hh, decide_True by done. step.
  match goal with |- context [bind (__rx_add_to_ready_q _) _ ?st] => set (s1 := st) end.
  destruct (make_ready s1 (k_tasks s) rl x (received flag tx)) as (ts2 & n & E & Hq2 & Hr2 & Hx2);
    [done|apply Hdis; left|by left|done|].
  erewrite bind_run by exact E. unfold rq_upd. step. cbn [eg_task set_eg_task].
  eexists ts2, None, n, _, (crit_out s1).
  split_and!; [reflexivity|apply waiting_nil|exact Hq2|exact Hx2|].
  intros y Hy. assert (Hyx : y <> x) by (by intros ->).
  rewrite (relinked_out _ _ _ y Hr2); [by rewrite lookup_insert_ne|].
  intros [->|?]%elem_of_cons; [done|]. apply (Hdis y); [by right|done].
Qed.

Lemma process_take_mid f l y :
  waiting (waits_eg g) (k_tasks s) (eg_task o) ((l ++ [y]) ++ x :: wb) ->
  takes (l ++ [y]) (process_loop (S (S f)) (Some g) flag (Some x) (Some y)).
Proof using Ho Hx Hmx Hq.
  intros Hw. pose proof (waiting_disjoint _ _ _ _ _ _ Hw Hq) as Hdis.
  pose proof (chain_NoDup _ _ _ _ (wt_chain _ _ _ _ Hw)) as Hnd. pose proof (nodup_mid _ _ _ Hnd) as Hxn.
  pose proof (chain_head _ _ _ _ (wt_chain _ _ _ _ Hw)) as Hh.
  rewrite <- app_assoc in Hh, Hnd. cbn [app] in Hh, Hnd.
  destruct (seg_lookup _ _ _ _ _ y (wt_chain _ _ _ _ Hw)) as [ty Hy]; [set_solver|].
  assert (Hxy : x <> y) by set_solver. assert (Hyr : y ∉ rl) by (apply Hdis; set_solver).
  unfold takes. cbn [process_loop]. step. rewrite Hmx. do 6 step. rewrite !insert_insert_eq.
  change (set_t_next None _) with (received flag tx). cbn [t_next received set_t_next].
  rewrite decide_False by (rewrite Hh; intros He; apply Hxn; destruct l; simplify_eq/=; set_solver). step.
  match goal with |- context [bind (__rx_add_to_ready_q _) _ ?st] => set (s1 := st) end.
  set (ts1 := <[y := set_t_next None ty]> (k_tasks s)).
  destruct (make_ready s1 ts1 rl x (received flag tx)) as (ts2 & n & E & Hq2 & Hr2 & Hx2);
    [by apply ready_queue_out|apply Hdis; set_solver|by left|unfold s1, ts1; norm; by rewrite insert_insert_ne by done|].
  rewrite (ins_ext (k_tasks s) ts1) in E, Hq2
    by (intros z Hz; unfold ts1; rewrite prio_insert; case_decide; [by subst|done]).
  assert (Hy2 : ts2 !! y = Some (set_t_next None ty)).
  { rewrite (relinked_out _ _ _ y Hr2); [|set_solver]. rewrite lookup_insert_ne by done. apply lookup_insert_eq. }
  erewrite bind_run by exact E. unfold rq_upd. step. cbn [t_next set_t_next].
  eexists ts2, (eg_task o), n, _, (crit_out s1). split_and!; [| |exact Hq2|exact Hx2|].
  - replace (set_eg_task (eg_task o) o) with o by (by destruct o).
    rewrite (insert_id (k_events s)) by done. reflexivity.
  - eapply waiting_relinked; [exact Hr2| |].
    { intros z Hz [->|Hz']%elem_of_cons; [set_solver|]. apply (Hdis z); [set_solver|done]. }
    apply waiting_insert; [set_solver|]. by eapply waiting_cut.
  - intros z Hz. assert (z <> x /\ z <> y) as [Hzx Hzy].
    { apply NoDup_app in Hnd as (_ & _ & Hnd). rewrite !NoDup_cons in Hnd. set_solver. }
    rewrite (relinked_out _ _ _ z Hr2); [unfold ts1; by rewrite !lookup_insert_ne|].
    intros [->|?]%elem_of_cons; [done|]. apply (Hdis z); [|done]. rewrite elem_of_app, elem_of_cons. tauto.
Qed.

(** The first task that waits for the events becomes ready; the walk ends there,
    with its queue cut off behind the tasks it has passed. *)
Lemma process_loop_run wa :
  waiting (waits_eg g) (k_tasks s) (eg_task o) (wa ++ x :: wb) ->
  (forall y, y ∈ wa -> matches (k_tasks s) flag y = false) ->
  takes wa (process_loop (task_fuel s) (Some g) flag (eg_task o) (eg_task o)).
Proof using Ho Hx Hmx Hq.
  intros Hw Hm.
  assert (Hfuel : exists f, task_fuel s = (length wa + S (S f))%nat).
  { pose proof (chain_length _ _ _ _ (wt_chain _ _ _ _ Hw)) as Hl. rewrite length_app in Hl.
    simpl in Hl. unfold task_fuel. exists (size (k_tasks s) - length wa)%nat. lia. }
  destruct Hfuel as [f ->]. unfold takes. rewrite (process_walk _ _ _ _ _ _ _ x wb (wt_chain _ _ _ _ Hw) Hm).
  destruct (last_snoc_inv wa) as [->|(l & y & ->)]; [by apply process_take_first|].
  rewrite dlast_snoc. by apply process_take_mid.
Qed.
End take_matching.

Lemma events_critical m ts h r c c1 c2 s :
  set_k_critical c (set_k_events m (rq_st ts h r c1 (set_k_critical c2 s)))
    = set_k_events m (rq_st ts h r c s).
Proof. done. Qed.

Lemma process_run s g o flag wa x wb tx rl :
  k_wait_list s = None ->
  k_events s !! g = Some o -> waiting (waits_eg g) (k_tasks s) (eg_task o) (wa ++ x :: wb) ->
  (forall y, y ∈ wa -> matches (k_tasks s) flag y = false) ->
  k_tasks s !! x = Some tx -> event_match tx flag = true ->
  ready_queue (k_tasks s) (k_ready s) rl ->
  let rl' := ins (k_tasks s) (t_prio tx) x rl in
  exists ts' h' n r cr,
    rx_process_event (Some g) flag s
      = Done OS_OK (set_k_events (<[g := set_eg_task h' o]> (k_events s)) (rq_st ts' (head rl') r cr s)) /\
    waiting (waits_eg g) ts' h' wa /\ ready_queue ts' (head rl') rl' /\
    ts' !! x = Some (set_t_next n (received flag tx)) /\
    (forall y, y ∈ wb -> ts' !! y = k_tasks s !! y).
Proof.
  intros Hnw Ho Hw Hm Hx Hmx Hq rl'. set (s1 := set_k_critical (crit_in s) s).
  destruct (process_loop_run s1 g o flag x wb tx rl Ho Hx Hmx Hq wa Hw Hm)
    as (ts' & h' & n & r & cr & E & Hrest).
  unfold rx_process_event. erewrite bind_run by apply enter_run. unfold __rx_wake. do 2 step.
  rewrite Hnw. do 3 step. fold s1. erewrite bind_run by exact E. erewrite bind_run by apply exit_run.
  exists ts', h', n, r. eexists. split; [|exact Hrest]. unfold ret, s1. by rewrite events_critical.
Qed.

(** Processing an event, with no wait queues to look at: the first task of
    the group that waits for one of the events becomes ready and learns which
    events came; the tasks before it keep waiting.  The walk goes no further, and
    the tasks behind it are no longer in the group's queue, though they stay
    suspended as they are. *)
Theorem process_event_wakes_first s g o flag wa x wb tx rl :
  k_wait_list s = None ->
  k_events s !! g = Some o -> waiting (waits_eg g) (k_tasks s) (eg_task o) (wa ++ x :: wb) ->
  (forall y, y ∈ wa -> matches (k_tasks s) flag y = false) ->
  k_tasks s !! x = Some tx -> event_match tx flag = true ->
  ready_queue (k_tasks s) (k_ready s) rl ->
  exists s' o' tx',
    rx_process_event (Some g) flag s = Done OS_OK s' /\
    ready_queue (k_tasks s') (k_ready s') (ins (k_tasks s) (t_prio tx) x rl) /\
    k_events s' !! g = Some o' /\ waiting (waits_eg g) (k_tasks s') (eg_task o') wa /\
    k_tasks s' !! x = Some tx' /\ t_state tx' = RX_TASK_READY /\ t_event tx' = None /\
    t_event_recv tx' = flag /\
    (forall y, y ∈ wb -> k_tasks s' !! y = k_tasks s !! y).
Proof.
  intros Hnw Ho Hw Hm Hx Hmx Hq.
  destruct (process_run s g o flag wa x wb tx rl)
    as (ts' & h' & n & r & cr & E & Hw' & Hq' & Hx' & Hb); [done..|].
  eexists _, _, _. split_and!; [exact E|exact Hq'|apply lookup_insert_eq|exact Hw'|exact Hx'|done..|].
  exact Hb.
Qed.

(** ** Waiting for an event *)

Lemma walk_off_run fuel s h l :
  (length l < fuel)%nat -> chain t_next (k_tasks s) h l -> walk_off fuel h s = Done tt s.
Proof.
  revert fuel h. induction l as [|x l IH]; intros fuel h Hf Hc;
    (destruct fuel as [|fuel]; [simpl in Hf; lia|]); cbn [walk_off].
  - by rewrite (chain_head _ _ _ _ Hc).
  - destruct Hc as (-> & t & Ht & Hc). step. apply IH; [simpl in Hf; lia|done].
Qed.

(** The group's queue after a task has come to wait: only the first is linked. *)
Definition eg_queue (c : positive) (ws : list positive) : list positive :=
  match ws with [] => [c] | _ => ws end.

Lemma link_first s g o ws c tc :
  k_events s !! g = Some o -> waiting (waits_eg g) (k_tasks s) (eg_task o) ws ->
  k_tasks s !! c = Some tc -> t_next tc = None -> waits_eg g tc ->
  exists h',
    (match eg_task o with
     | None => on_eg (Some g) (set_eg_task (Some c))
     | Some _ =>
       let! fuel := gets task_fuel in
       walk_off fuel (eg_task o)
     end) s = Done tt (set_k_events (<[g := set_eg_task h' o]> (k_events s)) s) /\
    waiting (waits_eg g) (k_tasks s) h' (eg_queue c ws).
Proof.
  intros Ho Hw Hc Hn Hwt. pose proof (wt_chain _ _ _ _ Hw) as Hch.
  destruct (eg_task o) as [h|] eqn:Eh.
  - exists (Some h). assert (ws <> []) as Hne by (intros ->; done).
    step. erewrite walk_off_run; [| |exact Hch].
    + split; [|by destruct ws].
      replace (set_eg_task (Some h) o) with o by (rewrite <- Eh; by destruct o).
      rewrite insert_id by done. by destruct s.
    + apply chain_length in Hch. unfold task_fuel. lia.
  - apply chain_nil_inv in Hch as ->. exists (Some c). erewrite modify_run by lk. split; [done|].
    constructor.
    + split; [done|]. exists tc. by rewrite Hn.
    + intros x t Hx ?. apply list_elem_of_singleton in Hx. simplify_eq.
      split; [by apply suspended_not_runnable; destruct Hwt|done].
Qed.

(** Waiting for an event suspends the caller, records what it waits for and
    gives the processor to the most urgent ready task; when the task runs again
    the call returns the events it has received.  The task is linked into the
    group's queue when it is the first; when another task waits already, the queue
    stays as it was and the caller is in no queue at all. *)
Theorem wait_event_group_suspends s g o flag ws c tc l1 l2 h l :
  k_curr s = Some c -> k_tasks s !! c = Some tc ->
  ready_queue (k_tasks s) (k_ready s) (l1 ++ c :: l2) -> l1 ++ l2 = h :: l ->
  k_events s !! g = Some o -> waiting (waits_eg g) (k_tasks s) (eg_task o) ws ->
  exists s' k o' tc',
    rx_wait_event_group (Some g) flag s = Switch s' k /\ k_curr s' = Some h /\
    ready_queue (k_tasks s') (k_ready s') (h :: l) /\
    k_events s' !! g = Some o' /\
    waiting (waits_eg g) (k_tasks s') (eg_task o') (eg_queue c ws) /\
    k_tasks s' !! c = Some tc' /\ waits_eg g tc' /\
    t_event_flag tc' = Z.lor (t_event_flag tc) (u32 flag) /\
    (forall s2 t2, k_curr s2 = Some c -> k_tasks s2 !! c = Some t2 ->
      k s2 = Done (s32 (t_event_recv t2)) s2).
Proof.
  intros Hc Htc Hq Hl Ho Hw. pose proof (waiting_disjoint _ _ _ _ _ _ Hw Hq) as Hdis.
  assert (Hcw : c ∉ ws) by (intros Hx; apply (Hdis c Hx); set_solver).
  unfold rx_wait_event_group. erewrite bind_run by apply enter_run. step. rewrite Hc. do 3 step.
  rewrite !insert_insert_eq. set (tc1 := set_t_event _ _).
  match goal with |- context [bind (__rx_remove_from_ready_q _) _ ?st] => set (s1 := st) end.
  destruct (leave_queue s1 (k_tasks s) l1 c l2 tc tc1) as (ts2 & E2 & Hq2 & Hc2 & Hr2 & _); [done..|].
  erewrite bind_run by exact E2. unfold rq_upd. step. rewrite (insert_id ts2) by done. step.
  rewrite Hl in *.
  match goal with |- context [bind (match eg_task o with _ => _ end) _ ?st] => set (s2 := st) end.
  assert (Hw2 : waiting (waits_eg g) ts2 (eg_task o) ws).
  { eapply waiting_relinked; [exact Hr2|intros x Hx; by apply Hdis|by apply waiting_insert]. }
  destruct (link_first s2 g o ws c (set_t_next None tc1) Ho Hw2 Hc2) as (h' & E3 & Hw3);
    [done|by split|].
  erewrite bind_run by exact E3. erewrite bind_run by apply exit_run.
  set (s3 := set_k_events _ s2). set (s4 := set_k_critical (crit_out s3) s3).
  assert (Hni : c ∉ h :: l) by (rewrite <- Hl; eapply nodup_mid, ready_queue_nodup, Hq).
  assert (Hc4 : k_curr s4 = Some c) by exact Hc.
  assert (Ht4 : k_tasks s4 = ts2) by reflexivity.
  assert (Hr4 : k_ready s4 = head (h :: l)) by reflexivity.
  assert (He4 : k_events s4 = <[g := set_eg_task h' o]> (k_events s)) by reflexivity.
  rewrite <- Ht4 in Hc2. rewrite <- Ht4, <- Hr4 in Hq2. change (k_tasks s2) with ts2 in Hw3.
  rewrite <- Ht4 in Hw3. clearbody s4. clear E2 E3.
  destruct (sched_away s4 c _ h l Hc4 Hc2 Hni Hq2) as (th & Hth & Es & Hq4).
  eexists (switched h th s4), _, _, (set_t_next None tc1).
  split_and!; [erewrite bind_switch by exact Es; reflexivity|done|exact Hq4| | | |by split|done|].
  - unfold switched. norm. rewrite He4. apply lookup_insert_eq.
  - apply waiting_insert; [|done]. intros Hx. apply (waiting_disjoint _ _ _ _ _ _ Hw3 Hq2 h Hx). left.
  - norm. rewrite lookup_insert_ne by set_solver. exact Hc2.
  - intros s5 t5 Hc5 Ht5. cbn [obind]. step. rewrite Hc5. by step.
Qed.

(** ** From the notification to the task *)

(** A word as the four bytes of memory, and a [struct event] as eight. *)
Definition word_bytes (w : Z) : list Z := (fun i => byte_of w i) <$> [0; 1; 2; 3].
Definition event_bytes (eg : ptr) (flag : Z) : list Z := word_bytes (word_of_ptr eg) ++ word_bytes flag.

Lemma word_bytes_bytes w : bytes (word_bytes w).
Proof. repeat constructor; apply Z.mod_pos_bound; lia. Qed.

Lemma word_of_bytes w :
  0 <= w < 2 ^ 32 ->
  byte_of w 0 + 2 ^ 8 * byte_of w 1 + 2 ^ 16 * byte_of w 2 + 2 ^ 24 * byte_of w 3 = w.
Proof.
  intros Hw. unfold byte_of. rewrite Z.mul_0_r, Z.pow_0_r, Z.div_1_r.
  change (2 ^ (8 * 1)) with (2 ^ 8). change (2 ^ (8 * 2)) with (2 ^ 8 * 2 ^ 8).
  change (2 ^ (8 * 3)) with (2 ^ 8 * 2 ^ 8 * 2 ^ 8). rewrite <- !Z.div_div by lia.
  set (a := w / 2 ^ 8). set (b := a / 2 ^ 8). set (c := b / 2 ^ 8).
  pose proof (Z.div_mod w (2 ^ 8) ltac:(lia)) as H1. pose proof (Z.div_mod a (2 ^ 8) ltac:(lia)) as H2.
  pose proof (Z.div_mod b (2 ^ 8) ltac:(lia)) as H3. fold a in H1. fold b in H2. fold c in H3.
  assert (Hc : c mod 2 ^ 8 = c); [|lia]. apply Z.mod_small. unfold c, b, a.
  rewrite !Z.div_div by lia. split; [apply Z.div_pos; lia|apply Z.div_lt_upper_bound; lia].
Qed.

Lemma st_word_run {B} a w (k : unit -> M B) s :
  0 <= w < 2 ^ 32 -> mapped (k_mem s) a 4 ->
  bind (st_word a w) k s = k tt (set_k_mem (store_list (k_mem s) a (word_bytes w)) s).
Proof.
  intros Hw Hm. unfold st_word. apply bind_in_mem. rewrite <- (word_of_bytes w Hw) at 1.
  apply store_word_run; [apply word_bytes_bytes|done].
Qed.

Lemma ld_word_run {B} a w (k : Z -> M B) s :
  0 <= w < 2 ^ 32 -> block (k_mem s) a (word_bytes w) -> bind (ld_word a) k s = k w s.
Proof.
  intros Hw Hb. unfold bind, ld_word. rewrite (load_word_run _ _ _ _ _ _ Hb).
  by rewrite word_of_bytes.
Qed.

Lemma ptr_word_ptr p : ptr_of_word (word_of_ptr p) = p.
Proof. by destruct p. Qed.

Section Delivery.
  Context (evq : positive) (timer : ptr).
  Context (s : kst) (q : msg_queue) (t e1 e2 flag : Z) (g : positive).
  Context (Hq : k_mqs s !! evq = Some q) (Hring : ring (k_mem s) q t []).
  Context (Hsize : mq_size_of_block q = EVENT_SIZE).
  Context (Hrd : mq_read_task q = None) (Hwr : mq_write_task q = None).
  Context (Hm1 : mapped (k_mem s) e1 8) (Ho1 : outside q e1) (Hn1 : e1 <> 0).
  Context (Hm2 : mapped (k_mem s) e2 8) (Ho2 : outside q e2) (Hn2 : e2 <> 0).
  Context (Hflag : 0 <= flag < 2 ^ 32) (Hg : Zpos g < 2 ^ 32).

Let msg := event_bytes (Some g) flag.
Let m1 := store_list (store_list (k_mem s) e1 msg) (mq_head q) msg.

(** The notification leaves the event in the queue. *)
Lemma notify_run :
  rx_notify_event evq e1 timer (Some g) flag s
    = Done tt (set_k_critical (crit_out s) (set_k_mqs (<[evq := after_write q]> (k_mqs s))
        (set_k_mem m1 s))) /\ ring m1 (after_write q) t [msg].
Proof.
  assert (Hr1 : ring (store_list (k_mem s) e1 msg) q t []).
  { eapply ring_frame; [exact Hring|]. intros x k Hx. apply store_list_same.
    unfold outside, EVENT_SIZE in *. simpl. lia. }
  split; cycle 1.
  { apply (ring_write _ q t [] msg); [apply Hr1| |by rewrite Hsize|apply Forall_app; split; apply word_bytes_bytes].
    destruct Hring as [[_ Hn _ _ _ _ _] _]. unfold places. simpl. lia. }
  unfold rx_notify_event. apply (mapped_app _ _ 4 4) in Hm1 as [Hma Hmb].
  rewrite st_word_run by (cbn; lia || done). rewrite st_word_run; [|lia|by apply store_list_mapped].
  cbn [k_mem set_k_mem]. change (e1 + 4) with (e1 + Z.of_nat (length (word_bytes (word_of_ptr (Some g))))).
  rewrite <- store_list_app. fold (event_bytes (Some g) flag). fold msg. rewrite <- Hsize.
  erewrite bind_run.
  2:{ eapply (write_plain_run timer _ evq q t [] msg); try done.
      - destruct Hring as [[_ Hn _ _ _ _ _] _]. unfold places. simpl. lia.
      - apply Forall_app; split; apply word_bytes_bytes.
      - apply store_list_block. }
  unfold ret. crit_eq.
Qed.

(** The next round of the event thread takes it out and processes it. *)
Lemma round_run s1 :
  k_mqs s1 = <[evq := after_write q]> (k_mqs s) -> k_mem s1 = m1 ->
  exists s2,
    event_round evq e2 timer s1 = (let! _ := rx_process_event (Some g) flag in ret tt) s2 /\
    k_tasks s2 = k_tasks s1 /\ k_ready s2 = k_ready s1 /\ k_events s2 = k_events s1 /\
    k_wait_list s2 = k_wait_list s1 /\
    k_mqs s2 !! evq = Some (after_read (after_write q)) /\
    ring (k_mem s2) (after_read (after_write q)) (t + 1) [].
Proof.
  intros Eq Em. destruct notify_run as [_ Hr1].
  assert (Hsz : mq_size_of_block (after_write q) = EVENT_SIZE) by (unfold after_write; by case_decide).
  assert (Hout : outside (after_write q) e2) by (unfold after_write; by case_decide).
  assert (Hm : mapped m1 e2 8) by (unfold m1; by repeat apply store_list_mapped).
  unfold event_round. rewrite <- Hsz. erewrite bind_run.
  2:{ eapply (read_plain_run timer _ evq (after_write q) t msg []); try done.
      - rewrite Eq. apply lookup_insert_eq.
      - by rewrite Em.
      - by rewrite Em.
      - unfold after_write; by case_decide.
      - unfold after_write; by case_decide. }
  set (s2 := set_k_critical _ _). assert (Hb : block (k_mem s2) e2 msg) by apply store_list_block.
  apply block_app in Hb as [Hb1 Hb2]. exists s2.
  rewrite (ld_word_run e2 (word_of_ptr (Some g))) by (done || (cbn; lia)).
  rewrite (ld_word_run (e2 + 4) flag) by done. rewrite ptr_word_ptr.
  split_and!; [done..| |].
  - unfold s2. norm. rewrite Eq. apply lookup_insert_eq.
  - change (k_mem s2) with (store_list (k_mem s1) e2 msg). rewrite Em. eapply ring_read; [exact Hr1| |].
    + apply store_list_mapped. apply Hr1.
    + intros x k Hx. apply store_list_same. unfold outside in Hout. rewrite Hsz in *.
      unfold EVENT_SIZE in *. simpl. lia.
Qed.

End Delivery.


(** Task 4 waits in event group 11 for the events 2 and 4; queue 5 is the event
    queue. *)
Definition sample_waiter : tcb :=
  set_t_event (Some 11%positive) (set_t_event_flag 6 (task 2 RX_TASK_SUSPEND None)).
Definition sample_evq : msg_queue := mk_mq [] 1000 1000 1000 10 8 8 None None.
Definition sample_event : kst :=
  set_k_events {[ 11%positive := mk_eg (Some 4%positive) None ]}
  (set_k_mqs {[ 5%positive := sample_evq ]}
  (set_k_mem (store_list (store_list ∅ 1000 (replicate 72 0)) 2000 (replicate 16 0))
  (set_k_tasks (<[4%positive := sample_waiter]> tasks3) sample))).

Lemma sample_event_waiting :
  waiting (waits_eg 11) (k_tasks sample_event) (Some 4%positive) [4]%positive.
Proof.
  constructor; [by apply chainb_ok; vm_compute|].
  intros x t Hx Ht. apply list_elem_of_singleton in Hx. subst x. vm_compute in Ht.
  simplify_eq. split; [by apply suspended_not_runnable|done].
Qed.

Lemma process_event_wakes_first_witness :
  exists s' o' tx',
    rx_process_event (Some 11%positive) 4 sample_event = Done OS_OK s' /\
    ready_queue (k_tasks s') (k_ready s') (ins (k_tasks sample_event) 2 4 [1; 2; 3]%positive) /\
    k_events s' !! 11%positive = Some o' /\ waiting (waits_eg 11) (k_tasks s') (eg_task o') [] /\
    k_tasks s' !! 4%positive = Some tx' /\ t_state tx' = RX_TASK_READY /\ t_event tx' = None /\
    t_event_recv tx' = 4 /\
    (forall y, y ∈ [] -> k_tasks s' !! y = k_tasks sample_event !! y).
Proof.
  apply (process_event_wakes_first sample_event 11 (mk_eg (Some 4%positive) None) 4 [] 4 []
    sample_waiter [1; 2; 3]%positive); try done.
  - apply sample_event_waiting.
  - intros y ?%elem_of_nil. done.
  - by apply ready_queueb_ok; vm_compute.
Defined.

Lemma wait_event_group_suspends_witness :
  exists s' k o' tc',
    rx_wait_event_group (Some 11%positive) 1 sample_event = Switch s' k /\ k_curr s' = Some 2%positive /\
    ready_queue (k_tasks s') (k_ready s') [2; 3]%positive /\
    k_events s' !! 11%positive = Some o' /\
    waiting (waits_eg 11) (k_tasks s') (eg_task o') [4]%positive /\
    k_tasks s' !! 1%positive = Some tc' /\ waits_eg 11 tc' /\
    t_event_flag tc' = Z.lor 0 (u32 1) /\
    (forall s2 t2, k_curr s2 = Some 1%positive -> k_tasks s2 !! 1%positive = Some t2 ->
      k s2 = Done (s32 (t_event_recv t2)) s2).
Proof.
  apply (wait_event_group_suspends sample_event 11 (mk_eg (Some 4%positive) None) 1 [4]%positive 1
    (task 1 RX_TASK_RUNNING (Some 2%positive)) [] [2; 3]%positive 2 [3]%positive); try done.
  - by apply ready_queueb_ok; vm_compute.
  - apply sample_event_waiting.
Defined.

Lemma sample_event_ring : ring (k_mem sample_event) sample_evq 0 [].
Proof.
  constructor; [constructor; try done|done].
  eapply (block_mapped _ _ (replicate 72 0)); [done|].
  apply store_list_keeps; [left; by vm_compute|apply store_list_block].
Qed.

