(* ===== verification/Irq.v ===== *)
(** * Interrupt handlers (src/kernel/rx_irq.c)

    The table [__rx_irq_pool] has an entry for each of the [CONFIG_IRQ_COUNT - 1]
    interrupt numbers from 0; a driver installs its handler in a free entry.  The
    code for shared interrupts is disabled in the source ([#if 0]). *)

From stdpp Require Import base gmap list.
From Stdlib Require Import ZArith Lia.
From S2P Require Import Prelude State Samples Port.
#[local] Open Scope Z_scope.
#[local] Open Scope rosx_scope.

Definition CONFIG_IRQ_COUNT : Z := 10.
Definition RX_IRQF_SHARED : Z := 4.
Definition RX_IRQ_HANDLED : Z := 0.

(** An entry of the table; there is none outside its bounds. *)
Definition ld_irq (n : Z) : M irq := fun s =>
  match k_irqs s !! n with
  | Some i => Done i s
  | None => Crash BadAddr
  end.

Definition on_irq (n : Z) (f : irq -> irq) : M unit := fun s =>
  match k_irqs s !! n with
  | Some i => Done tt (set_k_irqs (<[n := f i]> (k_irqs s)) s)
  | None => Crash BadAddr
  end.

(** [strncpy(old, src, n)] of src/lib/string.c, which does not pad. *)
Definition strncpy_field (n : nat) (src old : list Z) : list Z :=
  let c := take n (src ++ [0]) in c ++ drop (length c) old.

Section Dispatch.
  (** The call of a handler with the interrupt number and [dev_id]. *)
  Context (call : irq_fn -> Z -> Z -> M Z).

Definition __rx_irq_handler (irq_num : Z) : M unit :=
  upd (fun s => set_k_irq_counter (u32 (k_irq_counter s + 1)) s) ;;;
  let! i := ld_irq irq_num in
  if decide (irq_handler i <> None \/ irq_next i <> None) then
    match irq_handler i with
    | Some h => let! _ := call h irq_num (irq_dev_id i) in ret tt
    | None => crash NullDeref
    end
  else ret tt.

End Dispatch.

Definition rx_request_irq (irq_num : Z) (handler : option irq_fn) (flags : Z) (dev_name : list Z)
    (dev_id : Z) : M Z :=
  if decide (irq_num > CONFIG_IRQ_COUNT) then ret OS_ERR
  else
    let! i := ld_irq irq_num in
    if decide (irq_handler i <> None \/ irq_next i <> None) then
      if decide (Z.land flags RX_IRQF_SHARED = 0 \/ dev_id = 0) then ret E_OS_UNAVAIL
      else ret OS_OK
    else
      on_irq irq_num (set_irq_handler handler) ;;;
      on_irq irq_num (set_irq_flags flags) ;;;
      on_irq irq_num (fun i => set_irq_devname (strncpy_field 7 dev_name (irq_devname i)) i) ;;;
      on_irq irq_num (set_irq_dev_id dev_id) ;;;
      on_irq irq_num (set_irq_next None) ;;;
      ret OS_OK.

Definition rx_free_irq (irq_num dev_id : Z) : M Z :=
  if decide (irq_num > CONFIG_IRQ_COUNT) then ret E_OS_UNAVAIL
  else
    let! i := ld_irq irq_num in
    (if decide (Z.land (irq_flags i) RX_IRQF_SHARED <> 0) then ret tt
     else on_irq irq_num (set_irq_handler None)) ;;;
    ret OS_OK.

(** ** The table *)

(** The table has exactly the entries of the C array. *)
Definition irq_table (m : gmap Z irq) : Prop :=
  forall n, is_Some (m !! n) <-> 0 <= n < CONFIG_IRQ_COUNT - 1.

Lemma ld_irq_run {B} n i (k : irq -> M B) s :
  k_irqs s !! n = Some i -> bind (ld_irq n) k s = k i s.
Proof. intros E. unfold bind, ld_irq. by rewrite E. Qed.

Lemma on_irq_run {B} n i f (k : unit -> M B) s :
  k_irqs s !! n = Some i -> bind (on_irq n f) k s = k tt (set_k_irqs (<[n := f i]> (k_irqs s)) s).
Proof. intros E. unfold bind, on_irq. by rewrite E. Qed.

Lemma irq_table_insert m n i i' : irq_table m -> m !! n = Some i -> irq_table (<[n := i']> m).
Proof.
  intros Ht Hn x. rewrite lookup_insert. case_decide; [subst|apply Ht].
  split; [intros _; apply Ht; by rewrite Hn|done].
Qed.

(** What a request leaves in a free entry. *)
Definition installed (h : option irq_fn) (flags : Z) (name : list Z) (dev_id : Z) (i : irq) : irq :=
  mk_irq (strncpy_field 7 name (irq_devname i)) h flags dev_id None.

Lemma request_run s n i h flags name dev_id :
  k_irqs s !! n = Some i -> n <= CONFIG_IRQ_COUNT -> irq_handler i = None -> irq_next i = None ->
  rx_request_irq n h flags name dev_id s
    = Done OS_OK (set_k_irqs (<[n := installed h flags name dev_id i]> (k_irqs s)) s).
Proof.
  intros Hi Hn Hh Hx. unfold rx_request_irq. rewrite decide_False by lia.
  erewrite ld_irq_run by exact Hi. rewrite decide_False by (intros [?|?]; congruence).
  erewrite on_irq_run by exact Hi. repeat (erewrite on_irq_run by (norm; apply lookup_insert_eq); norm).
  rewrite !insert_insert_eq. unfold ret. f_equal.
Qed.

(** A handler that a driver installs is called on each of its interrupts,
    with the interrupt number and the [dev_id] of the request, and nothing else
    is; while it is installed another driver's request for the number is refused,
    and once it has been freed the number is free again and its interrupts are
    ignored. *)
Theorem irq_request_dispatch (call : irq_fn -> Z -> Z -> M Z) s n h flags name dev_id :
  irq_table (k_irqs s) -> 0 <= n < CONFIG_IRQ_COUNT - 1 -> Z.land flags RX_IRQF_SHARED = 0 ->
  (forall i, k_irqs s !! n = Some i -> irq_handler i = None /\ irq_next i = None) ->
  exists s1, rx_request_irq n (Some h) flags name dev_id s = Done OS_OK s1 /\
    irq_table (k_irqs s1) /\
    (__rx_irq_handler call n s1 = (let! _ := call h n dev_id in ret tt)
       (set_k_irq_counter (u32 (k_irq_counter s1 + 1)) s1)) /\
    (forall h' name' d', rx_request_irq n h' flags name' d' s1 = Done E_OS_UNAVAIL s1) /\
    exists s2, rx_free_irq n dev_id s1 = Done OS_OK s2 /\ irq_table (k_irqs s2) /\
      __rx_irq_handler call n s2
        = Done tt (set_k_irq_counter (u32 (k_irq_counter s2 + 1)) s2) /\
      exists s3, rx_request_irq n (Some h) flags name dev_id s2 = Done OS_OK s3.
Proof.
  intros Ht Hn Hsh Hfree. destruct (proj2 (Ht n) Hn) as [i Hi]. destruct (Hfree i Hi) as [Hh Hx].
  assert (Hle : n <= CONFIG_IRQ_COUNT) by lia.
  rewrite (request_run s n i (Some h) flags name dev_id) by done. eexists. split; [done|].
  set (i1 := installed _ _ _ _ i). set (s1 := set_k_irqs _ s).
  assert (H1 : k_irqs s1 !! n = Some i1) by apply lookup_insert_eq.
  assert (Ht1 : irq_table (k_irqs s1)) by (by eapply irq_table_insert).
  split_and!; [done| | |].
  - unfold __rx_irq_handler. step. erewrite ld_irq_run by exact H1.
    by rewrite decide_True by (by left).
  - intros h' name' d'. unfold rx_request_irq. rewrite decide_False by lia.
    erewrite ld_irq_run by exact H1. rewrite decide_True by (by left).
    rewrite decide_True by (by left). done.
  - unfold rx_free_irq. rewrite decide_False by lia. erewrite ld_irq_run by exact H1.
    rewrite decide_False by (cbn; rewrite Hsh; lia).
    unfold on_irq at 1. unfold bind at 1. rewrite H1. cbn [obind]. eexists. split; [reflexivity|].
    set (s2 := set_k_irqs _ s1). assert (H2 : k_irqs s2 !! n = Some (set_irq_handler None i1))
      by apply lookup_insert_eq. split_and!.
    + by eapply irq_table_insert.
    + unfold __rx_irq_handler. step. erewrite ld_irq_run by exact H2.
      by rewrite decide_False by (cbn; intros [?|?]; congruence).
    + eexists. by eapply request_run.
Qed.

(** The bounds of an interrupt number are not those of the table: the
    numbers 9 and 10 pass the test of [rx_request_irq] and access the memory
    behind it. *)
Theorem irq_bound_too_weak s n h flags name dev_id :
  irq_table (k_irqs s) -> CONFIG_IRQ_COUNT - 1 <= n <= CONFIG_IRQ_COUNT ->
  rx_request_irq n h flags name dev_id s = Crash BadAddr.
Proof.
  intros Ht Hn. unfold rx_request_irq. rewrite decide_False by lia. apply bind_crash. unfold ld_irq.
  destruct (k_irqs s !! n) eqn:E; [|done]. assert (is_Some (k_irqs s !! n)) as H%Ht by (by rewrite E).
  lia.
Qed.

(** The table after the kernel has started: zeroed. *)
Definition irq0 : irq := mk_irq (replicate 8 0) None 0 0 None.
Definition sample_irqs : kst :=
  set_k_irqs (list_to_map ((fun n => (n, irq0)) <$> seqZ 0 (CONFIG_IRQ_COUNT - 1))) sample.

Lemma sample_irq_table : irq_table (k_irqs sample_irqs).
Proof.
  intros n. unfold sample_irqs. cbn [k_irqs set_k_irqs]. rewrite <- elem_of_dom, dom_list_to_map_L.
  rewrite elem_of_list_to_set, <- list_fmap_compose, list_elem_of_fmap. setoid_rewrite elem_of_seqZ. cbn.
  split; [intros (y & -> & Hy); lia|intros Hn; exists n; lia].
Qed.

Lemma irq_request_dispatch_witness :
  exists s1, rx_request_irq 3 (Some (I_drv 7)) 0 [117] 5 sample_irqs = Done OS_OK s1 /\
    irq_table (k_irqs s1) /\
    (__rx_irq_handler (fun _ _ _ => ret 0) 3 s1
      = (let! _ := (fun _ _ _ => ret 0) (I_drv 7) 3 5 in ret tt)
          (set_k_irq_counter (u32 (k_irq_counter s1 + 1)) s1)) /\
    (forall h' name' d', rx_request_irq 3 h' 0 name' d' s1 = Done E_OS_UNAVAIL s1) /\
    exists s2, rx_free_irq 3 5 s1 = Done OS_OK s2 /\ irq_table (k_irqs s2) /\
      __rx_irq_handler (fun _ _ _ => ret 0) 3 s2
        = Done tt (set_k_irq_counter (u32 (k_irq_counter s2 + 1)) s2) /\
      exists s3, rx_request_irq 3 (Some (I_drv 7)) 0 [117] 5 s2 = Done OS_OK s3.
Proof.
  apply (irq_request_dispatch (fun _ _ _ => ret 0) sample_irqs 3 (I_drv 7) 0 [117] 5);
    [apply sample_irq_table|done|done|].
  intros i Hi. vm_compute in Hi. by simplify_eq.
Defined.

Lemma irq_bound_too_weak_witness :
  rx_request_irq 10 (Some (I_drv 7)) 0 [117] 5 sample_irqs = Crash BadAddr.
Proof. apply irq_bound_too_weak; [apply sample_irq_table|done]. Defined.
