(* ===== verification/Dispatch.v ===== *)
(** * The interrupt controller of the ARM port (src/arch/arm/rpi/dispatch.c)

    The state is the table of enabled lines and the registers of the BCM2835: the
    pending bits that the code reads, and the last values written to the registers
    that enable and disable lines.  [__irq_handler] is not part of the repository; it
    is a parameter, a procedure on the state, which may acknowledge the interrupt it
    handles. *)

From stdpp Require Import base list gmap.
From Stdlib Require Import ZArith Lia.
From S2P Require Import Prelude.
#[local] Open Scope Z_scope.
#[local] Open Scope rosx_scope.

Record arm_state := mk_arm {
  IRQ_basic_pending : Z;
  IRQ_pending_1 : Z;
  IRQ_pending_2 : Z;
  irq_control : list (Z * Z);   (* the writes to Enable_* (0, 1, 2) and Disable_* (3, 4, 5), the last one first *)
  arm_enabled_irqs : Z * Z * Z
}.

Definition write_control (reg v : Z) (s : arm_state) : arm_state :=
  mk_arm (IRQ_basic_pending s) (IRQ_pending_1 s) (IRQ_pending_2 s) ((reg, v) :: irq_control s) (arm_enabled_irqs s).
Definition set_enabled (e : Z * Z * Z) (s : arm_state) : arm_state :=
  mk_arm (IRQ_basic_pending s) (IRQ_pending_1 s) (IRQ_pending_2 s) (irq_control s) e.

(** [arm_enabled_irqs[i]]. *)
Definition enabled_word (i : Z) (e : Z * Z * Z) : Z :=
  let '(e0, e1, e2) := e in if decide (i = 0) then e0 else if decide (i = 1) then e1 else e2.

(** [1 << n] as an unsigned word. *)
Definition line_bit (n : Z) : Z := u32 (Z.shiftl 1 n).

Definition __enable_irq (irq_num : Z) : proc arm_state unit :=
  let! s := get in
  let '(e0, e1, e2) := arm_enabled_irqs s in
  if decide (irq_num < 32) then
    upd (write_control 0 (line_bit irq_num)) ;;;
    upd (set_enabled (Z.lor e0 (line_bit irq_num), e1, e2))
  else if decide (irq_num < 64) then
    upd (write_control 1 (line_bit (irq_num - 32))) ;;;
    upd (set_enabled (e0, Z.lor e1 (line_bit (irq_num - 32)), e2))
  else
    upd (write_control 2 (line_bit (irq_num - 64))) ;;;
    upd (set_enabled (e0, e1, Z.lor e2 (line_bit (irq_num - 64)))).

Definition __disable_irq (irq_num : Z) : proc arm_state unit :=
  let! s := get in
  let '(e0, e1, e2) := arm_enabled_irqs s in
  if decide (irq_num < 32) then
    upd (write_control 3 (line_bit irq_num)) ;;;
    upd (set_enabled (Z.land e0 (Z.lnot (line_bit irq_num)), e1, e2))
  else if decide (irq_num < 64) then
    upd (write_control 4 (line_bit (irq_num - 32))) ;;;
    upd (set_enabled (e0, Z.land e1 (Z.lnot (line_bit (irq_num - 32))), e2))
  else
    upd (write_control 5 (line_bit (irq_num - 64))) ;;;
    upd (set_enabled (e0, e1, Z.land e2 (Z.lnot (line_bit (irq_num - 64))))).

(** [31 - __builtin_clz(word)] of a word that is not 0. *)
Definition first_set_bit (word : Z) : Z := Z.log2 word.

Section dispatch.
  Context (__irq_handler : Z -> proc arm_state unit).

Definition check_irq_pending (irq_num : Z) : proc arm_state unit :=
  let! s := get in
  let handle :=
    if decide (irq_num >= 64) then negb (Z.land (IRQ_basic_pending s) (line_bit (irq_num - 64)) =? 0)
    else if decide (irq_num >= 32) then negb (Z.land (IRQ_pending_2 s) (line_bit (irq_num - 32)) =? 0)
    else negb (Z.land (IRQ_pending_1 s) (line_bit irq_num) =? 0) in
  if handle : bool then __irq_handler irq_num else ret tt.

(** The loop over the bits of a word, of which there are 32. *)
Fixpoint mask_loop (n : nat) (mask i : Z) : proc arm_state unit :=
  match n with
  | O => if decide (mask <> 0) then crash NoFuel else ret tt
  | S n =>
    if decide (mask <> 0) then
      let bit := first_set_bit mask in
      let mask := Z.lxor mask (line_bit bit) in
      check_irq_pending (bit + Z.shiftl i 5) ;;;
      mask_loop n mask i
    else ret tt
  end.

Definition word_round (i : Z) : proc arm_state unit :=
  let! s := get in mask_loop 32 (enabled_word i (arm_enabled_irqs s)) i.

Definition dispatch : proc arm_state unit :=
  word_round 0 ;;; word_round 1 ;;; word_round 2.
End dispatch.

(** ** What the lines mean *)

Definition word_of (l : Z) (w0 w1 w2 : Z) : Z := if decide (l >= 64) then w2 else if decide (l >= 32) then w1 else w0.
Definition enabled (s : arm_state) (l : Z) : bool :=
  let '(e0, e1, e2) := arm_enabled_irqs s in Z.testbit (word_of l e0 e1 e2) (l mod 32).
Definition pending (s : arm_state) (l : Z) : bool :=
  Z.testbit (word_of l (IRQ_pending_1 s) (IRQ_pending_2 s) (IRQ_basic_pending s)) (l mod 32).

(** The lines in the order in which they are looked at: word by word, each from its
    highest bit down. *)
Definition word_lines (i : Z) (n : nat) : list Z := (fun k => Z.of_nat k + 32 * i) <$> reverse (seq 0 n).
Definition all_lines : list Z := word_lines 0 32 ++ word_lines 1 32 ++ word_lines 2 32.

(** The enabled words are words. *)
Definition arm_wf (s : arm_state) : Prop :=
  forall i, 0 <= enabled_word i (arm_enabled_irqs s) < 2 ^ 32.

(** ** Enabling and disabling *)

Lemma line_bit_spec n k : 0 <= n < 32 -> 0 <= k -> Z.testbit (line_bit n) k = (n =? k).
Proof.
  intros Hn Hk. unfold line_bit. rewrite Z.shiftl_1_l.
  rewrite u32_small by (split; [apply Z.pow_nonneg; lia|apply Z.pow_lt_mono_r; lia]).
  apply Z.pow2_bits_eqb. lia.
Qed.

Lemma land_line_bit w n : 0 <= n < 32 -> negb (Z.land w (line_bit n) =? 0) = Z.testbit w n.
Proof.
  intros Hn. destruct (Z.testbit w n) eqn:E.
  - apply negb_true_iff, Z.eqb_neq. intros H0. apply (f_equal (fun z => Z.testbit z n)) in H0.
    rewrite Z.land_spec, line_bit_spec, E, Z.bits_0, Z.eqb_refl in H0 by lia. done.
  - apply negb_false_iff, Z.eqb_eq. apply Z.bits_inj'. intros k Hk. rewrite Z.land_spec, line_bit_spec, Z.bits_0 by lia.
    destruct (Z.eqb_spec n k) as [<-|]; [by rewrite E|apply andb_false_r].
Qed.

(** The line [n] of the word [i]. *)
Lemma word_of_line i n w0 w1 w2 :
  0 <= i < 3 -> 0 <= n < 32 ->
  word_of (n + 32 * i) w0 w1 w2 = enabled_word i (w0, w1, w2) /\ (n + 32 * i) mod 32 = n.
Proof.
  intros Hi Hn. split; [|symmetry; apply (Z.mod_unique_pos _ 32 i n); lia].
  unfold word_of, enabled_word. repeat case_decide; done || lia.
Qed.

Lemma lines_cases l : 0 <= l < 96 -> exists i n, l = n + 32 * i /\ 0 <= i < 3 /\ 0 <= n < 32.
Proof.
  intros Hl. exists (l / 32), (l mod 32). pose proof (Z.div_mod l 32 ltac:(lia)).
  pose proof (Z.mod_pos_bound l 32 ltac:(lia)). lia.
Qed.

Lemma enabled_line s i n :
  0 <= i < 3 -> 0 <= n < 32 -> enabled s (n + 32 * i) = Z.testbit (enabled_word i (arm_enabled_irqs s)) n.
Proof.
  intros Hi Hn. unfold enabled. destruct (arm_enabled_irqs s) as [[e0 e1] e2].
  by destruct (word_of_line i n e0 e1 e2 Hi Hn) as [-> ->].
Qed.

(** One word of the table gets another value. *)
Definition with_word (i v : Z) (e : Z * Z * Z) : Z * Z * Z :=
  let '(e0, e1, e2) := e in
  if decide (i = 0) then (v, e1, e2) else if decide (i = 1) then (e0, v, e2) else (e0, e1, v).

Lemma enabled_with_word i j v e :
  0 <= i < 3 -> 0 <= j < 3 -> enabled_word j (with_word i v e) = if decide (i = j) then v else enabled_word j e.
Proof.
  intros Hi Hj. destruct e as [[e0 e1] e2]. unfold with_word, enabled_word.
  repeat case_decide; try done; lia.
Qed.

Lemma enable_run s i n :
  0 <= i < 3 -> 0 <= n < 32 -> exists s', __enable_irq (n + 32 * i) s = Done tt s' /\
    irq_control s' = (i, line_bit n) :: irq_control s /\
    arm_enabled_irqs s' = with_word i (Z.lor (enabled_word i (arm_enabled_irqs s)) (line_bit n)) (arm_enabled_irqs s).
Proof.
  intros Hi Hn. unfold __enable_irq. rewrite bind_get. destruct (arm_enabled_irqs s) as [[e0 e1] e2] eqn:E.
  assert (i = 0 \/ i = 1 \/ i = 2) as [->|[->| ->]] by lia.
  - rewrite decide_True by lia. rewrite bind_upd. rewrite Z.add_0_r. by eexists.
  - rewrite decide_False, decide_True by lia. rewrite bind_upd. replace (n + 32 * 1 - 32) with n by lia. by eexists.
  - rewrite decide_False, decide_False by lia. rewrite bind_upd. replace (n + 32 * 2 - 64) with n by lia. by eexists.
Qed.

Lemma disable_run s i n :
  0 <= i < 3 -> 0 <= n < 32 -> exists s', __disable_irq (n + 32 * i) s = Done tt s' /\
    irq_control s' = (3 + i, line_bit n) :: irq_control s /\
    arm_enabled_irqs s' =
      with_word i (Z.land (enabled_word i (arm_enabled_irqs s)) (Z.lnot (line_bit n))) (arm_enabled_irqs s).
Proof.
  intros Hi Hn. unfold __disable_irq. rewrite bind_get. destruct (arm_enabled_irqs s) as [[e0 e1] e2] eqn:E.
  assert (i = 0 \/ i = 1 \/ i = 2) as [->|[->| ->]] by lia.
  - rewrite decide_True by lia. rewrite bind_upd. rewrite Z.add_0_r. by eexists.
  - rewrite decide_False, decide_True by lia. rewrite bind_upd. replace (n + 32 * 1 - 32) with n by lia. by eexists.
  - rewrite decide_False, decide_False by lia. rewrite bind_upd. replace (n + 32 * 2 - 64) with n by lia. by eexists.
Qed.

(** Enabling a line enables it and no other, disabling it undoes that; the controller
    is told the bit of the line in the register of its word. *)
Theorem enable_disable_line s l :
  0 <= l < 96 ->
  exists s1 s2, __enable_irq l s = Done tt s1 /\ __disable_irq l s1 = Done tt s2 /\
    (forall k, 0 <= k < 96 -> enabled s1 k = bool_decide (k = l) || enabled s k) /\
    (forall k, 0 <= k < 96 -> enabled s2 k = negb (bool_decide (k = l)) && enabled s k) /\
    irq_control s2 = (3 + l / 32, line_bit (l mod 32)) :: (l / 32, line_bit (l mod 32)) :: irq_control s.
Proof.
  intros Hl. destruct (lines_cases l Hl) as (i & n & -> & Hi & Hn).
  destruct (enable_run s i n Hi Hn) as (s1 & E1 & C1 & T1). destruct (disable_run s1 i n Hi Hn) as (s2 & E2 & C2 & T2).
  assert (Ed : (n + 32 * i) / 32 = i) by (symmetry; apply (Z.div_unique_pos _ 32 i n); lia).
  assert (Em : (n + 32 * i) mod 32 = n) by (by destruct (word_of_line i n 0 0 0 Hi Hn)).
  exists s1, s2. do 2 (split; [done|]). rewrite Ed, Em. split; [|split; [|by rewrite C2, C1]].
  - intros k Hk. destruct (lines_cases k Hk) as (j & m & -> & Hj & Hm).
    rewrite !enabled_line, T1, enabled_with_word by done. case_decide as Hij.
    + subst j. rewrite Z.lor_spec, line_bit_spec, orb_comm by lia. f_equal.
      destruct (Z.eqb_spec n m) as [->|]; [by rewrite bool_decide_eq_true_2|rewrite bool_decide_eq_false_2; [done|lia]].
    + rewrite bool_decide_eq_false_2; [done|lia].
  - intros k Hk. destruct (lines_cases k Hk) as (j & m & -> & Hj & Hm).
    rewrite !enabled_line, T2, T1, !enabled_with_word by done. case_decide as Hij.
    + subst j. rewrite decide_True by done. rewrite Z.land_spec, Z.lnot_spec, Z.lor_spec, line_bit_spec by lia.
      destruct (Z.eqb_spec n m) as [->|]; [by rewrite bool_decide_eq_true_2, andb_false_r|].
      rewrite bool_decide_eq_false_2 by lia. by rewrite andb_true_r, orb_false_r.
    + rewrite bool_decide_eq_false_2 by lia. done.
Qed.

(** ** Dispatching *)

Lemma word_lines_S i n : word_lines i (S n) = (Z.of_nat n + 32 * i) :: word_lines i n.
Proof. unfold word_lines. by rewrite seq_S, reverse_app. Qed.

(** The highest bit of a word, and the word without it. *)
Lemma clear_top mask n :
  0 <= mask < 2 ^ Z.of_nat (S n) -> Z.testbit mask (Z.of_nat n) = true -> (n < 32)%nat ->
  first_set_bit mask = Z.of_nat n /\ mask <> 0 /\
  0 <= Z.lxor mask (line_bit (Z.of_nat n)) < 2 ^ Z.of_nat n /\
  forall k, 0 <= k < Z.of_nat n -> Z.testbit (Z.lxor mask (line_bit (Z.of_nat n))) k = Z.testbit mask k.
Proof.
  intros Hm Ht Hn. assert (H0 : mask <> 0) by (intros ->; by rewrite Z.bits_0 in Ht).
  assert (Hlo : 2 ^ Z.of_nat n <= mask).
  { destruct (Z_lt_le_dec mask (2 ^ Z.of_nat n)) as [Hlt|]; [|done].
    rewrite (Z.bits_above_log2 mask) in Ht; [done|lia|apply Z.log2_lt_pow2; lia]. }
  rewrite Nat2Z.inj_succ in Hm.
  split; [apply Z.log2_unique; [lia|split; [done|apply Hm]]|]. split; [done|].
  assert (Hb : forall k, 0 <= k -> Z.testbit (Z.lxor mask (line_bit (Z.of_nat n))) k =
    Z.testbit (mask mod 2 ^ Z.of_nat n) k).
  { intros k Hk. rewrite Z.lxor_spec, line_bit_spec by lia. destruct (Z.eqb_spec (Z.of_nat n) k) as [<-|Hne].
    - rewrite Ht, Z.mod_pow2_bits_high by lia. done.
    - rewrite xorb_false_r. destruct (Z_lt_le_dec k (Z.of_nat n)); [by rewrite Z.mod_pow2_bits_low by lia|].
      rewrite Z.mod_pow2_bits_high by lia. apply Z.bits_above_log2; [lia|]. apply Z.log2_lt_pow2; [lia|].
      eapply Z.lt_le_trans; [apply Hm|]. apply Z.pow_le_mono_r; lia. }
  assert (E : Z.lxor mask (line_bit (Z.of_nat n)) = mask mod 2 ^ Z.of_nat n) by (apply Z.bits_inj'; intros k Hk; by apply Hb).
  rewrite E. split; [apply Z.mod_pos_bound, Z.pow_pos_nonneg; lia|].
  intros k Hk. apply Z.mod_pow2_bits_low; lia.
Qed.

Lemma filter_ext_in {A} (P Q : A -> Prop) `{forall x, Decision (P x), forall x, Decision (Q x)} (l : list A) :
  (forall x, x ∈ l -> P x <-> Q x) -> filter P l = filter Q l.
Proof.
  induction l as [|x l IH]; intros Hx; [done|]. rewrite !filter_cons, IH by set_solver.
  assert (Hxx : P x <-> Q x) by (apply Hx; set_solver). repeat case_decide; tauto.
Qed.

(** The table decides which lines are enabled. *)
Lemma enabled_table s s' l : arm_enabled_irqs s' = arm_enabled_irqs s -> enabled s' l = enabled s l.
Proof. unfold enabled. by intros ->. Qed.

Lemma all_lines_nodup : NoDup all_lines.
Proof. apply (bool_decide_unpack _). by vm_compute. Qed.
Lemma all_lines_range : Forall (fun l => 0 <= l < 96) all_lines.
Proof. apply (bool_decide_unpack _). by vm_compute. Qed.

Section handled.
  (** A handler that ends, leaves the table of enabled lines alone, and acknowledges
      at most the interrupt it handles. *)
  Context (__irq_handler : Z -> proc arm_state unit) (hd : Z -> arm_state -> arm_state).
  Context (Hrun : forall l s, __irq_handler l s = Done tt (hd l s)).
  Context (Htab : forall l s, arm_enabled_irqs (hd l s) = arm_enabled_irqs s).
  Context (Hother : forall l k s, 0 <= l < 96 -> 0 <= k < 96 -> k <> l -> pending (hd l s) k = pending s k).

Definition handle_line (s : arm_state) (l : Z) : arm_state := if pending s l then hd l s else s.
Definition handle_all (ls : list Z) (s : arm_state) : arm_state := foldl handle_line s ls.

Lemma check_run s i n :
  0 <= i < 3 -> 0 <= n < 32 ->
  check_irq_pending __irq_handler (n + 32 * i) s = Done tt (handle_line s (n + 32 * i)).
Proof using Hrun.
  intros Hi Hn. unfold check_irq_pending, handle_line, pending. rewrite bind_get.
  destruct (word_of_line i n (IRQ_pending_1 s) (IRQ_pending_2 s) (IRQ_basic_pending s) Hi Hn) as [-> ->].
  assert (i = 0 \/ i = 1 \/ i = 2) as [->|[->| ->]] by lia.
  - rewrite !decide_False by lia. rewrite land_line_bit by lia. rewrite Z.add_0_r. cbn. by destruct (Z.testbit _ _).
  - rewrite decide_False, decide_True by lia. replace (n + 32 * 1 - 32) with n by lia.
    rewrite land_line_bit by lia. cbn. by destruct (Z.testbit _ _).
  - rewrite decide_True by lia. replace (n + 32 * 2 - 64) with n by lia.
    rewrite land_line_bit by lia. cbn. by destruct (Z.testbit _ _).
Qed.

Lemma mask_loop_run i n N mask s :
  0 <= i < 3 -> (n <= N)%nat -> (n <= 32)%nat -> 0 <= mask < 2 ^ Z.of_nat n ->
  mask_loop __irq_handler N mask i s =
    Done tt (handle_all (filter (fun l => Z.testbit mask (l - 32 * i) = true) (word_lines i n)) s).
Proof using Hrun.
  clear Htab Hother. intros Hi. revert N mask s. induction n as [|n IH]; intros N mask s HN Hn Hm.
  { assert (mask = 0) as -> by (simpl in Hm; lia). by destruct N. }
  rewrite word_lines_S, filter_cons. replace (Z.of_nat n + 32 * i - 32 * i) with (Z.of_nat n) by lia.
  destruct (Z.testbit mask (Z.of_nat n)) eqn:Et.
  - destruct (clear_top mask n Hm Et) as (Hb & H0 & Hm' & Hbits); [lia|]. destruct N as [|N]; [lia|].
    cbn [mask_loop]. rewrite !decide_True by done. cbv zeta. rewrite Hb, Z.shiftl_mul_pow2, Z.mul_comm by lia.
    change (2 ^ 5) with 32. rewrite (bind_run _ _ _ _ _ (check_run s i (Z.of_nat n) Hi ltac:(lia))).
    rewrite IH by lia. unfold handle_all. cbn [foldl]. do 2 f_equal. apply filter_ext_in.
    intros l [k [-> Hk]]%list_elem_of_fmap. rewrite elem_of_reverse, elem_of_seq in Hk.
    replace (Z.of_nat k + 32 * i - 32 * i) with (Z.of_nat k) by lia. by rewrite Hbits by lia.
  - rewrite decide_False by done. apply IH; [lia|lia|]. split; [lia|].
    destruct (Z_lt_le_dec mask (2 ^ Z.of_nat n)) as [|Hge]; [done|exfalso].
    assert (El : Z.log2 mask = Z.of_nat n) by (apply Z.log2_unique; [lia|rewrite <-Nat2Z.inj_succ; lia]).
    assert (0 < mask) by (pose proof (Z.pow_pos_nonneg 2 (Z.of_nat n)); lia).
    rewrite <-El, Z.bit_log2 in Et by done. done.
Qed.

(** Which interrupts are handled is decided by the pending bits at the start. *)
Lemma handle_all_pending ls s :
  NoDup ls -> Forall (fun l => 0 <= l < 96) ls ->
  handle_all ls s = foldl (fun s l => hd l s) s (filter (fun l => pending s l = true) ls).
Proof using Hother.
  revert s. induction ls as [|l ls IH]; intros s Hnd Hr; [done|]. apply NoDup_cons in Hnd as [Hl Hnd].
  apply Forall_cons in Hr as [Hrl Hr].
  unfold handle_all in *. cbn [foldl]. rewrite IH by done. rewrite filter_cons. unfold handle_line.
  destruct (pending s l) eqn:Ep; [|by rewrite decide_False].
  rewrite decide_True by done. cbn [foldl]. f_equal. apply filter_ext_in. intros k Hk.
  rewrite Hother; [done|done| |by intros ->]. rewrite Forall_forall in Hr. by apply Hr.
Qed.

Lemma handle_all_table ls s : arm_enabled_irqs (handle_all ls s) = arm_enabled_irqs s.
Proof using Htab.
  revert s. induction ls as [|l ls IH]; intros s; [done|]. unfold handle_all in *. cbn [foldl]. rewrite IH.
  unfold handle_line. by destruct (pending s l).
Qed.

Lemma handle_all_app l1 l2 s : handle_all (l1 ++ l2) s = handle_all l2 (handle_all l1 s).
Proof. apply foldl_app. Qed.

Lemma word_round_run s i :
  arm_wf s -> 0 <= i < 3 ->
  word_round __irq_handler i s = Done tt (handle_all (filter (fun l => enabled s l = true) (word_lines i 32)) s).
Proof using Hrun.
  clear Htab Hother. intros Hwf Hi. unfold word_round. rewrite bind_get, (mask_loop_run i 32) by (done || lia || apply Hwf).
  do 2 f_equal. apply filter_ext_in. intros l [k [-> Hk]]%list_elem_of_fmap. rewrite elem_of_reverse, elem_of_seq in Hk.
  rewrite enabled_line by lia. by replace (Z.of_nat k + 32 * i - 32 * i) with (Z.of_nat k) by lia.
Qed.

End handled.

(** A handler that acknowledges its interrupt by clearing the pending bit. *)
Definition ack (l : Z) (s : arm_state) : arm_state :=
  let clear w := Z.land w (Z.lnot (line_bit (l mod 32))) in
  if decide (l >= 64) then
    mk_arm (clear (IRQ_basic_pending s)) (IRQ_pending_1 s) (IRQ_pending_2 s) (irq_control s) (arm_enabled_irqs s)
  else if decide (l >= 32) then
    mk_arm (IRQ_basic_pending s) (IRQ_pending_1 s) (clear (IRQ_pending_2 s)) (irq_control s) (arm_enabled_irqs s)
  else
    mk_arm (IRQ_basic_pending s) (clear (IRQ_pending_1 s)) (IRQ_pending_2 s) (irq_control s) (arm_enabled_irqs s).

Lemma ack_other l k s : 0 <= l < 96 -> 0 <= k < 96 -> k <> l -> pending (ack l s) k = pending s k.
Proof.
  intros Hl Hk Hne. destruct (lines_cases l Hl) as (i & n & -> & Hi & Hn), (lines_cases k Hk) as (j & m & -> & Hj & Hm).
  unfold pending, ack. destruct (word_of_line i n 0 0 0 Hi Hn) as [_ ->].
  assert (Hclear : forall w, i = j -> Z.testbit (Z.land w (Z.lnot (line_bit n))) m = Z.testbit w m).
  { intros w ->. rewrite Z.land_spec, Z.lnot_spec, line_bit_spec by lia.
    rewrite (proj2 (Z.eqb_neq n m)) by lia. apply andb_true_r. }
  destruct (word_of_line j m 0 0 0 Hj Hm) as [_ ->]. unfold word_of.
  repeat case_decide; cbn; try done; try lia; apply Hclear; lia.
Qed.

Lemma ack_table l s : arm_enabled_irqs (ack l s) = arm_enabled_irqs s.
Proof. unfold ack. repeat case_decide; done. Qed.

(** Lines 3, 5, 33 and 64 are pending, and of these 3, 33 and 64 enabled. *)
Definition sample_arm : arm_state := mk_arm 1 40 2 [] (8 + 1, 2, 1).

