(* ===== verification/Tick.v ===== *)
(** * The tick: time slices, the timer thread and interrupts
      (src/kernel/rx_timer.c, src/arch/x86/x86_sim.c)

    The timer interrupt counts [jiffies], notifies the timer thread through the
    event queue and ends the time slice of the running task.  The timer thread
    takes the expired timers out of the list of active timers, wakes up the tasks
    that sleep on them and calls the handlers of the others.  [sig_handler] is the
    entry point of every interrupt and preempts the running task when a more
    urgent one has become ready. *)

From stdpp Require Import base gmap list sorting.
From Stdlib Require Import ZArith Lia.
From S2P Require Import Prelude Mem State Samples Chains Port ReadyQueue Sched TaskQueue Task Timer.
From S2P Require Import Mutex Semaphore Queue Wait Event Irq.
#[local] Open Scope Z_scope.
#[local] Open Scope rosx_scope.

Definition RX_TIMER_EVENT_IRQ_EVENT : Z := 1.
Definition RX_TIMER0_INT : Z := 0.

(** The part of the tick handler under [CONFIG_TIME_SLICE]. *)
Definition time_slice_tick : M unit :=
  let! curr := gets k_curr in
  let! t := ld_task curr in
  if decide (t_time_slice t > 0) then
    on_task curr (fun t => set_t_ticks (s32 (t_ticks t - 1)) t) ;;;
    let! t := ld_task curr in
    if decide (t_ticks t = 0) then
      let! _ := __rx_remove_from_ready_q curr in
      on_task curr (set_t_state RX_TASK_READY) ;;;
      let! _ := __rx_add_to_ready_q curr in
      let! hd := gets k_ready in
      if decide (curr <> hd) then upd (set_k_need_resched 1)
      else
        on_task curr (fun t => set_t_ticks (t_time_slice t) t) ;;;
        on_task curr (set_t_state RX_TASK_RUNNING)
    else ret tt
  else ret tt.

Section System.
  (** The application's timer handlers and the drivers' interrupt handlers. *)
  Context (call_app : positive -> ptr -> M unit).
  Context (call_drv : positive -> Z -> Z -> M Z).
  (** The addresses of [rx_event_recv_q] and [__rx_timer_events]. *)
  Context (rx_event_recv_q __rx_timer_events : positive).

(** [e] and [timer] are the addresses of the local variables of
    [rx_notify_event] and of [rx_write_to_queue]. *)
Definition __rx_timer_tick_irq_handler (e : Z) (timer : ptr) (irq a : Z) : M Z :=
  upd (fun s => set_k_jiffies (u32 (k_jiffies s + 1)) s) ;;;
  rx_notify_event rx_event_recv_q e timer (Some __rx_timer_events) RX_TIMER_EVENT_IRQ_EVENT ;;;
  time_slice_tick ;;;
  ret RX_IRQ_HANDLED.

(** [start->handler(start->priv)]. *)
Definition run_handler (h : timer_handler) (priv : ptr) : M unit :=
  match h with
  | H_mutex => __rx_mutex_handler priv
  | H_sem => __rx_sem_handler priv
  | H_wait => __rx_wait_handler priv
  | H_app f => call_app f priv
  end.

(** The loop over the expired timers, from the head of the list. *)
Fixpoint expire_loop (fuel : nat) (tick : Z) (start : ptr) : M unit :=
  match fuel with
  | O => crash NoFuel
  | S fuel =>
    match start with
    | None => ret tt
    | Some _ =>
      let! t := ld_timer start in
      if decide (tm_time_expiry t <= tick) then
        (match tm_handler t with
         | Some h =>
           __rx_remove_from_timer_list start ;;;
           on_timer start (fun t => set_tm_flag (Z.land (tm_flag t) RX_TIMER_DISABLED) t) ;;;
           let! t := ld_timer start in
           match tm_handler t with
           | Some h => run_handler h (tm_priv t)
           | None => crash NullDeref
           end
         | None =>
           on_task (tm_task t) (set_t_state RX_TASK_READY) ;;;
           let! _ := __rx_add_to_ready_q (tm_task t) in
           on_task (tm_task t) (set_t_timer None) ;;;
           __rx_remove_from_timer_list start
         end) ;;;
        let! hd := gets k_timer_head in
        expire_loop fuel tick hd
      else ret tt
    end
  end.

(** What the timer thread does once it has been notified; [fuel] bounds the
    number of timers that expire in one pass. *)
Definition timer_pass (fuel : nat) (event_flag : Z) : M unit :=
  let! imask := rx_enter_critical in
  (if decide (Z.land event_flag RX_TIMER_EVENT_IRQ_EVENT = RX_TIMER_EVENT_IRQ_EVENT) then
     let! _ := rx_clear_event_flag RX_TIMER_EVENT_IRQ_EVENT in
     let! start := gets k_timer_head in
     let! tick := gets k_jiffies in
     expire_loop fuel tick start
   else pr_error) ;;;
  rx_exit_critical imask.

Fixpoint timer_rounds (n fuel : nat) : M unit :=
  match n with
  | O => ret tt
  | S n =>
    let! event_flag := rx_wait_event_group (Some __rx_timer_events) RX_TIMER_EVENT_IRQ_EVENT in
    timer_pass fuel (u32 event_flag) ;;;
    timer_rounds n fuel
  end.

(** [n] rounds of the timer thread; its interrupt is named "timer_irq". *)
Definition rx_timer_thread (n fuel : nat) : M unit :=
  let! r := rx_request_irq RX_TIMER0_INT (Some I_tick) 0
    [116; 105; 109; 101; 114; 95; 105; 114; 113] 0 in
  (if decide (OS_OK <> r) then pr_panic else ret tt) ;;;
  timer_rounds n fuel.

(** The handlers the interrupt table can hold. *)
Definition run_irq (e : Z) (timer : ptr) (h : irq_fn) (irq dev_id : Z) : M Z :=
  match h with
  | I_tick => __rx_timer_tick_irq_handler e timer irq dev_id
  | I_drv f => call_drv f irq dev_id
  end.

(** The interrupt with the number [num] arrives while the running task is at
    [eip].  When the handler has asked for it, [__preempt__] saves [eip] and makes
    the interrupted task continue in [__rx_preempt_task], which calls
    [rx_sched]. *)
Definition sig_handler (e : Z) (timer : ptr) (num eip : Z) : M unit :=
  let! tcb := gets k_curr in
  upd (set_k_context 1) ;;;
  __rx_irq_handler (run_irq e timer) num ;;;
  let! resched := gets k_need_resched in
  if decide (resched <> 0) then
    upd (set_k_need_resched 0) ;;;
    on_task tcb (set_t_state RX_TASK_READY) ;;;
    on_task tcb (set_t_preempt eip) ;;;
    upd (set_k_context 0) ;;;
    rx_sched
  else upd (set_k_context 0).

End System.

(** ** Time slices *)

(** The running task goes behind the tasks of its priority. *)
Lemma slice_end_run s c tc l1 l2 :
  k_curr s = Some c -> k_tasks s !! c = Some tc ->
  ready_queue (k_tasks s) (k_ready s) (l1 ++ c :: l2) ->
  t_time_slice tc > 0 -> t_ticks tc = 1 ->
  let l' := ins (k_tasks s) (t_prio tc) c (l1 ++ l2) in
  exists ts2 n r cr,
    time_slice_tick s
      = (if decide (Some c <> head l') then upd (set_k_need_resched 1)
         else
           on_task (Some c) (fun t => set_t_ticks (t_time_slice t) t) ;;;
           on_task (Some c) (set_t_state RX_TASK_RUNNING)) (rq_st ts2 (head l') r cr s) /\
    ready_queue ts2 (head l') l' /\
    ts2 !! c = Some (set_t_next n (set_t_state RX_TASK_READY (set_t_ticks 0 tc))).
Proof.
  intros Hc Htc Hq Hsl Htk l'.
  assert (Hni : c ∉ l1 ++ l2) by (eapply nodup_mid, ready_queue_nodup, Hq).
  unfold time_slice_tick. step. rewrite Hc. step. rewrite decide_True by done. do 2 step.
  cbn [t_ticks set_t_ticks]. rewrite Htk. change (s32 (1 - 1)) with 0. rewrite decide_True by done.
  match goal with |- context [bind (__rx_remove_from_ready_q _) _ ?st] => set (s1 := st) end.
  destruct (leave_queue s1 (k_tasks s) l1 c l2 tc (set_t_ticks 0 tc))
    as (ts1 & E1 & Hq1 & Hc1 & Hr1 & Hp1); [done..|].
  erewrite bind_run by exact E1. unfold rq_upd at 1. step.
  match goal with |- context [bind (__rx_add_to_ready_q _) _ ?st] => set (s2 := st) end.
  destruct (make_ready s2 ts1 (l1 ++ l2) c
    (set_t_state RX_TASK_READY (set_t_next None (set_t_ticks 0 tc))))
    as (ts2 & n & E2 & Hq2 & Hr2 & Hc2); [done|done|by left|done|].
  assert (Hi : ins ts1 (t_prio tc) c (l1 ++ l2) = l').
  { apply ins_ext. intros y Hy. apply Hp1. by intros ->. }
  cbn [t_prio set_t_state set_t_next set_t_ticks] in *. rewrite Hi in *.
  erewrite bind_run by exact E2. step. exists ts2, n.
  exists (resched_after s2 (l1 ++ l2) (head l')), (crit_out s2). by split_and!.
Qed.

(** C11: The tick of a task with a time slice.  Until its ticks are used up the
    tick only counts; then the task goes behind every ready task of its priority,
    and either another task is now first, which asks for a reschedule, or the task
    is first again and starts a new slice. *)
Theorem time_slice_round_robin s c tc l1 l2 :
  k_curr s = Some c -> k_tasks s !! c = Some tc ->
  ready_queue (k_tasks s) (k_ready s) (l1 ++ c :: l2) -> t_time_slice tc > 0 ->
  0 < t_ticks tc < 2 ^ 31 ->
  let l' := ins (k_tasks s) (t_prio tc) c (l1 ++ l2) in
  exists s' tc',
    time_slice_tick s = Done tt s' /\ k_tasks s' !! c = Some tc' /\
    if decide (t_ticks tc = 1) then
      ready_queue (k_tasks s') (k_ready s') l' /\
      if decide (head l' = Some c)
      then t_ticks tc' = t_time_slice tc /\ t_state tc' = RX_TASK_RUNNING
      else k_need_resched s' = 1 /\ t_ticks tc' = 0 /\ t_state tc' = RX_TASK_READY
    else
      ready_queue (k_tasks s') (k_ready s') (l1 ++ c :: l2) /\
      t_ticks tc' = t_ticks tc - 1 /\ t_state tc' = t_state tc.
Proof.
  intros Hc Htc Hq Hsl Htk l'. case_decide as H1.
  - destruct (slice_end_run s c tc l1 l2) as (ts2 & n & r & cr & E & Hq2 & Hc2); [done..|].
    fold l' in E, Hq2. rewrite E. destruct (decide (head l' = Some c)) as [Hh|Hh]; cycle 1.
    + rewrite decide_True by congruence. by eexists _, _.
    + rewrite decide_False by congruence. unfold rq_st. repeat step. rewrite insert_insert_eq.
      eexists _, _. split_and!; [reflexivity|apply lookup_insert_eq| |done|done].
      eapply (ready_queue_in ts2); [exact Hc2| | | |exact Hq2]; [done|done|by right].
  - unfold time_slice_tick. step. rewrite Hc. step. rewrite decide_True by done. do 2 step.
    cbn [t_ticks set_t_ticks]. rewrite s32_small by lia. rewrite decide_False by lia.
    eexists _, _. split_and!; [reflexivity|apply lookup_insert_eq| |done|done].
    destruct (ready_queue_lookup _ _ _ c Hq) as (t & ? & Hrun); [set_solver|]. simplify_eq.
    eapply (ready_queue_in (k_tasks s)); [exact Htc| | | |exact Hq]; done.
Qed.

(** ** Expired timers *)

(** The task [x] sleeps on the timer [p]. *)
Definition sleeper (tms : gmap positive timer_list) (p x : positive) : Prop :=
  exists t, tms !! p = Some t /\ tm_handler t = None /\ tm_task t = Some x.

Lemma sleeper_relinked tms tms' p x : tm_relinked tms tms' -> sleeper tms p x -> sleeper tms' p x.
Proof.
  intros Hr (t & Ht & Hh & Hx). destruct (tm_relinked_lookup _ _ _ _ Hr Ht) as (n & q & Hp).
  by eexists.
Qed.

(** The first timer of the list has expired and its task is woken up. *)
Lemma expire_step call_app fuel tick s p L x tx rl :
  timer_queue (k_timers s) (k_timer_head s) (p :: L) -> sleeper (k_timers s) p x ->
  expiry (k_timers s) p <= tick -> k_tasks s !! x = Some tx -> x ∉ rl ->
  ready_queue (k_tasks s) (k_ready s) rl ->
  exists s' n,
    expire_loop call_app (S fuel) tick (Some p) s = expire_loop call_app fuel tick (head L) s' /\
    timer_queue (k_timers s') (k_timer_head s') L /\ tm_relinked (k_timers s) (k_timers s') /\
    ready_queue (k_tasks s') (k_ready s') (ins (k_tasks s) (t_prio tx) x rl) /\
    k_tasks s' !! x = Some (set_t_timer None (set_t_next n (set_t_state RX_TASK_READY tx))) /\
    (forall y t, y <> x -> k_tasks s !! y = Some t -> exists m, k_tasks s' !! y = Some (set_t_next m t)) /\
    (forall y, prio (k_tasks s') y = prio (k_tasks s) y).
Proof.
  intros HL (t & Ht & Hh & Htx) Hexp Hx Hni Hq. rewrite (expiry_lookup _ _ _ Ht) in Hexp.
  cbn [expire_loop]. step. rewrite decide_True by done. rewrite Hh, Htx. do 2 step.
  match goal with |- context [bind (__rx_add_to_ready_q _) _ ?st] => set (s1 := st) end.
  destruct (make_ready s1 (k_tasks s) rl x (set_t_state RX_TASK_READY tx))
    as (ts2 & n & E & Hq2 & Hr2 & Hx2); [done|done|by left|done|].
  erewrite bind_run by exact E. unfold rq_upd. step.
  match goal with |- context [obind (__rx_remove_from_timer_list _ ?st)] => set (s2 := st) end.
  destruct (timer_queue_remove s2 [] p L HL) as (tms' & E2 & HL' & Hr'); [by left|].
  erewrite obind_run by exact E2. step. cbn [app] in *.
  assert (Hts : k_tasks s2 = <[x := set_t_timer None (set_t_next n (set_t_state RX_TASK_READY tx))]> ts2)
    by reflexivity.
  exists (tm_upd tms' (head L) s2), n. cbn [k_timer_head tm_upd]. split_and!; [done|exact HL'|exact Hr'| | | |].
  - eapply ready_queue_in; [exact Hx2|done..|exact Hq2].
  - apply lookup_insert_eq.
  - intros y ty Hy Hty. destruct (relinked_lookup _ _ _ y ty Hr2) as [m Hm]; [by rewrite lookup_insert_ne|].
    exists m. change (k_tasks s2 !! y = Some (set_t_next m ty)). rewrite Hts. by rewrite lookup_insert_ne.
  - intros y. change (prio (k_tasks s2) y = prio (k_tasks s) y). rewrite Hts, prio_insert.
    case_decide; [subst y; by rewrite (prio_lookup _ _ _ Hx)|].
    rewrite (relinked_prio _ _ _ y Hr2), prio_insert. by rewrite decide_False.
Qed.

(** The loop stops when no timer has expired. *)
Lemma expire_stops call_app fuel tick s l :
  timer_queue (k_timers s) (k_timer_head s) l -> Forall (fun p => tick < expiry (k_timers s) p) l ->
  expire_loop call_app (S fuel) tick (head l) s = Done tt s.
Proof.
  intros HL Hl. destruct l as [|q l]; [done|]. cbn [head expire_loop].
  destruct (dchain_mid _ _ _ _ [] q l (tq_chain _ _ _ HL)) as (tq & Htq & _). step.
  apply Forall_cons in Hl as [Hl _]. rewrite (expiry_lookup _ _ _ Htq) in Hl.
  by rewrite decide_False by lia.
Qed.

(** The loop wakes up the tasks [xs] that sleep on the expired timers [la]. *)
Lemma expire_loop_run call_app tick la lb xs : forall fuel s rl,
  (length la < fuel)%nat -> timer_queue (k_timers s) (k_timer_head s) (la ++ lb) ->
  Forall2 (sleeper (k_timers s)) la xs ->
  Forall (fun p => expiry (k_timers s) p <= tick) la ->
  Forall (fun p => tick < expiry (k_timers s) p) lb ->
  NoDup xs -> (forall x, x ∈ xs -> x ∉ rl /\ is_Some (k_tasks s !! x)) ->
  ready_queue (k_tasks s) (k_ready s) rl ->
  exists s',
    expire_loop call_app fuel tick (head (la ++ lb)) s = Done tt s' /\
    timer_queue (k_timers s') (k_timer_head s') lb /\
    ready_queue (k_tasks s') (k_ready s') (wake_list (k_tasks s) xs rl) /\
    (forall x, x ∈ xs -> exists t', k_tasks s' !! x = Some t' /\ t_state t' = RX_TASK_READY /\
      t_timer t' = None) /\
    (forall y t, y ∉ xs -> k_tasks s !! y = Some t -> exists m, k_tasks s' !! y = Some (set_t_next m t)).
Proof.
  revert xs. induction la as [|p la IH]; intros xs fuel s rl Hf HL Hsl Ha Hb Hnd Hxs Hq;
    (destruct fuel as [|fuel]; [simpl in Hf; lia|]).
  { apply Forall2_nil_inv_l in Hsl as ->. cbn [app wake_list fold_left] in *. exists s.
    split_and!; [by apply expire_stops|done|done| |].
    - intros x ?%elem_of_nil. done.
    - intros y t _ Ht. exists (t_next t). by rewrite set_next_id. }
  apply Forall2_cons_inv_l in Hsl as (x & xs' & Hpx & Hsl & ->). apply NoDup_cons in Hnd as [Hxn Hnd].
  apply Forall_cons in Ha as [Hp Ha]. destruct (Hxs x ltac:(left)) as [Hxr [tx Hx]].
  destruct (expire_step call_app fuel tick s p (la ++ lb) x tx rl)
    as (s1 & n & E & HL1 & Hr1 & Hq1 & Hx1 & Hk1 & Hpr); [done..|].
  assert (Hexp : forall q, expiry (k_timers s1) q = expiry (k_timers s) q)
    by (intros q; by apply tm_relinked_expiry).
  destruct (IH xs' fuel s1 (ins (k_tasks s) (t_prio tx) x rl)) as (s' & E' & HL' & Hq' & Hw' & Hk').
  { simpl in Hf. lia. }
  { done. }
  { eapply Forall2_impl; [exact Hsl|]. intros. by eapply sleeper_relinked. }
  { eapply Forall_impl; [exact Ha|]. intros q. by rewrite Hexp. }
  { eapply Forall_impl; [exact Hb|]. intros q. by rewrite Hexp. }
  { done. }
  { intros y Hy. assert (Hyx : y <> x) by (by intros ->). destruct (Hxs y) as [Hyr [ty Hty]]; [by right|].
    destruct (Hk1 y ty Hyx Hty) as [m ->]. split; [|done]. rewrite elem_of_ins. tauto. }
  { done. }
  exists s'. cbn [app head]. rewrite E, wake_list_cons, (prio_lookup _ _ _ Hx).
  rewrite (wake_list_ext (k_tasks s) (k_tasks s1)) in Hq' by done. split_and!; [done..| |].
  - intros y [->|Hy]%elem_of_cons; [|by apply Hw'].
    destruct (Hk' x _ Hxn Hx1) as [m Hm]. by eexists.
  - intros y ty Hy Hty. apply not_elem_of_cons in Hy as [Hyx Hy].
    destruct (Hk1 y ty Hyx Hty) as [m Hm]. destruct (Hk' y _ Hy Hm) as [m' Hm']. by exists m'.
Qed.

Lemma clear_event_flag_run s c tc flag :
  k_curr s = Some c -> k_tasks s !! c = Some tc ->
  rx_clear_event_flag flag s = Done OS_OK (set_k_tasks (<[c :=
    set_t_event_recv (Z.land (t_event_recv tc) (u32 (Z.lnot flag)))
      (set_t_event_flag (Z.land (t_event_flag tc) (u32 (Z.lnot flag))) tc)]> (k_tasks s)) s).
Proof.
  intros Hc Htc. unfold rx_clear_event_flag. step. rewrite Hc. repeat step. unfold ret.
  rewrite insert_insert_eq. state_eq.
Qed.

(** C13: A pass of the timer thread over the sleeping tasks: the timers that have
    expired, which are first in the list, leave it, and the tasks that sleep on
    them become ready, in order and by priority; the other timers stay in order
    and the other tasks as they are.  The loop ends within one round more than
    there are expired timers. *)
Theorem timer_pass_wakes_sleepers call_app s c tc la lb xs rl fuel :
  k_curr s = Some c -> k_tasks s !! c = Some tc -> c ∉ xs ->
  timer_queue (k_timers s) (k_timer_head s) (la ++ lb) -> (length la < fuel)%nat ->
  Forall2 (sleeper (k_timers s)) la xs ->
  Forall (fun p => expiry (k_timers s) p <= k_jiffies s) la ->
  Forall (fun p => k_jiffies s < expiry (k_timers s) p) lb ->
  NoDup xs -> (forall x, x ∈ xs -> x ∉ rl /\ is_Some (k_tasks s !! x)) ->
  ready_queue (k_tasks s) (k_ready s) rl ->
  exists s',
    timer_pass call_app fuel RX_TIMER_EVENT_IRQ_EVENT s = Done tt s' /\
    timer_queue (k_timers s') (k_timer_head s') lb /\
    ready_queue (k_tasks s') (k_ready s') (wake_list (k_tasks s) xs rl) /\
    (forall x, x ∈ xs -> exists t', k_tasks s' !! x = Some t' /\ t_state t' = RX_TASK_READY /\
      t_timer t' = None) /\
    (forall y t, y ∉ xs -> y <> c -> k_tasks s !! y = Some t ->
      exists m, k_tasks s' !! y = Some (set_t_next m t)).
Proof.
  intros Hc Htc Hcx HL Hf Hsl Ha Hb Hnd Hxs Hq.
  unfold timer_pass. erewrite bind_run by apply enter_run. rewrite decide_True by done. step.
  set (s0 := set_k_critical (crit_in s) s).
  erewrite bind_run by (by apply (clear_event_flag_run s0 c tc)). do 2 step.
  match goal with |- context [<[c := ?t]> (k_tasks s)] => set (tc1 := t) end.
  set (s1 := set_k_tasks (<[c := tc1]> (k_tasks s)) s0).
  rewrite (dchain_head _ _ _ (tq_chain _ _ _ HL)).
  destruct (expire_loop_run call_app (k_jiffies s) la lb xs fuel s1 rl)
    as (s' & E & HL' & Hq' & Hw' & Hk'); try done.
  { intros x Hx. destruct (Hxs x Hx) as [? ?]. split; [done|]. unfold s1. norm.
    rewrite lookup_insert_ne by (by intros ->). done. }
  { eapply (ready_queue_in (k_tasks s)); [exact Htc| | | |exact Hq]; done. }
  rewrite (wake_list_ext (k_tasks s) (k_tasks s1)) in Hq'; cycle 1.
  { intros y. unfold s1. norm. rewrite prio_insert. case_decide; [subst y|done].
    symmetry. exact (prio_lookup _ _ _ Htc). }
  erewrite obind_run by exact E. rewrite exit_run. eexists.
  split_and!; [reflexivity|exact HL'|exact Hq'|exact Hw'|].
  intros y t Hy Hyc Ht. apply Hk'; [done|]. unfold s1. norm. by rewrite lookup_insert_ne.
Qed.

(** ** Preemption *)

(** C10: An interrupt preempts the running task: when its handler asks for a
    reschedule and leaves another task first in the ready queue, the interrupt
    returns into the scheduler, which gives the processor to that task; the
    interrupted task stays in the ready queue, READY, with the address to go on
    at, and the kernel is back outside the interrupt. *)
Theorem interrupt_preempts call_drv evq tev e timer num eip s s1 c tc h l :
  k_curr s = Some c ->
  __rx_irq_handler (run_irq call_drv evq tev e timer) num (set_k_context 1 s) = Done tt s1 ->
  k_need_resched s1 <> 0 -> k_curr s1 = Some c -> k_tasks s1 !! c = Some tc ->
  ready_queue (k_tasks s1) (k_ready s1) (h :: l) -> c ∈ l ->
  exists s' tc',
    sig_handler call_drv evq tev e timer num eip s = Switch s' (fun s2 => Done tt s2) /\
    k_curr s' = Some h /\ k_context s' = 0 /\ k_need_resched s' = 0 /\
    ready_queue (k_tasks s') (k_ready s') (h :: l) /\
    k_tasks s' !! c = Some tc' /\ t_state tc' = RX_TASK_READY /\ t_preempt tc' = eip.
Proof.
  intros Hc Hirq Hres Hc1 Htc Hq Hcl.
  assert (Hch : c <> h).
  { intros ->. pose proof (ready_queue_nodup _ _ _ Hq) as [? _]%NoDup_cons. done. }
  unfold sig_handler. step. step. erewrite bind_run by exact Hirq. step. rewrite decide_True by done.
  step. rewrite Hc. do 3 step. rewrite insert_insert_eq. set (tc1 := set_t_preempt _ _).
  match goal with |- context [rx_sched ?st] => set (s2 := st) end.
  assert (Hq2 : ready_queue (k_tasks s2) (k_ready s2) (h :: l)).
  { eapply (ready_queue_in (k_tasks s1)); [exact Htc| | | |exact Hq]; [done|done|]. by left. }
  destruct (ready_queue_lookup _ _ _ h Hq2) as (th & Hth & _); [left|].
  assert (Hc2 : k_tasks s2 !! c = Some tc1) by apply lookup_insert_eq.
  exists (switched h th s2), tc1.
  split_and!; [|done|done|done| | |done|done].
  - eapply sched_run; eauto. by apply ready_queue_head in Hq2.
  - by apply ready_queue_dispatched.
  - unfold switched. norm. rewrite lookup_insert_ne by done. exact Hc2.
Qed.

(** ** Examples *)

(** Tasks 1 and 2 share the priority 5; the time slice of task 1 ends. *)
Definition sample_slice : kst :=
  set_k_tasks (<[1%positive :=
      set_t_time_slice 3 (set_t_ticks 1 (task 5 RX_TASK_RUNNING (Some 2%positive)))]> tasks3) sample.

Lemma time_slice_round_robin_witness :
  exists s' tc',
    time_slice_tick sample_slice = Done tt s' /\ k_tasks s' !! 1%positive = Some tc' /\
    ready_queue (k_tasks s') (k_ready s') [2; 1; 3]%positive /\
    k_need_resched s' = 1 /\ t_ticks tc' = 0 /\ t_state tc' = RX_TASK_READY.
Proof.
  apply (time_slice_round_robin sample_slice 1
    (set_t_time_slice 3 (set_t_ticks 1 (task 5 RX_TASK_RUNNING (Some 2%positive)))) []
    [2; 3]%positive); try done.
  by apply ready_queueb_ok; vm_compute.
Defined.

(** Task 4 sleeps on timer 1, which has expired; timer 2 has not. *)
Definition sample_sleep : kst :=
  set_k_jiffies 10 (set_k_timer_head (Some 1%positive) (set_k_timers
    (<[1%positive := mk_timer 10 7 1 None None (Some 4%positive) (Some 2%positive) None]>
     {[ 2%positive := mk_timer 30 30 1 None None (Some 5%positive) None (Some 1%positive) ]}) sample)).

Lemma sample_sleep_queue :
  timer_queue (k_timers sample_sleep) (k_timer_head sample_sleep) [1; 2]%positive.
Proof.
  constructor.
  - by vm_compute; eauto 10.
  - repeat constructor; vm_compute; by intros.
  - intros x t [->|[->|?%elem_of_nil]%elem_of_cons]%elem_of_cons Ht; [..|done];
      vm_compute in Ht; by simplify_eq.
Qed.

Lemma timer_pass_wakes_sleepers_witness :
  exists s',
    timer_pass (fun _ _ => ret tt) 2 RX_TIMER_EVENT_IRQ_EVENT sample_sleep = Done tt s' /\
    timer_queue (k_timers s') (k_timer_head s') [2]%positive /\
    ready_queue (k_tasks s') (k_ready s')
      (wake_list (k_tasks sample_sleep) [4]%positive [1; 2; 3]%positive) /\
    (forall x, x ∈ [4]%positive -> exists t', k_tasks s' !! x = Some t' /\
      t_state t' = RX_TASK_READY /\ t_timer t' = None) /\
    (forall y t, y ∉ [4]%positive -> y <> 1%positive -> k_tasks sample_sleep !! y = Some t ->
      exists m, k_tasks s' !! y = Some (set_t_next m t)).
Proof.
  apply (timer_pass_wakes_sleepers (fun _ _ => ret tt) sample_sleep 1
    (task 1 RX_TASK_RUNNING (Some 2%positive)) [1]%positive [2]%positive [4]%positive
    [1; 2; 3]%positive 2); try done.
  - by intros ?%list_elem_of_singleton.
  - apply sample_sleep_queue.
  - simpl. lia.
  - repeat constructor. by eexists.
  - by repeat constructor.
  - by repeat constructor.
  - apply NoDup_singleton.
  - intros x Hx. apply list_elem_of_singleton in Hx. subst x. split; [|by eexists].
    rewrite !elem_of_cons, elem_of_nil. lia.
  - by apply ready_queueb_ok; vm_compute.
Defined.

(** The handler of interrupt 3 makes the urgent task 4 ready. *)
Definition sample_drv (f : positive) (irq dev_id : Z) : M Z :=
  let! _ := __rx_add_to_ready_q (Some 4%positive) in ret RX_IRQ_HANDLED.
Definition sample_preempt : kst :=
  set_k_irqs {[ 3 := mk_irq [] (Some (I_drv 7)) 0 0 None ]}
    (set_k_tasks (<[4%positive := task 0 RX_TASK_READY None]> tasks3) sample).
Definition sample_preempted : kst :=
  match __rx_irq_handler (run_irq sample_drv 5 6 0 None) 3 (set_k_context 1 sample_preempt) with
  | Done _ s => s
  | _ => sample
  end.

Lemma interrupt_preempts_witness :
  exists s' tc',
    sig_handler sample_drv 5 6 0 None 3 77 sample_preempt = Switch s' (fun s2 => Done tt s2) /\
    k_curr s' = Some 4%positive /\ k_context s' = 0 /\ k_need_resched s' = 0 /\
    ready_queue (k_tasks s') (k_ready s') [4; 1; 2; 3]%positive /\
    k_tasks s' !! 1%positive = Some tc' /\ t_state tc' = RX_TASK_READY /\ t_preempt tc' = 77.
Proof.
  refine (interrupt_preempts sample_drv 5 6 0 None 3 77 sample_preempt sample_preempted 1
    (task 1 RX_TASK_RUNNING (Some 2%positive)) 4 [1; 2; 3]%positive _ _ _ _ _ _ _).
  - reflexivity.
  - vm_compute. reflexivity.
  - vm_compute. discriminate.
  - vm_compute. reflexivity.
  - vm_compute. reflexivity.
  - apply ready_queueb_ok. vm_compute. reflexivity.
  - left.
Defined.
