(* ===== verification/Device.v ===== *)
(** * Devices (src/kernel/rx_device.c)

    Drivers register their operations in the table of devices; the application
    opens a device by its name and gets a descriptor, an index into the table of
    open files.  The operations are the drivers': each is a parameter, applied to
    the driver and the descriptor. *)

From stdpp Require Import base gmap list.
From Stdlib Require Import ZArith Lia.
From S2P Require Import Prelude State Samples Port Sched Wait.
#[local] Open Scope Z_scope.
#[local] Open Scope rosx_scope.

Definition CONFIG_MAX_DEVICE_DESC : nat := 5.
Definition ENXIO : Z := 6.
Definition ENOMEM : Z := 12.
Definition ENODEV : Z := 19.

(** [desc[desc_id]] and the assignment to its [dev]; outside the array the access
    faults. *)
Definition desc_index (desc_id : Z) : option nat :=
  if decide (0 <= desc_id) then Some (Z.to_nat desc_id) else None.

Definition ld_desc (desc_id : Z) : M devfile := fun s =>
  match desc_index desc_id ≫= (fun i => k_descs s !! i) with
  | Some d => Done d s
  | None => Crash BadAddr
  end.

Definition set_desc_dev (i : nat) (dev : option nat) : M unit :=
  upd (fun s => set_k_descs (alter (set_df_dev dev) i (k_descs s)) s).

Definition on_dev (i : nat) (f : device -> device) : M unit :=
  upd (fun s => set_k_devs (alter f i (k_devs s)) s).

(** The operations of the device behind an open descriptor; a device without a
    driver has none to call. *)
Definition ops_of (dev : nat) : M positive := fun s =>
  match k_devs s !! dev with
  | Some d => match dv_ops d with Some o => Done o s | None => Crash NullDeref end
  | None => Crash BadAddr
  end.

(** The index of the device with the given name: the loop over the table with
    [strcmp] on the names. *)
Fixpoint find_device (name : list Z) (devs : list device) : option nat :=
  match devs with
  | [] => None
  | d :: devs => if decide (name = dv_name d) then Some 0%nat else S <$> find_device name devs
  end.

(** The first descriptor that is not in use. *)
Fixpoint free_desc (descs : list devfile) : option nat :=
  match descs with
  | [] => None
  | d :: descs => if decide (df_dev d = None) then Some 0%nat else S <$> free_desc descs
  end.

Section Drivers.
  Context (drv_open drv_release : positive -> Z -> M Z).
  Context (drv_read drv_write : positive -> Z -> Z -> Z -> M Z).
  Context (drv_ioctl drv_poll : positive -> Z -> Z -> Z -> M Z).

Definition rx_dev_open (filename : list Z) (flags : Z) : M Z :=
  let! devs := gets k_devs in
  match find_device filename devs with
  | None => ret (- ENODEV)
  | Some id =>
    match devs !! id ≫= dv_ops with
    | None => ret (- ENXIO)
    | Some _ =>
      let! descs := gets k_descs in
      match free_desc descs with
      | None => ret (- ENOMEM)
      | Some i =>
        set_desc_dev i (Some id) ;;;
        let! ops := ops_of id in
        let! r := drv_open ops (Z.of_nat i) in
        if decide (r = 0) then
          let! d := ld_desc (Z.of_nat i) in
          match df_dev d with
          | Some id =>
            on_dev id (fun d => set_dv_open_count (s32 (dv_open_count d + 1)) d) ;;;
            ret (Z.of_nat i)
          | None => crash NullDeref
          end
        else
          set_desc_dev i None ;;;
          ret r
      end
    end
  end.

Definition rx_dev_close (desc_id : Z) : M Z :=
  let! d := ld_desc desc_id in
  match df_dev d with
  | None => ret (- ENODEV)
  | Some id =>
    let! ops := ops_of id in
    let! r := drv_release ops desc_id in
    if decide (r = 0) then
      let! d := ld_desc desc_id in
      match df_dev d with
      | Some id =>
        on_dev id (fun d => set_dv_open_count (s32 (dv_open_count d - 1)) d) ;;;
        set_desc_dev (Z.to_nat desc_id) None ;;;
        ret 0
      | None => crash NullDeref
      end
    else ret r
  end.

(** [rx_dev_read], [rx_dev_write] and [rx_dev_ioctl] pass their two arguments on
    to the driver. *)
Definition dev_call (op : positive -> Z -> Z -> Z -> M Z) (desc_id a b : Z) : M Z :=
  let! d := ld_desc desc_id in
  match df_dev d with
  | None => ret (- ENODEV)
  | Some id =>
    let! ops := ops_of id in
    op ops desc_id a b
  end.

Definition rx_dev_read (desc_id dest size : Z) : M Z := dev_call drv_read desc_id dest size.
Definition rx_dev_write (desc_id src size : Z) : M Z := dev_call drv_write desc_id src size.
Definition rx_dev_ioctl (desc_id cmd arg : Z) : M Z := dev_call drv_ioctl desc_id cmd arg.

(** The poll table with the events and the timeout is the driver's argument. *)
Definition rx_dev_poll (desc_id events timeout : Z) : M Z := dev_call drv_poll desc_id events timeout.

End Drivers.

Definition rx_poll_wait (wq : ptr) : M unit :=
  let! _ := rx_wait_on wq in
  ret tt.

Definition rx_register_driver (name : list Z) (ops : ptr) : M Z :=
  let! devs := gets k_devs in
  match find_device name devs with
  | None => ret (- ENODEV)
  | Some id =>
    match devs !! id ≫= dv_ops with
    | Some _ => ret ENODEV
    | None =>
      on_dev id (set_dv_ops ops) ;;;
      ret 0
    end
  end.

(** ** The simulator's driver (src/drivers/simulator/x86sim.c)

    It has no [read], [ioctl] and [poll]; [write] prints the character at [src]
    on the terminal of the host. *)
Definition x86_sim_open (ops : positive) (desc_id : Z) : M Z := ret 0.
Definition x86_sim_release (ops : positive) (desc_id : Z) : M Z := ret 0.
Definition x86_sim_write (ops : positive) (desc_id src size : Z) : M Z :=
  let! m := gets k_mem in
  match m !! src with
  | Some _ => ret (s32 size)
  | None => crash BadAddr
  end.

(** The device "simx86" registers the operations [fops]. *)
Definition simx86 : list Z := [115; 105; 109; 120; 56; 54].
Definition x86_simulator_init (fops : positive) : M Z :=
  let! _ := rx_register_driver simx86 (Some fops) in
  ret 0.

Definition rx_driver_init (fops : positive) : M unit :=
  let! _ := x86_simulator_init fops in
  ret tt.

(** ** Opening and closing *)

Lemma find_device_Some name devs id :
  find_device name devs = Some id -> exists d, devs !! id = Some d /\ dv_name d = name.
Proof.
  revert id. induction devs as [|d devs IH]; intros id; simpl; [done|]. case_decide.
  - intros [= <-]. by exists d.
  - intros (j & Hj & ->)%fmap_Some. by apply IH.
Qed.

Lemma free_desc_Some descs i :
  free_desc descs = Some i -> exists d, descs !! i = Some d /\ df_dev d = None.
Proof.
  revert i. induction descs as [|d descs IH]; intros i; simpl; [done|]. case_decide.
  - intros [= <-]. by exists d.
  - intros (j & Hj & ->)%fmap_Some. by apply IH.
Qed.

Lemma alter_alter_id {A} (f g : A -> A) (i : nat) (l : list A) x :
  l !! i = Some x -> g (f x) = x -> alter g i (alter f i l) = l.
Proof.
  intros Hi Hx. apply list_eq. intros j. destruct (decide (j = i)) as [->|].
  - rewrite !list_lookup_alter_eq, Hi. cbn. by rewrite Hx.
  - by rewrite !list_lookup_alter_ne.
Qed.

Lemma ld_desc_run {B} i d (k : devfile -> M B) s :
  k_descs s !! i = Some d -> bind (ld_desc (Z.of_nat i)) k s = k d s.
Proof.
  intros Hi. unfold bind, ld_desc, desc_index. rewrite decide_True by lia. rewrite Nat2Z.id. cbn.
  by rewrite Hi.
Qed.

Lemma ops_run {B} id d o (k : positive -> M B) s :
  k_devs s !! id = Some d -> dv_ops d = Some o -> bind (ops_of id) k s = k o s.
Proof. intros Hd Ho. unfold bind, ops_of. by rewrite Hd, Ho. Qed.

(** Opening a device that has a driver, while a descriptor is free, takes the
    first free descriptor, points it to the device and counts the device as open
    once more; reading and writing through it reach the driver; closing it gives
    the descriptor back and leaves both tables exactly as they were.  The driver's
    [open] and [release] succeed and leave the kernel's state alone. *)
Theorem dev_open_close_roundtrip (drv_open drv_release : positive -> Z -> M Z)
    (drv_read : positive -> Z -> Z -> Z -> M Z) s name flags id d o i :
  find_device name (k_devs s) = Some id -> k_devs s !! id = Some d -> dv_ops d = Some o ->
  free_desc (k_descs s) = Some i -> - 2 ^ 31 <= dv_open_count d < 2 ^ 31 - 1 ->
  (forall s0, drv_open o (Z.of_nat i) s0 = Done 0 s0) ->
  (forall s0, drv_release o (Z.of_nat i) s0 = Done 0 s0) ->
  exists s1 d1,
    rx_dev_open drv_open name flags s = Done (Z.of_nat i) s1 /\
    k_devs s1 !! id = Some d1 /\ dv_open_count d1 = dv_open_count d + 1 /\
    (exists f, k_descs s1 !! i = Some f /\ df_dev f = Some id) /\
    (forall j, j <> i -> k_descs s1 !! j = k_descs s !! j) /\
    (forall a b, rx_dev_read drv_read (Z.of_nat i) a b s1 = drv_read o (Z.of_nat i) a b s1) /\
    exists s2, rx_dev_close drv_release (Z.of_nat i) s1 = Done 0 s2 /\
      k_descs s2 = k_descs s /\ k_devs s2 = k_devs s.
Proof.
  intros Hf Hd Ho Hi Hcnt Hopen Hrel. destruct (free_desc_Some _ _ Hi) as (f & Hfi & Hfree).
  set (f1 := set_df_dev (Some id) f).
  set (d1 := set_dv_open_count (s32 (dv_open_count d + 1)) d).
  unfold rx_dev_open. step. rewrite Hf, Hd. cbn [mbind option_bind]. rewrite Ho. step. rewrite Hi.
  unfold set_desc_dev at 1. step. erewrite ops_run by done. erewrite bind_run by apply Hopen.
  rewrite decide_True by done.
  assert (Hf1 : alter (set_df_dev (Some id)) i (k_descs s) !! i = Some f1)
    by (rewrite list_lookup_alter_eq, Hfi; done).
  erewrite ld_desc_run by exact Hf1. cbn [df_dev f1 set_df_dev]. unfold on_dev at 1. step.
  match goal with |- context [ret (Z.of_nat i) ?st] => set (s1 := st) end.
  assert (Hd1 : k_devs s1 !! id = Some d1) by (unfold s1; norm; rewrite list_lookup_alter_eq, Hd; done).
  exists s1, d1. split_and!; [done|done| |by exists f1| | |].
  - unfold d1. cbn. apply s32_small. lia.
  - intros j Hj. unfold s1. norm. by apply list_lookup_alter_ne.
  - intros a b. unfold rx_dev_read, dev_call. erewrite ld_desc_run by exact Hf1.
    cbn [df_dev f1 set_df_dev]. by erewrite ops_run.
  - unfold rx_dev_close. erewrite ld_desc_run by exact Hf1. cbn [df_dev f1 set_df_dev].
    erewrite ops_run by done. erewrite bind_run by apply Hrel. rewrite decide_True by done.
    erewrite ld_desc_run by exact Hf1. cbn [df_dev f1 set_df_dev]. unfold on_dev, set_desc_dev.
    do 2 step. rewrite Nat2Z.id. eexists. split; [reflexivity|]. unfold s1. norm. split.
    + eapply alter_alter_id; [exact Hfi|]. destruct f. cbn in Hfree. by subst.
    + eapply alter_alter_id; [exact Hd|]. destruct d. unfold set_dv_open_count. cbn in *. f_equal.
      rewrite (s32_small (_ + 1)) by lia. rewrite s32_small; lia.
Qed.

(** The table of devices with the simulator's driver registered, and the
    descriptors, of which the first is in use. *)
Definition sample_devices : kst :=
  set_k_devs [mk_device simx86 (Some 3%positive) 1 0]
    (set_k_descs (mk_devfile (Some 0%nat) 0 :: replicate 4 (mk_devfile None 0)) sample).

Lemma dev_open_close_roundtrip_witness :
  exists s1 d1,
    rx_dev_open x86_sim_open simx86 0 sample_devices = Done 1 s1 /\
    k_devs s1 !! 0%nat = Some d1 /\ dv_open_count d1 = 1 + 1 /\
    (exists f, k_descs s1 !! 1%nat = Some f /\ df_dev f = Some 0%nat) /\
    (forall j, j <> 1%nat -> k_descs s1 !! j = k_descs sample_devices !! j) /\
    (forall a b, rx_dev_read x86_sim_write 1 a b s1 = x86_sim_write 3 1 a b s1) /\
    exists s2, rx_dev_close x86_sim_release 1 s1 = Done 0 s2 /\
      k_descs s2 = k_descs sample_devices /\ k_devs s2 = k_devs sample_devices.
Proof.
  apply (dev_open_close_roundtrip x86_sim_open x86_sim_release x86_sim_write sample_devices simx86 0
    0 (mk_device simx86 (Some 3%positive) 1 0) 3 1); done.
Defined.
