(* ===== verification/Logger.v ===== *)
(** * The print buffer (src/kernel/rx_logger.c)

    With [CONFIG_PRINT_BUFFER] the kernel's messages go into a buffer of
    [CONFIG_PRINT_BUFFER_SIZE] bytes at [__rx_printk_buffer_start_ptr]; the logger
    thread, of low priority, writes them to the serial device byte by byte. *)

From stdpp Require Import base gmap list.
From Stdlib Require Import ZArith Lia.
From S2P Require Import Prelude Mem Str Vsprintf Format State Samples Chains Port ReadyQueue Sched Task Queue Wait Device.
#[local] Open Scope Z_scope.
#[local] Open Scope rosx_scope.

Definition CONFIG_PRINT_BUFFER_SIZE : Z := 4096.

(** A function of the C library that changes memory and has a result. *)
Definition call_mem (f : mem -> option (Z * mem)) : M Z := fun s =>
  match f (k_mem s) with
  | Some (r, m) => Done r (set_k_mem m s)
  | None => Crash BadAddr
  end.

(** The text is formatted twice, first to learn its length.  The argument list is
    passed by value, so that the second pass reads the same arguments. *)
Definition __rx_printk_to_buffer (fmt : Z) (arg : list va_arg) : M unit :=
  let! size := call_mem (vsnprintf 0 0 fmt arg) in
  if decide (size + 1 > CONFIG_PRINT_BUFFER_SIZE) then pr_error
  else
    let! imask := rx_enter_critical in
    let! head := gets k_pb_head in
    let! start := gets k_pb_start in
    (if decide (head + (size + 1) > start + CONFIG_PRINT_BUFFER_SIZE) then
       in_mem (memset head 0 (Z.to_nat (start + CONFIG_PRINT_BUFFER_SIZE - head))) ;;;
       upd (set_k_pb_head start)
     else ret tt) ;;;
    let! head := gets k_pb_head in
    let! _ := call_mem (vsprintf head fmt arg) in
    upd (set_k_pb_head (head + (size + 1))) ;;;
    rx_exit_critical imask.

Section Logger.
  Context (drv_open : positive -> Z -> M Z) (drv_write : positive -> Z -> Z -> Z -> M Z).

(** One round of the logger thread's loop, with the descriptor [dd] and the wait
    queue [w]. *)
Definition logger_round (fuel : nat) (w : ptr) (dd : Z) : M unit :=
  let! r := rx_wait_queue fuel w (gets (fun s => bool_decide (k_pb_head s <> k_pb_tail s))) in
  if decide (r = 0) then
    let! tail := gets k_pb_tail in
    let! _ := rx_dev_write drv_write dd tail 1 in
    let! start := gets k_pb_start in
    if decide (tail + 1 > start + CONFIG_PRINT_BUFFER_SIZE) then upd (set_k_pb_tail start)
    else upd (set_k_pb_tail (tail + 1))
  else ret tt.

Fixpoint logger_rounds (n fuel : nat) (w : ptr) (dd : Z) : M unit :=
  match n with
  | O => ret tt
  | S n => logger_round fuel w dd ;;; logger_rounds n fuel w dd
  end.

(** The thread stops for good when the device gives it a positive descriptor. *)
Definition rx_logger_thread (n fuel : nat) (w : ptr) : M unit :=
  let! dd := rx_dev_open drv_open simx86 0 in
  if decide (0 < dd) then ret tt else logger_rounds n fuel w dd.

End Logger.

(** ** The buffer *)

(** The head is inside the buffer, or just behind it, and the buffer is mapped,
    below the last address. *)
Record print_buffer (s : kst) : Prop := {
  pb_range : k_pb_start s <= k_pb_head s <= k_pb_start s + CONFIG_PRINT_BUFFER_SIZE;
  pb_mapped : mapped (k_mem s) (k_pb_start s) (Z.to_nat CONFIG_PRINT_BUFFER_SIZE);
  pb_space : 0 <= k_pb_start s /\ k_pb_start s + CONFIG_PRINT_BUFFER_SIZE < 2 ^ 32;
}.

(** A part of a mapped area. *)
Lemma mapped_part m a n b k :
  mapped m a n -> a <= b -> b + Z.of_nat k <= a + Z.of_nat n -> mapped m b k.
Proof.
  intros Hm Hab Hk j Hj. replace (b + Z.of_nat j) with (a + Z.of_nat (Z.to_nat (b - a) + j)) by lia.
  apply Hm. lia.
Qed.

(** What is written into the free part of [m0] leaves it as it is. *)
Lemma store_list_subseteq (m0 m : mem) a l :
  m0 ⊆ m -> (forall x, a <= x < a + Z.of_nat (length l) -> m0 !! x = None) -> m0 ⊆ store_list m a l.
Proof.
  intros Hsub Hfree. apply map_subseteq_spec. intros x b Hx. rewrite store_list_out.
  - by eapply lookup_weaken.
  - destruct (decide (a <= x < a + Z.of_nat (length l))); [|lia]. by rewrite Hfree in Hx.
Qed.

Lemma bind_call_mem {B} f r m (k : Z -> M B) s :
  f (k_mem s) = Some (r, m) -> bind (call_mem f) k s = k r (set_k_mem m s).
Proof. intros E. unfold bind, call_mem. by rewrite E. Qed.

(** Where a text of [n] bytes with its zero goes, and the memory once the bytes that
    are skipped are cleared. *)
Definition print_at (s : kst) (n : Z) : Z :=
  if decide (k_pb_head s + n > k_pb_start s + CONFIG_PRINT_BUFFER_SIZE) then k_pb_start s else k_pb_head s.

Definition print_mem (s : kst) (n : Z) : mem :=
  if decide (k_pb_head s + n > k_pb_start s + CONFIG_PRINT_BUFFER_SIZE)
  then store_list (k_mem s) (k_pb_head s)
    (replicate (Z.to_nat (k_pb_start s + CONFIG_PRINT_BUFFER_SIZE - k_pb_head s)) 0)
  else k_mem s.

Lemma print_at_fits s n :
  print_buffer s -> 0 <= n <= CONFIG_PRINT_BUFFER_SIZE ->
  k_pb_start s <= print_at s n /\ print_at s n + n <= k_pb_start s + CONFIG_PRINT_BUFFER_SIZE.
Proof. intros [Hr _ _] Hn. unfold print_at. case_decide; lia. Qed.

Lemma print_mem_mapped s n :
  print_buffer s -> mapped (print_mem s n) (k_pb_start s) (Z.to_nat CONFIG_PRINT_BUFFER_SIZE).
Proof. intros [_ Hm _]. unfold print_mem. case_decide; [by apply store_list_mapped|done]. Qed.

Lemma print_mem_out s n x :
  print_buffer s -> x < k_pb_start s \/ k_pb_start s + CONFIG_PRINT_BUFFER_SIZE <= x ->
  print_mem s n !! x = k_mem s !! x.
Proof.
  intros [Hr _ _] Hx. unfold print_mem. case_decide; [|done]. apply store_list_out.
  rewrite length_replicate. lia.
Qed.

Lemma print_mem_reads s n m0 :
  print_buffer s -> reads_outside m0 (k_mem s) (k_pb_start s) CONFIG_PRINT_BUFFER_SIZE ->
  reads_outside m0 (print_mem s n) (k_pb_start s) CONFIG_PRINT_BUFFER_SIZE.
Proof.
  intros [Hr _ _] [Hsub Hfree]. split; [|done]. unfold print_mem. case_decide; [|done].
  apply store_list_subseteq; [done|]. rewrite length_replicate. intros x Hx. apply Hfree. lia.
Qed.

Lemma wrap_run s n s0 :
  print_buffer s -> k_mem s0 = k_mem s -> k_pb_head s0 = k_pb_head s ->
  (if decide (k_pb_head s + n > k_pb_start s + CONFIG_PRINT_BUFFER_SIZE) then
     in_mem (memset (k_pb_head s) 0 (Z.to_nat (k_pb_start s + CONFIG_PRINT_BUFFER_SIZE - k_pb_head s))) ;;;
     upd (set_k_pb_head (k_pb_start s))
   else ret tt) s0 = Done tt (set_k_pb_head (print_at s n) (set_k_mem (print_mem s n) s0)).
Proof.
  intros [Hr Hm _] Em Eh. unfold print_at, print_mem. case_decide.
  - erewrite bind_in_mem; [reflexivity|]. rewrite Em. apply (memset_run _ _ 0).
    eapply mapped_part; [exact Hm|lia|lia].
  - unfold ret. rewrite <- Em, <- Eh. by destruct s0.
Qed.


(** A buffer of which all but ten bytes have been used, and a format. *)
Definition sample_print : kst :=
  set_k_pb_start 100 (set_k_pb_head 4186 (set_k_pb_tail 4186
    (set_k_mem (store_list sample_read 100 (replicate 4096 0)) sample))).

Lemma sample_print_buffer : print_buffer sample_print.
Proof.
  constructor; [vm_compute; split; discriminate| |vm_compute; split; congruence].
  eapply (block_mapped _ _ (replicate 4096 0)); [by rewrite length_replicate|apply store_list_block].
Qed.

