(* ===== verification/Boot.v ===== *)
(** * Start of the kernel (src/kernel/rx_init.c, src/kernel/rx_terminal.c)

    [__rx_kernel_enter] is the first function the port calls: it initializes the
    globals, registers the driver, creates the system threads and enters the
    application. *)

From stdpp Require Import base gmap list sorting.
From Stdlib Require Import ZArith Lia.
From S2P Require Import Prelude Mem State Samples Chains Port ReadyQueue Sched TaskQueue Task Device.
#[local] Open Scope Z_scope.
#[local] Open Scope rosx_scope.

Definition CONFIG_SYS_STACK_SIZE : Z := 8192.

(** The addresses of the statics of rx_init.c: the control block, the stack and
    the entry point of each system thread. *)
Record thread := mk_thread { th_tcb : positive; th_stack : Z; th_func : Z }.

(** Names of the tasks. *)
Definition name_init : list Z := [105; 110; 105; 116].
Definition name_timer0 : list Z := [116; 105; 109; 101; 114; 48].
Definition name_event0 : list Z := [101; 118; 101; 110; 116; 48].
Definition name_bh0 : list Z := [98; 104; 48].
Definition name_logger0 : list Z := [108; 111; 103; 103; 101; 114; 48].
Definition name_term0 : list Z := [116; 101; 114; 109; 48].

Section Boot.
  Context (__rx_init_task : positive) (fops : positive).
  Context (timer0 event0 bh0 logger0 terminal0 : thread).
  (** The application's entry point; it does not return. *)
  Context (rx_application_init : M unit).

(** A system thread is created READY, with its own stack and no time slice. *)
Definition create_system_thread (th : thread) (name : list Z) (prio : Z) : M unit :=
  let! _ := rx_create_task (Some (th_tcb th)) name prio (th_stack th) CONFIG_SYS_STACK_SIZE
    (th_func th) RX_TASK_READY 0 in
  ret tt.

Definition __rx_kernel_enter : M unit :=
  upd (fun s => set_k_curr_stack (k_stack_start s) s) ;;;
  on_task (Some __rx_init_task) (set_t_name (name_init ++ [0])) ;;;
  upd (set_k_curr (Some __rx_init_task)) ;;;
  upd (set_k_num_task 0) ;;;
  rx_driver_init fops ;;;
  create_system_thread timer0 name_timer0 RX_TASK_HIGH_PRIO ;;;
  create_system_thread event0 name_event0 RX_TASK_HIGH_PRIO ;;;
  create_system_thread bh0 name_bh0 RX_TASK_HIGH_PRIO ;;;
  upd (fun s => set_k_pb_head (k_pb_start s) (set_k_pb_tail (k_pb_start s) s)) ;;;
  create_system_thread logger0 name_logger0 (RX_TASK_LEAST_PRIO - 1) ;;;
  create_system_thread terminal0 name_term0 (RX_TASK_LEAST_PRIO - 2) ;;;
  rx_application_init.

End Boot.

(** The terminal thread prints its banner, 29 calls of [pr_info], and suspends
    itself, [n] times. *)
Fixpoint suspend_rounds (n : nat) : M unit :=
  match n with
  | O => ret tt
  | S n => let! _ := rx_suspend_task None in suspend_rounds n
  end.

Definition rx_terminal_thread (n : nat) : M unit :=
  Nat.iter 29 (fun m => pr_error ;;; m) (suspend_rounds n).

(** ** The first ready queue *)

Lemma register_run s fops rest :
  k_devs s = mk_device simx86 None 0 0 :: rest ->
  rx_driver_init fops s = Done tt (set_k_devs (mk_device simx86 (Some fops) 0 0 :: rest) s).
Proof.
  intros Hd. unfold rx_driver_init, x86_simulator_init, rx_register_driver, on_dev.
  unfold bind, gets. cbn [obind]. rewrite Hd. cbn [find_device dv_name]. rewrite decide_True by done.
  cbn [lookup list_lookup mbind option_bind dv_ops]. unfold upd, ret. cbn [obind]. by rewrite Hd.
Qed.

(** The ready queue with the priorities of its tasks. *)
Fixpoint ins_prio (p : Z) (x : positive) (l : list (positive * Z)) : list (positive * Z) :=
  match l with
  | [] => [(x, p)]
  | (y, q) :: l => if decide (q <= p) then (y, q) :: ins_prio p x l else (x, p) :: (y, q) :: l
  end.

(** A stage of the start, which [init] runs: the tasks [l], with their priorities, are
    ready, [L] are in the list of tasks, [left] is the end of what is left of the system's
    stack, and the control blocks that were there at [s0] still are. *)
Record booting (s0 : kst) (init : positive) (devs : list device) (l : list (positive * Z)) (L : list positive)
    (left : Z) (s : kst) : Prop := {
  bo_ready : ready_queue (k_tasks s) (k_ready s) l.*1;
  bo_prio : Forall (fun e => prio (k_tasks s) (fst e) = snd e) l;
  bo_same : l.*1 ≡ₚ L;
  bo_tasks : chain t_list (k_tasks s) (k_list_head s) L;
  bo_num : k_num_task s = Z.of_nat (length L);
  bo_devs : k_devs s = devs;
  bo_kept : forall y, is_Some (k_tasks s0 !! y) -> is_Some (k_tasks s !! y);
  bo_curr : k_curr s = Some init;
  bo_left : k_curr_stack s = left;
  bo_start : k_stack_start s = k_stack_start s0;
}.

Lemma ins_prio_fst m p x l :
  Forall (fun e => prio m (fst e) = snd e) l -> (ins_prio p x l).*1 = ins m p x l.*1.
Proof.
  induction 1 as [|[y q] l Hq _ IH]; [done|]. cbn in Hq |- *. rewrite Hq. case_decide; cbn; by rewrite ?IH.
Qed.

Lemma ins_prio_perm p x l : ins_prio p x l ≡ₚ (x, p) :: l.
Proof.
  induction l as [|[y q] l IH]; [done|]. cbn. case_decide; [|done]. rewrite IH. apply Permutation_swap.
Qed.

(** The creation of a task goes one stage further. *)
Lemma boot_create_run s0 init devs l L left s x name p stack size func slice :
  booting s0 init devs l L left s -> Z.of_nat (length name) <= CONFIG_TASK_STR_LEN ->
  0 <= p <= RX_TASK_LEAST_PRIO -> stack_room s stack size ->
  is_Some (k_tasks s0 !! x) -> x ∉ L -> Z.of_nat (length L) < 10 ->
  exists s', rx_create_task (Some x) name p stack size func RX_TASK_READY slice s = Done OS_OK s' /\
    booting s0 init devs (ins_prio p x l) (L ++ [x]) (stack_left s stack size) s'.
Proof.
  intros [Hq Hp HL Hc Hn Hd Hk Hcur Hleft Hst] Hnm Hpr Hroom Hx Hfr Hlen. destruct (Hk x Hx) as [t0 Hx0].
  assert (Hfr' : x ∉ l.*1) by (by rewrite HL).
  destruct (create_run s x t0 l.*1 L name p stack size func slice)
    as (s' & n & E & Hq' & Hc' & Hnum & Hcs & Hx' & Hf & Hd' & Hcur' & Hst'); [done..|].
  rewrite Z.min_l in Hq' by lia. exists s'. split; [done|]. constructor.
  - by rewrite (ins_prio_fst (k_tasks s)).
  - rewrite ins_prio_perm. constructor.
    { cbn. rewrite (prio_lookup _ _ _ Hx'). unfold created, init_tcb. cbn. case_decide; lia. }
    rewrite Forall_forall in Hp |- *. intros [y q] Hy. cbn. specialize (Hp (y, q) Hy). cbn in Hp.
    assert (Hy1 : y ∈ l.*1) by (apply list_elem_of_fmap; by exists (y, q)).
    assert (Hyx : y <> x) by (by intros ->).
    destruct (seg_lookup _ _ _ _ _ y (rq_chain _ _ _ Hq) Hy1) as [t Ht]. destruct (Hf y t Hyx Ht) as (a & b & Ha).
    rewrite <- Hp, (prio_lookup _ _ _ Ha), (prio_lookup _ _ _ Ht). done.
  - rewrite ins_prio_perm. cbn. rewrite HL. apply Permutation_cons_append.
  - done.
  - rewrite Hnum, Hn, length_app. cbn. rewrite s32_small; lia.
  - by rewrite Hd'.
  - intros y [t Ht]%Hk. destruct (decide (y = x)) as [->|Hy]; [by eexists|]. by destruct (Hf y t Hy Ht) as (a & b & ->).
  - by rewrite Hcur'.
  - done.
  - by rewrite Hst'.
Qed.

Lemma boot_thread_run s0 init devs l L left s th name p :
  booting s0 init devs l L left s -> Z.of_nat (length name) <= CONFIG_TASK_STR_LEN -> 0 <= p <= RX_TASK_LEAST_PRIO ->
  th_stack th <> 0 /\ is_Some (k_tasks s0 !! th_tcb th) -> th_tcb th ∉ L -> Z.of_nat (length L) < 10 ->
  exists s', create_system_thread th name p s = Done tt s' /\
    booting s0 init devs (ins_prio p (th_tcb th) l) (L ++ [th_tcb th]) left s'.
Proof.
  intros B Hnm Hpr [Hst Hx] Hfr Hlen.
  edestruct (boot_create_run _ _ _ _ _ _ s (th_tcb th) name p (th_stack th) CONFIG_SYS_STACK_SIZE (th_func th) 0 B)
    as (s' & E & B'); [done|done|by left|done..|].
  exists s'. unfold create_system_thread. erewrite bind_run by exact E. split; [done|].
  unfold stack_left in B'. rewrite decide_False in B' by done. by rewrite (bo_left _ _ _ _ _ _ _ B) in B'.
Qed.

(** The next stage of the start, with the thread [th]. *)
Ltac boot_stage B th s' B' :=
  match goal with |- context [bind (create_system_thread th ?name ?p) _ ?st] =>
    destruct (boot_thread_run _ _ _ _ _ _ st th name p B) as (s' & ?E & B');
    [vm_compute; congruence|vm_compute; split; congruence|assumption
    |rewrite ?not_elem_of_app, ?not_elem_of_cons; split_and?; auto using not_elem_of_nil|cbn; lia|];
    erewrite bind_run by eassumption
  end.

(** The state in which the application is entered. *)
Lemma kernel_enter_run init fops timer0 event0 bh0 logger0 terminal0 main s rest :
  let ths := [timer0; event0; bh0; logger0; terminal0] in
  k_ready s = None -> k_list_head s = None -> k_devs s = mk_device simx86 None 0 0 :: rest ->
  is_Some (k_tasks s !! init) ->
  Forall (fun th => th_stack th <> 0 /\ is_Some (k_tasks s !! th_tcb th)) ths ->
  NoDup (init :: (th_tcb <$> ths)) ->
  exists s',
    __rx_kernel_enter init fops timer0 event0 bh0 logger0 terminal0 main s = main s' /\
    booting s init (mk_device simx86 (Some fops) 0 0 :: rest)
      [(th_tcb timer0, RX_TASK_HIGH_PRIO); (th_tcb event0, RX_TASK_HIGH_PRIO); (th_tcb bh0, RX_TASK_HIGH_PRIO);
       (th_tcb terminal0, RX_TASK_LEAST_PRIO - 2); (th_tcb logger0, RX_TASK_LEAST_PRIO - 1)]
      (th_tcb <$> ths) (k_stack_start s) s'.
Proof.
  intros ths Hr Hlh Hd [ti Hi] Hths Hnd. unfold ths in *. clear ths.
  rewrite !Forall_cons in Hths. destruct Hths as (T1 & T2 & T3 & T4 & T5 & _).
  cbn [fmap list_fmap] in *. rewrite !NoDup_cons, !not_elem_of_cons in Hnd.
  destruct Hnd as (_ & (?&?&?&?&_) & (?&?&?&_) & (?&?&_) & (?&_) & _).
  unfold __rx_kernel_enter. do 4 step.
  erewrite bind_run by (apply register_run; exact Hd).
  match goal with |- context [bind (create_system_thread timer0 _ _) _ ?st] => set (s0 := st) end.
  assert (B0 : booting s init (mk_device simx86 (Some fops) 0 0 :: rest) [] [] (k_stack_start s) s0).
  { constructor; try done.
    - constructor; [exact Hr|constructor|]. by intros ? ? ?%elem_of_nil.
    - intros y Hy. unfold s0. norm. rewrite lookup_insert. by case_decide. }
  clearbody s0.
  boot_stage B0 timer0 s1 B1. boot_stage B1 event0 s2 B2. boot_stage B2 bh0 s3 B3. step.
  match goal with |- context [bind (create_system_thread logger0 _ _) _ ?st] => set (s3' := st) end.
  assert (B3' : booting s init (mk_device simx86 (Some fops) 0 0 :: rest) _ _ _ s3') by (destruct B3; by constructor).
  boot_stage B3' logger0 s4 B4. boot_stage B4 terminal0 s5 B5. by exists s5.
Qed.

(** The kernel starts with its five system threads ready: the timer, event
    and bottom-half threads first, of the highest priority and in the order of
    their creation, then the terminal and the logger; all are in the list of
    tasks, the driver is registered, and the application is entered in that
    state. *)
Theorem kernel_enter_boots init fops timer0 event0 bh0 logger0 terminal0 main s rest :
  let ths := [timer0; event0; bh0; logger0; terminal0] in
  k_ready s = None -> k_list_head s = None -> k_devs s = mk_device simx86 None 0 0 :: rest ->
  is_Some (k_tasks s !! init) ->
  Forall (fun th => th_stack th <> 0 /\ is_Some (k_tasks s !! th_tcb th)) ths ->
  NoDup (init :: (th_tcb <$> ths)) ->
  exists s',
    __rx_kernel_enter init fops timer0 event0 bh0 logger0 terminal0 main s = main s' /\
    ready_queue (k_tasks s') (k_ready s')
      [th_tcb timer0; th_tcb event0; th_tcb bh0; th_tcb terminal0; th_tcb logger0] /\
    chain t_list (k_tasks s') (k_list_head s') (th_tcb <$> ths) /\
    k_num_task s' = 5 /\ k_devs s' = mk_device simx86 (Some fops) 0 0 :: rest.
Proof.
  intros ths Hr Hlh Hd Hi Hths Hnd.
  destruct (kernel_enter_run init fops timer0 event0 bh0 logger0 terminal0 main s rest) as (s5 & E & B); [done..|].
  exists s5. split; [done|]. destruct B as [Hq _ _ Hc Hn Hdv _ _ _ _]. by split_and!.
Qed.

(** The memory the kernel starts in: zeroed control blocks and the table of
    devices of the source. *)
Definition boot_thread (i : positive) : thread := mk_thread i (Zpos i * 8192) (Zpos i).
Definition boot_state : kst :=
  set_k_devs [mk_device simx86 None 0 0]
    (set_k_tasks (list_to_map ((fun i => (i, tcb0)) <$> [1; 2; 3; 4; 5; 6]%positive)) kst0).

Lemma kernel_enter_boots_witness :
  exists s',
    __rx_kernel_enter 1 7 (boot_thread 2) (boot_thread 3) (boot_thread 4) (boot_thread 5)
      (boot_thread 6) (ret tt) boot_state = Done tt s' /\
    ready_queue (k_tasks s') (k_ready s') [2; 3; 4; 6; 5]%positive /\
    chain t_list (k_tasks s') (k_list_head s') [2; 3; 4; 5; 6]%positive /\
    k_num_task s' = 5 /\ k_devs s' = [mk_device simx86 (Some 7%positive) 0 0].
Proof.
  apply (kernel_enter_boots 1 7 (boot_thread 2) (boot_thread 3) (boot_thread 4) (boot_thread 5)
    (boot_thread 6) (ret tt) boot_state []); try done.
  - repeat constructor; try done; by eexists.
  - apply (bool_decide_unpack _). by vm_compute.
Defined.
