(* ===== verification/App.v ===== *)
(** * The example application (src/apps/main.c)

    The application is entered at the end of the start of the kernel: it creates four
    tasks, with stacks from the system's stack, and gives up the processor for good.  Its
    first task starts a timer whose callback starts it again; two others sleep in a loop.
    The fourth, which is idle, only counts. *)

From stdpp Require Import base gmap list sorting.
From Stdlib Require Import ZArith Lia.
From S2P Require Import Prelude Mem State Samples Chains Port ReadyQueue Sched TaskQueue Task Timer.
From S2P Require Import Tick Device Boot.
#[local] Open Scope Z_scope.
#[local] Open Scope rosx_scope.

Definition name_idle : list Z := [105; 100; 108; 101].
Definition name_task (n : Z) : list Z := [116; 97; 115; 107; 48 + n].

Section App.
  (** The control blocks and the entry points of the application's tasks. *)
  Context (idle_tcb task_1_tcb task_2_tcb task_3_tcb : positive).
  Context (idle_fn task_1_fn task_2_fn task_3_fn : Z).

Definition rx_application_init : M unit :=
  let! _ := rx_create_task (Some idle_tcb) name_idle RX_TASK_LEAST_PRIO 0 8192 idle_fn RX_TASK_READY 0 in
  let! _ := rx_create_task (Some task_1_tcb) (name_task 1) 1 0 8192 task_1_fn RX_TASK_READY 0 in
  let! _ := rx_create_task (Some task_2_tcb) (name_task 2) 2 0 8192 task_2_fn RX_TASK_READY 0 in
  let! _ := rx_create_task (Some task_3_tcb) (name_task 3) 3 0 8192 task_3_fn RX_TASK_READY 0 in
  rx_sched.

End App.

(** [my_priv->timer] is the timer of [task_1]; the function prints first. *)
Definition timer_callback (timer : ptr) : M unit :=
  pr_error ;;;
  rx_mod_timer timer 6.

(** [n] rounds of the tasks that sleep; [timer] is on the stack of the sleeping call.
    [pr_info] prints as [pr_error] does, and [pr_dbg] is empty in this configuration. *)
Fixpoint sleep_rounds (timer : ptr) (time : Z) (n : nat) : M unit :=
  match n with
  | O => ret tt
  | S n =>
    let! _ := rx_ssleep timer time in
    pr_error ;;;
    sleep_rounds timer time n
  end.

Definition task_3 (timer : ptr) (n : nat) : M unit := sleep_rounds timer 3 n.
Definition task_2 (timer : ptr) (n : nat) : M unit := sleep_rounds timer 9 n.

(** Up to the endless loop at the end; [timer] and [my_priv] are on the task's stack, and
    [callback] is the entry point of [timer_callback]. *)
Definition task_1 (timer my_priv : ptr) (callback : positive) : M unit :=
  let! r := rx_create_timer timer (Some (H_app callback)) my_priv 5 in
  (if decide (OS_OK <> r) then pr_panic else ret tt) ;;;
  rx_start_timer timer ;;;
  let! _ := rx_suspend_task None in
  ret tt.

(** ** The start of the application *)

(** A stack of the application fits into the system's stack. *)
Lemma app_stack_room s left :
  k_curr_stack s = left -> CONFIG_SYSTEM_STACK_SIZE <= k_stack_start s < 2 ^ 32 ->
  k_stack_start s - 5 * 8196 <= left <= k_stack_start s ->
  stack_room s 0 8192 /\ stack_left s 0 8192 = left - 8196.
Proof.
  intros <- Hst Hl. unfold CONFIG_SYSTEM_STACK_SIZE in *. split.
  - right. unfold CONFIG_SYSTEM_STACK_SIZE. rewrite !u32_small by lia. lia.
  - unfold stack_left. rewrite decide_True by done. rewrite u32_small by lia. lia.
Qed.

(** The next task of the application. *)
Ltac app_stage B s' B' :=
  match goal with |- context [bind (rx_create_task (Some ?x) ?name ?p _ _ ?f _ _) _ ?st] =>
    let R := fresh "R" in let L := fresh "L" in
    destruct (app_stack_room st _ (bo_left _ _ _ _ _ _ _ B)) as [R L];
    [by rewrite (bo_start _ _ _ _ _ _ _ B)|rewrite (bo_start _ _ _ _ _ _ _ B); lia|];
    destruct (boot_create_run _ _ _ _ _ _ st x name p 0 8192 f 0 B) as (s' & ?E & B');
    [vm_compute; congruence|vm_compute; split; congruence|exact R|assumption
    |cbn [app fmap list_fmap]; rewrite ?not_elem_of_cons; split_and?; auto using not_elem_of_nil|cbn; lia|];
    rewrite L in B'; erewrite bind_run by eassumption
  end.

(** C37: The whole start of the system, from zeroed memory: the kernel creates its threads,
    the application its tasks, and the processor goes to the timer thread.  All nine are
    ready in the order of their priorities, the threads of the kernel before the tasks of
    the application and the terminal, the logger and the idle task last; the stacks of the
    application's tasks have been taken from the system's stack, and the code that has
    started it all is not scheduled again. *)
Theorem application_starts init fops timer0 event0 bh0 logger0 terminal0 idle t1 t2 t3 f0 f1 f2 f3 s rest :
  let ths := [timer0; event0; bh0; logger0; terminal0] in
  k_ready s = None -> k_list_head s = None -> k_devs s = mk_device simx86 None 0 0 :: rest ->
  CONFIG_SYSTEM_STACK_SIZE <= k_stack_start s < 2 ^ 32 ->
  Forall (fun x => is_Some (k_tasks s !! x)) [init; idle; t1; t2; t3] ->
  Forall (fun th => th_stack th <> 0 /\ is_Some (k_tasks s !! th_tcb th)) ths ->
  NoDup (init :: idle :: t1 :: t2 :: t3 :: (th_tcb <$> ths)) ->
  exists s',
    __rx_kernel_enter init fops timer0 event0 bh0 logger0 terminal0
      (rx_application_init idle t1 t2 t3 f0 f1 f2 f3) s = Switch s' (fun s2 => Done tt s2) /\
    k_curr s' = Some (th_tcb timer0) /\
    ready_queue (k_tasks s') (k_ready s')
      [th_tcb timer0; th_tcb event0; th_tcb bh0; t1; t2; t3; th_tcb terminal0; th_tcb logger0; idle] /\
    chain t_list (k_tasks s') (k_list_head s') ((th_tcb <$> ths) ++ [idle; t1; t2; t3]) /\
    k_num_task s' = 9 /\ k_curr_stack s' = k_stack_start s - 4 * (8192 + 4).
Proof.
  intros ths Hr Hlh Hd Hss Hts Hths Hnd. rewrite !Forall_cons in Hts. destruct Hts as (Ti & T0 & T1 & T2 & T3 & _).
  assert (Hnd' : NoDup (init :: (th_tcb <$> ths))).
  { apply NoDup_cons in Hnd as [Hi Hnd]. do 4 apply NoDup_cons in Hnd as [_ Hnd]. apply NoDup_cons. split; [|done].
    intros Hin. apply Hi. do 4 right. exact Hin. }
  destruct (kernel_enter_run init fops timer0 event0 bh0 logger0 terminal0
    (rx_application_init idle t1 t2 t3 f0 f1 f2 f3) s rest) as (s5 & -> & B5); [done..|].
  unfold ths in *. clear ths. cbn [fmap list_fmap] in *. rewrite !NoDup_cons, !not_elem_of_cons in Hnd.
  destruct Hnd as ((?&?&?&?&?&?&?&?&?&_) & (?&?&?&?&?&?&?&?&_) & (?&?&?&?&?&?&?&_) & (?&?&?&?&?&?&_) & (?&?&?&?&?&_) & _).
  unfold rx_application_init.
  app_stage B5 s6 B6. app_stage B6 s7 B7. app_stage B7 s8 B8. app_stage B8 s9 B9.
  destruct (bo_kept _ _ _ _ _ _ _ B9 init Ti) as [ti Hti].
  destruct (sched_away s9 init ti (th_tcb timer0) [th_tcb event0; th_tcb bh0; t1; t2; t3; th_tcb terminal0; th_tcb logger0; idle])
    as (th & Hth & Es & Hq); [apply B9|done| |apply B9|].
  { rewrite !not_elem_of_cons. split_and!; auto using not_elem_of_nil. }
  exists (switched (th_tcb timer0) th s9). split_and!; [exact Es|done|exact Hq| |apply B9|].
  - eapply seg_insert_same; [exact Hth| |exact (bo_tasks _ _ _ _ _ _ _ B9)]. unfold dispatched. by case_decide.
  - norm. rewrite (bo_left _ _ _ _ _ _ _ B9). lia.
Qed.

(** Task 1 starts, with the control blocks 2 to 6 for the kernel's threads. *)
Definition app_state : kst :=
  set_k_stack_start 200000 (set_k_devs [mk_device simx86 None 0 0]
    (set_k_tasks (list_to_map ((fun i => (i, tcb0)) <$> [1; 2; 3; 4; 5; 6; 7; 8; 9; 10]%positive)) kst0)).

Lemma application_starts_witness :
  exists s',
    __rx_kernel_enter 1 7 (boot_thread 2) (boot_thread 3) (boot_thread 4) (boot_thread 5) (boot_thread 6)
      (rx_application_init 7 8 9 10 70 71 72 73) app_state = Switch s' (fun s2 => Done tt s2) /\
    k_curr s' = Some 2%positive /\
    ready_queue (k_tasks s') (k_ready s') [2; 3; 4; 8; 9; 10; 6; 5; 7]%positive /\
    chain t_list (k_tasks s') (k_list_head s') [2; 3; 4; 5; 6; 7; 8; 9; 10]%positive /\
    k_num_task s' = 9 /\ k_curr_stack s' = 200000 - 4 * (8192 + 4).
Proof.
  apply (application_starts 1 7 (boot_thread 2) (boot_thread 3) (boot_thread 4) (boot_thread 5)
    (boot_thread 6) 7 8 9 10 70 71 72 73 app_state []); try done.
  - repeat constructor; by eexists.
  - repeat constructor; try done; by eexists.
  - apply (bool_decide_unpack _). by vm_compute.
Defined.

(** ** The periodic timer *)

(** The callback starts its timer again, for 6 * 10 ticks. *)
Lemma timer_callback_run s p tp L :
  timer_queue (k_timers s) (k_timer_head s) L -> k_timers s !! p = Some tp -> p ∉ L ->
  timer_enabled tp = false -> tm_delay tp <> 0 -> 0 <= k_jiffies s -> k_jiffies s + 60 < 2 ^ 32 ->
  exists s' la lb tp',
    timer_callback (Some p) s = Done tt s' /\ L = la ++ lb /\ k_jiffies s' = k_jiffies s /\
    k_tasks s' = k_tasks s /\ k_ready s' = k_ready s /\
    timer_queue (k_timers s') (k_timer_head s') (la ++ p :: lb) /\
    k_timers s' !! p = Some tp' /\ tm_time_expiry tp' = k_jiffies s + 60 /\ tm_delay tp' = 60 /\
    tm_handler tp' = tm_handler tp /\
    (forall y, y <> p -> expiry (k_timers s') y = expiry (k_timers s) y).
Proof.
  intros Hq Hp Hni Hoff Hd Hj0 Hj. unfold timer_callback. erewrite bind_run by apply pr_error_run.
  unfold rx_mod_timer. step. rewrite Hoff, decide_False by done. step.
  set (tp1 := set_tm_delay (u32 (6 * (1000 / CONFIG_HZ))) tp).
  match goal with |- context [rx_start_timer (Some p) ?st] => set (s1 := st) end.
  assert (Hp1 : k_timers s1 !! p = Some tp1) by apply lookup_insert_eq.
  assert (Hq1 : timer_queue (k_timers s1) (k_timer_head s1) L) by (by apply timer_queue_out).
  destruct (arm_run s1 L p tp1 Hq1 Hni Hp1) as (tms' & la & lb & n & q & E & HL & Hq' & Hp' & _ & _ & Hr).
  eexists (tm_upd tms' (head (la ++ p :: lb)) s1), la, lb, _. split_and!; [|exact HL|done|done|done|exact Hq'|exact Hp'| |done|done|].
  - unfold rx_start_timer. step. assert (Hoff1 : timer_enabled tp1 = false) by done. rewrite Hoff1. exact E.
  - change (u32 (60 + k_jiffies s) = k_jiffies s + 60). rewrite u32_small; lia.
  - intros y Hy. norm. rewrite (tm_relinked_expiry _ _ y Hr). unfold expiry. rewrite lookup_insert_ne by done.
    unfold s1. norm. by rewrite lookup_insert_ne.
Qed.

(** One round of the loop over the expired timers, with the application's timer first. *)
Lemma expire_callback_run s p tp cb L fuel tick :
  timer_queue (k_timers s) (k_timer_head s) (p :: L) -> k_timers s !! p = Some tp ->
  tm_handler tp = Some (H_app cb) -> tm_delay tp <> 0 -> tm_time_expiry tp <= tick ->
  0 <= k_jiffies s -> k_jiffies s + 60 < 2 ^ 32 ->
  let call := fun _ _ => timer_callback (Some p) in
  exists s' la lb tp',
    expire_loop call (S fuel) tick (Some p) s = expire_loop call fuel tick (head (la ++ p :: lb)) s' /\
    L = la ++ lb /\ timer_queue (k_timers s') (k_timer_head s') (la ++ p :: lb) /\
    k_timers s' !! p = Some tp' /\ tm_time_expiry tp' = k_jiffies s + 60 /\ tm_delay tp' = 60 /\
    tm_handler tp' = Some (H_app cb) /\
    (forall y, y <> p -> expiry (k_timers s') y = expiry (k_timers s) y).
Proof.
  intros Hq Hp Hh Hd Hexp Hj0 Hj call. cbn [expire_loop]. step. rewrite decide_True by done. rewrite Hh.
  pose proof (dchain_NoDup _ _ _ _ _ (tq_chain _ _ _ Hq)) as [Hni _]%NoDup_cons.
  destruct (timer_queue_remove s [] p L Hq) as (tms1 & E1 & Hq1 & Hr1); [by left|].
  cbn [app] in *. destruct (tm_relinked_lookup _ _ _ _ Hr1 Hp) as (n & q & Hp1).
  set (tp1 := set_tm_flag (Z.land (tm_flag (set_tm_next n (set_tm_prev q tp))) RX_TIMER_DISABLED)
    (set_tm_next n (set_tm_prev q tp))).
  set (s2 := set_k_timers (<[p := tp1]> tms1) (tm_upd tms1 (head L) s)).
  assert (Hp2 : k_timers s2 !! p = Some tp1) by apply lookup_insert_eq.
  destruct (timer_callback_run s2 p tp1 L)
    as (s3 & la & lb & tp' & E3 & HL & _ & _ & _ & Hq3 & Hp3 & Hx3 & Hd3 & Hh3 & Hf3); [|done|done| |done|done|done|].
  { by apply timer_queue_out. }
  { unfold timer_enabled, tp1. cbn [tm_flag set_tm_flag]. by rewrite land_disabled. }
  exists s3, la, lb, tp'. split_and!; [|done..|by rewrite Hh3|].
  - rewrite bind_bind. erewrite bind_run by exact E1. unfold tm_upd at 1. do 2 step.
    assert (Hh1 : tm_handler tp1 = Some (H_app cb)) by done. rewrite Hh1. cbn [run_handler]. unfold call at 1. erewrite obind_run by exact E3. step.
    by rewrite (dchain_head _ _ _ (tq_chain _ _ _ Hq3)).
  - intros y Hy. rewrite Hf3 by done. unfold s2. norm.
    rewrite <- (tm_relinked_expiry _ _ y Hr1). unfold expiry. by rewrite lookup_insert_ne.
Qed.


(** Timer 1, of the application, expires at tick 10, timer 2 at 30; it is tick 10. *)
Definition sample_periodic : kst := set_k_jiffies 10 sample_timers.

