(* ===== verification/System.v ===== *)
(** * Tasks that share the processor and semaphores

    The kernel as a machine: the running task makes a call, which returns or gives the
    processor to another task; the rest of the call is saved and goes on when the task
    runs again.  The calls are those of src/kernel/rx_semaphore.c,
    src/kernel/rx_sched.c and the suspension and resumption of src/kernel/rx_task.c;
    one task, the idle one, never waits.  In every state the machine reaches, each task
    is in exactly the queue its control block says, and the next call does not fault. *)

From stdpp Require Import base gmap list sorting relations.
From Stdlib Require Import ZArith Lia.
From S2P Require Import Prelude State Samples Chains Port ReadyQueue Sched TaskQueue Task Timer Semaphore.
#[local] Open Scope Z_scope.
#[local] Open Scope rosx_scope.

(** ** The machine *)

Inductive call :=
  | C_wait (a : positive)
  | C_try (a : positive)
  | C_post (a : positive)
  | C_yield
  | C_suspend_self
  | C_suspend (x : positive)
  | C_resume (x : positive).

(** The call as the kernel runs it; no timer is needed without a timeout. *)
Definition do_call (c : call) : M Z :=
  match c with
  | C_wait a => rx_semaphore_wait None (Some a) OS_WAIT_FOREVER
  | C_try a => rx_semaphore_wait None (Some a) OS_NO_WAIT
  | C_post a => rx_semaphore_post (Some a)
  | C_yield => rx_sched ;;; ret OS_OK
  | C_suspend_self => rx_suspend_task None
  | C_suspend x => rx_suspend_task (Some x)
  | C_resume x => rx_resume_task (Some x)
  end.

(** The calls the application may make: on semaphores and tasks that exist, the idle
    task neither waits nor is suspended, and a task that waits for a semaphore is not
    resumed by hand. *)
Definition allowed (idle : positive) (s : kst) (c : positive) (k : call) : Prop :=
  match k with
  | C_wait a => c <> idle /\ is_Some (k_sems s !! a)
  | C_try a | C_post a => is_Some (k_sems s !! a)
  | C_yield => True
  | C_suspend_self => c <> idle
  | C_suspend x => x <> idle /\ x <> c /\ is_Some (k_tasks s !! x)
  | C_resume x => exists t, k_tasks s !! x = Some t /\ t_sem t = None
  end.

(** The kernel and, for each task that is not running, what is left of its call. *)
Record machine := mk_machine {
  ma_kernel : kst;
  ma_saved : gmap positive (kst -> outcome kst Z);
}.

Inductive mstep (idle : positive) : machine -> machine -> Prop :=
  | ms_return s sv c k r s' :
      k_curr s = Some c -> sv !! c = None -> allowed idle s c k -> do_call k s = Done r s' ->
      mstep idle (mk_machine s sv) (mk_machine s' sv)
  | ms_switch s sv c k s' rest :
      k_curr s = Some c -> sv !! c = None -> allowed idle s c k -> do_call k s = Switch s' rest ->
      mstep idle (mk_machine s sv) (mk_machine s' (<[c := rest]> sv))
  | ms_resume s sv c rest r s' :
      k_curr s = Some c -> sv !! c = Some rest -> rest s = Done r s' ->
      mstep idle (mk_machine s sv) (mk_machine s' (delete c sv)).

(** ** The invariant *)

(** Where the task [x] is: in the ready queue, in the queue of one semaphore, or in
    none, and then it is not runnable. *)
Definition placed (s : kst) (rl : list positive) (x : positive) (t : tcb) : Prop :=
  x ∈ rl \/ (exists a v ws, sem_ok s a v ws /\ x ∈ ws) \/ (~ runnable t /\ t_sem t = None).

Record kernel_ok (idle : positive) (all : gset positive) (s : kst) (rl : list positive) : Prop := {
  ko_ready : ready_queue (k_tasks s) (k_ready s) rl;
  ko_curr : exists c, k_curr s = Some c /\ c ∈ rl;
  ko_idle : idle ∈ rl;
  ko_sems : forall a, is_Some (k_sems s !! a) -> exists v ws, sem_ok s a v ws;
  ko_clear : forall x t, x ∈ rl -> k_tasks s !! x = Some t -> t_sem t = None;
  ko_place : forall x t, k_tasks s !! x = Some t -> placed s rl x t;
  ko_dom : forall x, is_Some (k_tasks s !! x) -> x ∈ all;
  ko_size : Z.of_nat (size all) < 2 ^ 31 - 2;
}.

(** What places a task. *)
Definition core (t : tcb) : ptr * task_state * ptr := (t_next t, t_state t, t_sem t).

Lemma core_lookup (ts ts' : gmap positive tcb) x t' :
  core <$> ts' !! x = core <$> ts !! x -> ts' !! x = Some t' ->
  exists t, ts !! x = Some t /\ t_next t = t_next t' /\ t_state t = t_state t' /\ t_sem t = t_sem t'.
Proof.
  intros E Ht. rewrite Ht in E. destruct (ts !! x) as [t|]; [|done]. cbn in E. exists t.
  injection E as ? ? ?. by split_and!.
Qed.

Lemma core_runnable t t' : t_state t = t_state t' -> runnable t' -> runnable t.
Proof. unfold runnable. congruence. Qed.

(** A semaphore's part of the state. *)
Lemma sem_ok_frame s s' a v ws :
  k_sems s' !! a = k_sems s !! a -> (forall x, x ∈ ws -> core <$> k_tasks s' !! x = core <$> k_tasks s !! x) ->
  sem_ok s a v ws -> sem_ok s' a v ws.
Proof.
  intros Ha Hf [Hr Hn (sm & Hsm & Hv & [Hc Hs])]. constructor; [done|done|]. exists sm. rewrite Ha.
  split; [done|]. split; [done|]. constructor.
  - eapply seg_frame; [|exact Hc]. intros x Hx. pose proof (Hf x Hx) as E. unfold core in E.
    destruct (k_tasks s' !! x), (k_tasks s !! x); cbn in *; congruence.
  - intros x t' Hx Ht'. destruct (core_lookup _ _ x t' (Hf x Hx) Ht') as (t & Ht & _ & Est & Esem).
    destruct (Hs x t Hx Ht) as [Hr' [? ?]]. split; [intros ?; by eapply Hr', core_runnable|].
    split; congruence.
Qed.

Lemma sem_ok_det s a v ws v' ws' : sem_ok s a v ws -> sem_ok s a v' ws' -> v = v' /\ ws = ws'.
Proof.
  intros [_ _ (sm & Hsm & <- & Hw)] [_ _ (sm' & Hsm' & <- & Hw')]. simplify_eq.
  split; [done|]. eapply chain_det; [apply Hw|apply Hw'].
Qed.

Lemma sem_ok_waits s a v ws x t : sem_ok s a v ws -> x ∈ ws -> k_tasks s !! x = Some t -> t_sem t = Some a.
Proof. intros [_ _ (sm & _ & _ & Hw)] Hx Ht. by destruct (wt_states _ _ _ _ Hw x t Hx Ht) as [_ [_ ?]]. Qed.

Lemma sem_ok_lookup s a v ws x : sem_ok s a v ws -> x ∈ ws -> is_Some (k_tasks s !! x).
Proof. intros [_ _ (sm & _ & _ & Hw)] Hx. destruct (seg_lookup _ _ _ _ _ x (wt_chain _ _ _ _ Hw) Hx). by eexists. Qed.

Lemma sem_ok_not_ready s a v ws rl h x :
  sem_ok s a v ws -> ready_queue (k_tasks s) h rl -> x ∈ ws -> x ∉ rl.
Proof. intros [_ _ (sm & _ & _ & Hw)] Hq. by apply (waiting_disjoint _ _ _ _ _ _ Hw Hq). Qed.

(** No task waits for two semaphores. *)
Lemma sem_ok_apart s a v ws b v' ws' x : sem_ok s a v ws -> sem_ok s b v' ws' -> x ∈ ws -> x ∈ ws' -> a = b.
Proof.
  intros Ha Hb Hx Hx'. destruct (sem_ok_lookup _ _ _ _ _ Ha Hx) as [t Ht].
  pose proof (sem_ok_waits _ _ _ _ _ _ Ha Hx Ht). pose proof (sem_ok_waits _ _ _ _ _ _ Hb Hx' Ht). congruence.
Qed.

(** The value of a semaphore is far from its bound: fewer tasks wait than there are. *)
Lemma sem_value_low idle all s rl a v ws : kernel_ok idle all s rl -> sem_ok s a v ws -> - 2 ^ 31 + 2 < v.
Proof.
  intros Hk Ha. assert (Hsub : (list_to_set ws : gset positive) ⊆ all).
  { intros x Hx%elem_of_list_to_set. apply (ko_dom _ _ _ _ Hk). by eapply sem_ok_lookup. }
  apply subseteq_size in Hsub. destruct Ha as [_ Hn (sm & _ & _ & Hw)].
  rewrite size_list_to_set in Hsub by (eapply chain_NoDup, (wt_chain _ _ _ _ Hw)).
  pose proof (ko_size _ _ _ _ Hk). lia.
Qed.

(** A call changes the tasks of [D] and the semaphore [a], if any; the rest of the
    invariant carries over. *)
Lemma kernel_ok_move idle all s s' rl rl' (D : list positive) (a : option positive) :
  kernel_ok idle all s rl ->
  ready_queue (k_tasks s') (k_ready s') rl' ->
  (exists c, k_curr s' = Some c /\ c ∈ rl') -> idle ∈ rl' ->
  (forall x, x ∈ D -> is_Some (k_tasks s !! x)) ->
  (forall x, x ∉ D -> core <$> k_tasks s' !! x = core <$> k_tasks s !! x) ->
  (forall b, Some b <> a -> k_sems s' !! b = k_sems s !! b) ->
  (forall b v ws x, Some b <> a -> sem_ok s b v ws -> x ∈ ws -> x ∉ D) ->
  (forall b, a = Some b -> exists v ws, sem_ok s' b v ws) ->
  (forall x t, x ∈ rl' -> k_tasks s' !! x = Some t -> t_sem t = None) ->
  (forall x t, k_tasks s' !! x = Some t ->
    x ∈ D \/ x ∈ rl \/ (exists b v ws, a = Some b /\ sem_ok s b v ws /\ x ∈ ws) -> placed s' rl' x t) ->
  kernel_ok idle all s' rl'.
Proof.
  intros Hk Hq Hc Hi HD Hout Hsem Hapart Ha Hclear Hpl.
  assert (Hframe : forall b v ws, Some b <> a -> sem_ok s b v ws -> sem_ok s' b v ws).
  { intros b v ws Hb Hok. eapply sem_ok_frame; [by apply Hsem| |done]. intros x Hx. apply Hout. by eapply Hapart. }
  constructor; try done.
  - intros b Hb. destruct (decide (Some b = a)) as [<-|Hne]; [by apply Ha|]. rewrite Hsem in Hb by done.
    destruct (ko_sems _ _ _ _ Hk b Hb) as (v & ws & Hok). exists v, ws. by apply Hframe.
  - intros x t Ht. destruct (decide (x ∈ D)) as [HxD|HxD]; [by apply (Hpl x t Ht); left|].
    destruct (core_lookup _ _ x t (Hout x HxD) Ht) as (t0 & Ht0 & _ & Est & Esem).
    destruct (ko_place _ _ _ _ Hk x t0 Ht0) as [Hrl|[(b & v & ws & Hok & Hx)|[Hnr Hno]]].
    + apply (Hpl x t Ht). tauto.
    + destruct (decide (Some b = a)) as [Hba|Hne]; [apply (Hpl x t Ht); right; right; by exists b, v, ws|].
      right. left. exists b, v, ws. split; [by apply Hframe|done].
    + right. right. split; [intros ?; by eapply Hnr, core_runnable|congruence].
  - intros x [t Ht]. destruct (decide (x ∈ D)) as [HxD|HxD]; [by apply (ko_dom _ _ _ _ Hk), HD|].
    destruct (core_lookup _ _ x t (Hout x HxD) Ht) as (t0 & Ht0 & _). by apply (ko_dom _ _ _ _ Hk).
  - apply Hk.
Qed.

(** ** The calls *)

(** What a call does to what is not its business: the mutexes, and the tasks that wait
    for one, but for the tasks of [moved]. *)
Definition duty (t : tcb) : Z * ptr * ptr := (t_prio t, t_mutex t, t_timer t).

#[export] Instance steady_duty : Steady duty.
Proof. steady. Qed.

Definition only_running (s : kst) : Prop :=
  forall x t, k_tasks s !! x = Some t -> t_state t = RX_TASK_RUNNING -> k_curr s = Some x.

Record quiet (moved : list positive) (s s' : kst) : Prop := {
  qt_mutexes : k_mutexes s' = k_mutexes s;
  qt_same : forall x t, k_tasks s !! x = Some t -> x ∉ moved -> t_sem t = None -> ~ runnable t ->
    k_tasks s' !! x = Some t;
  qt_duty : forall x, duty <$> k_tasks s' !! x = duty <$> k_tasks s !! x;
  qt_running : only_running s -> only_running s';
}.

Lemma quiet_same_tasks moved s s' :
  k_mutexes s' = k_mutexes s -> k_tasks s' = k_tasks s -> k_curr s' = k_curr s -> quiet moved s s'.
Proof. intros Hm Ht Hc. constructor; [done|..]; unfold only_running; rewrite ?Ht, ?Hc; auto. Qed.

(** One task has left or joined the ready queue. *)
Lemma quiet_moved moved s s' x tx tx' D :
  k_mutexes s' = k_mutexes s -> k_curr s' = k_curr s -> k_tasks s !! x = Some tx ->
  k_tasks s' !! x = Some tx' -> duty tx' = duty tx -> t_state tx' <> RX_TASK_RUNNING ->
  x ∈ moved \/ t_sem tx <> None \/ runnable tx ->
  relinked D (delete x (k_tasks s)) (delete x (k_tasks s')) ->
  (forall y t, y ∈ D -> y <> x -> k_tasks s !! y = Some t -> runnable t) -> quiet moved s s'.
Proof.
  intros Hm Hc Hx Hx' Hd Hst Hx0 Hrel HD. constructor; [done|..].
  - intros y t Ht Hy Hsem Hr. assert (Hyx : y <> x) by (intros ->; simplify_eq; tauto).
    rewrite (relinked_others_out _ _ _ _ _ Hrel Hyx); [done|]. intros HyD. by apply Hr, (HD y).
  - intros y. destruct (decide (y = x)) as [->|Hyx]; [rewrite Hx, Hx'; cbn; congruence|].
    pose proof (relinked_steady duty _ _ _ y Hrel) as E. by rewrite !lookup_delete_ne in E by done.
  - intros Hrun y t Ht Hyr. rewrite Hc. destruct (decide (y = x)) as [->|Hyx]; [by simplify_eq|].
    destruct (Hrel y) as [E|(_ & t0 & n & E0 & E)]; rewrite !lookup_delete_ne in * by done.
    + apply (Hrun y t); [by rewrite <- E|done].
    + apply (Hrun y t0 E0). by simplify_eq.
Qed.

(** The running task has given up the processor. *)
Lemma quiet_gave_up moved s c tc tc' D h th l s1 :
  gave_up s c tc' D h th l s1 -> k_mutexes s1 = k_mutexes s -> k_curr s = Some c ->
  k_tasks s !! c = Some tc -> runnable tc -> duty tc' = duty tc -> t_state tc' <> RX_TASK_RUNNING ->
  (forall y t, y ∈ h :: D -> k_tasks s !! y = Some t -> runnable t \/ t_sem t <> None) ->
  quiet moved s (switched h th s1).
Proof.
  intros G Hm Hc Htc Hrc Hd Hst HD. constructor; [done|..].
  - intros y t Ht _ Hsem Hr. assert (y ∉ h :: D).
    { intros HyD. destruct (HD y t HyD Ht); by rewrite ?Hsem in *. }
    rewrite (gave_up_same _ _ _ _ _ _ _ _ G); [done|by intros ->; simplify_eq|set_solver..].
  - intros y. destruct (decide (y = c)) as [->|Hyc].
    + rewrite (gave_up_self _ _ _ _ _ _ _ _ G), Htc. cbn. congruence.
    + by apply (gave_up_steady _ _ _ _ _ _ _ _ G duty).
  - intros Hrun y t Ht Hyr. destruct (decide (y = h)) as [->|Hyh]; [done|exfalso].
    destruct (decide (y = c)) as [->|Hyc].
    + rewrite (gave_up_self _ _ _ _ _ _ _ _ G) in Ht. by simplify_eq.
    + destruct (gave_up_state _ _ _ _ _ _ _ _ G y t Hyc Hyh Ht) as (t0 & Ht0 & Est).
      pose proof (Hrun y t0 Ht0 ltac:(congruence)). congruence.
Qed.

(** The processor has gone to another task, and the one that ran is not marked as running. *)
Lemma quiet_dispatched s c h th :
  k_curr s = Some c -> k_tasks s !! h = Some th -> runnable th ->
  (forall t, k_tasks s !! c = Some t -> t_state t <> RX_TASK_RUNNING) -> quiet [] s (switched h th s).
Proof.
  intros Hc Hth Hr Hnr. unfold switched. constructor; norm; [done|..].
  - intros x t Ht _ _ Hx. rewrite lookup_insert_ne; [done|]. intros ->. by simplify_eq.
  - intros x. rewrite lookup_insert. case_decide; [subst x|done]. rewrite Hth. cbn. by rewrite (steady_dispatched).
  - intros Hrun x t. norm. rewrite lookup_insert. case_decide; [by subst|]. intros Ht Hst.
    pose proof (Hrun x t Ht Hst). simplify_eq. by destruct (Hnr t Ht).
Qed.

Lemma quiet_trans s1 s2 s3 : quiet [] s1 s2 -> quiet [] s2 s3 -> quiet [] s1 s3.
Proof.
  intros [M1 S1 D1 R1] [M2 S2 D2 R2]. constructor.
  - congruence.
  - intros x t Ht Hx Hs Hr. by apply S2, Hr; [apply S1|..].
  - intros x. by rewrite D2.
  - auto.
Qed.

(** A call ends well: it returns to its caller or switches, in a state that is well
    formed and has the property [Q], and what is left of it only returns. *)
Definition ends_well (idle : positive) (all : gset positive) (c : positive) (Q : kst -> Prop)
    (o : outcome kst Z) : Prop :=
  match o with
  | Done _ s' => k_curr s' = Some c /\ (exists rl', kernel_ok idle all s' rl') /\ Q s'
  | Switch s' rest => (exists rl', kernel_ok idle all s' rl') /\ Q s' /\
      forall s2, exists r, rest s2 = Done r s2
  | Crash _ => False
  end.

Section Calls.
Context (idle : positive) (all : gset positive) (s : kst) (rl : list positive) (c : positive).
Context (Hk : kernel_ok idle all s rl) (Hcur : k_curr s = Some c).

Lemma curr_ready : c ∈ rl.
Proof using Hk Hcur. destruct (ko_curr _ _ _ _ Hk) as (c' & ? & ?). by simplify_eq. Qed.

Lemma ready_task x : x ∈ rl -> exists t, k_tasks s !! x = Some t /\ runnable t /\ t_sem t = None.
Proof using Hk.
  intros Hx. destruct (ready_queue_lookup _ _ _ x (ko_ready _ _ _ _ Hk) Hx) as (t & Ht & Hr).
  exists t. split_and!; [done..|]. by apply (ko_clear _ _ _ _ Hk x).
Qed.

Lemma moved_ready x y t : y ∈ x :: rl -> y <> x -> k_tasks s !! y = Some t -> runnable t.
Proof using Hk.
  intros [?|Hy]%elem_of_cons Hyx Ht; [done|]. destruct (ready_task y Hy) as (? & ? & ? & _). by simplify_eq.
Qed.

(** Another task can run, unless the caller is the idle task. *)
Lemma others_ready : c <> idle -> exists l1 l2 h l, rl = l1 ++ c :: l2 /\ l1 ++ l2 = h :: l /\ idle ∈ h :: l.
Proof using Hk Hcur.
  intros Hci. destruct (list_elem_of_split _ _ curr_ready) as (l1 & l2 & ->).
  assert (Hi : idle ∈ l1 ++ l2).
  { pose proof (ko_idle _ _ _ _ Hk) as Hi. rewrite elem_of_app, elem_of_cons in Hi. rewrite elem_of_app. naive_solver. }
  destruct (l1 ++ l2) as [|h l] eqn:E; [by apply elem_of_nil in Hi|]. by exists l1, l2, h, l.
Qed.

(** The semaphore has changed and its queue has not. *)
Lemma only_sem_ok s' a v ws v' :
  sem_ok s a v ws -> sem_ok s' a v' ws -> only_sem a s s' ->
  k_curr s' = Some c /\ (exists rl', kernel_ok idle all s' rl') /\ quiet [] s s'.
Proof using Hk Hcur.
  intros Ha Ha' (Ht & Hr & Hc & Hm & Hsem). split; [congruence|]. split; [|by apply quiet_same_tasks]. exists rl.
  apply (kernel_ok_move idle all s s' rl rl [] (Some a)); try done.
  - rewrite Ht, Hr. apply Hk.
  - rewrite Hc. apply Hk.
  - apply Hk.
  - by intros x ?%elem_of_nil.
  - intros x _. by rewrite Ht.
  - intros b Hb. apply Hsem. congruence.
  - by intros b v0 ws0 x _ _ _ ?%elem_of_nil.
  - intros b [= <-]. by exists v', ws.
  - intros x t. rewrite Ht. apply Hk.
  - intros x t _ [?%elem_of_nil|[Hx|(b & v0 & ws0 & [= <-] & Hok & Hx)]]; [done|by left|].
    destruct (sem_ok_det _ _ _ _ _ _ Ha Hok) as [-> ->]. right. left. by exists a, v', ws0.
Qed.

Lemma take_ok a v ws timeout :
  sem_ok s a v ws -> 0 < v -> ends_well idle all c (quiet [] s) (rx_semaphore_wait None (Some a) timeout s).
Proof using Hk Hcur.
  intros Ha Hv. destruct (sem_take_run s a v ws None timeout Ha Hv) as (s' & -> & Ha' & Ho).
  assert (ws = []) as -> by (destruct Ha as [_ Hn _]; destruct ws; [done|simpl in Hn; lia]).
  by apply (only_sem_ok s' a v [] (v - 1)).
Qed.

Lemma try_ok a : is_Some (k_sems s !! a) -> ends_well idle all c (quiet [] s) (do_call (C_try a) s).
Proof using Hk Hcur.
  intros Hs. destruct (ko_sems _ _ _ _ Hk a Hs) as (v & ws & Ha). cbn [do_call].
  destruct (decide (0 < v)); [by eapply take_ok|].
  destruct (sem_refuse_run s a v ws None Ha) as (s' & -> & Ha' & Ho);
    [lia|pose proof (sem_value_low _ _ _ _ _ _ _ Hk Ha); lia|].
  by apply (only_sem_ok s' a v ws v).
Qed.

Lemma wait_ok a : c <> idle -> is_Some (k_sems s !! a) -> ends_well idle all c (quiet [] s) (do_call (C_wait a) s).
Proof using Hk Hcur.
  intros Hci Hs. destruct (ko_sems _ _ _ _ Hk a Hs) as (v & ws & Ha). cbn [do_call].
  destruct (decide (0 < v)); [by eapply take_ok|].
  destruct (others_ready Hci) as (l1 & l2 & h & l & Erl & Hl & Hi).
  destruct (ready_task c curr_ready) as (tc & Htc & Hrc & _). pose proof (ko_ready _ _ _ _ Hk) as Hq.
  rewrite Erl in Hq. pose proof (sem_value_low _ _ _ _ _ _ _ Hk Ha) as Hlow.
  destruct (sem_block_run s a v ws c tc l1 l2 h l None OS_WAIT_FOREVER)
    as (s1 & th & -> & G & Ha' & Hsem & Hm); [done..|lia|done|lia|]. set (s' := switched h th s1) in *.
  pose proof (gu_queue _ _ _ _ _ _ _ _ G) as Hq'. rewrite <- Erl in G.
  assert (Hin : forall x, x ∈ rl <-> x = c \/ x ∈ h :: l).
  { intros x. rewrite Erl, <- Hl, !elem_of_app, elem_of_cons. tauto. }
  split; [|split; [|intros s2; by eexists]]; cycle 1.
  { eapply quiet_gave_up; [exact G|done..|]. intros y t Hy Ht.
    apply elem_of_cons in Hy as [->|[Hy|Hy]%elem_of_app].
    - destruct (ready_task h) as (? & ? & ? & _); [apply Hin; right; left|]. simplify_eq. by left.
    - destruct (ready_task y Hy) as (? & ? & ? & _). simplify_eq. by left.
    - right. by rewrite (sem_ok_waits _ _ _ _ _ _ Ha Hy Ht). }
  exists (h :: l). apply (kernel_ok_move idle all s s' rl (h :: l) (rl ++ ws) (Some a)); try done.
  - exists h. split; [done|left].
  - intros x [Hx|Hx]%elem_of_app; [destruct (ready_task x Hx) as (? & -> & _); done|by eapply sem_ok_lookup].
  - intros x Hx. pose proof Hx as [Hr Hw]%not_elem_of_app. f_equal. eapply (gave_up_same _ _ _ _ _ _ _ _ G); [| |done].
    + intros ->. apply Hr, curr_ready.
    + intros ->. apply Hr, Hin. right. left.
  - intros b Hb. apply Hsem. congruence.
  - intros b v0 ws0 x Hb Hok Hx [Hx'|Hx']%elem_of_app.
    + by eapply (sem_ok_not_ready s b); [|apply (ko_ready _ _ _ _ Hk)| |].
    + apply Hb. f_equal. by eapply sem_ok_apart.
  - intros b [= <-]. by exists (v - 1), (ws ++ [c]).
  - intros x t Hx Ht. destruct (ready_task x) as (t0 & Ht0 & _ & Hs0); [apply Hin; by right|].
    assert (Hxc : x <> c) by (intros ->; by apply (gu_out _ _ _ _ _ _ _ _ G)).
    pose proof (gave_up_steady _ _ _ _ _ _ _ _ G t_sem x Hxc) as E. unfold s' in Ht. rewrite Ht, Ht0 in E. cbn in E.
    congruence.
  - intros x t _ Hx. destruct (decide (x ∈ h :: l)); [by left|]. right. left.
    exists a, (v - 1), (ws ++ [c]). split; [done|]. rewrite elem_of_app, list_elem_of_singleton.
    destruct Hx as [[?%Hin|?]%elem_of_app|[?%Hin|(b & v0 & ws0 & [= <-] & Hok & ?)]]; [tauto|tauto|tauto|].
    destruct (sem_ok_det _ _ _ _ _ _ Ha Hok) as [-> ->]. by left.
Qed.

(** A step that leaves the semaphores alone. *)
Lemma tasks_only_ok s' rl' (D : list positive) :
  k_sems s' = k_sems s -> ready_queue (k_tasks s') (k_ready s') rl' ->
  (exists c', k_curr s' = Some c' /\ c' ∈ rl') -> idle ∈ rl' ->
  (forall x, x ∈ D -> exists t, k_tasks s !! x = Some t /\ t_sem t = None) ->
  (forall x, x ∉ D -> core <$> k_tasks s' !! x = core <$> k_tasks s !! x) ->
  (forall x t, x ∈ D -> k_tasks s' !! x = Some t -> t_sem t = None /\ (x ∈ rl' \/ ~ runnable t)) ->
  (forall x, x ∈ rl -> x ∈ rl' \/ x ∈ D) -> (forall x, x ∈ rl' -> x ∈ rl \/ x ∈ D) ->
  kernel_ok idle all s' rl'.
Proof using Hk.
  intros Hsem Hq Hc Hi HD Hout Hnew Hsub Hsup.
  apply (kernel_ok_move idle all s s' rl rl' D None); try done.
  - intros x Hx. destruct (HD x Hx) as (t & -> & _). done.
  - intros b _. by rewrite Hsem.
  - intros b v ws x _ Hok Hx HxD. destruct (HD x HxD) as (t & Ht & Hs).
    pose proof (sem_ok_waits _ _ _ _ _ _ Hok Hx Ht). congruence.
  - intros x t Hx Ht. destruct (decide (x ∈ D)) as [HxD|HxD]; [by apply (Hnew x t)|].
    destruct (core_lookup _ _ x t (Hout x HxD) Ht) as (t0 & Ht0 & _ & _ & <-).
    destruct (Hsup x Hx) as [Hrl|]; [|done]. by apply (ko_clear _ _ _ _ Hk x).
  - intros x t Ht [HxD|[Hx|(b & v & ws & ? & _)]]; [| |done].
    + destruct (Hnew x t HxD Ht) as [? [?|?]]; [by left|right; by right].
    + destruct (Hsub x Hx) as [?|HxD]; [by left|]. destruct (Hnew x t HxD Ht) as [? [?|?]]; [by left|right; by right].
Qed.

Lemma post_run_ok a :
  is_Some (k_sems s !! a) ->
  exists s', rx_semaphore_post (Some a) s = Done OS_OK s' /\
    k_curr s' = Some c /\ (exists rl', kernel_ok idle all s' rl') /\ quiet [] s s'.
Proof using Hk Hcur.
  intros Hs. destruct (ko_sems _ _ _ _ Hk a Hs) as (v & [|w ws] & Ha).
  { eexists. split; [exact (post_without_waiter_run s a v Ha)|]. apply (only_sem_ok _ a v [] v Ha); [|done].
    by apply (sem_ok_frame s). }
  pose proof (ko_ready _ _ _ _ Hk) as Hq.
  destruct (sem_ok_lookup s a v (w :: ws) w Ha) as [tw Htw]; [left|].
  destruct (sem_post_run s a v w ws tw rl Ha Htw Hq) as (s' & n & E & Ha' & Hq' & Hw' & Hc' & Hsem & Hm & Hrel).
  exists s'. split; [exact E|].
  set (rl' := ins _ _ _ _) in Hq'. split; [congruence|]. split; cycle 1.
  { eapply (quiet_moved [] s s' w tw); [done..| |exact Hrel|exact (moved_ready w)].
    right. left. rewrite (sem_ok_waits s a v (w :: ws) w tw Ha); [done|left|done]. }
  exists rl'.
  assert (Hin : forall x, x ∈ rl' <-> x = w \/ x ∈ rl) by (intros x; unfold rl'; rewrite ins_perm; apply elem_of_cons).
  apply (kernel_ok_move idle all s s' rl rl' (w :: rl) (Some a)); try done.
  - exists c. split; [congruence|]. apply Hin. right. apply curr_ready.
  - apply Hin. right. apply Hk.
  - intros x [->|Hx]%elem_of_cons; [by eexists|]. destruct (ready_task x Hx) as (? & -> & _). done.
  - intros x [Hxw Hx]%not_elem_of_cons. f_equal. apply (relinked_others_out _ _ _ _ _ Hrel Hxw). by apply not_elem_of_cons.
  - intros b Hb. apply Hsem. congruence.
  - intros b v0 ws0 x Hb Hok Hx [->|Hx']%elem_of_cons.
    + apply Hb. f_equal. eapply sem_ok_apart; [exact Hok|exact Ha|exact Hx|left].
    + by eapply (sem_ok_not_ready s b).
  - intros b [= <-]. by exists (v + 1), ws.
  - intros x t Hx Ht. destruct (decide (x = w)) as [->|Hxw]; [by simplify_eq|].
    destruct (proj1 (Hin x) Hx) as [?|Hr]; [done|]. destruct (ready_task x Hr) as (t0 & Ht0 & _ & Hs0).
    destruct (relinked_others _ _ _ _ _ _ Hrel Hxw Ht0) as [m Hm']. by simplify_eq.
  - intros x t _ [[?|?]%elem_of_cons|[?|(b & v0 & ws0 & [= <-] & Hok & Hx)]]; try (left; apply Hin; tauto).
    destruct (sem_ok_det _ _ _ _ _ _ Ha Hok) as [<- <-]. apply elem_of_cons in Hx as [->|Hx]; [left; apply Hin; tauto|].
    right. left. by exists a, (v + 1), ws.
Qed.

Lemma post_ok a : is_Some (k_sems s !! a) -> ends_well idle all c (quiet [] s) (do_call (C_post a) s).
Proof using Hk Hcur. intros Hs. destruct (post_run_ok a Hs) as (s' & E & H). cbn [do_call]. by rewrite E. Qed.

Lemma yield_ok : 
  ends_well idle all c (fun s' =>
    (forall t, k_tasks s !! c = Some t -> t_state t <> RX_TASK_RUNNING) -> quiet [] s s') (do_call C_yield s).
Proof using Hk Hcur.
  pose proof (ko_ready _ _ _ _ Hk) as Hq. pose proof (ready_queue_head _ _ _ Hq) as Hh. cbn [do_call].
  destruct (ready_task c curr_ready) as (tc & Htc & _ & _).
  assert (exists h l, rl = h :: l) as (h & l & Erl).
  { pose proof curr_ready as Hn. destruct rl; [by apply elem_of_nil in Hn|by eexists _, _]. }
  assert (Hhin : h ∈ rl) by (rewrite Erl; left).
  rewrite Erl in Hh. cbn [head] in Hh. destruct (decide (c = h)) as [->|Hne].
  { erewrite bind_run by (apply sched_stay; congruence). split; [done|]. split; [by exists rl|]. intros _. by apply quiet_same_tasks. }
  destruct (ready_task h Hhin) as (th & Hth & Hrh & Hs). unfold bind.
  rewrite (sched_run s c tc h th) by done. split; [|split; [|intros s2; by eexists]]; cycle 1.
  { intros Hnr. by apply (quiet_dispatched s c h th). }
  exists rl.
  apply (tasks_only_ok _ _ [h]); try done.
  - by apply ready_queue_dispatched.
  - by exists h.
  - apply Hk.
  - intros x ->%list_elem_of_singleton. by exists th.
  - intros x Hx%not_elem_of_cons. unfold switched. norm. by rewrite lookup_insert_ne by naive_solver.
  - intros x t ->%list_elem_of_singleton. unfold switched. norm. rewrite lookup_insert_eq. intros [= <-].
    split; [|by left]. unfold dispatched. by case_decide.
  - tauto.
  - tauto.
Qed.

(** The tasks of the ready queue, after [x] has left it or joined it. *)
Lemma one_moved_ok s' rl' x tx' :
  k_sems s' = k_sems s -> ready_queue (k_tasks s') (k_ready s') rl' ->
  (exists c', k_curr s' = Some c' /\ c' ∈ rl') -> idle ∈ rl' ->
  (forall y, y ∉ x :: rl -> core <$> k_tasks s' !! y = core <$> k_tasks s !! y) ->
  (forall y t, y <> x -> k_tasks s !! y = Some t -> exists t', k_tasks s' !! y = Some t' /\ t_sem t' = t_sem t) ->
  (exists t, k_tasks s !! x = Some t /\ t_sem t = None) ->
  k_tasks s' !! x = Some tx' -> t_sem tx' = None -> (x ∈ rl' \/ ~ runnable tx') ->
  (forall y, y <> x -> y ∈ rl' <-> y ∈ rl) -> kernel_ok idle all s' rl'.
Proof using Hk.
  intros Hsem Hq Hc Hi Hout Hkept Hx Hx' Hs' Hp Hsame.
  apply (tasks_only_ok s' rl' (x :: rl)); try done.
  - intros y [->|Hy]%elem_of_cons; [done|]. destruct (ready_task y Hy) as (t & ? & _ & ?). by exists t.
  - intros y t Hy Ht. destruct (decide (y = x)) as [->|Hyx]; [by simplify_eq|].
    apply elem_of_cons in Hy as [?|Hy]; [done|]. destruct (ready_task y Hy) as (t0 & Ht0 & _ & Hs0).
    destruct (Hkept y t0 Hyx Ht0) as (t' & ? & ?). simplify_eq. split; [congruence|]. left. by apply Hsame.
  - intros y Hy. right. by right.
  - intros y Hy. destruct (decide (y = x)) as [->|Hyx]; [right; left|left; by apply Hsame].
Qed.

Lemma suspend_self_ok : c <> idle -> ends_well idle all c (quiet [] s) (do_call C_suspend_self s).
Proof using Hk Hcur.
  intros Hci. destruct (others_ready Hci) as (l1 & l2 & h & l & Erl & Hl & Hi).
  destruct (ready_task c curr_ready) as (tc & Htc & Hrc & Hsc). pose proof (ko_ready _ _ _ _ Hk) as Hq.
  rewrite Erl in Hq. cbn [do_call].
  destruct (suspend_self_run s c tc l1 l2 h l Hcur Htc Hq Hl) as (s1 & th & -> & G & Hsem & Hm). rewrite <- Erl in G.
  assert (Hin : forall y, y ∈ rl <-> y = c \/ y ∈ h :: l).
  { intros y. rewrite Erl, <- Hl, !elem_of_app, elem_of_cons. tauto. }
  split; [|split; [|intros s2; by eexists]]; cycle 1.
  { eapply quiet_gave_up; [exact G|done..|]. intros y t Hy Ht. left.
    destruct (ready_task y) as (? & ? & ? & _); [|by simplify_eq].
    apply elem_of_cons in Hy as [->|Hy]; [apply Hin; right; left|done]. }
  exists (h :: l). apply (one_moved_ok _ _ c (set_t_state RX_TASK_SUSPEND (set_t_next None tc))); try done.
  - apply G.
  - exists h. split; [done|left].
  - intros y [Hyc Hyr]%not_elem_of_cons. f_equal. apply (gave_up_same _ _ _ _ _ _ _ _ G); [done| |done].
    intros ->. apply Hyr, Hin. right. left.
  - intros y t Hyc Ht. pose proof (gave_up_steady _ _ _ _ _ _ _ _ G t_sem y Hyc) as E. rewrite Ht in E.
    cbn in E. apply fmap_Some in E as (t' & ? & ?). by exists t'.
  - by exists tc.
  - eapply gave_up_self, G.
  - right. by apply suspended_not_runnable.
  - intros y Hy. rewrite Hin. tauto.
Qed.

Lemma suspend_ok x :
  x <> idle -> x <> c -> is_Some (k_tasks s !! x) -> ends_well idle all c (quiet [] s) (do_call (C_suspend x) s).
Proof using Hk Hcur.
  intros Hxi Hxc [t Ht]. cbn [do_call]. pose proof (ko_ready _ _ _ _ Hk) as Hq.
  destruct (decide (t_state t = RX_TASK_READY /\ x ∈ rl)) as [[Hst Hx]|Hno].
  - destruct (ready_task x Hx) as (? & ? & _ & Hs). simplify_eq.
    destruct (list_elem_of_split _ _ Hx) as (l1 & l2 & Erl). rewrite Erl in Hq.
    destruct (suspend_other_run s l1 x l2 t Hq Ht Hst) as (ts' & -> & Hq' & Hx' & Hrel).
    assert (Hin : forall y, y <> x -> y ∈ l1 ++ l2 <-> y ∈ rl).
    { intros y Hy. rewrite Erl, !elem_of_app, elem_of_cons. tauto. }
    split; [done|]. split; cycle 1.
    { eapply (quiet_moved [] s _ x t); [done..|right; by right; left|exact Hrel|].
      intros y t0 Hy. apply (moved_ready x). right. by rewrite Erl. }
    exists (l1 ++ l2). apply (one_moved_ok _ _ x (set_t_state RX_TASK_SUSPEND (set_t_next None t))); try done.
    + exists c. split; [done|]. apply Hin; [done|]. apply curr_ready.
    + apply Hin; [done|]. apply Hk.
    + intros y [Hyx Hyr]%not_elem_of_cons. f_equal. apply (relinked_others_out _ _ _ _ _ Hrel Hyx). by rewrite <- Erl.
    + intros y t0 Hyx Ht0. destruct (relinked_others _ _ _ _ _ _ Hrel Hyx Ht0) as [n Hn]. by eexists.
    + by exists t.
    + right. by apply suspended_not_runnable.
  - assert (Hns : t_state t <> RX_TASK_READY).
    { intros Hst. destruct (ko_place _ _ _ _ Hk x t Ht) as [?|[(a & v & ws & Hok & Hx)|[Hr _]]]; [tauto| |].
      - destruct Hok as [_ _ (sm & _ & _ & Hw)]. destruct (wt_states _ _ _ _ Hw x t Hx Ht) as [[] _]. by left.
      - apply Hr. by left. }
    unfold rx_suspend_task. step. rewrite decide_False by done. split; [done|]. split; [by exists rl|by apply quiet_same_tasks].
Qed.

Lemma resume_ok x t :
  k_tasks s !! x = Some t -> t_sem t = None -> ends_well idle all c (quiet [x] s) (do_call (C_resume x) s).
Proof using Hk Hcur.
  intros Ht Hs. cbn [do_call]. pose proof (ko_ready _ _ _ _ Hk) as Hq.
  destruct (decide (t_state t = RX_TASK_SUSPEND)) as [Hst|Hst]; cycle 1.
  { unfold rx_resume_task. step. rewrite decide_True by done. split; [done|]. split; [by exists rl|by apply quiet_same_tasks]. }
  assert (Hx : x ∉ rl).
  { intros Hx. destruct (ready_task x Hx) as (? & ? & Hr & _). simplify_eq. by apply suspended_not_runnable in Hst. }
  destruct (resume_run s rl x t Hq Hx Ht Hst) as (ts' & n & -> & Hq' & Hx' & Hrel).
  set (rl' := ins _ _ _ _) in *.
  assert (Hin : forall y, y ∈ rl' <-> y = x \/ y ∈ rl) by (intros y; unfold rl'; rewrite ins_perm; apply elem_of_cons).
  split; [done|]. split; cycle 1.
  { eapply (quiet_moved [x] s _ x t); [done..|left; left|exact Hrel|exact (moved_ready x)]. }
  exists rl'. apply (one_moved_ok _ _ x (set_t_next n (set_t_state RX_TASK_READY t))); try done.
  - exists c. split; [done|]. apply Hin. right. apply curr_ready.
  - apply Hin. right. apply Hk.
  - intros y Hy. f_equal. apply (relinked_others_out _ _ _ _ _ Hrel); [|done]. by apply not_elem_of_cons in Hy as [? _].
  - intros y t0 Hyx Ht0. destruct (relinked_others _ _ _ _ _ _ Hrel Hyx Ht0) as [m Hm']. by eexists.
  - by exists t.
  - left. apply Hin. by left.
  - intros y Hy. rewrite Hin. tauto.
Qed.

Lemma ends_well_mono Q Q' o :
  (forall s', Q s' -> Q' s') -> ends_well idle all c Q o -> ends_well idle all c Q' o.
Proof. destruct o; cbn; naive_solver. Qed.

(** The tasks a call moves although they neither run nor wait for a semaphore. *)
Definition moved_by (k : call) : list positive :=
  match k with
  | C_resume x => [x]
  | _ => []
  end.

Lemma call_ok k :
  allowed idle s c k -> ends_well idle all c (fun s' => k <> C_yield -> quiet (moved_by k) s s') (do_call k s).
Proof using Hk Hcur.
  destruct k; intros Ha; cbn [moved_by].
  - destruct Ha. eapply ends_well_mono, wait_ok; [by intros|done..].
  - eapply ends_well_mono, try_ok; [by intros|done].
  - eapply ends_well_mono, post_ok; [by intros|done].
  - eapply ends_well_mono, yield_ok. by intros ? _ ?.
  - eapply ends_well_mono, suspend_self_ok; [by intros|done].
  - destruct Ha as (? & ? & ?). eapply ends_well_mono, suspend_ok; [by intros|done..].
  - destruct Ha as (t & ? & ?). eapply ends_well_mono, resume_ok; [by intros|done..].
Qed.
End Calls.

(** ** Every reachable state *)

(** A machine is well formed when its kernel is and the saved calls only return. *)
Definition machine_ok (idle : positive) (all : gset positive) (m : machine) : Prop :=
  (exists rl, kernel_ok idle all (ma_kernel m) rl) /\
  (forall x rest, ma_saved m !! x = Some rest -> forall s, exists r, rest s = Done r s).

Lemma mstep_ok idle all m m' : machine_ok idle all m -> mstep idle m m' -> machine_ok idle all m'.
Proof.
  intros [[rl Hk] Hsv] Hst. destruct Hst as [s sv c k r s' Hc Hn Ha E|s sv c k s' rest Hc Hn Ha E|s sv c rest r s' Hc Hn E];
    cbn [ma_kernel ma_saved] in *.
  - pose proof (call_ok idle all s rl c Hk Hc k Ha) as Hw. rewrite E in Hw. by destruct Hw as (_ & ? & _).
  - pose proof (call_ok idle all s rl c Hk Hc k Ha) as Hw. rewrite E in Hw. destruct Hw as (? & _ & Hrest).
    split; [done|]. cbn. intros x rest'. rewrite lookup_insert. case_decide; [intros [= <-]; exact Hrest|by apply Hsv].
  - destruct (Hsv c rest Hn s) as [r' E']. rewrite E in E'. simplify_eq. split; [by exists rl|].
    cbn. intros x rest'. rewrite lookup_delete_Some. intros [_ ?]. by eapply Hsv.
Qed.

(** In every state that is reached from a well-formed one, by any sequence of
    calls of any tasks and any switches between them, the kernel is well formed: the
    ready queue is sorted and has the running and the idle task, every semaphore's value
    counts the tasks that wait for it, and each task is in the ready queue, in the
    queue of the one semaphore its control block names, or in none and not runnable.
    And the system never stops: a task that comes back to a saved call returns from it,
    and every call that is allowed returns or switches; none faults. *)
Theorem system_safe idle all m0 m :
  machine_ok idle all m0 -> rtc (mstep idle) m0 m ->
  machine_ok idle all m /\
  exists c, k_curr (ma_kernel m) = Some c /\
    (is_Some (ma_saved m !! c) -> exists m', mstep idle m m') /\
    (ma_saved m !! c = None -> forall k, allowed idle (ma_kernel m) c k ->
      (exists r s', do_call k (ma_kernel m) = Done r s') \/
      (exists s' rest, do_call k (ma_kernel m) = Switch s' rest)).
Proof.
  intros Hok Hr. assert (Hm : machine_ok idle all m).
  { induction Hr as [|m1 m2 m3 Hst _ IH]; [done|]. apply IH. by eapply mstep_ok. }
  split; [done|]. destruct m as [s sv]. destruct Hm as [[rl Hk] Hsv]. cbn [ma_kernel ma_saved] in *.
  destruct (ko_curr _ _ _ _ Hk) as (c & Hc & _). exists c. split_and!; [done| |].
  - intros [rest Hrest]. destruct (Hsv c rest Hrest s) as [r E]. eexists. by eapply ms_resume.
  - intros Hn k Ha. pose proof (call_ok idle all s rl c Hk Hc k Ha) as Hw.
    destruct (do_call k s); [left; by eexists _, _|done|right; by eexists _, _].
Qed.

(** Task 1 of [sample] runs, task 3 is the idle one, task 4 is suspended, and semaphore 8 is
    taken. *)
Definition sample_machine : machine := mk_machine (sample_sem 0 None) ∅.
Definition sample_all : gset positive := list_to_set [1; 2; 3; 4]%positive.

Lemma sample_machine_ok : machine_ok 3 sample_all sample_machine.
Proof.
  assert (Hdom : map_Forall (fun x t => x ∈ [1; 2; 3; 4]%positive /\ t_sem t = None /\
    (x ∈ [1; 2; 3]%positive \/ ~ runnable t)) tasks3)
    by (apply (bool_decide_unpack _); vm_compute; exact I).
  split; [|by intros ? ? ?]. exists [1; 2; 3]%positive. constructor.
  - by apply ready_queueb_ok; vm_compute.
  - exists 1%positive. split; [done|left].
  - apply (bool_decide_unpack _). by vm_compute.
  - intros a [sm Ha]. change (({[ 8%positive := mk_sem 1 0 None None ]} : gmap positive semaphore) !! a = Some sm) in Ha.
    apply lookup_singleton_Some in Ha as [<- _].
    exists 0, []. apply sample_sem_ok. lia.
  - intros x t _ Ht. by apply (Hdom x).
  - intros x t Ht. destruct (Hdom x t Ht) as (_ & ? & [?|?]); [by left|right; by right].
  - intros x [t Ht]. apply elem_of_list_to_set. by apply (Hdom x t).
  - vm_compute. congruence.
Qed.

Lemma system_safe_witness :
  exists m, rtc (mstep 3) sample_machine m /\ k_curr (ma_kernel m) = Some 2%positive /\
    machine_ok 3 sample_all m /\
    exists c, k_curr (ma_kernel m) = Some c /\
      (is_Some (ma_saved m !! c) -> exists m', mstep 3 m m') /\
      (ma_saved m !! c = None -> forall k, allowed 3 (ma_kernel m) c k ->
        (exists r s', do_call k (ma_kernel m) = Done r s') \/
        (exists s' rest, do_call k (ma_kernel m) = Switch s' rest)).
Proof.
  eexists. split; [|split; [|eapply (system_safe 3 sample_all sample_machine); [apply sample_machine_ok|]]].
  - eapply rtc_once, (ms_switch 3 _ ∅ 1 (C_wait 8)); [done|done|by split; [|eexists]|vm_compute; reflexivity].
  - by vm_compute.
  - eapply rtc_once, (ms_switch 3 _ ∅ 1 (C_wait 8)); [done|done|by split; [|eexists]|vm_compute; reflexivity].
Defined.

(** What [allowed] rules out: [rx_resume_task] does not look at what a suspended task
    waits for.  Task 4, resumed while it waits for semaphore 8, is in the ready queue
    and still at the head of the semaphore's queue. *)
Theorem resume_of_waiting_task :
  exists s' l t sm,
    rx_resume_task (Some 4%positive) sample_post = Done OS_OK s' /\
    ready_queue (k_tasks s') (k_ready s') l /\ 4%positive ∈ l /\
    k_tasks s' !! 4%positive = Some t /\ t_sem t = Some 8%positive /\
    k_sems s' !! 8%positive = Some sm /\ sem_task sm = Some 4%positive.
Proof.
  assert (Hq : ready_queue (k_tasks sample_post) (k_ready sample_post) [1; 2; 3]%positive)
    by (by apply ready_queueb_ok; vm_compute).
  edestruct (resume_run sample_post [1; 2; 3]%positive 4) as (ts' & n & E & Hq' & Hx & _);
    [done|apply (bool_decide_unpack _); by vm_compute|reflexivity|done|].
  eexists _, _, _, _. split_and!; [exact E|exact Hq'| |exact Hx|done|reflexivity|done].
  rewrite ins_perm. left.
Qed.
