(* ===== verification/Machine.v ===== *)
(** * Mutual exclusion

    The kernel as a machine whose tasks also lock and unlock mutexes and are preempted by
    interrupts: to the calls of [System] come those of src/kernel/rx_mutex.c, and between
    two calls of a task an interrupt may arrive (src/arch/x86/x86_sim.c) whose driver
    posts a semaphore and so may take the processor away at any instruction of the task,
    in its critical sections as well.  The machine also records, for each mutex, the tasks
    that are between a lock that has returned [OS_OK] to them and their unlock. *)

From stdpp Require Import base gmap list sorting relations.
From Stdlib Require Import ZArith Lia.
From S2P Require Import Prelude State Samples Chains Port ReadyQueue Sched TaskQueue Task Timer.
From S2P Require Import Mutex Semaphore Irq Tick System.
#[local] Open Scope Z_scope.
#[local] Open Scope rosx_scope.

(** ** The machine *)

Inductive mcall :=
  | K_sys (k : call)
  | K_lock (m : positive)
  | K_trylock (m : positive)
  | K_unlock (m : positive).

Definition do_mcall (k : mcall) : M Z :=
  match k with
  | K_sys k => do_call k
  | K_lock m => rx_mutex_lock None (Some m) OS_WAIT_FOREVER
  | K_trylock m => rx_mutex_lock None (Some m) OS_NO_WAIT
  | K_unlock m => rx_mutex_unlock (Some m)
  end.

(** The handler [f] of a driver that posts the semaphore [f]. *)
Definition post_drv (f : positive) (irq dev_id : Z) : M Z :=
  let! _ := rx_semaphore_post (Some f) in ret RX_IRQ_HANDLED.

(** The interrupt [num] while the running task is at [eip].  The other arguments are those
    of the timer interrupt, which is not one of these. *)
Definition interrupt (num eip : Z) : M Z :=
  sig_handler post_drv 1 1 0 None num eip ;;; ret OS_OK.

(** The calls the application may make: those of [System] but for the bare [rx_sched]; a
    task that waits for a mutex is not resumed by hand, and a task locks no second mutex. *)
Definition may (idle : positive) (s : kst) (inside : gset (positive * positive)) (c : positive)
    (k : mcall) : Prop :=
  match k with
  | K_sys k => allowed idle s c k /\ k <> C_yield /\
      forall x t, x ∈ moved_by k -> k_tasks s !! x = Some t -> t_mutex t = None
  | K_lock m => c <> idle /\ is_Some (k_mutexes s !! m) /\ forall b, (b, c) ∉ inside
  | K_trylock m => is_Some (k_mutexes s !! m) /\ forall b, (b, c) ∉ inside
  | K_unlock m => is_Some (k_mutexes s !! m)
  end.

(** The interrupts that may arrive: those of the drivers above. *)
Definition may_interrupt (s : kst) (num : Z) : Prop :=
  exists i f, k_irqs s !! num = Some i /\ irq_handler i = Some (I_drv f) /\ is_Some (k_sems s !! f).

(** The tasks inside, after a call of [c] has returned [r] to it. *)
Definition inside_after (k : option mcall) (c : positive) (r : Z) (inside : gset (positive * positive))
  : gset (positive * positive) :=
  if decide (r = OS_OK) then
    match k with
    | Some (K_lock m) | Some (K_trylock m) => {[ (m, c) ]} ∪ inside
    | Some (K_unlock m) => inside ∖ {[ (m, c) ]}
    | _ => inside
    end
  else inside.

(** What is left of the call of a task that is not running; [None] for a task that was
    preempted. *)
Notation saved_calls := (gmap positive (option mcall * (kst -> outcome kst Z))).

Record lmachine := mk_lmachine {
  lm_kernel : kst;
  lm_saved : saved_calls;
  lm_inside : gset (positive * positive);
}.

Inductive lstep (idle : positive) : lmachine -> lmachine -> Prop :=
  | ls_return s sv ins c k r s' :
      k_curr s = Some c -> sv !! c = None -> may idle s ins c k -> do_mcall k s = Done r s' ->
      lstep idle (mk_lmachine s sv ins) (mk_lmachine s' sv (inside_after (Some k) c r ins))
  | ls_switch s sv ins c k s' rest :
      k_curr s = Some c -> sv !! c = None -> may idle s ins c k -> do_mcall k s = Switch s' rest ->
      lstep idle (mk_lmachine s sv ins) (mk_lmachine s' (<[c := (Some k, rest)]> sv) ins)
  | ls_interrupt s sv ins c num eip r s' :
      k_curr s = Some c -> sv !! c = None -> may_interrupt s num -> interrupt num eip s = Done r s' ->
      lstep idle (mk_lmachine s sv ins) (mk_lmachine s' sv ins)
  | ls_preempt s sv ins c num eip s' rest :
      k_curr s = Some c -> sv !! c = None -> may_interrupt s num -> interrupt num eip s = Switch s' rest ->
      lstep idle (mk_lmachine s sv ins) (mk_lmachine s' (<[c := (None, rest)]> sv) ins)
  | ls_resume s sv ins c k rest r s' :
      k_curr s = Some c -> sv !! c = Some (k, rest) -> rest s = Done r s' ->
      lstep idle (mk_lmachine s sv ins) (mk_lmachine s' (delete c sv) (inside_after k c r ins)).

(** ** The mutexes *)

(** [V] says what each mutex is: free, or held with its queue. *)
Record mutexes_ok (s : kst) (V : gmap positive amutex) : Prop := {
  mo_rep : forall m a, V !! m = Some a -> mutex_rep s m a;
  mo_dom : forall m, is_Some (k_mutexes s !! m) -> is_Some (V !! m);
  mo_owner : forall m o ws, V !! m = Some (AHeld o ws) ->
    exists t, k_tasks s !! o = Some t /\ t_mutex t = None;
  mo_once : forall m b o ws ws', V !! m = Some (AHeld o ws) -> V !! b = Some (AHeld o ws') -> m = b;
  mo_wait : forall x t m, k_tasks s !! x = Some t -> t_mutex t = Some m ->
    t_sem t = None /\ exists o ws, V !! m = Some (AHeld o ws) /\ x ∈ ws;
  mo_timer : forall x t, k_tasks s !! x = Some t -> t_timer t = None;
  mo_running : only_running s;
}.

Lemma mutex_rep_frame s s' m a :
  k_mutexes s' !! m = k_mutexes s !! m ->
  (forall o ws x, a = AHeld o ws -> x ∈ ws -> k_tasks s' !! x = k_tasks s !! x) ->
  (forall o ws, a = AHeld o ws -> prio (k_tasks s') o = prio (k_tasks s) o) ->
  mutex_rep s m a -> mutex_rep s' m a.
Proof.
  intros Em Hw Ho (mx & Hm & Ha). exists mx. rewrite Em. split; [done|]. destruct a as [|o ws]; [done|].
  destruct Ha as [? ? Hwt ? Hi]. constructor; try done.
  - eapply waiting_frame; [|exact Hwt]. intros x. by apply (Hw o ws).
  - intros x Hx. rewrite (Ho o ws) by done. unfold prio. rewrite (Hw o ws x) by done. by apply Hi.
Qed.

Section Mutexes.
Context (s : kst) (V : gmap positive amutex) (Hmo : mutexes_ok s V).

(** A task of a mutex' queue. *)
Lemma mutex_waiter m o ws x :
  V !! m = Some (AHeld o ws) -> x ∈ ws ->
  exists t, k_tasks s !! x = Some t /\ ~ runnable t /\ t_mutex t = Some m /\ t_sem t = None.
Proof using Hmo.
  intros Hm Hx. destruct (mo_rep _ _ Hmo m _ Hm) as (mx & _ & [_ _ Hw _ _]).
  destruct (seg_lookup _ _ _ _ _ x (wt_chain _ _ _ _ Hw) Hx) as [t Ht].
  destruct (wt_states _ _ _ _ Hw x t Hx Ht) as [Hr [_ Hmx]]. exists t. split_and!; [done..|].
  by apply (mo_wait _ _ Hmo x t m).
Qed.

(** A call that is not about the mutexes. *)
Lemma mutexes_quiet moved s' :
  quiet moved s s' ->
  (forall x t, x ∈ moved -> k_tasks s !! x = Some t -> t_mutex t = None) -> mutexes_ok s' V.
Proof using Hmo.
  intros [Em Hsame Hd Hrun] Hmoved.
  assert (Hkeep : forall m o ws x, V !! m = Some (AHeld o ws) -> x ∈ ws -> k_tasks s' !! x = k_tasks s !! x).
  { intros m o ws x Hm Hx. destruct (mutex_waiter m o ws x Hm Hx) as (t & Ht & Hr & Hmx & Hsem).
    rewrite Ht. apply (Hsame x t Ht); [|done..]. intros Hx'. rewrite (Hmoved x t) in Hmx; done. }
  assert (Hduty : forall x t', k_tasks s' !! x = Some t' -> exists t, k_tasks s !! x = Some t /\ duty t = duty t').
  { intros x t' Ht'. pose proof (Hd x) as E. rewrite Ht' in E. cbn in E. symmetry in E.
    apply fmap_Some in E as (t & ? & ?). by exists t. }
  constructor.
  - intros m a Hm. eapply mutex_rep_frame; [by rewrite Em| | |by apply (mo_rep _ _ Hmo)].
    + intros o ws x ->. by apply (Hkeep m o).
    + intros o ws ->. unfold prio. pose proof (Hd o) as E.
      destruct (k_tasks s' !! o), (k_tasks s !! o); cbn in *; try done. unfold duty in E. congruence.
  - intros m. rewrite Em. apply Hmo.
  - intros m o ws Hm. destruct (mo_owner _ _ Hmo m o ws Hm) as (t & Ht & Hn). pose proof (Hd o) as E.
    rewrite Ht in E. cbn in E. apply fmap_Some in E as (t' & Ht' & E). exists t'. unfold duty in E.
    split; [done|congruence].
  - apply Hmo.
  - intros x t' m Ht' Hm. destruct (Hduty x t' Ht') as (t & Ht & E). unfold duty in E.
    destruct (mo_wait _ _ Hmo x t m Ht) as (Hsem & o & ws & HV & Hx); [congruence|]. split; [|by exists o, ws].
    rewrite (Hkeep m o ws x HV Hx) in Ht'. by simplify_eq.
  - intros x t' Ht'. destruct (Hduty x t' Ht') as (t & Ht & E). unfold duty in E.
    pose proof (mo_timer _ _ Hmo x t Ht). congruence.
  - apply Hrun, Hmo.
Qed.

(** A call that turns the mutex [m] into [a']. *)
Lemma mutexes_move s' m a' :
  mutex_rep s' m a' -> is_Some (V !! m) ->
  (forall b, b <> m -> k_mutexes s' !! b = k_mutexes s !! b) ->
  (forall b o ws x, b <> m -> V !! b = Some (AHeld o ws) -> x ∈ ws -> k_tasks s' !! x = k_tasks s !! x) ->
  (forall b o ws, b <> m -> V !! b = Some (AHeld o ws) -> duty <$> k_tasks s' !! o = duty <$> k_tasks s !! o) ->
  (forall o ws, a' = AHeld o ws -> (exists t, k_tasks s' !! o = Some t /\ t_mutex t = None) /\
    forall b ws', b <> m -> V !! b <> Some (AHeld o ws')) ->
  (forall x t b, k_tasks s' !! x = Some t -> t_mutex t = Some b ->
    (b = m -> t_sem t = None /\ exists o ws, a' = AHeld o ws /\ x ∈ ws) /\
    (b <> m -> exists t0, k_tasks s !! x = Some t0 /\ t_mutex t0 = Some b)) ->
  (forall x t, k_tasks s' !! x = Some t -> t_timer t = None) -> only_running s' ->
  mutexes_ok s' (<[m := a']> V).
Proof using Hmo.
  intros Hrep HV Hoth Hkeep Hduty Hown Hwt Htm Hrun. constructor; [..|done|done].
  - intros b a. rewrite lookup_insert. case_decide as Hb; [subst b; by intros [= <-]|]. intros Hba.
    eapply mutex_rep_frame; [by apply Hoth| | |by apply (mo_rep _ _ Hmo)].
    + intros o ws x ->. by eapply (Hkeep b).
    + intros o ws ->. pose proof (Hduty b o ws ltac:(done) Hba) as E. unfold prio.
      destruct (k_tasks s' !! o), (k_tasks s !! o); cbn in *; try done. unfold duty in E. congruence.
  - intros b Hb. rewrite lookup_insert. case_decide as Hbm; [done|]. rewrite Hoth in Hb by done. by apply Hmo.
  - intros b o ws. rewrite lookup_insert. case_decide as Hb; [intros [= ->]; by apply (Hown o ws)|]. intros Hba.
    destruct (mo_owner _ _ Hmo b o ws Hba) as (t & Ht & Hn). pose proof (Hduty b o ws ltac:(done) Hba) as E.
    rewrite Ht in E. cbn in E. apply fmap_Some in E as (t' & Ht' & E). exists t'. unfold duty in E.
    split; [done|congruence].
  - intros b b' o ws ws'. rewrite !lookup_insert. repeat case_decide; subst.
    + done.
    + intros [= ->] Hb'. by destruct (proj2 (Hown o ws eq_refl) b' ws').
    + intros Hb [= ->]. by destruct (proj2 (Hown o ws' eq_refl) b ws).
    + apply Hmo.
  - intros x t b Ht Hb. destruct (Hwt x t b Ht Hb) as [Hm Hn]. destruct (decide (b = m)) as [->|Hbm].
    + destruct (Hm eq_refl) as (? & o & ws & -> & ?). split; [done|]. exists o, ws. by rewrite lookup_insert_eq.
    + destruct (Hn Hbm) as (t0 & Ht0 & Hb0). destruct (mo_wait _ _ Hmo x t0 b Ht0 Hb0) as (Hsem & o & ws & HVb & Hx).
      split; [|exists o, ws; by rewrite lookup_insert_ne].
      rewrite (Hkeep b o ws x Hbm HVb Hx) in Ht. by simplify_eq.
Qed.
End Mutexes.

(** ** The calls *)

(** What a task waits for; its priority may change meanwhile. *)
Definition bond (t : tcb) : ptr * ptr * ptr := (t_sem t, t_mutex t, t_timer t).

#[export] Instance steady_bond : Steady bond.
Proof. steady. Qed.

Lemma bond_lookup (ts ts' : gmap positive tcb) x t' :
  bond <$> ts' !! x = bond <$> ts !! x -> ts' !! x = Some t' ->
  exists t, ts !! x = Some t /\ t_sem t' = t_sem t /\ t_mutex t' = t_mutex t /\ t_timer t' = t_timer t.
Proof.
  intros E Ht. rewrite Ht in E. destruct (ts !! x) as [t|]; [|done]. cbn in E. exists t.
  injection E as ? ? ?. by split_and!.
Qed.

(** The tasks with another priority for [o]. *)
Lemma prio_only {A} (f : tcb -> A) (ts : gmap positive tcb) o to p x :
  (forall t, f (set_t_prio p t) = f t) -> ts !! o = Some to ->
  f <$> <[o := set_t_prio p to]> ts !! x = f <$> ts !! x.
Proof. intros Hf Ho. rewrite lookup_insert. case_decide; [subst x; rewrite Ho; cbn; by rewrite Hf|done]. Qed.

Section Calls.
Context (idle : positive) (all : gset positive) (s : kst) (rl : list positive) (c : positive).
Context (V : gmap positive amutex).
Context (Hk : kernel_ok idle all s rl) (Hcur : k_curr s = Some c) (Hmo : mutexes_ok s V).

Lemma kernel_ok_same s' :
  k_tasks s' = k_tasks s -> k_ready s' = k_ready s -> k_curr s' = k_curr s -> k_sems s' = k_sems s ->
  kernel_ok idle all s' rl.
Proof using Hk.
  intros Ht Hr Hc Hs. eapply (tasks_only_ok idle all s rl Hk s' rl []); rewrite ?Ht, ?Hr, ?Hc; try done.
  - apply Hk.
  - apply Hk.
  - apply Hk.
  - by intros x ?%elem_of_nil.
  - by intros x t ?%elem_of_nil.
  - tauto.
  - tauto.
Qed.

(** A task that can run waits for no mutex. *)
Lemma ready_no_mutex x t : x ∈ rl -> k_tasks s !! x = Some t -> t_mutex t = None.
Proof using Hk Hmo.
  intros Hx Ht. destruct (t_mutex t) as [m|] eqn:Em; [|done].
  destruct (mo_wait _ _ Hmo x t m Ht Em) as (_ & o & ws & HV & Hw).
  destruct (mutex_waiter s V Hmo m o ws x HV Hw) as (t' & ? & Hr & _).
  destruct (ready_task _ _ _ _ Hk x Hx) as (? & ? & ? & _). by simplify_eq.
Qed.

Lemma waiter_not_ready m o ws x : V !! m = Some (AHeld o ws) -> x ∈ ws -> x ∉ rl.
Proof using Hk Hmo.
  intros HV Hw Hx. destruct (mutex_waiter s V Hmo m o ws x HV Hw) as (t & Ht & _ & Hm & _).
  by rewrite (ready_no_mutex x t) in Hm.
Qed.

(** No task is in the queues of two mutexes. *)
Lemma waiters_apart m b o o' ws ws' x :
  V !! m = Some (AHeld o ws) -> V !! b = Some (AHeld o' ws') -> x ∈ ws -> x ∈ ws' -> m = b.
Proof using Hmo.
  intros Hm Hb Hx Hx'. destruct (mutex_waiter s V Hmo m o ws x Hm Hx) as (t & Ht & _ & E & _).
  destruct (mutex_waiter s V Hmo b o' ws' x Hb Hx') as (t' & Ht' & _ & E' & _). congruence.
Qed.

Lemma owner_not_waiter m b o o' ws ws' : V !! m = Some (AHeld o ws) -> V !! b = Some (AHeld o' ws') -> o ∉ ws'.
Proof using Hmo.
  intros Hm Hb Hx. destruct (mo_owner _ _ Hmo m o ws Hm) as (t & Ht & Hn).
  destruct (mutex_waiter s V Hmo b o' ws' o Hb Hx) as (t' & Ht' & _ & E' & _). congruence.
Qed.

(** A ready task other than the running one is READY. *)
Lemma ready_iff x t : x <> c -> k_tasks s !! x = Some t -> (x ∈ rl <-> t_state t = RX_TASK_READY).
Proof using Hk Hcur Hmo.
  intros Hxc Ht. split.
  - intros Hx. destruct (ready_task _ _ _ _ Hk x Hx) as (? & ? & [?|Hr] & _); simplify_eq; [done|].
    pose proof (mo_running _ _ Hmo x t Ht Hr). congruence.
  - intros Hst. destruct (ko_place _ _ _ _ Hk x t Ht) as [?|[(a & v & ws & Hok & Hx)|[Hr _]]]; [done|exfalso..].
    + destruct Hok as [_ _ (sm & _ & _ & Hw)]. destruct (wt_states _ _ _ _ Hw x t Hx Ht) as [[] _]. by left.
    + apply Hr. by left.
Qed.

(** The caller takes a free mutex. *)
Lemma lock_free_ok m timeout :
  V !! m = Some AFree -> (forall b ws, V !! b <> Some (AHeld c ws)) ->
  exists s', rx_mutex_lock None (Some m) timeout s = Done OS_OK s' /\ k_curr s' = Some c /\
    kernel_ok idle all s' rl /\ mutexes_ok s' (<[m := AHeld c []]> V).
Proof using Hk Hcur Hmo.
  intros HV Hno. destruct (mo_rep _ _ Hmo m _ HV) as (mx & Hm & Hlk & Hnil).
  eexists. split; [by eapply lock_free_run|]. split; [done|]. split; [by apply kernel_ok_same|].
  pose proof (curr_ready _ _ _ _ _ Hk Hcur) as Hcr. destruct (ready_task _ _ _ _ Hk c Hcr) as (tc & Htc & _).
  apply (mutexes_move s V Hmo); try done.
  - eexists. split; [apply lookup_insert_eq|]. by apply mutex_held_free.
  - intros b Hb. norm. by rewrite lookup_insert_ne.
  - intros o ws [= <- <-]. split; [|by intros]. exists tc. split; [done|]. by apply (ready_no_mutex c).
  - intros x t b Ht Hb. split; [intros ->|by exists t].
    destruct (mo_wait _ _ Hmo x t m Ht Hb) as (_ & o & ws & ? & _). congruence.
  - intros x t. apply (mo_timer _ _ Hmo).
  - apply (mo_running _ _ Hmo).
Qed.

(** Nothing but the interrupt mask has changed. *)
Lemma crit_ok cr : kernel_ok idle all (set_k_critical cr s) rl /\ mutexes_ok (set_k_critical cr s) V.
Proof using Hk Hmo.
  split; [by apply kernel_ok_same|]. eapply (mutexes_quiet s V Hmo []); [by apply quiet_same_tasks|].
  by intros x t ?%elem_of_nil.
Qed.

(** The caller [c] has gone to sleep for the mutex [m] of [o], whose priority is now [p]. *)
Section Blocked.
Context (m o : positive) (ws : list positive) (to tc th : tcb) (p : Z) (h : positive) (l : list positive) (s1 : kst).
Context (HV : V !! m = Some (AHeld o ws)) (Hoc : o <> c) (Hto : k_tasks s !! o = Some to).
Context (Htc : k_tasks s !! c = Some tc) (Hnone : forall b ws', V !! b <> Some (AHeld c ws')).
Context (G : gave_up (set_k_tasks (<[o := set_t_prio p to]> (k_tasks s)) s) c (mutex_sleeper m tc)
  (rl ++ ws) h th l s1).
Context (Hin : forall x, x ∈ rl <-> x = c \/ x ∈ h :: l) (Hi : idle ∈ h :: l).
Context (Hrep : mutex_rep (switched h th s1) m (AHeld o (ws ++ [c]))).

Lemma blocked_same x : x ∉ rl ++ ws -> k_tasks (switched h th s1) !! x = <[o := set_t_prio p to]> (k_tasks s) !! x.
Proof using G Hin.
  intros Hx. pose proof Hx as [Hr _]%not_elem_of_app. apply (gave_up_same _ _ _ _ _ _ _ _ G); [| |done].
  - intros ->. apply Hr, Hin. by left.
  - intros ->. apply Hr, Hin. right. left.
Qed.

Lemma blocked_bond x : x <> c -> bond <$> k_tasks (switched h th s1) !! x = bond <$> k_tasks s !! x.
Proof using G Hto. intros Hx. rewrite (gave_up_steady _ _ _ _ _ _ _ _ G bond x Hx). by apply prio_only. Qed.

Lemma lock_blocked_kernel : k_sems s1 = k_sems s -> kernel_ok idle all (switched h th s1) (h :: l).
Proof using Hk Hcur Hmo HV Hto Htc G Hin Hi Hrep.
  intros Hsem. assert (HD : forall x, x ∈ rl ++ ws -> exists t, k_tasks s !! x = Some t /\ t_sem t = None).
  { intros x [Hx|Hx]%elem_of_app; [destruct (ready_task _ _ _ _ Hk x Hx) as (t & ? & _ & ?); by exists t|].
    destruct (mutex_waiter s V Hmo m o ws x HV Hx) as (t & ? & _ & _ & ?). by exists t. }
  apply (tasks_only_ok idle all s rl Hk _ _ (rl ++ ws)); try done.
  - apply G.
  - exists h. split; [done|left].
  - intros x Hx. rewrite blocked_same by done. by apply prio_only.
  - intros x t Hx Ht. destruct (HD x Hx) as (t0 & Ht0 & Hs0). destruct (decide (x = c)) as [->|Hxc].
    { rewrite (gave_up_self _ _ _ _ _ _ _ _ G) in Ht. simplify_eq. split; [done|]. right. by apply suspended_not_runnable. }
    destruct (bond_lookup _ _ x t (blocked_bond x Hxc) Ht) as (? & ? & -> & _). simplify_eq. split; [done|].
    apply elem_of_app in Hx as [[?|?]%Hin|Hx]; [done|by left|right].
    destruct Hrep as (mx & _ & [_ _ Hw _ _]). apply (wt_states _ _ _ _ Hw x t); [|done]. apply elem_of_app. by left.
  - intros x Hx. right. apply elem_of_app. by left.
  - intros x Hx. left. apply Hin. by right.
Qed.

Lemma lock_blocked_mutexes :
  (forall b, b <> m -> k_mutexes s1 !! b = k_mutexes s !! b) ->
  mutexes_ok (switched h th s1) (<[m := AHeld o (ws ++ [c])]> V).
Proof using Hk Hcur Hmo HV Hoc Hto Htc Hnone G Hin Hrep.
  intros Hoth. assert (Hcr : c ∈ rl) by (apply Hin; by left).
  destruct (ready_task _ _ _ _ Hk c Hcr) as (? & ? & Hrc & Hsc). simplify_eq.
  assert (Hself := gave_up_self _ _ _ _ _ _ _ _ G). apply (mutexes_move s V Hmo); try done.
  - intros b o' ws' x Hb HVb Hx. rewrite blocked_same.
    + rewrite lookup_insert_ne; [done|]. intros ->. by apply (owner_not_waiter m b x o' ws ws' HV HVb).
    + rewrite elem_of_app. intros [Hx'|Hx']; [by eapply waiter_not_ready|]. by apply Hb, (waiters_apart b m o' o ws' ws x).
  - intros b o' ws' Hb HVb. assert (Hoo : o' <> o) by (intros ->; by apply Hb, (mo_once _ _ Hmo b m o ws' ws)).
    assert (Hc' : o' <> c) by (intros ->; by destruct (Hnone b ws')).
    rewrite (gave_up_steady _ _ _ _ _ _ _ _ G duty o' Hc'). norm. by rewrite lookup_insert_ne.
  - intros o' ws' [= <- <-]. split.
    + pose proof (blocked_bond o Hoc) as E. rewrite Hto in E. cbn in E. apply fmap_Some in E as (t & Ht & E).
      exists t. split; [done|]. destruct (mo_owner _ _ Hmo m o ws HV) as (t0 & Ht0 & Hn). simplify_eq.
      unfold bond in E. congruence.
    + intros b ws' Hb HVb. by apply Hb, (mo_once _ _ Hmo b m o ws' ws).
  - intros x t b Ht Hb. destruct (decide (x = c)) as [->|Hxc].
    + rewrite Hself in Ht. injection Ht as <-. injection Hb as ->. split; [|done]. intros _. split; [done|].
      exists o, (ws ++ [c]).
      split; [done|]. apply elem_of_app. right. by left.
    + destruct (bond_lookup _ _ x t (blocked_bond x Hxc) Ht) as (t0 & Ht0 & Es & Em & _). rewrite Em in Hb.
      split; [intros ->|by exists t0]. destruct (mo_wait _ _ Hmo x t0 m Ht0 Hb) as (? & o' & ws' & ? & ?). simplify_eq.
      split; [congruence|]. exists o, (ws ++ [c]). split; [done|]. apply elem_of_app. by left.
  - intros x t Ht. destruct (decide (x = c)) as [->|Hxc].
    + rewrite Hself in Ht. simplify_eq. cbn. by apply (mo_timer _ _ Hmo c).
    + destruct (bond_lookup _ _ x t (blocked_bond x Hxc) Ht) as (t0 & Ht0 & _ & _ & ->). by apply (mo_timer _ _ Hmo x).
  - intros x t Ht Hr. destruct (decide (x = h)) as [->|Hxh]; [done|exfalso]. destruct (decide (x = c)) as [->|Hxc].
    + rewrite Hself in Ht. by simplify_eq.
    + destruct (gave_up_state _ _ _ _ _ _ _ _ G x t Hxc Hxh Ht) as (t1 & Ht1 & Est).
      pose proof (prio_only t_state (k_tasks s) o to p x ltac:(done) Hto) as E. cbn in Ht1. rewrite Ht1 in E.
      symmetry in E. apply fmap_Some in E as (t0 & Ht0 & E). pose proof (mo_running _ _ Hmo x t0 Ht0 ltac:(congruence)).
      congruence.
Qed.
End Blocked.

(** The caller waits for a mutex that another task holds. *)
Lemma lock_blocked_ok m o ws :
  V !! m = Some (AHeld o ws) -> (forall b ws', V !! b <> Some (AHeld c ws')) -> c <> idle ->
  exists s' rl', rx_mutex_lock None (Some m) OS_WAIT_FOREVER s = Switch s' (fun s2 => Done OS_OK s2) /\
    kernel_ok idle all s' rl' /\ mutexes_ok s' (<[m := AHeld o (ws ++ [c])]> V).
Proof using Hk Hcur Hmo.
  intros HV Hnone Hci. assert (Hoc : o <> c) by (intros ->; by destruct (Hnone m ws)).
  destruct (mo_rep _ _ Hmo m _ HV) as (mx & Hm & Hh).
  destruct (mo_owner _ _ Hmo m o ws HV) as (to & Hto & Hno).
  destruct (others_ready _ _ _ _ _ Hk Hcur Hci) as (l1 & l2 & h0 & l0 & Erl & Hl & Hi).
  pose proof (curr_ready _ _ _ _ _ Hk Hcur) as Hcr. destruct (ready_task _ _ _ _ Hk c Hcr) as (tc & Htc & _ & Hsc).
  pose proof (ko_ready _ _ _ _ Hk) as Hq. rewrite Erl in Hq.
  assert (Hrdy : o ∈ l1 ++ l2 <-> t_state to = RX_TASK_READY).
  { rewrite <- (ready_iff o to) by done. rewrite Erl, !elem_of_app, elem_of_cons. tauto. }
  edestruct (lock_block_run s m mx c tc l1 l2 o to ws None OS_WAIT_FOREVER)
    as (s1 & th & h & l & p & E & G & Hp & Hrep & Hsem & Hoth); [done|done|done|by rewrite Hl|done..|].
  rewrite <- Erl in G. rewrite <- Hl, <- Hp in Hi.
  assert (Hin : forall x, x ∈ rl <-> x = c \/ x ∈ h :: l).
  { intros x. rewrite Erl, Hp, !elem_of_app, elem_of_cons. tauto. }
  exists (switched h th s1), (h :: l). split; [done|].
  split; [by eapply lock_blocked_kernel|by eapply lock_blocked_mutexes].
Qed.

(** The caller [c] has given back the mutex [m]: it is at the priority [p] again, and the
    task [x], itself or the first that waits, has a new place in the ready queue. *)
Section Unlocked.
Context (m : positive) (ws : list positive) (tc : tcb) (p : Z) (x : positive) (tx' : tcb) (s' : kst).
Context (rl' : list positive) (a' : amutex).
Context (HV : V !! m = Some (AHeld c ws)) (Htc : k_tasks s !! c = Some tc) (Hx : x = c \/ x ∈ ws).
Context (Hrel : relinked (x :: rl) (delete x (<[c := set_t_prio p tc]> (k_tasks s))) (delete x (k_tasks s'))).
Context (Hx' : k_tasks s' !! x = Some tx') (Hbond : bond tx' = (None, None, None)).
Context (Hcur' : k_curr s' = Some c).

Lemma unlocked_same y : y ∉ x :: rl -> k_tasks s' !! y = k_tasks s !! y.
Proof using Hk Hcur Hrel.
  intros Hy. pose proof Hy as [Hyx Hyr]%not_elem_of_cons. rewrite (relinked_others_out _ _ _ _ _ Hrel Hyx Hy).
  rewrite lookup_insert_ne; [done|]. intros <-. by apply Hyr, (curr_ready _ _ _ _ _ Hk).
Qed.

Lemma unlocked_others y t' :
  y <> x -> k_tasks s' !! y = Some t' ->
  exists t, k_tasks s !! y = Some t /\ bond t' = bond t /\ t_state t' = t_state t.
Proof using Htc Hrel.
  intros Hy Ht'. assert (exists n t1, <[c := set_t_prio p tc]> (k_tasks s) !! y = Some t1 /\ t' = set_t_next n t1)
    as (n & t1 & Ht1 & ->).
  { destruct (Hrel y) as [E|(_ & t1 & n & E1 & E)]; rewrite !lookup_delete_ne in * by done.
    - exists (t_next t'), t'. by rewrite set_next_id, <- E.
    - exists n, t1. by simplify_eq. }
  rewrite lookup_insert in Ht1. case_decide; [subst y; simplify_eq; by exists tc|by exists t1].
Qed.

Lemma unlocked_kernel :
  k_sems s' = k_sems s -> ready_queue (k_tasks s') (k_ready s') rl' ->
  (forall y, y ∈ rl' <-> y = x \/ y ∈ rl) -> kernel_ok idle all s' rl'.
Proof using Hk Hcur Hmo HV Htc Hx Hrel Hx' Hbond Hcur'.
  intros Hsem Hq Hin. pose proof (curr_ready _ _ _ _ _ Hk Hcur) as Hcr.
  apply (one_moved_ok idle all s rl Hk s' rl' x tx'); try done.
  - exists c. split; [done|]. apply Hin. by right.
  - apply Hin. right. apply Hk.
  - intros y Hy. by rewrite unlocked_same.
  - intros y t Hy Ht. assert (is_Some (k_tasks s' !! y)) as [t' Ht'].
    { pose proof (relinked_steady bond _ _ _ y Hrel) as E. rewrite !lookup_delete_ne in E by done.
      rewrite (prio_only bond) in E by done. rewrite Ht in E. apply fmap_Some in E as (? & -> & _). done. }
    destruct (unlocked_others y t' Hy Ht') as (? & ? & E & _). simplify_eq. exists t'. split; [done|].
    unfold bond in E. congruence.
  - destruct Hx as [->|Hw]; [destruct (ready_task _ _ _ _ Hk c Hcr) as (t & ? & _ & ?); by exists t|].
    destruct (mutex_waiter s V Hmo m c ws x HV Hw) as (t & ? & _ & _ & ?). by exists t.
  - by injection Hbond.
  - left. apply Hin. by left.
  - intros y Hy. rewrite Hin. tauto.
Qed.

Lemma unlocked_mutexes :
  mutex_rep s' m a' -> (forall b, b <> m -> k_mutexes s' !! b = k_mutexes s !! b) ->
  (t_state tx' = RX_TASK_RUNNING -> x = c) ->
  (forall o ws', a' = AHeld o ws' -> o = x /\ x ∈ ws) ->
  (forall y, y ∈ ws -> y <> x -> exists o ws', a' = AHeld o ws' /\ y ∈ ws') ->
  mutexes_ok s' (<[m := a']> V).
Proof using Hk Hcur Hmo HV Htc Hx Hrel Hx' Hbond Hcur'.
  intros Hrep Hoth Hrun Ha Hrest. pose proof (curr_ready _ _ _ _ _ Hk Hcur) as Hcr. injection Hbond as Hb1 Hb2 Hb3.
  assert (Hnx : forall b o ws', b <> m -> V !! b = Some (AHeld o ws') -> o <> x /\ x ∉ ws').
  { intros b o ws' Hb HVb. destruct Hx as [->|Hw]; split.
    - intros ->. by apply Hb, (mo_once _ _ Hmo b m c ws' ws).
    - by apply (owner_not_waiter m b c o ws ws').
    - intros ->. by apply (owner_not_waiter b m x c ws' ws).
    - intros Hw'. by apply Hb, (waiters_apart b m o c ws' ws x). }
  apply (mutexes_move s V Hmo); try done.
  - intros b o ws' y Hb HVb Hy. apply unlocked_same. apply not_elem_of_cons.
    split; [intros ->; by apply (Hnx b o ws')|by apply (waiter_not_ready b o ws')].
  - intros b o ws' Hb HVb. assert (Hoc : o <> c) by (intros ->; by apply Hb, (mo_once _ _ Hmo b m c ws' ws)).
    pose proof (relinked_steady duty _ _ _ o Hrel) as E. destruct (Hnx b o ws' Hb HVb) as [Hox _].
    by rewrite !lookup_delete_ne, lookup_insert_ne in E by done.
  - intros o ws' ->. destruct (Ha o ws' eq_refl) as [-> Hw]. split; [by exists tx'|].
    intros b ws'' Hb HVb. by apply (owner_not_waiter b m x c ws'' ws).
  - intros y t b Ht Hb. assert (Hy : y <> x) by (intros ->; simplify_eq; congruence).
    destruct (unlocked_others y t Hy Ht) as (t0 & Ht0 & E & _). injection E as Es Em _.
    split; [intros ->|exists t0; split; [done|congruence]].
    destruct (mo_wait _ _ Hmo y t0 m Ht0 ltac:(congruence)) as (? & o & ws' & ? & ?). simplify_eq.
    split; [congruence|by apply Hrest].
  - intros y t Ht. destruct (decide (y = x)) as [->|Hy]; [by simplify_eq|].
    destruct (unlocked_others y t Hy Ht) as (t0 & Ht0 & E & _). injection E as _ _ ->. by apply (mo_timer _ _ Hmo y).
  - intros y t Ht Hr. destruct (decide (y = x)) as [->|Hy]; [simplify_eq; by rewrite Hrun|].
    destruct (unlocked_others y t Hy Ht) as (t0 & Ht0 & _ & E). rewrite Hcur', <- Hcur.
    apply (mo_running _ _ Hmo y t0 Ht0). congruence.
Qed.
End Unlocked.

Lemma unlock_ok m ws :
  V !! m = Some (AHeld c ws) ->
  exists s' rl', rx_mutex_unlock (Some m) s = Done OS_OK s' /\ k_curr s' = Some c /\
    kernel_ok idle all s' rl' /\ mutexes_ok s' (<[m := a_unlock (AHeld c ws)]> V).
Proof using Hk Hcur Hmo.
  intros HV. pose proof (curr_ready _ _ _ _ _ Hk Hcur) as Hcr.
  destruct (ready_task _ _ _ _ Hk c Hcr) as (tc & Htc & _ & Hsc).
  destruct (list_elem_of_split _ _ Hcr) as (l1 & l2 & Erl).
  pose proof (ko_ready _ _ _ _ Hk) as Hq. rewrite Erl in Hq.
  pose proof (mo_timer _ _ Hmo c tc Htc) as Htm. pose proof (ready_no_mutex c tc Hcr Htc) as Hnm.
  edestruct (unlock_run s m c tc l1 l2 ws) as (s' & rl' & E & Hrep & Hq' & Hp & Hc' & _ & Hsem & Hoth & Hws);
    [done|done|done|by apply Hmo| |].
  { intros w tw Hw Htw. unfold timer_stoppable. by rewrite (mo_timer _ _ Hmo w tw Htw). }
  exists s', rl'. split; [done|]. split; [done|]. rewrite <- Erl in Hp, Hws. destruct ws as [|w ws].
  - destruct (relinked_lookup _ _ _ c _ Hws (lookup_insert_eq _ _ _)) as [n Hn].
    apply (relinked_delete _ _ _ c) in Hws. apply (relinked_mono _ (c :: rl)) in Hws; [|set_solver].
    assert (Hin : forall y, y ∈ rl' <-> y = c \/ y ∈ rl) by (intros y; rewrite Hp; cbn; naive_solver).
    assert (Hb : bond (set_t_next n (set_t_prio (t_orig_prio tc) tc)) = (None, None, None)) by (unfold bond; cbn; congruence).
    split; [by eapply unlocked_kernel; eauto|]. eapply unlocked_mutexes; eauto; [done|].
    intros y ?%elem_of_nil. done.
  - destruct Hws as [(n & p & tw & Htw & Hw') Hrel].
    assert (Hin : forall y, y ∈ rl' <-> y = w \/ y ∈ rl) by (intros y; rewrite Hp; cbn; apply elem_of_cons).
    destruct (mutex_waiter s V Hmo m c (w :: ws) w HV) as (t & Ht & _ & _ & Hsw); [left|]. rewrite Htw in Ht. injection Ht as <-.
    assert (Hb : bond (handed n p tw) = (None, None, None)) by (unfold bond; cbn; congruence).
    assert (Hx : w = c \/ w ∈ w :: ws) by (right; left).
    split; [by eapply unlocked_kernel; eauto|]. eapply unlocked_mutexes; eauto; [done|..].
    + intros o ws' [= <- <-]. split; [done|left].
    + intros y [->|Hy]%elem_of_cons Hne; [done|]. by exists w, ws.
Qed.
End Calls.

(** ** Interrupts *)

(** The handler has returned; when it asks for it, the running task is preempted. *)
Lemma sig_handler_run s num eip i f s1 :
  k_irqs s !! num = Some i -> irq_handler i = Some (I_drv f) ->
  rx_semaphore_post (Some f)
    (set_k_irq_counter (u32 (k_irq_counter s + 1)) (set_k_context 1 s)) = Done OS_OK s1 ->
  forall c tc, k_curr s = Some c -> k_tasks s1 !! c = Some tc ->
  interrupt num eip s
    = if decide (k_need_resched s1 <> 0) then
        (rx_sched ;;; ret OS_OK)
          (set_k_context 0 (set_k_tasks (<[c := set_t_preempt eip (set_t_state RX_TASK_READY tc)]> (k_tasks s1))
            (set_k_need_resched 0 s1)))
      else Done OS_OK (set_k_context 0 s1).
Proof.
  intros Hi Hh E c tc Hc Htc. unfold interrupt, sig_handler.
  assert (Eirq : __rx_irq_handler (run_irq post_drv 1 1 0 None) num (set_k_context 1 s) = Done tt s1).
  { unfold __rx_irq_handler. step. erewrite ld_irq_run by exact Hi. rewrite Hh, decide_True by (by left).
    cbn [run_irq]. unfold post_drv. unfold bind at 1. unfold bind at 1. by rewrite E. }
  unfold bind at 1. step. step. erewrite bind_run by exact Eirq. step. case_decide as Hr; [|done].
  step. rewrite Hc. do 3 step. by rewrite insert_insert_eq.
Qed.

Lemma interrupt_ok idle all s rl c num eip :
  kernel_ok idle all s rl -> k_curr s = Some c -> may_interrupt s num ->
  ends_well idle all c (quiet [] s) (interrupt num eip s).
Proof.
  intros Hk Hc (i & f & Hi & Hh & Hf).
  set (s0 := set_k_irq_counter (u32 (k_irq_counter s + 1)) (set_k_context 1 s)).
  assert (Hk0 : kernel_ok idle all s0 rl) by (by eapply kernel_ok_same).
  destruct (post_run_ok idle all s0 rl c Hk0 Hc f Hf) as (s1 & E & Hc1 & (rl1 & Hk1) & Hq1).
  assert (Hq0 : quiet [] s s1) by (eapply quiet_trans; [|exact Hq1]; by apply quiet_same_tasks).
  pose proof (curr_ready _ _ _ _ _ Hk1 Hc1) as Hcr. destruct (ready_task _ _ _ _ Hk1 c Hcr) as (tc & Htc & Hrc & Hsc).
  rewrite (sig_handler_run s num eip i f s1 Hi Hh E c tc Hc Htc). case_decide as Hr; cycle 1.
  { split; [done|]. split; [exists rl1; by eapply kernel_ok_same|].
    eapply quiet_trans; [exact Hq0|]. by apply quiet_same_tasks. }
  set (tc' := set_t_preempt eip _). set (s2 := set_k_context 0 _).
  assert (Htc2 : k_tasks s2 !! c = Some tc') by apply lookup_insert_eq.
  assert (Hq2 : ready_queue (k_tasks s2) (k_ready s2) rl1).
  { eapply (ready_queue_in (k_tasks s1)); [exact Htc| | | |apply Hk1]; [done|done|by left]. }
  assert (Hk2 : kernel_ok idle all s2 rl1).
  { eapply (one_moved_ok idle all s1 rl1 Hk1 s2 rl1 c tc'); try done; [by exists c|apply Hk1| | |by exists tc|by left].
    - intros y [Hy _]%not_elem_of_cons. unfold s2. norm. by rewrite lookup_insert_ne.
    - intros y t Hy Ht. exists t. unfold s2. norm. by rewrite lookup_insert_ne. }
  assert (Hqt : quiet [] s s2).
  { eapply quiet_trans; [exact Hq0|]. eapply (quiet_moved [] s1 s2 c tc tc' []); try done; [tauto| |].
    - unfold s2. norm. rewrite delete_insert_eq. apply relinked_refl.
    - intros y t ?%elem_of_nil. done. }
  eapply ends_well_mono; [|exact (yield_ok idle all s2 rl1 c Hk2 Hc1)].
  intros s3 H3. eapply quiet_trans; [exact Hqt|]. apply H3. intros t Ht. rewrite Htc2 in Ht. by injection Ht as <-.
Qed.

(** ** Who is inside *)

(** The tasks inside a mutex own it and have no call pending on one; an owner is inside or
    about to return from its lock, and the tasks of the queue are still in theirs. *)
Record inside_ok (V : gmap positive amutex) (sv : saved_calls) (ins : gset (positive * positive)) : Prop := {
  io_inside : forall m c, (m, c) ∈ ins ->
    (exists ws, V !! m = Some (AHeld c ws)) /\ forall b rest, sv !! c <> Some (Some (K_lock b), rest);
  io_owner : forall m o ws, V !! m = Some (AHeld o ws) ->
    (m, o) ∈ ins \/ exists rest, sv !! o = Some (Some (K_lock m), rest);
  io_wait : forall m o ws x, V !! m = Some (AHeld o ws) -> x ∈ ws ->
    exists rest, sv !! x = Some (Some (K_lock m), rest);
  io_saved : forall x m rest, sv !! x = Some (Some (K_lock m), rest) ->
    exists o ws, V !! m = Some (AHeld o ws) /\ x ∈ o :: ws;
}.

Section Inside.
Context (V : gmap positive amutex) (sv : saved_calls) (ins : gset (positive * positive)) (c : positive).
Context (Hio : inside_ok V sv ins).

(** A task that runs its own code and is inside no mutex owns none. *)
Lemma owns_none : sv !! c = None -> (forall b, (b, c) ∉ ins) -> forall b ws, V !! b <> Some (AHeld c ws).
Proof using Hio.
  intros Hsv Hins b ws Hb. destruct (io_owner _ _ _ Hio b c ws Hb) as [?|[rest ?]]; [by destruct (Hins b)|congruence].
Qed.

Lemma inside_take m :
  sv !! c = None -> V !! m = Some AFree -> inside_ok (<[m := AHeld c []]> V) sv ({[ (m, c) ]} ∪ ins).
Proof using Hio.
  intros Hsv HV. constructor.
  - intros b x. rewrite elem_of_union, elem_of_singleton. intros [[= -> ->]|Hb].
    + split; [exists []; by rewrite lookup_insert_eq|]. congruence.
    + destruct (io_inside _ _ _ Hio b x Hb) as [[ws Hws] ?]. split; [|done]. exists ws.
      rewrite lookup_insert_ne; [done|]. congruence.
  - intros b o ws. rewrite lookup_insert, elem_of_union, elem_of_singleton.
    case_decide; [subst b; intros [= <- <-]; by left; left|].
    intros Hb. destruct (io_owner _ _ _ Hio b o ws Hb); [by left; right|by right].
  - intros b o ws x. rewrite lookup_insert. case_decide; [intros [= <- <-] ?%elem_of_nil; done|]. apply Hio.
  - intros x b rest Hx. destruct (io_saved _ _ _ Hio x b rest Hx) as (o & ws & Hb & ?). exists o, ws.
    split; [|done]. rewrite lookup_insert_ne; [done|]. congruence.
Qed.

Lemma inside_queue m o ws rest :
  sv !! c = None -> (forall b, (b, c) ∉ ins) -> V !! m = Some (AHeld o ws) ->
  inside_ok (<[m := AHeld o (ws ++ [c])]> V) (<[c := (Some (K_lock m), rest)]> sv) ins.
Proof using Hio.
  intros Hsv Hins HV. assert (Hold : forall x y, sv !! x = Some y -> <[c := (Some (K_lock m), rest)]> sv !! x = Some y).
  { intros x y Hx. rewrite lookup_insert_ne; [done|]. congruence. }
  constructor.
  - intros b x Hb. assert (Hxc : c <> x) by (intros <-; by apply (Hins b)).
    destruct (io_inside _ _ _ Hio b x Hb) as [[ws' Hws] ?]. rewrite (lookup_insert_ne sv) by done. split; [|done].
    destruct (decide (m = b)) as [<-|]; [|exists ws'; by rewrite lookup_insert_ne]. simplify_eq.
    exists (ws ++ [c]). by rewrite lookup_insert_eq.
  - intros b o' ws' Hb. assert (exists ws'', V !! b = Some (AHeld o' ws'')) as [ws'' Hb'].
    { rewrite lookup_insert in Hb. case_decide; [subst b; simplify_eq|]; eauto. }
    destruct (io_owner _ _ _ Hio b o' ws'' Hb') as [?|[rest' ?]]; [by left|right; eauto].
  - intros b o' ws' x. rewrite lookup_insert. case_decide as Hb.
    + subst b. intros [= <- <-] [Hx| ->%list_elem_of_singleton]%elem_of_app; [|exists rest; by rewrite lookup_insert_eq].
      destruct (io_wait _ _ _ Hio m o ws x HV Hx) as [rest' ?]. eauto.
    + intros Hb' Hx. destruct (io_wait _ _ _ Hio b o' ws' x Hb' Hx) as [rest' ?]. eauto.
  - intros x b rest'. rewrite lookup_insert. case_decide as Hx.
    + subst x. intros [= <- <-]. exists o, (ws ++ [c]). rewrite lookup_insert_eq. split; [done|]. set_solver.
    + intros Hx'. destruct (io_saved _ _ _ Hio x b rest' Hx') as (o' & ws' & Hb & ?).
      destruct (decide (m = b)) as [<-|]; [|exists o', ws'; by rewrite lookup_insert_ne]. simplify_eq.
      exists o, (ws ++ [c]). rewrite lookup_insert_eq. split; [done|]. set_solver.
Qed.

Lemma inside_release m ws :
  sv !! c = None -> V !! m = Some (AHeld c ws) ->
  inside_ok (<[m := a_unlock (AHeld c ws)]> V) sv (ins ∖ {[ (m, c) ]}).
Proof using Hio.
  intros Hsv HV. constructor.
  - intros b x [Hb Hne]%elem_of_difference. destruct (io_inside _ _ _ Hio b x Hb) as [[ws' Hws] ?]. split; [|done].
    exists ws'. rewrite lookup_insert_ne; [done|]. intros <-. rewrite HV in Hws. simplify_eq. set_solver.
  - intros b o ws'. rewrite lookup_insert. case_decide as Hb.
    + subst b. destruct ws as [|w ws]; [done|]. intros [= <- <-]. right. apply (io_wait _ _ _ Hio m c (w :: ws)); [done|left].
    + intros Hb'. destruct (io_owner _ _ _ Hio b o ws' Hb') as [?|?]; [left|by right].
      apply elem_of_difference. set_solver.
  - intros b o ws' x. rewrite lookup_insert. case_decide as Hb; [|apply Hio]. subst b.
    destruct ws as [|w ws]; [done|]. intros [= <- <-] Hx. apply (io_wait _ _ _ Hio m c (w :: ws)); [done|by right].
  - intros x b rest Hx. destruct (io_saved _ _ _ Hio x b rest Hx) as (o & ws' & Hb & Hin).
    destruct (decide (m = b)) as [<-|]; [|exists o, ws'; by rewrite lookup_insert_ne]. rewrite HV in Hb. simplify_eq.
    rewrite lookup_insert_eq. apply elem_of_cons in Hin as [->|Hin]; [congruence|].
    destruct ws' as [|w ws']; [by apply elem_of_nil in Hin|]. by exists w, ws'.
Qed.

(** A call that is not a lock is saved. *)
Lemma inside_save k rest :
  sv !! c = None -> (forall m, k <> Some (K_lock m)) -> inside_ok V (<[c := (k, rest)]> sv) ins.
Proof using Hio.
  intros Hsv Hk. constructor.
  - intros m x Hx. destruct (io_inside _ _ _ Hio m x Hx) as [? ?]. split; [done|]. intros b rest'.
    rewrite lookup_insert. case_decide; [|done]. intros [= ? _]. by apply (Hk b).
  - intros m o ws Hm. destruct (io_owner _ _ _ Hio m o ws Hm) as [?|[rest' ?]]; [by left|right].
    exists rest'. rewrite lookup_insert_ne; [done|]. congruence.
  - intros m o ws x Hm Hx. destruct (io_wait _ _ _ Hio m o ws x Hm Hx) as [rest' ?].
    exists rest'. rewrite lookup_insert_ne; [done|]. congruence.
  - intros x m rest'. rewrite lookup_insert. case_decide; [intros [= ? _]; by destruct (Hk m)|]. apply Hio.
Qed.

(** A task that is in no queue goes on with its call. *)
Lemma inside_return k rest :
  sv !! c = Some (k, rest) -> (forall m o ws, V !! m = Some (AHeld o ws) -> c ∉ ws) ->
  (forall m, k <> Some (K_trylock m) /\ k <> Some (K_unlock m)) ->
  inside_ok V (delete c sv) (inside_after k c OS_OK ins).
Proof using Hio.
  intros Hsv Hnw Hk. unfold inside_after. rewrite decide_True by done.
  set (ins' := match k with Some _ => _ | None => _ end).
  assert (Hins : forall m x, (m, x) ∈ ins' <-> (m, x) ∈ ins \/ (x = c /\ k = Some (K_lock m))).
  { intros m x. unfold ins'. destruct k as [[k|b|b|b]|]; try (destruct (Hk b); done); set_solver. }
  assert (Hothers : forall x y, x <> c -> delete c sv !! x = y <-> sv !! x = y).
  { intros x y Hx. by rewrite lookup_delete_ne. }
  constructor.
  - intros m x [Hx|[-> ->]]%Hins.
    + destruct (io_inside _ _ _ Hio m x Hx) as [? Hno]. split; [done|]. intros b rest' [_ ?]%lookup_delete_Some. by eapply Hno.
    + split; [|intros b rest'; by rewrite lookup_delete_eq].
      destruct (io_saved _ _ _ Hio c m rest Hsv) as (o & ws & Hm & Hin). exists ws.
      apply elem_of_cons in Hin as [->|Hin]; [done|]. by destruct (Hnw m o ws Hm).
  - intros m o ws Hm. rewrite Hins. destruct (io_owner _ _ _ Hio m o ws Hm) as [?|[rest' Hr]]; [by left; left|].
    destruct (decide (o = c)) as [->|]; [|right; exists rest'; by apply Hothers]. simplify_eq. by left; right.
  - intros m o ws x Hm Hx. destruct (io_wait _ _ _ Hio m o ws x Hm Hx) as [rest' Hr]. exists rest'.
    apply Hothers; [|done]. intros ->. by apply (Hnw m o ws).
  - intros x m rest' [_ ?]%lookup_delete_Some. by eapply Hio.
Qed.
End Inside.

(** ** Every reachable state *)

(** What is left of a call only returns, and a lock that goes on has been granted. *)
Definition rest_ok (k : option mcall) (rest : kst -> outcome kst Z) : Prop :=
  (forall m, k <> Some (K_trylock m) /\ k <> Some (K_unlock m)) /\
  forall s, exists r, rest s = Done r s /\ forall m, k = Some (K_lock m) -> r = OS_OK.

Definition locks_ok (s : kst) (sv : saved_calls) (ins : gset (positive * positive)) : Prop :=
  exists V, mutexes_ok s V /\ inside_ok V sv ins.

Definition lmachine_ok (idle : positive) (all : gset positive) (M : lmachine) : Prop :=
  (exists rl, kernel_ok idle all (lm_kernel M) rl) /\
  locks_ok (lm_kernel M) (lm_saved M) (lm_inside M) /\
  (forall x k rest, lm_saved M !! x = Some (k, rest) -> rest_ok k rest).

(** A call of the task [c] ends well. *)
Definition mcall_ends (idle : positive) (all : gset positive) (c : positive) (sv : saved_calls)
    (ins : gset (positive * positive)) (k : option mcall) (o : outcome kst Z) : Prop :=
  match o with
  | Done r s' => (exists rl', kernel_ok idle all s' rl') /\ locks_ok s' sv (inside_after k c r ins)
  | Switch s' rest => (exists rl', kernel_ok idle all s' rl') /\
      locks_ok s' (<[c := (k, rest)]> sv) ins /\ rest_ok k rest
  | Crash _ => False
  end.

Section Steps.
Context (idle : positive) (all : gset positive) (s : kst) (rl : list positive) (c : positive).
Context (V : gmap positive amutex) (sv : saved_calls) (ins : gset (positive * positive)).
Context (Hk : kernel_ok idle all s rl) (Hcur : k_curr s = Some c) (Hsv : sv !! c = None).
Context (Hmo : mutexes_ok s V) (Hio : inside_ok V sv ins).

Lemma quiet_ends k moved o :
  (k = None \/ exists k', k = Some (K_sys k')) ->
  (forall x t, x ∈ moved -> k_tasks s !! x = Some t -> t_mutex t = None) ->
  ends_well idle all c (quiet moved s) o -> mcall_ends idle all c sv ins k o.
Proof using Hmo Hio Hsv.
  intros Hks Hmoved. assert (Hno : forall r, inside_after k c r ins = ins).
  { intros r. unfold inside_after. destruct Hks as [->|[k' ->]]; by case_decide. }
  assert (Hkm : forall m, k <> Some (K_lock m) /\ k <> Some (K_trylock m) /\ k <> Some (K_unlock m)).
  { intros m. by destruct Hks as [->|[k' ->]]. }
  destruct o as [r s'|e|s' rest]; cbn; [|done|].
  - intros (_ & Hk' & Hq). split; [done|]. exists V. rewrite Hno. split; [by eapply mutexes_quiet|done].
  - intros (Hk' & Hq & Hr). split; [done|]. split.
    + exists V. split; [by eapply mutexes_quiet|]. apply inside_save; [done..|]. intros m. apply Hkm.
    + split; [intros m; split; apply (Hkm m)|]. intros s2. destruct (Hr s2) as [r Er]. exists r. split; [done|].
      intros m ->. by destruct (Hkm m).
Qed.

(** The mutex [m], with what the caller does not own. *)
Lemma take_ends m timeout k :
  V !! m = Some AFree -> (forall b, (b, c) ∉ ins) -> k = K_lock m \/ k = K_trylock m ->
  mcall_ends idle all c sv ins (Some k) (rx_mutex_lock None (Some m) timeout s).
Proof using Hk Hcur Hsv Hmo Hio.
  intros HV Hins Hkm. destruct (lock_free_ok idle all s rl c V Hk Hcur Hmo m timeout HV) as (s' & E & _ & Hk' & Hmo').
  { by eapply owns_none. }
  rewrite E. cbn. split; [by exists rl|]. exists (<[m := AHeld c []]> V). split; [done|].
  assert (Ei : inside_after (Some k) c OS_OK ins = {[ (m, c) ]} ∪ ins) by (by destruct Hkm as [->| ->]).
  rewrite Ei. by apply inside_take.
Qed.

Lemma lock_ends m :
  c <> idle -> is_Some (k_mutexes s !! m) -> (forall b, (b, c) ∉ ins) ->
  mcall_ends idle all c sv ins (Some (K_lock m)) (do_mcall (K_lock m) s).
Proof using Hk Hcur Hsv Hmo Hio.
  intros Hci Hm Hins. destruct (mo_dom _ _ Hmo m Hm) as [[|o ws] HV]; cbn [do_mcall]; [apply take_ends; tauto|].
  destruct (lock_blocked_ok idle all s rl c V Hk Hcur Hmo m o ws HV) as (s' & rl' & E & Hk' & Hmo'); [by eapply owns_none|done|].
  rewrite E. cbn. split; [by exists rl'|]. split.
  - eexists. split; [done|]. by apply inside_queue.
  - split; [done|]. intros s2. by exists OS_OK.
Qed.

Lemma trylock_ends m :
  is_Some (k_mutexes s !! m) -> (forall b, (b, c) ∉ ins) ->
  mcall_ends idle all c sv ins (Some (K_trylock m)) (do_mcall (K_trylock m) s).
Proof using Hk Hcur Hsv Hmo Hio.
  intros Hm Hins. destruct (mo_dom _ _ Hmo m Hm) as [[|o ws] HV]; cbn [do_mcall]; [apply take_ends; tauto|].
  destruct (mo_rep _ _ Hmo m _ HV) as (mx & Hmx & Hh).
  rewrite (lock_refused_run s m mx None Hmx (mh_lock _ _ _ _ _ Hh)). cbn.
  destruct (crit_ok idle all s rl V Hk Hmo (crit_out s)) as [? ?]. split; [by exists rl|]. by exists V.
Qed.

Lemma unlock_ends m :
  is_Some (k_mutexes s !! m) -> mcall_ends idle all c sv ins (Some (K_unlock m)) (do_mcall (K_unlock m) s).
Proof using Hk Hcur Hsv Hmo Hio.
  intros Hm. destruct (mo_dom _ _ Hmo m Hm) as [a HV]. destruct (mo_rep _ _ Hmo m _ HV) as (mx & Hmx & Ha).
  destruct (crit_ok idle all s rl V Hk Hmo (crit_out s)) as [Hk' Hmo']. cbn [do_mcall]. destruct a as [|o ws].
  - destruct Ha as [Hlk _]. rewrite (unlock_free_run s m mx Hmx Hlk). cbn. split; [by exists rl|]. exists V.
    split; [done|]. change (inside_ok V sv (ins ∖ {[ (m, c) ]})). rewrite difference_disjoint_L; [done|]. apply disjoint_singleton_r. intros Hin.
    destruct (io_inside _ _ _ Hio m c Hin) as [[ws ?] _]. congruence.
  - destruct (decide (o = c)) as [->|Hoc].
    + destruct (unlock_ok idle all s rl c V Hk Hcur Hmo m ws HV) as (s' & rl' & E & _ & Hk2 & Hmo2).
      rewrite E. cbn [mcall_ends]. split; [by exists rl'|]. eexists. split; [exact Hmo2|]. by apply inside_release.
    + destruct (mo_owner _ _ Hmo m o ws HV) as (to & Hto & _).
      destruct (ready_task _ _ _ _ Hk c (curr_ready _ _ _ _ _ Hk Hcur)) as (tc & Htc & _).
      rewrite (unlock_illegal_run s m mx o to c tc); [|done|apply Ha|apply Ha|done..]. cbn.
      split; [by exists rl|]. by exists V.
Qed.

Lemma mcall_ok k : may idle s ins c k -> mcall_ends idle all c sv ins (Some k) (do_mcall k s).
Proof using Hk Hcur Hsv Hmo Hio.
  destruct k as [k|m|m|m]; cbn [may].
  - intros (Ha & Hy & Hmoved). apply (quiet_ends _ (moved_by k)); [by right; exists k|done|].
    eapply ends_well_mono; [|exact (call_ok idle all s rl c Hk Hcur k Ha)]. auto.
  - intros (? & ? & ?). by apply lock_ends.
  - intros (? & ?). by apply trylock_ends.
  - apply unlock_ends.
Qed.

Lemma interrupt_ends num eip : may_interrupt s num -> mcall_ends idle all c sv ins None (interrupt num eip s).
Proof using Hk Hcur Hsv Hmo Hio.
  intros Hi. apply (quiet_ends _ []); [by left|by intros x t ?%elem_of_nil|]. by eapply interrupt_ok.
Qed.
End Steps.

Lemma lstep_ok idle all M M' : lmachine_ok idle all M -> lstep idle M M' -> lmachine_ok idle all M'.
Proof.
  intros ([rl Hk] & (V & Hmo & Hio) & Hsv) Hst.
  assert (Hsaved : forall (sv : saved_calls) c k0 rest0, (forall x k rest, sv !! x = Some (k, rest) -> rest_ok k rest) ->
    rest_ok k0 rest0 -> forall x k rest, <[c := (k0, rest0)]> sv !! x = Some (k, rest) -> rest_ok k rest).
  { intros sv c k0 rest0 Hall Hr x k rest. rewrite lookup_insert. case_decide; [by intros [= <- <-]|apply Hall]. }
  destruct Hst as [s sv ins c k r s' Hc Hn Ha E|s sv ins c k s' rest Hc Hn Ha E|s sv ins c num eip r s' Hc Hn Ha E
    |s sv ins c num eip s' rest Hc Hn Ha E|s sv ins c k rest r s' Hc Hn E]; cbn [lm_kernel lm_saved lm_inside] in *.
  - pose proof (mcall_ok idle all s rl c V sv ins Hk Hc Hn Hmo Hio k Ha) as He. rewrite E in He. by destruct He.
  - pose proof (mcall_ok idle all s rl c V sv ins Hk Hc Hn Hmo Hio k Ha) as He. rewrite E in He.
    destruct He as (? & ? & ?). split; [done|]. split; [done|]. by apply Hsaved.
  - pose proof (interrupt_ends idle all s rl c V sv ins Hk Hc Hn Hmo Hio num eip Ha) as He. rewrite E in He.
    destruct He as [? Hl]. unfold inside_after in Hl. by case_decide.
  - pose proof (interrupt_ends idle all s rl c V sv ins Hk Hc Hn Hmo Hio num eip Ha) as He. rewrite E in He.
    destruct He as (? & ? & ?). split; [done|]. split; [done|]. by apply Hsaved.
  - destruct (Hsv c k rest Hn) as [Hkm Hr]. destruct (Hr s) as (r' & E' & Hok). rewrite E in E'. simplify_eq.
    split; [by exists rl|]. split; [|cbn; intros x k' rest' [_ ?]%lookup_delete_Some; by eapply Hsv].
    exists V. split; [done|]. cbn.
    assert (Ei : inside_after k c r' ins = inside_after k c OS_OK ins).
    { unfold inside_after. destruct k as [[k|m|m|m]|]; try (destruct (Hkm m); done); try (by repeat case_decide).
      by rewrite (Hok m eq_refl). }
    rewrite Ei. eapply inside_return; [done..| |done]. intros m o ws Hm Hw.
    by apply (waiter_not_ready idle all s rl V Hk Hmo m o ws c Hm Hw), (curr_ready _ _ _ _ _ Hk).
Qed.

Lemma lreachable_ok idle all M0 M : lmachine_ok idle all M0 -> rtc (lstep idle) M0 M -> lmachine_ok idle all M.
Proof. intros Hok Hr. induction Hr as [|M1 M2 M3 Hst _ IH]; [done|]. apply IH. by eapply lstep_ok. Qed.



(** ** An example

    Task 1 of [sample] runs, task 3 is the idle one; the mutex 7 is free, and the driver of
    interrupt 3 posts the semaphore 8. *)
Definition sample_locks : kst :=
  set_k_irqs {[ 3 := mk_irq [] (Some (I_drv 8)) 0 0 None ]}
    (set_k_mutexes {[ 7%positive := mk_mutex RX_MUTEX_UNLOCKED None None None ]} (sample_sem 0 None)).
Definition sample_lmachine : lmachine := mk_lmachine sample_locks ∅ ∅.

Lemma sample_lmachine_ok : lmachine_ok 3 sample_all sample_lmachine.
Proof.
  destruct sample_machine_ok as [[rl Hk] _]. split; [exists rl; by eapply kernel_ok_same|]. split; [|done].
  assert (Hts : map_Forall (fun x t => t_mutex t = None /\ t_timer t = None /\
    (t_state t = RX_TASK_RUNNING -> x = 1%positive)) tasks3)
    by (apply (bool_decide_unpack _); vm_compute; exact I).
  exists {[ 7%positive := AFree ]}. split; constructor; try done.
  - intros m a [<- <-]%lookup_singleton_Some. by eexists.
  - intros m [mx Hm]. change (({[ 7%positive := mk_mutex RX_MUTEX_UNLOCKED None None None ]} : gmap positive mutex) !! m
      = Some mx) in Hm. apply lookup_singleton_Some in Hm as [<- _]. by rewrite lookup_singleton_eq.
  - by intros m o ws [_ ?]%lookup_singleton_Some.
  - by intros m b o ws ws' [_ ?]%lookup_singleton_Some.
  - intros x t m Ht Hm. destruct (Hts x t Ht) as (? & _). congruence.
  - intros x t Ht. by destruct (Hts x t Ht) as (_ & ? & _).
  - intros x t Ht Hr. destruct (Hts x t Ht) as (_ & _ & ->); done.
  - by intros m o ws [_ ?]%lookup_singleton_Some.
  - by intros m o ws x [_ ?]%lookup_singleton_Some.
Qed.

(** Task 1 locks the mutex and waits for the interrupt, task 2 waits for the mutex, the
    idle task runs, and the interrupt brings task 1 back into its critical section. *)
Definition lrun (o : outcome kst Z) : kst := match o with Done _ s | Switch s _ => s | Crash _ => sample_locks end.
Definition path1 : kst := lrun (do_mcall (K_lock 7) sample_locks).
Definition path2 : kst := lrun (do_mcall (K_sys (C_wait 8)) path1).
Definition path3 : kst := lrun (do_mcall (K_lock 7) path2).
Definition path4 : kst := lrun (interrupt 3 77 path3).

Lemma sample_path :
  exists rest1 rest2 rest3,
    rtc (lstep 3) sample_lmachine
      (mk_lmachine path4 (<[3%positive := (None, rest3)]> (<[2%positive := (Some (K_lock 7), rest2)]>
        (<[1%positive := (Some (K_sys (C_wait 8)), rest1)]> ∅))) {[ (7, 1)%positive ]}).
Proof.
  assert (Hother : forall b, (b, 2%positive) ∉ ({[ (7, 1)%positive ]} : gset (positive * positive))).
  { intros b Hb%elem_of_singleton. congruence. }
  eexists _, _, _.
  eapply rtc_l; [eapply (ls_return 3 _ _ _ 1 (K_lock 7) OS_OK path1); [done|done| |by vm_compute]|].
  { split; [done|]. split; [by eexists|]. set_solver. }
  change (inside_after _ _ _ _) with ({[ (7, 1)%positive ]} ∪ ∅ : gset (positive * positive)). rewrite union_empty_r_L.
  eapply rtc_l; [eapply (ls_switch 3 _ _ _ 1 (K_sys (C_wait 8)) path2); [by vm_compute|done| |vm_compute; reflexivity]|].
  { split; [by split; [|vm_compute; eexists]|]. split; [done|]. by intros x t ?%elem_of_nil. }
  eapply rtc_l; [eapply (ls_switch 3 _ _ _ 2 (K_lock 7) path3); [by vm_compute|done| |vm_compute; reflexivity]|].
  { split; [done|]. split; [by vm_compute; eexists|]. exact Hother. }
  eapply rtc_l; [eapply (ls_preempt 3 _ _ _ 3 3 77 path4); [by vm_compute|done| |vm_compute; reflexivity]|].
  { exists (mk_irq [] (Some (I_drv 8)) 0 0 None), 8%positive. split; [by vm_compute|]. split; [done|]. by vm_compute; eexists. }
  apply rtc_refl.
Qed.


