(* ===== verification/Typing.v ===== *)
(** * The types of the kernel's pointers

    Every pointer field of the kernel's structures is NULL or the address of an object of
    the type the headers declare for it, and stays so: a state is [typed] if its pointers
    are, and a function is if it leads from typed states to typed states, returns a result
    of its type and follows no pointer to an object that is not there.  The file has a rule
    for each construct of the code, the types of the functions of src/kernel, found by the
    tactic [typing] with the rules, and the theorem on sequences of calls.

    A typed function may still fault on a NULL pointer, outside of a buffer or of a table,
    or run for ever; where it does not, the theorems of the other files say so.  The block
    pools are not among the functions here, since they keep pointers of two types in one
    field, nor is the event thread, which reads a pointer out of a message. *)

From stdpp Require Import base gmap list.
From Stdlib Require Import ZArith.
From S2P Require Import Prelude Mem State Samples Port ReadyQueue Sched TaskQueue Task Timer.
From S2P Require Import Mutex Semaphore Queue Wait Tasklet Event Irq Tick.
#[local] Open Scope Z_scope.
#[local] Open Scope rosx_scope.

(** ** Typed states *)

(** The addresses of the objects of each type. *)
Record world := mk_world {
  w_task : gset positive;
  w_timer : gset positive;
  w_mutex : gset positive;
  w_sem : gset positive;
  w_event : gset positive;
  w_wq : gset positive;
  w_mq : gset positive;
  w_bpool : gset positive;
  w_tasklet : gset positive;
}.

(** A pointer to one of the objects [A], or NULL. *)
Definition points (A : gset positive) (p : ptr) : Prop := forall a, p = Some a -> a ∈ A.

Section Types.
Context (w : world).

Record task_typed (t : tcb) : Prop := {
  ty_t_timer : points (w_timer w) (t_timer t);
  ty_t_sem : points (w_sem w) (t_sem t);
  ty_t_mutex : points (w_mutex w) (t_mutex t);
  ty_t_event : points (w_event w) (t_event t);
  ty_t_wq : points (w_wq w) (t_wq t);
  ty_t_mq : points (w_mq w) (t_mq t);
  ty_t_bpool : points (w_bpool w) (t_bpool t);
  ty_t_next : points (w_task w) (t_next t);
  ty_t_list : points (w_task w) (t_list t);
}.

(** The kernel's own handlers get the waiting task as their argument; what an
    application's handler gets is the application's affair. *)
Definition priv_typed (h : option timer_handler) (priv : ptr) : Prop :=
  match h with
  | Some H_mutex | Some H_sem | Some H_wait => points (w_task w) priv
  | _ => True
  end.

Record timer_typed (t : timer_list) : Prop := {
  ty_tm_priv : priv_typed (tm_handler t) (tm_priv t);
  ty_tm_task : points (w_task w) (tm_task t);
  ty_tm_next : points (w_timer w) (tm_next t);
  ty_tm_prev : points (w_timer w) (tm_prev t);
}.

Record mutex_typed (m : mutex) : Prop := {
  ty_m_owner : points (w_task w) (m_owner m);
  ty_m_task : points (w_task w) (m_task m);
  ty_m_next : points (w_mutex w) (m_next m);
}.

Record sem_typed (m : semaphore) : Prop := {
  ty_sem_task : points (w_task w) (sem_task m);
  ty_sem_next : points (w_sem w) (sem_next m);
}.

Record event_typed (g : event_group) : Prop := {
  ty_eg_task : points (w_task w) (eg_task g);
  ty_eg_next : points (w_event w) (eg_next g);
}.

Record wq_typed (q : wait_queue) : Prop := {
  ty_wq_task : points (w_task w) (wq_task q);
  ty_wq_next : points (w_wq w) (wq_next q);
  ty_wq_prev : points (w_wq w) (wq_prev q);
}.

Record mq_typed (q : msg_queue) : Prop := {
  ty_mq_write : points (w_task w) (mq_write_task q);
  ty_mq_read : points (w_task w) (mq_read_task q);
}.

Record tasklet_typed (k : tasklet) : Prop := {
  ty_tl_next : points (w_tasklet w) (tl_next k);
  ty_tl_prev : points (w_tasklet w) (tl_prev k);
}.

(** A store with the objects [A], all of the type [P]. *)
Definition store_typed {T} (A : gset positive) (P : T -> Prop) (m : gmap positive T) : Prop :=
  dom m = A /\ map_Forall (fun _ => P) m.

Record typed (s : kst) : Prop := {
  ty_tasks : store_typed (w_task w) task_typed (k_tasks s);
  ty_timers : store_typed (w_timer w) timer_typed (k_timers s);
  ty_mutexes : store_typed (w_mutex w) mutex_typed (k_mutexes s);
  ty_sems : store_typed (w_sem w) sem_typed (k_sems s);
  ty_events : store_typed (w_event w) event_typed (k_events s);
  ty_wqs : store_typed (w_wq w) wq_typed (k_wqs s);
  ty_mqs : store_typed (w_mq w) mq_typed (k_mqs s);
  ty_tasklets : store_typed (w_tasklet w) tasklet_typed (k_tasklets s);
  ty_curr : points (w_task w) (k_curr s);
  ty_ready : points (w_task w) (k_ready s);
  ty_list_head : points (w_task w) (k_list_head s);
  ty_timer_head : points (w_timer w) (k_timer_head s);
  ty_wait_list : points (w_wq w) (k_wait_list s);
  ty_tasklet_list : points (w_tasklet w) (k_tasklet_list s);
}.

(** ** Typed functions *)

Fixpoint typed_out {A} (P : A -> Prop) (o : outcome kst A) : Prop :=
  match o with
  | Done a s => typed s /\ P a
  | Crash e => e <> WildPtr
  | Switch s k => typed s /\ forall s', typed s' -> typed_out P (k s')
  end.

Definition typed_m {A} (P : A -> Prop) (m : M A) : Prop := forall s, typed s -> typed_out P (m s).

Lemma ty_obind {A B} (P : A -> Prop) (Q : B -> Prop) o (f : A -> M B) :
  typed_out P o -> (forall a, P a -> typed_m Q (f a)) -> typed_out Q (obind o f).
Proof.
  intros Ho Hf. induction o as [a s|e|s k IH]; simpl in *.
  - destruct Ho as [Hs Ha]. by apply Hf.
  - done.
  - destruct Ho as [Hs Hk]. split; [done|]. intros s' Hs'. by apply IH, Hk.
Qed.

Lemma ty_bind {A B} (P : A -> Prop) (Q : B -> Prop) m (f : A -> M B) :
  typed_m P m -> (forall a, P a -> typed_m Q (f a)) -> typed_m Q (bind m f).
Proof. intros Hm Hf s Hs. unfold bind. by eapply ty_obind; [apply Hm|]. Qed.

Lemma ty_ext {A} (P : A -> Prop) m m' : (forall s, m s = m' s) -> typed_m P m' -> typed_m P m.
Proof. intros E Hm s Hs. rewrite E. by apply Hm. Qed.
Lemma ty_ret {A} (P : A -> Prop) a : P a -> typed_m P (ret a).
Proof. by intros Ha s Hs. Qed.
Lemma ty_crash {A} (P : A -> Prop) e : e <> WildPtr -> typed_m P (crash e).
Proof. by intros He s Hs. Qed.
Lemma ty_get : typed_m typed get.
Proof. by intros s Hs. Qed.
Lemma ty_gets {A} (P : A -> Prop) f : (forall s, typed s -> P (f s)) -> typed_m P (gets f).
Proof. intros Hf s Hs. split; [done|by apply Hf]. Qed.
Lemma ty_upd f : (forall s, typed s -> typed (f s)) -> typed_m (fun _ => True) (upd f).
Proof. intros Hf s Hs. split; [by apply Hf|done]. Qed.

(** The structures of the kernel. *)
Class Typed (T : Type) `{Store T} := {
  addrs : gset positive;
  fields : T -> Prop;
  ty_store : forall s, typed s -> store_typed addrs fields (store_of s);
  ty_set_store : forall s m, typed s -> store_typed addrs fields m -> typed (set_store m s);
}.

Lemma ty_load {T} `{Typed T} p : points addrs p -> typed_m fields (load p).
Proof.
  intros Hp s Hs. unfold load. destruct p as [a|]; [|done]. destruct (ty_store s Hs) as [Hd Hf].
  destruct (store_of s !! a) as [t|] eqn:E; [split; [done|exact (Hf a t E)]|].
  apply not_elem_of_dom in E. rewrite Hd in E. by destruct (E (Hp a eq_refl)).
Qed.

Lemma ty_modify {T} `{Typed T} p g :
  points addrs p -> (forall t, fields t -> fields (g t)) -> typed_m (fun _ => True) (modify p g).
Proof.
  intros Hp Hg s Hs. unfold modify. destruct p as [a|]; [|done]. destruct (ty_store s Hs) as [Hd Hf].
  destruct (store_of s !! a) as [t|] eqn:E.
  - split; [|done]. apply ty_set_store; [done|]. split.
    + rewrite dom_insert_L, Hd. apply subseteq_union_1_L, singleton_subseteq_l. by apply Hp.
    + apply map_Forall_insert_2; [|done]. apply Hg. exact (Hf a t E).
  - apply not_elem_of_dom in E. rewrite Hd in E. by destruct (E (Hp a eq_refl)).
Qed.

#[local] Ltac typed_instance := intros ? ? []; intros; by constructor.
#[export, refine] Instance task_is_typed : Typed tcb := {| addrs := w_task w; fields := task_typed |}.
Proof. all: [> by intros s []|typed_instance]. Defined.
#[export, refine] Instance timer_is_typed : Typed timer_list := {| addrs := w_timer w; fields := timer_typed |}.
Proof. all: [> by intros s []|typed_instance]. Defined.
#[export, refine] Instance mutex_is_typed : Typed mutex := {| addrs := w_mutex w; fields := mutex_typed |}.
Proof. all: [> by intros s []|typed_instance]. Defined.
#[export, refine] Instance sem_is_typed : Typed semaphore := {| addrs := w_sem w; fields := sem_typed |}.
Proof. all: [> by intros s []|typed_instance]. Defined.
#[export, refine] Instance event_is_typed : Typed event_group := {| addrs := w_event w; fields := event_typed |}.
Proof. all: [> by intros s []|typed_instance]. Defined.
#[export, refine] Instance wq_is_typed : Typed wait_queue := {| addrs := w_wq w; fields := wq_typed |}.
Proof. all: [> by intros s []|typed_instance]. Defined.
#[export, refine] Instance mq_is_typed : Typed msg_queue := {| addrs := w_mq w; fields := mq_typed |}.
Proof. all: [> by intros s []|typed_instance]. Defined.
#[export, refine] Instance tasklet_is_typed : Typed tasklet := {| addrs := w_tasklet w; fields := tasklet_typed |}.
Proof. all: [> by intros s []|typed_instance]. Defined.
End Types.

(** ** The tactic *)

Lemma priv_app w f priv : priv_typed w (Some (H_app f)) priv.
Proof. exact I. Qed.
Lemma points_none A : points A None.
Proof. intros a E. discriminate E. Qed.

Create HintDb typed discriminated.
#[export] Hint Resolve points_none priv_app : typed.
#[export] Hint Resolve ty_t_timer ty_t_sem ty_t_mutex ty_t_event ty_t_wq ty_t_mq ty_t_bpool ty_t_next ty_t_list : typed.
#[export] Hint Resolve ty_tm_priv ty_tm_task ty_tm_next ty_tm_prev ty_m_owner ty_m_task ty_m_next : typed.
#[export] Hint Resolve ty_sem_task ty_sem_next ty_eg_task ty_eg_next ty_wq_task ty_wq_next ty_wq_prev : typed.
#[export] Hint Resolve ty_mq_write ty_mq_read ty_tl_next ty_tl_prev : typed.
#[export] Hint Resolve ty_curr ty_ready ty_list_head ty_timer_head ty_wait_list ty_tasklet_list : typed.

#[export] Hint Unfold addrs fields : typed.

Ltac ty_fold :=
  cbn [addrs fields task_is_typed timer_is_typed mutex_is_typed sem_is_typed event_is_typed wq_is_typed
    mq_is_typed tasklet_is_typed] in *.

(** A pointer that is tested keeps its type. *)
Ltac ty_note w x :=
  let H := fresh "Hp" in
  first
    [ assert (H : points (w_task w) x) by (eauto with typed; fail)
    | assert (H : points (w_timer w) x) by (eauto with typed; fail)
    | assert (H : points (w_wq w) x) by (eauto with typed; fail)
    | assert (H : points (w_mutex w) x) by (eauto with typed; fail)
    | assert (H : points (w_sem w) x) by (eauto with typed; fail)
    | assert (H : points (w_event w) x) by (eauto with typed; fail)
    | assert (H : points (w_mq w) x) by (eauto with typed; fail)
    | assert (H : points (w_tasklet w) x) by (eauto with typed; fail)
    | idtac ].

(** One rule for the construct at the head of the code. *)
Ltac ty_rule :=
  lazymatch goal with
  | |- True => exact I
  | |- forall _, _ => intros ?
  | |- typed_m _ _ (bind ?m _) =>
    lazymatch type of m with
    | proc _ ptr => eapply ty_bind
    | proc _ unit => apply (ty_bind _ (fun _ => True))
    | proc _ Z => apply (ty_bind _ (fun _ => True))
    | proc _ nat => apply (ty_bind _ (fun _ => True))
    | proc _ bool => apply (ty_bind _ (fun _ => True))
    | proc _ (option Z) => apply (ty_bind _ (fun _ => True))
    | proc _ irq => apply (ty_bind _ (fun _ => True))
    | _ => eapply ty_bind
    end
  | |- typed_m _ _ (ret _) => apply ty_ret
  | |- typed_m _ _ (crash _) => by apply ty_crash
  | |- typed_m _ _ get => apply ty_get
  | |- typed_m ?w _ (gets k_curr) => apply (ty_gets w (points (w_task w)))
  | |- typed_m ?w _ (gets k_ready) => apply (ty_gets w (points (w_task w)))
  | |- typed_m ?w _ (gets k_list_head) => apply (ty_gets w (points (w_task w)))
  | |- typed_m ?w _ (gets k_timer_head) => apply (ty_gets w (points (w_timer w)))
  | |- typed_m ?w _ (gets k_wait_list) => apply (ty_gets w (points (w_wq w)))
  | |- typed_m ?w _ (gets k_tasklet_list) => apply (ty_gets w (points (w_tasklet w)))
  | |- typed_m ?w _ (gets _) => apply (ty_gets w (fun _ => True))
  | |- typed_m _ _ (upd _) => apply ty_upd; let H := fresh in intros ? H; destruct H; constructor; cbn
  | |- typed_m _ _ (load _) => refine (ty_load _ _ _); ty_fold
  | |- typed_m _ _ (modify _ _) =>
    refine (ty_modify _ _ _ _ _); ty_fold; [|let H := fresh in intros ? H; destruct H; constructor; cbn]
  | |- typed_m ?w _ (match ?x with _ => _ end) =>
    lazymatch type of x with
    | ptr => ty_note w x; destruct x
    | option timer_handler => destruct x eqn:?
    | _ => destruct x
    end
  | |- points _ _ => solve [eauto with typed]
  | |- _ => solve [eauto with typed]
  end.
Ltac typing := intros; repeat (ty_rule; ty_fold).

(** ** The functions of the kernel *)

Section Functions.
Context (w : world).
#[local] Abbreviation TASK := (points (w_task w)).
#[local] Abbreviation TIMER := (points (w_timer w)).
#[local] Abbreviation proc_typed := (typed_m w (fun _ => True)).

Lemma ty_enter : proc_typed rx_enter_critical.
Proof. unfold rx_enter_critical. typing. Qed.
Lemma ty_exit i : proc_typed (rx_exit_critical i).
Proof. unfold rx_exit_critical. typing. Qed.
#[local] Hint Resolve ty_enter ty_exit : typed.
Lemma ty_pr_error : proc_typed pr_error.
Proof. unfold pr_error. typing. Qed.
#[local] Hint Resolve ty_pr_error : typed.

Lemma ty_add_ready_loop fuel new prio start prev :
  TASK new -> TASK start -> TASK prev -> proc_typed (add_ready_loop fuel new prio start prev).
Proof. revert start prev. induction fuel; cbn [add_ready_loop]; typing. Qed.
#[local] Hint Resolve ty_add_ready_loop : typed.
Lemma ty_add_ready new : TASK new -> proc_typed (__rx_add_to_ready_q new).
Proof. unfold __rx_add_to_ready_q. typing. Qed.
#[local] Hint Resolve ty_add_ready : typed.

Lemma ty_remove_ready_loop fuel rmv start prev :
  TASK start -> TASK prev -> proc_typed (remove_ready_loop fuel rmv start prev).
Proof. revert start prev. induction fuel; cbn [remove_ready_loop]; typing. Qed.
#[local] Hint Resolve ty_remove_ready_loop : typed.
Lemma ty_remove_ready rmv : TASK rmv -> proc_typed (__rx_remove_from_ready_q rmv).
Proof. unfold __rx_remove_from_ready_q. typing. Qed.
#[local] Hint Resolve ty_remove_ready : typed.

Lemma ty_yield : proc_typed yield_cpu.
Proof. intros s Hs. split; [done|]. intros s' Hs'. by split. Qed.
#[local] Hint Resolve ty_yield : typed.
Lemma ty_sched : proc_typed rx_sched.
Proof. unfold rx_sched, __sched__, __rx_switch_to. typing. Qed.
#[local] Hint Resolve ty_sched : typed.

(** *** Tasks *)

Lemma ty_tail_of nxt fuel p :
  (forall t, task_typed w t -> TASK (nxt t)) -> TASK p -> typed_m w TASK (tail_of nxt fuel p).
Proof. intros Hn. revert p. induction fuel; cbn [tail_of]; typing. Qed.
Lemma ty_append_task q x : TASK q -> TASK x -> proc_typed (append_task q x).
Proof. unfold append_task. intros Hq Hx. pose proof (ty_tail_of t_next). typing. Qed.
Lemma ty_unlink_loop fuel task t1 t2 : TASK t1 -> TASK t2 -> proc_typed (unlink_loop fuel task t1 t2).
Proof. revert t1 t2. induction fuel; cbn [unlink_loop]; typing. Qed.
#[local] Hint Resolve ty_tail_of ty_append_task ty_unlink_loop : typed.

Lemma ty_create_task p name prio sp size func st slice :
  TASK p -> proc_typed (rx_create_task p name prio sp size func st slice).
Proof. unfold rx_create_task, alloc_stack, pr_panic, add_to_task_list. typing. Qed.
Lemma ty_abort_task p : TASK p -> proc_typed (rx_abort_task p).
Proof. unfold rx_abort_task. typing. Qed.
Lemma ty_complete_task p : TASK p -> proc_typed (rx_complete_task p).
Proof. unfold rx_complete_task. typing. Qed.
Lemma ty_set_task_prio p prio : TASK p -> proc_typed (rx_set_task_prio p prio).
Proof. unfold rx_set_task_prio. typing. Qed.
Lemma ty_list_before fuel p q : TASK q -> typed_m w TASK (list_before fuel p q).
Proof. revert q. induction fuel; cbn [list_before]; typing. Qed.
#[local] Hint Resolve ty_list_before : typed.
Lemma ty_delete_task p : TASK p -> proc_typed (rx_delete_task p).
Proof. unfold rx_delete_task. typing. Qed.
Lemma ty_suspend_task p : TASK p -> proc_typed (rx_suspend_task p).
Proof. unfold rx_suspend_task. typing. Qed.
Lemma ty_resume_task p : TASK p -> proc_typed (rx_resume_task p).
Proof. unfold rx_resume_task. typing. Qed.
#[local] Hint Resolve ty_create_task ty_abort_task ty_complete_task ty_set_task_prio ty_delete_task : typed.
#[local] Hint Resolve ty_suspend_task ty_resume_task : typed.

(** *** Timers *)

Lemma ty_add_active_loop fuel p tick start :
  TIMER p -> TIMER start -> proc_typed (add_active_loop fuel p tick start).
Proof. revert start. induction fuel; cbn [add_active_loop]; typing. Qed.
#[local] Hint Resolve ty_add_active_loop : typed.
Lemma ty_add_active p : TIMER p -> proc_typed (__rx_add_to_active_timer_list p).
Proof. unfold __rx_add_to_active_timer_list. typing. Qed.
Lemma ty_remove_timer p : TIMER p -> proc_typed (__rx_remove_from_timer_list p).
Proof. unfold __rx_remove_from_timer_list. typing. Qed.
#[local] Hint Resolve ty_add_active ty_remove_timer : typed.

(** A timer without a handler; with one, its argument has to fit. *)
Lemma ty_sleep_timer p delay tid : TIMER p -> TASK tid -> proc_typed (__rx_add_timer p None delay tid).
Proof. unfold __rx_add_timer. typing. Qed.
#[local] Hint Resolve ty_sleep_timer : typed.
Lemma ty_msleep p time : TIMER p -> proc_typed (rx_msleep p time).
Proof. unfold rx_msleep. typing. Qed.
Lemma ty_ssleep p time : TIMER p -> proc_typed (rx_ssleep p time).
Proof. unfold rx_ssleep. typing. Qed.

(** The handler of a timer and its argument are assigned one after the other and fit
    together only then: two assignments to one object are one. *)
Lemma on_timer_twice {B C} p f g (r : unit -> M B) (k : B -> M C) s :
  (on_timer p f ;;; bind (bind (on_timer p g) r) k) s = bind (bind (on_timer p (fun t => g (f t))) r) k s.
Proof.
  unfold bind, modify. destruct p as [a|]; [|done]. cbn. destruct (k_timers s !! a) as [t|] eqn:E; [|done].
  cbn. rewrite lookup_insert_eq. cbn. rewrite insert_insert_eq. by destruct s.
Qed.

Lemma on_timer_curr {B} p f (k : ptr -> M B) s :
  (on_timer p f ;;; let! c := gets k_curr in k c) s = (let! c := gets k_curr in on_timer p f ;;; k c) s.
Proof.
  unfold bind, modify, gets. destruct p as [a|]; [|done]. cbn. by destruct (k_timers s !! a).
Qed.

Lemma ty_add_timer_priv f p h priv delay curr :
  TIMER p -> TASK curr -> priv_typed w h priv ->
  (forall t, timer_typed w t -> timer_typed w (set_tm_handler None (f t)) /\ tm_priv (f t) = priv) ->
  proc_typed (on_timer p f ;;; let! _ := __rx_add_timer p h delay curr in ret OS_OK).
Proof.
  intros Hp Hc Hh Hf. unfold __rx_add_timer. eapply ty_ext; [apply on_timer_twice|].
  apply (ty_bind _ (fun _ => True)); [|typing]. apply (ty_bind _ (fun _ => True)); [|destruct h; typing].
  refine (ty_modify w _ _ _ _); ty_fold; [done|]. intros t [[] E]%Hf. constructor; cbn; rewrite ?E; auto with typed.
Qed.
Lemma ty_create_timer p h priv ticks :
  TIMER p -> priv_typed w h priv -> proc_typed (rx_create_timer p h priv ticks).
Proof.
  intros Hp Hh. unfold rx_create_timer. case_decide; [typing|]. eapply ty_ext; [apply on_timer_curr|].
  eapply ty_bind; [typing|]. intros c Hc. eapply ty_add_timer_priv; [done..|]. intros t []. by split.
Qed.

Lemma on_timer_join {B} p f g (k : M B) s :
  (on_timer p f ;;; on_timer p g ;;; k) s = (on_timer p (fun t => g (f t)) ;;; k) s.
Proof.
  unfold bind, modify. destruct p as [a|]; [|done]. cbn. destruct (k_timers s !! a) as [t|] eqn:E; [|done].
  cbn. rewrite lookup_insert_eq. cbn. rewrite insert_insert_eq. by destruct s.
Qed.

Lemma ty_init_timer p h priv ticks :
  TIMER p -> priv_typed w h priv -> proc_typed (rx_init_timer p h priv ticks).
Proof.
  intros Hp Hh. unfold rx_init_timer. case_decide; [typing|]. eapply ty_ext; [apply on_timer_join|].
  eapply ty_ext; [apply on_timer_curr|].
  eapply ty_bind; [typing|]. intros c Hc. eapply ty_add_timer_priv; [done..|]. intros t []. by split.
Qed.
#[local] Hint Resolve ty_create_timer ty_init_timer : typed.

Lemma ty_pr_error_timer p : TIMER p -> proc_typed (pr_error_timer p).
Proof. unfold pr_error_timer. typing. Qed.
#[local] Hint Resolve ty_pr_error_timer : typed.
Lemma ty_delete_timer p : TIMER p -> proc_typed (rx_delete_timer p).
Proof. unfold rx_delete_timer. typing. Qed.
Lemma ty_start_timer p : TIMER p -> proc_typed (rx_start_timer p).
Proof. unfold rx_start_timer. typing. Qed.
Lemma ty_stop_timer p : TIMER p -> proc_typed (rx_stop_timer p).
Proof. unfold rx_stop_timer. typing. Qed.
#[local] Hint Resolve ty_start_timer ty_stop_timer : typed.
Lemma ty_mod_timer p delay : TIMER p -> proc_typed (rx_mod_timer p delay).
Proof. unfold rx_mod_timer. typing. Qed.
Lemma ty_stop_task_timer x : TASK x -> proc_typed (stop_task_timer x).
Proof. unfold stop_task_timer. typing. Qed.
Lemma ty_drop_task_timer x : TASK x -> proc_typed (drop_task_timer x).
Proof. unfold drop_task_timer. typing. Qed.
#[local] Hint Resolve ty_mod_timer ty_stop_task_timer ty_drop_task_timer : typed.

(** *** Queues of waiting tasks *)

Section Queues.
Context {T : Type} `{Typed w T} `{!WaitService T}.
Context (Hhead : forall t, fields w t -> TASK (ws_head t)).
Context (Hset : forall x t, TASK x -> fields w t -> fields w (ws_set x t)).

Lemma ty_enqueue p x : points (addrs w) p -> TASK x -> proc_typed (enqueue_on T p x).
Proof using Hhead Hset.
  intros Hp Hx. unfold enqueue_on. eapply ty_bind; [by refine (ty_load w _ _)|]. intros o Ho. pose proof (Hhead o Ho).
  destruct (ws_head o); [by apply ty_append_task|]. refine (ty_modify w _ _ _ _); [done|]. intros t. by apply Hset.
Qed.

Lemma ty_dequeue p x : points (addrs w) p -> proc_typed (dequeue_from T p x).
Proof using Hhead Hset.
  intros Hp. unfold dequeue_from. eapply ty_bind; [by refine (ty_load w _ _)|]. intros o Ho. pose proof (Hhead o Ho).
  case_decide; [|typing]. eapply ty_bind; [typing|]. intros t Ht. ty_fold.
  refine (ty_modify w _ _ _ _); [done|]. intros o' Ho'. apply Hset; [|done]. auto with typed.
Qed.
End Queues.

Lemma ty_mutex_enqueue p x : points (w_mutex w) p -> TASK x -> proc_typed (enqueue_on mutex p x).
Proof. refine (ty_enqueue (T:=mutex) _ _ p x); [by intros t []|]. intros y t Hy []. by constructor. Qed.
Lemma ty_mutex_dequeue p x : points (w_mutex w) p -> proc_typed (dequeue_from mutex p x).
Proof. refine (ty_dequeue (T:=mutex) _ _ p x); [by intros t []|]. intros y t Hy []. by constructor. Qed.
Lemma ty_sem_enqueue p x : points (w_sem w) p -> TASK x -> proc_typed (enqueue_on semaphore p x).
Proof. refine (ty_enqueue (T:=semaphore) _ _ p x); [by intros t []|]. intros y t Hy []. by constructor. Qed.
Lemma ty_sem_dequeue p x : points (w_sem w) p -> proc_typed (dequeue_from semaphore p x).
Proof. refine (ty_dequeue (T:=semaphore) _ _ p x); [by intros t []|]. intros y t Hy []. by constructor. Qed.
Lemma ty_wq_enqueue p x : points (w_wq w) p -> TASK x -> proc_typed (enqueue_on wait_queue p x).
Proof. refine (ty_enqueue (T:=wait_queue) _ _ p x); [by intros t []|]. intros y t Hy []. by constructor. Qed.
#[local] Hint Resolve ty_mutex_enqueue ty_mutex_dequeue ty_sem_enqueue ty_sem_dequeue ty_wq_enqueue : typed.

(** *** Mutexes *)

#[local] Abbreviation MUTEX := (points (w_mutex w)).

Lemma ty_create_mutex p : MUTEX p -> proc_typed (rx_create_mutex p).
Proof. unfold rx_create_mutex. typing. Qed.
Lemma ty_delete_mutex_loop fuel p : MUTEX p -> proc_typed (delete_mutex_loop fuel p).
Proof. intros Hp. induction fuel; cbn [delete_mutex_loop]; typing. Qed.
#[local] Hint Resolve ty_delete_mutex_loop : typed.
Lemma ty_delete_mutex p : MUTEX p -> proc_typed (rx_delete_mutex p).
Proof. unfold rx_delete_mutex. typing. Qed.
Lemma ty_inherit_loop fuel p t : MUTEX p -> TASK t -> proc_typed (inherit_loop fuel p t).
Proof. intros Hp. revert t. induction fuel; cbn [inherit_loop]; typing. Qed.
#[local] Hint Resolve ty_inherit_loop : typed.
Lemma ty_unlock p : MUTEX p -> proc_typed (rx_mutex_unlock p).
Proof. unfold rx_mutex_unlock, restore_prio, hand_off. typing. Qed.
Lemma ty_rearrange x : TASK x -> proc_typed (rearrange x).
Proof. unfold rearrange. typing. Qed.
#[local] Hint Resolve ty_rearrange : typed.
Lemma ty_mutex_handler x : TASK x -> proc_typed (__rx_mutex_handler x).
Proof. unfold __rx_mutex_handler, disinherit. typing. Qed.
Lemma ty_lock timer p timeout : TIMER timer -> MUTEX p -> proc_typed (rx_mutex_lock timer p timeout).
Proof. unfold rx_mutex_lock, __rx_mutex_timeout, inherit_prio. typing. Qed.
#[local] Hint Resolve ty_mutex_handler : typed.

(** *** Semaphores *)

#[local] Abbreviation SEM := (points (w_sem w)).

Lemma ty_create_semaphore p val : SEM p -> proc_typed (rx_create_semaphore p val).
Proof. unfold rx_create_semaphore. typing. Qed.
Lemma ty_delete_sem_loop fuel p : SEM p -> proc_typed (delete_sem_loop fuel p).
Proof. intros Hp. induction fuel; cbn [delete_sem_loop]; typing. Qed.
#[local] Hint Resolve ty_delete_sem_loop : typed.
Lemma ty_delete_semaphore p : SEM p -> proc_typed (rx_delete_semaphore p).
Proof. unfold rx_delete_semaphore. typing. Qed.
Lemma ty_post p : SEM p -> proc_typed (rx_semaphore_post p).
Proof. unfold rx_semaphore_post. typing. Qed.
Lemma ty_sem_handler x : TASK x -> proc_typed (__rx_sem_handler x).
Proof. unfold __rx_sem_handler. typing. Qed.
Lemma ty_wait timer p timeout : TIMER timer -> SEM p -> proc_typed (rx_semaphore_wait timer p timeout).
Proof. unfold rx_semaphore_wait, __rx_sem_timeout. typing. Qed.
#[local] Hint Resolve ty_sem_handler : typed.

(** *** Wait queues *)

#[local] Abbreviation WQ := (points (w_wq w)).

Lemma ty_finish_wait : proc_typed __rx_finish_wait.
Proof. unfold __rx_finish_wait. typing. Qed.
Lemma ty_wait_timeout timer : TIMER timer -> proc_typed (__rx_wait_timeout timer).
Proof. unfold __rx_wait_timeout, pr_panic. typing. Qed.
Lemma ty_wait_handler x : TASK x -> proc_typed (__rx_wait_handler x).
Proof. unfold __rx_wait_handler. typing. Qed.
Lemma ty_wait_list_find fuel p ride : WQ ride -> typed_m w WQ (wait_list_find fuel p ride).
Proof. revert ride. induction fuel; cbn [wait_list_find]; typing. Qed.
#[local] Hint Resolve ty_finish_wait ty_wait_timeout ty_wait_handler ty_wait_list_find : typed.
Lemma ty_add_to_wait_queue p st timeout timer :
  WQ p -> TIMER timer -> proc_typed (__rx_add_to_wait_queue p st timeout timer).
Proof. unfold __rx_add_to_wait_queue, wait_list_add. typing. Qed.
Lemma ty_wake_all_loop fuel x : TASK x -> proc_typed (wake_all_loop fuel x).
Proof. revert x. induction fuel; cbn [wake_all_loop]; typing. Qed.
Lemma ty_wait_list_unlink p : WQ p -> proc_typed (wait_list_unlink p).
Proof. unfold wait_list_unlink. typing. Qed.
#[local] Hint Resolve ty_add_to_wait_queue ty_wake_all_loop ty_wait_list_unlink : typed.
Lemma ty_wakeup p : WQ p -> proc_typed (rx_wakeup p).
Proof. unfold rx_wakeup, wait_list_remove. typing. Qed.
Lemma ty_wake_queue_loop fuel ride tn tp :
  WQ ride -> TASK tn -> TASK tp -> proc_typed (wake_queue_loop fuel ride tn tp).
Proof. intros Hr. revert tn tp. induction fuel; cbn [wake_queue_loop]; typing. Qed.
#[local] Hint Resolve ty_wake_queue_loop : typed.
Lemma ty_wake_queue ride : WQ ride -> proc_typed (rx_wake_task_in_the_queue ride).
Proof. unfold rx_wake_task_in_the_queue. typing. Qed.
#[local] Hint Resolve ty_wake_queue : typed.
Lemma ty_wake_loop fuel ride : WQ ride -> proc_typed (wake_loop fuel ride).
Proof. revert ride. induction fuel; cbn [wake_loop]; typing. Qed.
#[local] Hint Resolve ty_wake_loop : typed.
Lemma ty_wake : proc_typed __rx_wake.
Proof. unfold __rx_wake. typing. Qed.
Lemma ty_wait_on p : WQ p -> proc_typed (rx_wait_on p).
Proof. unfold rx_wait_on. typing. Qed.
Lemma ty_wait_on_timeout p timeout timer : WQ p -> TIMER timer -> proc_typed (rx_wait_on_timeout p timeout timer).
Proof. unfold rx_wait_on_timeout. typing. Qed.
Lemma ty_wait_until fuel p cond : WQ p -> proc_typed cond -> proc_typed (wait_until fuel p cond).
Proof. intros Hp Hc. induction fuel; cbn [wait_until]; typing. Qed.
#[local] Hint Resolve ty_wake ty_wait_until : typed.
Lemma ty_wait_queue fuel p cond : WQ p -> proc_typed cond -> proc_typed (rx_wait_queue fuel p cond).
Proof. unfold rx_wait_queue. typing. Qed.
#[local] Hint Resolve ty_wait_queue : typed.

(** *** Message queues *)

#[local] Abbreviation MQ := (points (w_mq w)).

Lemma ty_in_mem f : proc_typed (in_mem f).
Proof. intros s Hs. unfold in_mem. destruct (f (k_mem s)); [|done]. split; [|done]. destruct Hs. by constructor. Qed.
#[local] Hint Resolve ty_in_mem : typed.
Lemma ty_create_queue p name size num start flag : MQ p -> proc_typed (rx_create_queue p name size num start flag).
Proof. unfold rx_create_queue. typing. Qed.
Lemma ty_wake_writer cancel p :
  (forall x, TASK x -> proc_typed (cancel x)) -> MQ p -> proc_typed (wake_writer cancel p).
Proof. unfold wake_writer. intros Hc Hp. typing. Qed.
Lemma ty_wake_reader cancel p :
  (forall x, TASK x -> proc_typed (cancel x)) -> MQ p -> proc_typed (wake_reader cancel p).
Proof. unfold wake_reader. intros Hc Hp. typing. Qed.
#[local] Hint Resolve ty_wake_writer ty_wake_reader : typed.
Lemma ty_delete_queue_loop fuel p : MQ p -> proc_typed (delete_queue_loop fuel p).
Proof. intros Hp. induction fuel; cbn [delete_queue_loop]; typing. Qed.
#[local] Hint Resolve ty_delete_queue_loop : typed.
Lemma ty_delete_queue p : MQ p -> proc_typed (rx_delete_queue p).
Proof. unfold rx_delete_queue. typing. Qed.
Lemma ty_read_queue timer p buf size timeout :
  TIMER timer -> MQ p -> proc_typed (rx_read_from_queue timer p buf size timeout).
Proof. unfold rx_read_from_queue, read_wait, read_take. typing. Qed.
Lemma ty_write_queue timer p buf size timeout :
  TIMER timer -> MQ p -> proc_typed (rx_write_to_queue timer p buf size timeout).
Proof. unfold rx_write_to_queue, write_wait, write_put. typing. Qed.
#[local] Hint Resolve ty_write_queue : typed.

(** *** Tasklets *)

#[local] Abbreviation TASKLET := (points (w_tasklet w)).

Lemma ty_init_tasklet t func data : TASKLET t -> proc_typed (rx_init_tasklet t func data).
Proof. unfold rx_init_tasklet. typing. Qed.
Lemma ty_enable_tasklet t : TASKLET t -> proc_typed (rx_enable_tasklet t).
Proof. unfold rx_enable_tasklet. typing. Qed.
Lemma ty_disable_tasklet t : TASKLET t -> proc_typed (rx_disable_tasklet t).
Proof. unfold rx_disable_tasklet, tasklet_unlink. typing. Qed.
Lemma ty_tasklet_tail fuel t : TASKLET t -> typed_m w TASKLET (tasklet_tail fuel t).
Proof. revert t. induction fuel; cbn [tasklet_tail]; typing. Qed.
#[local] Hint Resolve ty_tasklet_tail : typed.
Lemma ty_schedule_tasklet t : TASKLET t -> proc_typed (rx_schedule_tasklet t).
Proof. unfold rx_schedule_tasklet. typing. Qed.
Lemma ty_bh_run call : (forall f d, proc_typed (call f d)) -> proc_typed (bh_run call).
Proof. unfold bh_run. intros Hc. typing. Qed.
#[local] Hint Resolve ty_bh_run : typed.
Lemma ty_gets_any {A} (f : kst -> A) : proc_typed (gets f).
Proof. typing. Qed.
#[local] Hint Resolve ty_gets_any : typed.
Lemma ty_bh_thread call n fuel p :
  (forall f d, proc_typed (call f d)) -> WQ p -> proc_typed (rx_bh_thread call n fuel p).
Proof. intros Hc Hp. induction n; cbn [rx_bh_thread]; typing. Qed.

(** *** Event groups *)

#[local] Abbreviation EVENT := (points (w_event w)).

Lemma ty_create_event p : EVENT p -> proc_typed (rx_create_event_group p).
Proof. unfold rx_create_event_group. typing. Qed.
Lemma ty_delete_event_loop fuel p : EVENT p -> proc_typed (delete_event_loop fuel p).
Proof. intros Hp. induction fuel; cbn [delete_event_loop]; typing. Qed.
#[local] Hint Resolve ty_delete_event_loop : typed.
Lemma ty_delete_event p : EVENT p -> proc_typed (rx_delete_event_group p).
Proof. unfold rx_delete_event_group. typing. Qed.
Lemma ty_set_event_flag flag : proc_typed (rx_set_event_flag flag).
Proof. unfold rx_set_event_flag. typing. Qed.
Lemma ty_clear_event_flag flag : proc_typed (rx_clear_event_flag flag).
Proof. unfold rx_clear_event_flag. typing. Qed.
Lemma ty_walk_off fuel x : TASK x -> proc_typed (walk_off fuel x).
Proof. revert x. induction fuel; cbn [walk_off]; typing. Qed.
#[local] Hint Resolve ty_clear_event_flag ty_walk_off : typed.
Lemma ty_wait_event p flag : EVENT p -> proc_typed (rx_wait_event_group p flag).
Proof. unfold rx_wait_event_group. typing. Qed.
#[local] Hint Resolve ty_wait_event : typed.
Lemma ty_process_loop fuel hd flag start prev :
  EVENT hd -> TASK start -> TASK prev -> proc_typed (process_loop fuel hd flag start prev).
Proof. intros Hh. revert start prev. induction fuel; cbn [process_loop]; typing. Qed.
#[local] Hint Resolve ty_process_loop : typed.
Lemma ty_process_event hd flag : EVENT hd -> proc_typed (rx_process_event hd flag).
Proof. unfold rx_process_event. typing. Qed.
Lemma ty_notify_event q e timer eg flag :
  MQ (Some q) -> TIMER timer -> proc_typed (rx_notify_event q e timer eg flag).
Proof. unfold rx_notify_event, st_word. typing. Qed.
#[local] Hint Resolve ty_notify_event : typed.

(** *** Interrupts and the timer thread *)

Lemma ty_ld_irq n : proc_typed (ld_irq n).
Proof. intros s Hs. unfold ld_irq. by destruct (k_irqs s !! n). Qed.
Lemma ty_on_irq n f : proc_typed (on_irq n f).
Proof.
  intros s Hs. unfold on_irq. destruct (k_irqs s !! n); [|done]. split; [|done]. destruct Hs. by constructor.
Qed.
#[local] Hint Resolve ty_ld_irq ty_on_irq : typed.
Lemma ty_request_irq n h flags name dev : proc_typed (rx_request_irq n h flags name dev).
Proof. unfold rx_request_irq. typing. Qed.
Lemma ty_free_irq n dev : proc_typed (rx_free_irq n dev).
Proof. unfold rx_free_irq. typing. Qed.
Lemma ty_irq_handler call n : (forall h n d, proc_typed (call h n d)) -> proc_typed (__rx_irq_handler call n).
Proof. unfold __rx_irq_handler. intros Hc. typing. Qed.
Lemma ty_time_slice_tick : proc_typed time_slice_tick.
Proof. unfold time_slice_tick. typing. Qed.
#[local] Hint Resolve ty_request_irq ty_irq_handler ty_time_slice_tick : typed.

(** The handlers of the application and of the drivers are typed, and so are the event
    queue and the group of the timer interrupt. *)
Section Handlers.
Context (call_app : positive -> ptr -> M unit) (call_drv : positive -> Z -> Z -> M Z).
Context (evq timer_events : positive).
Context (Happ : forall f priv, proc_typed (call_app f priv)) (Hdrv : forall f n d, proc_typed (call_drv f n d)).
Context (Hevq : MQ (Some evq)) (Hte : EVENT (Some timer_events)).

Lemma ty_tick e timer n a : TIMER timer -> proc_typed (__rx_timer_tick_irq_handler evq timer_events e timer n a).
Proof using Hevq. unfold __rx_timer_tick_irq_handler. typing. Qed.
Lemma ty_run_irq e timer h n d : TIMER timer -> proc_typed (run_irq call_drv evq timer_events e timer h n d).
Proof using Hdrv Hevq. intros Ht. destruct h; [by apply ty_tick|apply Hdrv]. Qed.
#[local] Hint Resolve ty_run_irq : typed.
Lemma ty_sig_handler e timer n eip :
  TIMER timer -> proc_typed (sig_handler call_drv evq timer_events e timer n eip).
Proof using Hdrv Hevq. unfold sig_handler. typing. Qed.

Lemma ty_run_handler h priv : priv_typed w (Some h) priv -> proc_typed (run_handler call_app h priv).
Proof using Happ. intros Hp. destruct h; cbn in Hp |- *; eauto with typed. Qed.
Lemma ty_expire_loop fuel tick start : TIMER start -> proc_typed (expire_loop call_app fuel tick start).
Proof using Happ.
  revert start. induction fuel; cbn [expire_loop]; typing. apply ty_run_handler.
  match goal with E : tm_handler _ = Some _ |- _ => rewrite <- E end. by apply ty_tm_priv.
Qed.
#[local] Hint Resolve ty_expire_loop : typed.
Lemma ty_timer_pass fuel flag : proc_typed (timer_pass call_app fuel flag).
Proof using Happ. unfold timer_pass. typing. Qed.
Lemma ty_timer_rounds n fuel : proc_typed (timer_rounds call_app timer_events n fuel).
Proof using Happ Hte. pose proof ty_timer_pass. induction n; cbn [timer_rounds]; typing. Qed.
#[local] Hint Resolve ty_timer_rounds : typed.
Lemma ty_timer_thread n fuel : proc_typed (rx_timer_thread call_app timer_events n fuel).
Proof using Happ Hte. unfold rx_timer_thread, pr_panic. typing. Qed.
End Handlers.
End Functions.

#[export] Hint Resolve ty_sched ty_create_task ty_abort_task ty_complete_task ty_set_task_prio ty_delete_task : typed.
#[export] Hint Resolve ty_suspend_task ty_resume_task ty_msleep ty_ssleep ty_create_timer ty_init_timer : typed.
#[export] Hint Resolve ty_delete_timer ty_start_timer ty_stop_timer ty_mod_timer : typed.
#[export] Hint Resolve ty_create_mutex ty_delete_mutex ty_lock ty_unlock : typed.
#[export] Hint Resolve ty_create_semaphore ty_delete_semaphore ty_wait ty_post : typed.
#[export] Hint Resolve ty_create_queue ty_delete_queue ty_read_queue ty_write_queue : typed.
#[export] Hint Resolve ty_wait_on ty_wait_on_timeout ty_wait_queue ty_wakeup ty_wake : typed.
#[export] Hint Resolve ty_init_tasklet ty_enable_tasklet ty_disable_tasklet ty_schedule_tasklet ty_bh_thread : typed.
#[export] Hint Resolve ty_create_event ty_delete_event ty_set_event_flag ty_clear_event_flag ty_wait_event : typed.
#[export] Hint Resolve ty_process_event ty_notify_event ty_request_irq ty_free_irq : typed.
#[export] Hint Resolve ty_sig_handler ty_timer_thread : typed.

(** ** Sequences of calls *)

Section Calls.
Context (w : world).
Context (call_app : positive -> ptr -> M unit) (call_drv : positive -> Z -> Z -> M Z).
Context (call_tasklet : Z -> Z -> M unit) (evq timer_events : positive).
Context (Happ : forall f priv, typed_m w (fun _ => True) (call_app f priv)).
Context (Hdrv : forall f n d, typed_m w (fun _ => True) (call_drv f n d)).
Context (Htl : forall f d, typed_m w (fun _ => True) (call_tasklet f d)).
Context (Hevq : points (w_mq w) (Some evq)) (Hte : points (w_event w) (Some timer_events)).

Definition discard {A} (m : M A) : M unit := let! _ := m in ret tt.

(** The calls of the kernel, their arguments of the types the headers declare, the
    interrupts, and the kernel's threads. *)
Inductive kcall : M unit -> Prop :=
  | kc_sched : kcall rx_sched
  | kc_create_task p name prio sp size func st slice :
      points (w_task w) p -> kcall (discard (rx_create_task p name prio sp size func st slice))
  | kc_abort_task p : points (w_task w) p -> kcall (discard (rx_abort_task p))
  | kc_complete_task p : points (w_task w) p -> kcall (discard (rx_complete_task p))
  | kc_set_task_prio p prio : points (w_task w) p -> kcall (discard (rx_set_task_prio p prio))
  | kc_delete_task p : points (w_task w) p -> kcall (discard (rx_delete_task p))
  | kc_suspend_task p : points (w_task w) p -> kcall (discard (rx_suspend_task p))
  | kc_resume_task p : points (w_task w) p -> kcall (discard (rx_resume_task p))
  | kc_msleep p time : points (w_timer w) p -> kcall (discard (rx_msleep p time))
  | kc_ssleep p time : points (w_timer w) p -> kcall (discard (rx_ssleep p time))
  | kc_create_timer p f priv ticks :
      points (w_timer w) p -> kcall (discard (rx_create_timer p (Some (H_app f)) priv ticks))
  | kc_init_timer p f priv ticks :
      points (w_timer w) p -> kcall (discard (rx_init_timer p (Some (H_app f)) priv ticks))
  | kc_delete_timer p : points (w_timer w) p -> kcall (rx_delete_timer p)
  | kc_start_timer p : points (w_timer w) p -> kcall (rx_start_timer p)
  | kc_stop_timer p : points (w_timer w) p -> kcall (rx_stop_timer p)
  | kc_mod_timer p delay : points (w_timer w) p -> kcall (rx_mod_timer p delay)
  | kc_create_mutex p : points (w_mutex w) p -> kcall (discard (rx_create_mutex p))
  | kc_delete_mutex p : points (w_mutex w) p -> kcall (rx_delete_mutex p)
  | kc_mutex_lock timer p timeout :
      points (w_timer w) timer -> points (w_mutex w) p -> kcall (discard (rx_mutex_lock timer p timeout))
  | kc_mutex_unlock p : points (w_mutex w) p -> kcall (discard (rx_mutex_unlock p))
  | kc_create_semaphore p val : points (w_sem w) p -> kcall (discard (rx_create_semaphore p val))
  | kc_delete_semaphore p : points (w_sem w) p -> kcall (rx_delete_semaphore p)
  | kc_semaphore_wait timer p timeout :
      points (w_timer w) timer -> points (w_sem w) p -> kcall (discard (rx_semaphore_wait timer p timeout))
  | kc_semaphore_post p : points (w_sem w) p -> kcall (discard (rx_semaphore_post p))
  | kc_create_queue p name size num start flag :
      points (w_mq w) p -> kcall (discard (rx_create_queue p name size num start flag))
  | kc_delete_queue p : points (w_mq w) p -> kcall (discard (rx_delete_queue p))
  | kc_read_from_queue timer p buf size timeout :
      points (w_timer w) timer -> points (w_mq w) p -> kcall (discard (rx_read_from_queue timer p buf size timeout))
  | kc_write_to_queue timer p buf size timeout :
      points (w_timer w) timer -> points (w_mq w) p -> kcall (discard (rx_write_to_queue timer p buf size timeout))
  | kc_wait_on p : points (w_wq w) p -> kcall (discard (rx_wait_on p))
  | kc_wait_on_timeout p timeout timer :
      points (w_wq w) p -> points (w_timer w) timer -> kcall (discard (rx_wait_on_timeout p timeout timer))
  | kc_wait_queue fuel p cond :
      points (w_wq w) p -> typed_m w (fun _ => True) cond -> kcall (discard (rx_wait_queue fuel p cond))
  | kc_wakeup p : points (w_wq w) p -> kcall (discard (rx_wakeup p))
  | kc_wake : kcall __rx_wake
  | kc_init_tasklet t func data : points (w_tasklet w) t -> kcall (discard (rx_init_tasklet t func data))
  | kc_enable_tasklet t : points (w_tasklet w) t -> kcall (rx_enable_tasklet t)
  | kc_disable_tasklet t : points (w_tasklet w) t -> kcall (rx_disable_tasklet t)
  | kc_schedule_tasklet t : points (w_tasklet w) t -> kcall (rx_schedule_tasklet t)
  | kc_create_event p : points (w_event w) p -> kcall (discard (rx_create_event_group p))
  | kc_delete_event p : points (w_event w) p -> kcall (rx_delete_event_group p)
  | kc_set_event_flag flag : kcall (discard (rx_set_event_flag flag))
  | kc_clear_event_flag flag : kcall (discard (rx_clear_event_flag flag))
  | kc_wait_event p flag : points (w_event w) p -> kcall (discard (rx_wait_event_group p flag))
  | kc_process_event p flag : points (w_event w) p -> kcall (discard (rx_process_event p flag))
  | kc_notify_event e timer p flag :
      points (w_timer w) timer -> points (w_event w) p -> kcall (rx_notify_event evq e timer p flag)
  | kc_request_irq n h flags name dev : kcall (discard (rx_request_irq n h flags name dev))
  | kc_free_irq n dev : kcall (discard (rx_free_irq n dev))
  | kc_sig_handler e timer n eip :
      points (w_timer w) timer -> kcall (sig_handler call_drv evq timer_events e timer n eip)
  | kc_timer_thread n fuel : kcall (rx_timer_thread call_app timer_events n fuel)
  | kc_bh_thread n fuel p : points (w_wq w) p -> kcall (rx_bh_thread call_tasklet n fuel p).

(** The state of the kernel and what the tasks that have been switched away from have left
    to do.  A call is made in any state, and any of those tasks may be continued. *)
Inductive kstep : kst * list (kst -> outcome kst unit) -> kst * list (kst -> outcome kst unit) -> Prop :=
  | ks_return s ks m s' : kcall m -> m s = Done tt s' -> kstep (s, ks) (s', ks)
  | ks_switch s ks m s' k : kcall m -> m s = Switch s' k -> kstep (s, ks) (s', k :: ks)
  | ks_continue s ks1 k ks2 s' : k s = Done tt s' -> kstep (s, ks1 ++ k :: ks2) (s', ks1 ++ ks2)
  | ks_again s ks1 k ks2 s' k' : k s = Switch s' k' -> kstep (s, ks1 ++ k :: ks2) (s', ks1 ++ k' :: ks2).

Lemma ty_kcall m : kcall m -> typed_m w (fun _ => True) m.
Proof using Happ Hdrv Htl Hevq Hte. intros []; unfold discard; typing. Qed.

(** What holds of the machine in every reachable state. *)
Definition kmachine_typed (M : kst * list (kst -> outcome kst unit)) : Prop :=
  typed w (fst M) /\ Forall (fun k => typed_m w (fun _ => True) k) (snd M).

Lemma kstep_typed M M' : kstep M M' -> kmachine_typed M -> kmachine_typed M'.
Proof using Happ Hdrv Htl Hevq Hte.
  intros [s ks m s' Hm E|s ks m s' k Hm E|s ks1 k ks2 s' E|s ks1 k ks2 s' k' E] [Hs Hks]; simpl in *.
  - pose proof (ty_kcall m Hm s Hs) as Ho. rewrite E in Ho. by destruct Ho.
  - pose proof (ty_kcall m Hm s Hs) as Ho. rewrite E in Ho. destruct Ho. split; [done|]. by constructor.
  - apply Forall_app in Hks as [H1 [Hk H2]%Forall_cons]. specialize (Hk s Hs). rewrite E in Hk.
    destruct Hk. split; [done|]. by apply Forall_app.
  - apply Forall_app in Hks as [H1 [Hk H2]%Forall_cons]. specialize (Hk s Hs). rewrite E in Hk.
    destruct Hk. split; [done|]. apply Forall_app. split; [done|]. by constructor.
Qed.

End Calls.

(** Task 1 asks for the mutex 7, which task 2 holds, and is switched away from; then task
    2 unlocks it. *)
Definition world_of (s : kst) : world :=
  mk_world (dom (k_tasks s)) (dom (k_timers s)) (dom (k_mutexes s)) (dom (k_sems s)) (dom (k_events s))
    (dom (k_wqs s)) (dom (k_mqs s)) (dom (k_pools s)) (dom (k_tasklets s)).

Definition sample_typed : kst :=
  set_k_mqs {[ 5%positive := sample_evq ]} (set_k_events {[ 11%positive := mk_eg None None ]} sample_mutex).

Ltac typed_sample :=
  lazymatch goal with
  | |- store_typed _ _ _ =>
    split; [reflexivity|]; apply map_Forall_to_list, Forall_forall; intros [? ?] Hin; vm_compute in Hin;
    repeat (apply elem_of_cons in Hin as [Hin|Hin]; [injection Hin as -> ->; constructor; typed_sample|]);
    by apply not_elem_of_nil in Hin
  | |- points _ _ => let E := fresh in intros ? E; vm_compute in E; simplify_eq; apply elem_of_dom; by eexists
  | |- priv_typed _ _ _ => exact I
  end.

Lemma sample_typed_ok : typed (world_of sample_typed) sample_typed.
Proof. constructor; typed_sample. Qed.

Definition app_ret (f : positive) (priv : ptr) : M unit := ret tt.
Definition drv_ret (f : positive) (n d : Z) : M Z := ret RX_IRQ_HANDLED.
Definition tasklet_ret (f d : Z) : M unit := ret tt.

Definition sample_lock : outcome kst unit :=
  discard (rx_mutex_lock None (Some 7%positive) OS_WAIT_FOREVER) sample_typed.
Definition sample_locked : kst := match sample_lock with Switch s _ => s | _ => sample_typed end.
Definition sample_rest : kst -> outcome kst unit :=
  match sample_lock with Switch _ k => k | _ => fun s => Done tt s end.
Definition sample_unlocked : kst :=
  match discard (rx_mutex_unlock (Some 7%positive)) sample_locked with Done _ s => s | _ => sample_typed end.

