(* ===== verification/Simulator.v ===== *)
(** * The simulator: a whole system that runs (src/arch/x86/x86_sim.c)

    [main] is the host program: it attaches the segment through which interrupts are
    numbered, installs the signal handler, allocates the stack and the print buffer and
    enters the kernel.  [run] is the processor of the simulated board.  It runs the code of
    the current task until that gives up the processor, then goes on with what the next
    task has left to do, or with its entry point when it runs for the first time.  A task
    that has nothing left but an endless loop stays in it until the next tick, whose
    interrupt may take the processor away from it.  So the ticks arrive while a task is in
    such a loop: the processor is fast enough for the tasks to finish their work between
    two ticks.

    Each switch is recorded by an observation of the state.  [boot_memory] and
    [system_code] put the threads of the kernel together; the applications are in
    TestApps.v. *)

From stdpp Require Import base gmap list sorting.
From Stdlib Require Import ZArith Lia.
From S2P Require Import Prelude Mem State Samples Port Sched Task Timer Queue Wait Tasklet Blockpool Event Irq.
From S2P Require Import Tick Device Logger Boot.
#[local] Open Scope Z_scope.
#[local] Open Scope rosx_scope.

(** ** The host program *)

(** What the host's calls return: the identifier and the address of the shared segment,
    the result of [sigaction] and the two blocks of memory, NULL as 0. *)
Record host := mk_host {
  h_pid : Z;
  h_shmget : Z;
  h_shmat : Z;
  h_sigaction : Z;
  h_malloc_stack : Z;
  h_malloc_print : Z;
}.

Section Host.
  Context (h : host) (__rx_kernel_enter : M unit).

(** The process ends with status 1. *)
Definition exit_1 : M Z := ret 1.

(** [true] when the handler could not be installed. *)
Definition init_signals : bool := bool_decide (h_sigaction h <> 0).

Definition main : M Z :=
  if decide (h_shmget h = -1) then exit_1
  else if decide (h_shmat h = -1) then exit_1
  else
    st_word (h_shmat h) (h_pid h) ;;;
    if init_signals then exit_1
    else
      upd (set_k_stack_start (u32 (h_malloc_stack h + CONFIG_SYSTEM_STACK_SIZE))) ;;;
      let! stack := gets k_stack_start in
      if decide (stack = 0) then exit_1
      else
        upd (set_k_pb_start (h_malloc_print h)) ;;;
        if decide (h_malloc_print h = 0) then exit_1
        else
          __rx_kernel_enter ;;;
          ret 0.

(** ** What [main] does *)

Definition attached : Prop := h_shmget h <> -1 /\ h_shmat h <> -1 /\ h_sigaction h = 0.

(** The state the kernel is entered in. *)
Definition hosted (m : mem) (s : kst) : kst :=
  set_k_pb_start (h_malloc_print h)
    (set_k_stack_start (u32 (h_malloc_stack h + CONFIG_SYSTEM_STACK_SIZE)) (set_k_mem m s)).

(** The kernel is entered with the top of its stack where the block that was allocated for
    it ends.  A NULL pointer from the allocation of the stack is not noticed, since the
    size is added before the test; one for the print buffer is. *)
Theorem main_enters_kernel s m :
  attached -> store_word (k_mem s) (h_shmat h) (h_pid h) = Some m ->
  0 <= h_malloc_stack h < 2 ^ 32 - CONFIG_SYSTEM_STACK_SIZE ->
  main s = if decide (h_malloc_print h = 0) then Done 1 (hosted m s)
           else (__rx_kernel_enter ;;; ret 0) (hosted m s).
Proof using Type.
  intros (Hg & Ha & Hs) Hm Hst. unfold main, init_signals. rewrite !decide_False by done.
  rewrite bool_decide_false by auto. unfold st_word, in_mem, bind at 1. rewrite Hm. cbn [obind].
  unfold upd, gets, bind at 1. cbn [obind]. unfold bind at 1. cbn [obind k_stack_start set_k_stack_start].
  rewrite (u32_small (_ + _)) by (unfold CONFIG_SYSTEM_STACK_SIZE in *; lia).
  rewrite decide_False by (unfold CONFIG_SYSTEM_STACK_SIZE in *; lia).
  unfold bind at 1. cbn [obind]. unfold hosted. rewrite u32_small by (unfold CONFIG_SYSTEM_STACK_SIZE in *; lia).
  by case_decide.
Qed.

(** Without the segment or the handler the process ends before the kernel starts. *)
Theorem main_fails_early s :
  h_shmget h = -1 \/ h_shmat h = -1 -> main s = Done 1 s.
Proof using Type. intros H. unfold main. do 2 (case_decide; [done|]). by destruct H. Qed.

End Host.

(** ** The processor *)

(** An endless loop, at most [n] rounds of it. *)
Fixpoint forever (n : nat) (body : M unit) : M unit :=
  match n with
  | O => crash NoFuel
  | S n => body ;;; forever n body
  end.

(** An endless loop that calls nothing: the processor stays in it until an interrupt. *)
Definition spin : M unit := ret tt.

(** What the tasks that do not run have left to do. *)
Notation saved := (gmap positive (kst -> outcome kst unit)).

(** A run with its observations, the last one first.  [Paused]: all ticks have arrived and
    the task [c] is in its endless loop. *)
Inductive result (A : Type) :=
  | Paused (s : kst) (sv : saved) (c : positive) (log : list A)
  | Faulted (f : fault) (log : list A)
  | Masked (log : list A)      (* a tick can never arrive *)
  | NoTask (log : list A).     (* the current task is none *)
Arguments Paused {A} s sv c log.
Arguments Faulted {A} f log.
Arguments Masked {A} log.
Arguments NoTask {A} log.

Section Run.
  (** The code at an entry point, the interrupt of a tick, and the observation. *)
  Context (code : Z -> M unit) (tick : M unit) {A : Type} (obs : kst -> A).

(** What [n] does when it gets the processor. *)
Definition continue_task (s : kst) (sv : saved) (n : positive) : option (outcome kst unit) :=
  match sv !! n with
  | Some k => Some (k s)
  | None => t ← k_tasks s !! n; Some (code (t_func t) s)
  end.

(** [o] is what the task [c] does. *)
Fixpoint run (fuel ticks : nat) (sv : saved) (log : list A) (c : positive) (o : outcome kst unit)
  : result A :=
  match fuel with
  | O => Faulted NoFuel log
  | S fuel =>
    match o with
    | Crash f => Faulted f log
    | Switch s k =>
      let sv := <[c := k]> sv in
      let log := obs s :: log in
      match n ← k_curr s; o ← continue_task s sv n; Some (n, o) with
      | Some (n, o) => run fuel ticks (delete n sv) log n o
      | None => NoTask log
      end
    | Done _ s =>
      match ticks with
      | O => Paused s sv c log
      | S ticks =>
        if decide (k_critical s = 0) then run fuel ticks sv log c (tick s) else Masked log
      end
    end
  end.

(** More fuel does not change a run that has ended. *)
Lemma run_more_fuel fuel extra ticks sv log c o :
  (forall log', run fuel ticks sv log c o <> Faulted NoFuel log') ->
  run (fuel + extra) ticks sv log c o = run fuel ticks sv log c o.
Proof using Type.
  revert ticks sv log c o. induction fuel as [|fuel IH]; intros ticks sv log c o Hf; [by destruct (Hf log)|].
  cbn [run Nat.add] in *. destruct o as [u s|f|s k]; [|done|].
  - destruct ticks; [done|]. case_decide; [by apply IH|done].
  - destruct (n ← k_curr s; _) as [[n o]|]; [by apply IH|done].
Qed.

(** A run of [a + b] ticks is one of [a] ticks, continued for [b] more. *)
Lemma run_continues fuel a b sv log c o s sv' c' log' :
  run fuel a sv log c o = Paused s sv' c' log' ->
  forall more, exists fuel', (fuel' <= fuel)%nat /\
    run (fuel + more) (a + b) sv log c o = run (S fuel' + more) b sv' log' c' (Done tt s).
Proof using Type.
  intros E more. revert a sv log c o E. induction fuel as [|fuel IH]; intros a sv log c o E; [done|].
  cbn [run Nat.add] in E |- *. destruct o as [u s0|f|s0 k]; [|done|].
  - destruct a as [|a]; cbn [Nat.add].
    + injection E as <- <- <- <-. exists fuel. split; [lia|]. by destruct u.
    + case_decide; [|done]. destruct (IH a _ _ _ _ E) as (f' & ? & ->). exists f'. split; [lia|done].
  - destruct (n ← k_curr s0; _) as [[n o]|]; [|done].
    destruct (IH a _ _ _ _ E) as (f' & ? & ->). exists f'. split; [lia|done].
Qed.

End Run.

(** ** The system *)

(** An application: what it does when the kernel has started, the code of its tasks by
    their entry points, and the functions of its timers and tasklets. *)
Record application := mk_application {
  app_init : M unit;
  app_code : Z -> M unit;
  app_timer : positive -> ptr -> M unit;
  app_tasklet : Z -> Z -> M unit;
}.

(** Addresses.  The control blocks are 1 for the code that starts the kernel, 2 to 6 for
    the threads of the kernel and 7 to 10 for the tasks of the application; a system thread
    has its control block's number as its entry point.  The buffer of the event queue is at
    2000, and the memory behind it is mapped as well. *)
Definition event_q : positive := 1.
Definition timer_events : positive := 1.
Definition event_q_start : Z := 2000.
Definition shm_segment : Z := 2500.
Definition event_of_irq : Z := 3000.
Definition event_of_thread : Z := 3008.
Definition app_global : Z := 3100.

(** The rounds of the endless loops of the kernel's threads, more than a run needs. *)
Definition rounds : nat := 4000.

(** The signal with the number of the timer interrupt, [RX_TIMER0_INT]. *)
Definition tick_signal : M unit :=
  sig_handler (fun _ _ _ => ret RX_IRQ_HANDLED) event_q timer_events event_of_irq
    (Some 52%positive) RX_TIMER0_INT 0.

Section Kernel.
  Context (app : application).

Definition system_code (entry : Z) : M unit :=
  match entry with
  | 2 => rx_timer_thread (app_timer app) timer_events rounds 20
  | 3 => rx_event_thread event_q event_q_start rounds event_of_thread (Some 51%positive)
  | 4 => rx_bh_thread (app_tasklet app) rounds rounds (Some 1%positive)
  | 5 => rx_logger_thread x86_sim_open x86_sim_write rounds rounds (Some 2%positive)
  | 6 => rx_terminal_thread rounds
  | _ => app_code app entry
  end.

Definition the_host : host := mk_host 77 5 shm_segment 0 100000 300000.

Definition power_on : M unit :=
  let! _ := main the_host
    (__rx_kernel_enter 1 7 (boot_thread 2) (boot_thread 3) (boot_thread 4) (boot_thread 5) (boot_thread 6)
       (app_init app)) in
  ret tt.

End Kernel.

Definition stores {A} (a : A) (l : list positive) : gmap positive A := list_to_map ((fun i => (i, a)) <$> l).

(** Zeroed memory with the tables of the source; the mutex, the semaphore and the block
    pool 1 and the wait queue 3 are the application's, all but the pool defined with the
    values of [RX_DEFINE_MUTEX], [DEFINE_SEMAPHORE(s, 1)] and [RX_DEFINE_WAITQUEUE]. *)
Definition boot_memory : kst :=
  mk_kst (stores tcb0 [1; 2; 3; 4; 5; 6; 7; 8; 9; 10]%positive)
    (stores timer0 [8; 9; 10; 18; 19; 20; 51; 52]%positive)
    {[ 1%positive := mk_mutex RX_MUTEX_UNLOCKED None None None ]}
    {[ 1%positive := mk_sem 1 1 None None ]}
    {[ timer_events := mk_eg None None ]}
    (stores (mk_wq None None None) [1; 2; 3]%positive)
    {[ event_q := mk_mq [] 0 0 0 0 0 0 None None ]}
    {[ 1%positive := mk_bp 0 [] 0 0 0 0 CNull None ]} ∅ ∅
    (list_to_map ((fun a => (a, 0)) <$>
       seqZ event_q_start 80 ++ seqZ shm_segment 8 ++ seqZ event_of_irq 16 ++ seqZ app_global 8))
    None None None 0 0 0 0 0 None None None 0 0
    (list_to_map ((fun i => (Z.of_nat i, irq0)) <$> seq 0 9))
    0 [mk_device simx86 None 0 0] (replicate CONFIG_MAX_DEVICE_DESC (mk_devfile None 0)) 0 0 0.

(** The run of an application for a number of ticks; [data] initialises what else it has in
    static memory. *)
Definition simulate {A} (app : application) (data : kst -> kst) (obs : kst -> A) (ticks : nat) : result A :=
  run (system_code app) tick_signal obs rounds ticks ∅ [] 1 (power_on app (data boot_memory)).
