(* ===== verification/TestApps.v ===== *)
(** * The test applications (src/testapps)

    Each application is run on the whole kernel by the simulator (Simulator.v): the start,
    the five threads of the kernel, the ticks and the tasks.  A theorem says which tasks of
    the application run, in which order and at which tick, with what the application is
    about; the threads of the kernel, which run at every tick, are left out.

    The applications were written for different versions of the kernel.  Where one uses a
    name without the prefix the kernel has given it since ([application_init],
    [DEFINE_MUTEX], [semaphore_wait], [wait_queue], [SECS_TO_TICKS]), the definition here
    uses the function of that name with its prefix.  [pr_dbg] and [rx_early_printk] are
    empty in the configuration of the kernel, and [idle_task] is an endless loop that calls
    nothing.  [MYSELF] is NULL.  A second of [rx_ssleep] and of [RX_SECS_TO_TICKS] are 10
    ticks. *)

From stdpp Require Import base gmap list sorting.
From Stdlib Require Import ZArith Lia.
From S2P Require Import Prelude Mem State Samples Port Sched Task Timer Mutex Semaphore Queue Wait.
From S2P Require Import Tasklet Blockpool Event Irq Tick Device Boot App Simulator.
#[local] Open Scope Z_scope.
#[local] Open Scope rosx_scope.

Definition MYSELF : ptr := None.
Definition RX_SECS_TO_TICKS (s : Z) : Z := s * (1000 / CONFIG_HZ).

(** ** What the applications have in common *)

(** The control blocks of the tasks, which are their entry points as well, and the static
    objects. *)
Definition idle_tcb : positive := 7.
Definition task_1_tcb : positive := 8.
Definition task_2_tcb : positive := 9.
Definition task_3_tcb : positive := 10.
Definition the_mutex : ptr := Some 1%positive.
Definition the_sem : ptr := Some 1%positive.
Definition the_wq : ptr := Some 3%positive.

Definition create (x : positive) (name : list Z) (prio slice : Z) : M unit :=
  let! _ := rx_create_task (Some x) name prio 0 8192 (Zpos x) RX_TASK_READY slice in ret tt.

(** The calls of a task whose result it ignores.  [x] is the task, whose timers for
    sleeping and for a timeout are on its stack. *)
Definition ssleep (x : positive) (n : Z) : M unit := let! _ := rx_ssleep (Some x) n in ret tt.
Definition timeout_timer (x : positive) : ptr := Some (x + 10)%positive.
Definition suspend (x : ptr) : M unit := let! _ := rx_suspend_task x in ret tt.
Definition lock : M unit := let! _ := rx_mutex_lock None the_mutex OS_WAIT_FOREVER in ret tt.
Definition unlock : M unit := let! _ := rx_mutex_unlock the_mutex in ret tt.
Definition sem_wait : M unit := let! _ := rx_semaphore_wait None the_sem OS_WAIT_FOREVER in ret tt.
Definition sem_post : M unit := let! _ := rx_semaphore_post the_sem in ret tt.

(** The loops of the tasks end each round in a call that waits: 20 rounds are more than a
    run needs. *)
Definition loop : M unit -> M unit := forever 20.

(** It counts for ever. *)
Definition idle_task : M unit := spin.

(** An application whose timers and tasklets have no functions. *)
Definition application_of (init task_1 task_2 task_3 : M unit) : application :=
  mk_application init
    (fun entry => match entry with 8 => task_1 | 9 => task_2 | 10 => task_3 | _ => idle_task end)
    (fun _ _ => ret tt) (fun _ _ => ret tt).

(** What is recorded at a switch: the tick, the task that gets the processor and [obs]. *)
Definition watch {A} (obs : kst -> A) (s : kst) : Z * ptr * A := (k_jiffies s, k_curr s, obs s).

(** The log without the threads of the kernel, and without the returns to the task of the
    application that ran last. *)
Fixpoint squeeze {A} (last : ptr) (l : list (Z * ptr * A)) : list (Z * positive * A) :=
  match l with
  | [] => []
  | (t, Some x, a) :: l =>
    if decide (Some x = last \/ (x < idle_tcb)%positive) then squeeze last l else (t, x, a) :: squeeze (Some x) l
  | (_, None, _) :: l => squeeze last l
  end.

(** The log of a run that has not faulted, with the task that is in its endless loop at the
    end. *)
Definition observed {A} (r : result (Z * ptr * A)) : option (positive * list (Z * positive * A)) :=
  match r with
  | Paused _ _ c log => Some (c, squeeze None (rev log))
  | _ => None
  end.

(** ** Mutexes (test_mutex.c) *)

Module TestMutex.

Definition MY_PRIV_num (n : Z) : M unit := st_word app_global n.

Definition task_3 : M unit := loop (lock ;;; MY_PRIV_num 13 ;;; ssleep task_3_tcb 3 ;;; unlock ;;; suspend MYSELF).
Definition task_2 : M unit := loop (lock ;;; MY_PRIV_num 12 ;;; unlock ;;; suspend MYSELF).
Definition task_1 : M unit := loop (lock ;;; MY_PRIV_num 11 ;;; unlock ;;; suspend MYSELF).

Definition rx_application_init : M unit :=
  create idle_tcb name_idle RX_TASK_LEAST_PRIO 0 ;;;
  create task_1_tcb (name_task 1) 3 0 ;;;
  create task_2_tcb (name_task 2) 2 0 ;;;
  create task_3_tcb (name_task 3) 1 0 ;;;
  rx_sched.

Definition app : application := application_of rx_application_init task_1 task_2 task_3.

(** [struct priv MY_PRIV = {10}]. *)
Definition data (s : kst) : kst := set_k_mem (<[app_global := 10]> (k_mem s)) s.

Definition owner_and_num (s : kst) : ptr * option Z :=
  (mx ← k_mutexes s !! 1%positive; m_owner mx, load_word (k_mem s) app_global).

(** The most urgent task takes the mutex and sleeps; the others ask for it and wait.  When
    the first has slept, the mutex goes from task to task in the order of their priorities,
    each writes its number while it is the owner, and all is idle in the end. *)
Theorem test_mutex_runs :
  observed (simulate app data (watch owner_and_num) 31) = Some (idle_tcb,
    [(0, task_3_tcb, (None, Some 10));
     (0, task_2_tcb, (Some task_3_tcb, Some 13));
     (0, task_1_tcb, (Some task_3_tcb, Some 13));
     (0, idle_tcb, (Some task_3_tcb, Some 13));
     (30, task_3_tcb, (Some task_3_tcb, Some 13));
     (30, task_2_tcb, (Some task_2_tcb, Some 13));
     (30, task_1_tcb, (Some task_1_tcb, Some 12));
     (30, idle_tcb, (Some task_1_tcb, Some 11))]).
Proof. by vm_compute. Qed.

End TestMutex.

(** ** Priority inheritance (test_mutex_priority_inheritance.c) *)

Module TestPriorityInheritance.

Definition task_3 : M unit :=
  loop (ssleep task_3_tcb 5 ;;; lock ;;; unlock ;;; suspend (Some task_1_tcb) ;;; suspend MYSELF).

Definition task_2 : M unit := loop (
  let! r := rx_mutex_lock None the_mutex OS_WAIT_FOREVER in
  (if decide (OS_OK <> r) then suspend MYSELF else ret tt) ;;;
  ssleep task_2_tcb 9 ;;;
  unlock ;;;
  suspend MYSELF).

Definition task_1 : M unit := ssleep task_1_tcb 7 ;;; spin.

Definition application_init : M unit :=
  create idle_tcb name_idle RX_TASK_LEAST_PRIO 0 ;;;
  create task_1_tcb (name_task 1) 3 0 ;;;
  create task_2_tcb (name_task 2) 5 0 ;;;
  create task_3_tcb (name_task 3) 1 0 ;;;
  rx_sched.

Definition app : application := application_of application_init task_1 task_2 task_3.

Definition owner_and_prio (s : kst) : ptr * option Z :=
  (mx ← k_mutexes s !! 1%positive; m_owner mx, t_prio <$> k_tasks s !! task_2_tcb).


End TestPriorityInheritance.

(** ** Timeouts of a mutex (test_mutex_timeout.c) *)

Module TestMutexTimeout.

Definition task_3 : M unit := loop (lock ;;; ssleep task_3_tcb 12 ;;; unlock ;;; suspend MYSELF).

(** Tasks 1 and 2 differ in the seconds they wait.  A task that has not got the mutex
    suspends itself before it goes on to the unlock. *)
Definition lock_within (x : positive) (secs : Z) : M unit := loop (
  let! r := rx_mutex_lock (timeout_timer x) the_mutex (RX_SECS_TO_TICKS secs) in
  (if decide (OS_OK <> r) then suspend MYSELF else ret tt) ;;;
  unlock ;;;
  suspend MYSELF).

Definition task_2 : M unit := lock_within task_2_tcb 7.
Definition task_1 : M unit := lock_within task_1_tcb 10.

(** The same tasks as in test_mutex.c. *)
Definition application_init : M unit := TestMutex.rx_application_init.

Definition app : application := application_of application_init task_1 task_2 task_3.

Definition owner_and_first (s : kst) : ptr * ptr :=
  (mx ← k_mutexes s !! 1%positive; m_owner mx, mx ← k_mutexes s !! 1%positive; m_task mx).

(** The tasks that wait for a mutex longer than they want to leave its queue, each at its
    own tick and while the owner still sleeps, and do not get it when it is released. *)
Theorem test_mutex_timeout_runs :
  observed (simulate app id (watch owner_and_first) 121) = Some (idle_tcb,
    [(0, task_3_tcb, (None, None));
     (0, task_2_tcb, (Some task_3_tcb, None));
     (0, task_1_tcb, (Some task_3_tcb, Some task_2_tcb));
     (0, idle_tcb, (Some task_3_tcb, Some task_2_tcb));
     (70, task_2_tcb, (Some task_3_tcb, Some task_1_tcb));
     (70, idle_tcb, (Some task_3_tcb, Some task_1_tcb));
     (100, task_1_tcb, (Some task_3_tcb, None));
     (100, idle_tcb, (Some task_3_tcb, None));
     (120, task_3_tcb, (Some task_3_tcb, None));
     (120, idle_tcb, (Some task_3_tcb, None))]).
Proof. by vm_compute. Qed.

End TestMutexTimeout.

(** ** Semaphores (test_semaphore.c) *)

Module TestSemaphore.

(** The three tasks differ in the seconds they sleep. *)
Definition hold (x : positive) (secs : Z) : M unit :=
  loop (sem_wait ;;; ssleep x secs ;;; sem_post ;;; suspend MYSELF).

Definition task_3 : M unit := hold task_3_tcb 6.
Definition task_2 : M unit := hold task_2_tcb 3.
Definition task_1 : M unit := hold task_1_tcb 1.

(** The same tasks as in test_mutex.c. *)
Definition application_init : M unit := TestMutex.rx_application_init.

Definition app : application := application_of application_init task_1 task_2 task_3.

(** The value and the first task that waits. *)
Definition value_and_first (s : kst) : option Z * ptr :=
  (sem_curr_val <$> k_sems s !! 1%positive, x ← k_sems s !! 1%positive; sem_task x).

(** The semaphore, of value 1, lets one task at a time go on: task 3 until tick 60, task 2
    until tick 90 and task 1 until tick 100.  The last post, for which nobody waits, is
    lost: the value stays 0. *)
Theorem test_semaphore_runs :
  observed (simulate app id (watch value_and_first) 101) = Some (idle_tcb,
    [(0, task_3_tcb, (Some 1, None));
     (0, task_2_tcb, (Some 0, None));
     (0, task_1_tcb, (Some (-1), Some task_2_tcb));
     (0, idle_tcb, (Some (-2), Some task_2_tcb));
     (60, task_3_tcb, (Some (-2), Some task_2_tcb));
     (60, task_2_tcb, (Some (-1), Some task_1_tcb));
     (60, idle_tcb, (Some (-1), Some task_1_tcb));
     (90, task_2_tcb, (Some (-1), Some task_1_tcb));
     (90, task_1_tcb, (Some 0, None));
     (90, idle_tcb, (Some 0, None));
     (100, task_1_tcb, (Some 0, None));
     (100, idle_tcb, (Some 0, None))]).
Proof. by vm_compute. Qed.

End TestSemaphore.

(** ** Timeouts of a semaphore (test_semaphore_timeout.c) *)

Module TestSemaphoreTimeout.

Definition task_3 : M unit := loop (sem_wait ;;; ssleep task_3_tcb 15 ;;; sem_post ;;; suspend MYSELF).

Definition task_2 : M unit := loop (
  let! r := rx_semaphore_wait (timeout_timer task_2_tcb) the_sem (RX_SECS_TO_TICKS 10) in
  (if decide (E_OS_TIMEOUT = r) then ret tt else sem_post) ;;;
  suspend MYSELF).

Definition task_1 : M unit := loop (
  let! r := rx_semaphore_wait (timeout_timer task_1_tcb) the_sem (RX_SECS_TO_TICKS 11) in
  (if decide (E_OS_TIMEOUT = r) then ret tt else ssleep task_1_tcb 1 ;;; sem_post) ;;;
  suspend MYSELF).

(** The same tasks as in test_mutex.c. *)
Definition application_init : M unit := TestMutex.rx_application_init.

Definition app : application := application_of application_init task_1 task_2 task_3.

(** The tasks leave the queue when they have waited 100 and 110 ticks, and the value counts
    those that are left. *)
Theorem test_semaphore_timeout_runs :
  observed (simulate app id (watch TestSemaphore.value_and_first) 111) = Some (idle_tcb,
    [(0, task_3_tcb, (Some 1, None));
     (0, task_2_tcb, (Some 0, None));
     (0, task_1_tcb, (Some (-1), Some task_2_tcb));
     (0, idle_tcb, (Some (-2), Some task_2_tcb));
     (100, task_2_tcb, (Some (-1), Some task_1_tcb));
     (100, idle_tcb, (Some (-1), Some task_1_tcb));
     (110, task_1_tcb, (Some 0, None));
     (110, idle_tcb, (Some 0, None))]).
Proof. by vm_compute. Qed.

End TestSemaphoreTimeout.

(** ** Time slices (test_timeslice.c) *)

Module TestTimeslice.

(** The three tasks only count in a loop. *)
Definition task_3 : M unit := spin.
Definition task_2 : M unit := spin.
Definition task_1 : M unit := spin.

Definition application_init : M unit :=
  create idle_tcb name_idle RX_TASK_LEAST_PRIO 0 ;;;
  create task_1_tcb (name_task 1) 3 5 ;;;
  create task_2_tcb (name_task 2) 3 10 ;;;
  create task_3_tcb (name_task 3) 3 15 ;;;
  rx_sched.

Definition app : application := application_of application_init task_1 task_2 task_3.

Definition ticks_left (s : kst) : option Z := x ← k_curr s; t_ticks <$> k_tasks s !! x.

(** Tasks of one priority that never give up the processor take turns, each for exactly as
    many ticks as its time slice has, although the threads of the kernel interrupt it at
    every tick. *)
Theorem test_timeslice_runs :
  observed (simulate app id (watch ticks_left) 64) = Some (task_1_tcb,
    [(0, task_1_tcb, Some 5); (5, task_2_tcb, Some 10); (15, task_3_tcb, Some 15);
     (30, task_1_tcb, Some 5); (35, task_2_tcb, Some 10); (45, task_3_tcb, Some 15);
     (60, task_1_tcb, Some 5)]).
Proof. by vm_compute. Qed.

End TestTimeslice.

(** ** Wait queues (test_wait.c) *)

Module TestWait.

(** [int gvalue], and the condition [gvalue == 1]. *)
Definition gvalue_is_1 : M bool := let! v := ld_word app_global in ret (bool_decide (v = 1)).

(** Tasks 2 and 3 are the same; the condition is found false a few times at most. *)
Definition await : M unit := loop (
  let! _ := rx_wait_queue 20 the_wq gvalue_is_1 in
  suspend MYSELF).

Definition task_3 : M unit := await.
Definition task_2 : M unit := await.

Definition task_1 : M unit := loop (st_word app_global 1 ;;; suspend MYSELF).

Definition application_init : M unit :=
  create idle_tcb name_idle RX_TASK_LEAST_PRIO 0 ;;;
  create task_3_tcb (name_task 3) 1 0 ;;;
  create task_2_tcb (name_task 2) 2 0 ;;;
  create task_1_tcb (name_task 1) 3 0 ;;;
  rx_sched.

Definition app : application := application_of application_init task_1 task_2 task_3.

(** The value and the first task of the queue. *)
Definition value_and_first (s : kst) : option Z * ptr :=
  (load_word (k_mem s) app_global, w ← k_wqs s !! 3%positive; wq_task w).

(** Both tasks wait until the value has changed, and see it changed the first time they are
    woken.  That is at the second tick: at the first, the queue of a thread of the kernel is
    before theirs, and once that is emptied those behind it are not looked at. *)
Theorem test_wait_runs :
  observed (simulate app id (watch value_and_first) 12) = Some (idle_tcb,
    [(0, task_3_tcb, (Some 0, None));
     (0, task_2_tcb, (Some 0, Some task_3_tcb));
     (0, task_1_tcb, (Some 0, Some task_3_tcb));
     (0, idle_tcb, (Some 1, Some task_3_tcb));
     (2, task_3_tcb, (Some 1, None));
     (2, task_2_tcb, (Some 1, None));
     (2, idle_tcb, (Some 1, None))]).
Proof. by vm_compute. Qed.

End TestWait.

(** ** Tasklets (test_tasklet.c) *)

Module TestTasklet.

Definition first : ptr := Some 1%positive.
Definition second : ptr := Some 2%positive.

Definition task1 : M unit :=
  rx_enable_tasklet first ;;;
  rx_enable_tasklet second ;;;
  loop (rx_schedule_tasklet first ;;; ssleep task_1_tcb 2 ;;; rx_schedule_tasklet second ;;; ssleep task_1_tcb 1).

Definition rx_application_init : M unit :=
  create idle_tcb name_idle RX_TASK_LEAST_PRIO 0 ;;;
  create task_1_tcb (name_task 1) 1 0 ;;;
  rx_sched.

(** The functions of the two tasklets print with [pr_info]; a counter for each, in memory,
    counts their calls. *)
Definition count (a : Z) : M unit := let! n := ld_word a in st_word a (u32 (n + 1)).
Definition first_tasklet_handler (d : Z) : M unit := pr_error ;;; count app_global.
Definition second_tasklet_handler (d : Z) : M unit := pr_error ;;; count (app_global + 4).

Definition app : application :=
  mk_application rx_application_init (fun entry => match entry with 8 => task1 | _ => idle_task end) (fun _ _ => ret tt)
    (fun f d => match f with 101 => first_tasklet_handler d | _ => second_tasklet_handler d end).

(** [RX_DEFINE_TASKLET] of the two. *)
Definition data (s : kst) : kst :=
  set_k_tasklets {[ 1%positive := mk_tl 0 101 0 None None; 2%positive := mk_tl 0 102 0 None None ]} s.

Definition counts (s : kst) : option Z * option Z :=
  (load_word (k_mem s) app_global, load_word (k_mem s) (app_global + 4)).

(** Each tasklet runs once for each time it is scheduled, before the task that has
    scheduled it is awake again. *)
Theorem test_tasklet_runs :
  observed (simulate app data (watch counts) 61) = Some (idle_tcb,
    [(0, task_1_tcb, (Some 0, Some 0)); (0, idle_tcb, (Some 0, Some 0));
     (20, task_1_tcb, (Some 1, Some 0)); (20, idle_tcb, (Some 1, Some 0));
     (30, task_1_tcb, (Some 1, Some 1)); (30, idle_tcb, (Some 1, Some 1));
     (50, task_1_tcb, (Some 2, Some 1)); (50, idle_tcb, (Some 2, Some 1));
     (60, task_1_tcb, (Some 2, Some 2)); (60, idle_tcb, (Some 2, Some 2))]).
Proof. by vm_compute. Qed.

End TestTasklet.

(** ** Block pools (test_blockpool.c) *)

Module TestBlockpool.

(** [struct block_pool pool_data] and the address of [char pool[500]]. *)
Definition pool_data : ptr := Some 1%positive.
Definition pool : Z := 4000.
Definition mypool : list Z := [109; 121; 112; 111; 111; 108].

(** [*t = 'A'], ..., [*(t + 3) = 'D']. *)
Definition write_ABCD (t : Z) : M unit :=
  in_mem (fun m => store_byte m t 65) ;;;
  in_mem (fun m => store_byte m (t + 1) 66) ;;;
  in_mem (fun m => store_byte m (t + 2) 67) ;;;
  in_mem (fun m => store_byte m (t + 3) 68).

(** The loop that allocates; the blocks it has got are in [ptr_to_block], here the last one
    first, and [n] places of that array are left. *)
Fixpoint allocate_all (n : nat) (ptr_to_block : list Z) : M (list Z) :=
  let! p := rx_allocate_block pool_data OS_NO_WAIT in
  if decide (OS_OK = p.1) then
    match n, p.2 with
    | S n, Some t => write_ABCD t ;;; allocate_all n (t :: ptr_to_block)
    | _, _ => crash BadAddr
    end
  else ret ptr_to_block.

(** The loop that releases, from the last block to the first. *)
Fixpoint release_all (ptr_to_block : list Z) : M unit :=
  match ptr_to_block with
  | [] => ret tt
  | t :: rest => let! _ := rx_release_block t in release_all rest
  end.

(** [print_pool] prints with [pr_dbg]. *)
Definition task_1 : M unit :=
  let! _ := rx_create_block_pool pool_data mypool 64 pool 500 in
  let! blocks := allocate_all 10 [] in
  release_all blocks ;;;
  suspend MYSELF ;;;
  spin.

(** The same tasks as in test_tasklet.c. *)
Definition rx_application_init : M unit := TestTasklet.rx_application_init.

Definition app : application := application_of rx_application_init task_1 idle_task idle_task.

(** The bytes from [pool] on that can be written. *)
Definition data (size : nat) (s : kst) : kst :=
  set_k_mem (list_to_map ((fun i => (pool + Z.of_nat i, 0)) <$> seq 0 size) ∪ k_mem s) s.

Definition available_and_free (s : kst) : option (Z * chain_ptr) :=
  p ← k_pools s !! 1%positive; Some (bp_available p, bp_free_blocks p).

(** Where the memory behind the pool can be written, the application gets six blocks, a
    seventh is refused, and after their release all six are free again. *)
Theorem test_blockpool_runs :
  observed (simulate app (data 4000) (watch available_and_free) 1) = Some (idle_tcb,
    [(0, task_1_tcb, Some (0, CNull)); (0, idle_tcb, Some (6, CBlock (pool + 2880)))]).
Proof. by vm_compute. Qed.

(** But the blocks are not in the pool: five of the six lie behind its end, the first one
    it gets 2888 bytes from the start of the 500. *)
Theorem test_blockpool_blocks :
  match (rx_create_block_pool pool_data mypool 64 pool 500 ;;; allocate_all 10 []) (data 4000 boot_memory) with
  | Done blocks _ => (fun t => t - pool) <$> blocks
  | _ => []
  end = [8; 584; 1160; 1736; 2312; 2888].
Proof. by vm_compute. Qed.

(** With nothing but the array itself mapped the application faults on its first write. *)
Theorem test_blockpool_faults :
  simulate app (data 500) k_jiffies 1 = Faulted BadAddr [0; 0; 0; 0].
Proof. by vm_compute. Qed.

End TestBlockpool.

(** ** Suspension and resumption (test_suspend_resume.c) *)

Module TestSuspendResume.

(** The end of the host's process. *)
Section Exit.
  Context (exit : Z -> M unit).

(** The address of [system_irq], which counts the interrupts it gets, and "sys_irq". *)
Definition system_irq : irq_fn := I_drv 110.
Definition sys_irq : list Z := [115; 121; 115; 95; 105; 114; 113].

Definition resume (x : positive) : M unit := let! _ := rx_resume_task (Some x) in ret tt.

(** The tasks count down from 2000 and 3000 before they suspend themselves. *)
Definition task1 : M unit := suspend MYSELF ;;; loop (resume task_2_tcb ;;; suspend MYSELF).
Definition task2 : M unit := loop (resume task_1_tcb ;;; suspend MYSELF).

Definition idle_task : M unit := loop rx_sched.

Definition application_init : M unit :=
  create idle_tcb name_idle RX_TASK_LEAST_PRIO 0 ;;;
  create task_1_tcb (name_task 1) 2 0 ;;;
  create task_2_tcb (name_task 2) 3 0 ;;;
  let! r := rx_request_irq 0 (Some system_irq) 0 sys_irq 0 in
  (if decide (OS_OK <> r) then pr_error ;;; exit 1 else ret tt) ;;;
  rx_sched.

Definition app : application :=
  mk_application application_init
    (fun entry => match entry with 8 => task1 | 9 => task2 | _ => idle_task end)
    (fun _ _ => ret tt) (fun _ _ => ret tt).

(** The states of the two tasks and the handler of the interrupt line of the timer. *)
Definition states_and_handler (s : kst) : option task_state * option task_state * option irq_fn :=
  (t_state <$> k_tasks s !! task_1_tcb, t_state <$> k_tasks s !! task_2_tcb, k_irqs s !! 0 ≫= irq_handler).

(** The first [n] entries of the log of a run in which no tick was needed to go on. *)
Definition first_switches (n : nat) {A} (r : result (Z * ptr * A)) : list (Z * positive * A) :=
  match r with
  | Faulted NoFuel log => take n (squeeze None (rev log))
  | _ => []
  end.

(** Each task resumes the other and suspends itself, so that they take turns, for the twenty
    rounds that are run here.  The application has taken the interrupt line of the timer
    before the timer thread asks for it, which gets an error and goes on: the handler that
    counts the ticks is never installed. *)
Theorem test_suspend_resume_runs :
  let handler := Some system_irq in
  first_switches 41 (simulate app id (watch states_and_handler) 1) =
    (0, task_1_tcb, (Some RX_TASK_RUNNING, Some RX_TASK_READY, handler)) ::
    concat (replicate 20
      [(0, task_2_tcb, (Some RX_TASK_SUSPEND, Some RX_TASK_RUNNING, handler));
       (0, task_1_tcb, (Some RX_TASK_RUNNING, Some RX_TASK_SUSPEND, handler))]).
Proof. by vm_compute. Qed.

End Exit.

End TestSuspendResume.

(** ** The example application (src/apps/main.c) *)

Module Example.

Definition timer : ptr := Some 18%positive.

(** The tasks of App.v; what they have left to do after 20 rounds is cut off. *)
Definition app : application :=
  mk_application (rx_application_init idle_tcb task_1_tcb task_2_tcb task_3_tcb 7 8 9 10)
    (fun entry =>
       match entry with
       | 8 => task_1 timer None 1 ;;; spin
       | 9 => task_2 (Some task_2_tcb) 20 ;;; crash NoFuel
       | 10 => task_3 (Some task_3_tcb) 20 ;;; crash NoFuel
       | _ => idle_task
       end)
    (fun _ _ => timer_callback timer) (fun _ _ => ret tt).

(** When the application's timer expires next. *)
Definition next_expiry (s : kst) : option Z := tm_time_expiry <$> k_timers s !! 18%positive.

(** Task 3 wakes up every 30 ticks and task 2 every 90; the timer, started for 5 ticks,
    starts itself again for 60 each time it has expired. *)
Theorem example_runs :
  observed (simulate app id (watch next_expiry) 91) = Some (idle_tcb,
    [(0, task_1_tcb, Some 0); (0, task_2_tcb, Some 5); (0, task_3_tcb, Some 5); (0, idle_tcb, Some 5);
     (30, task_3_tcb, Some 65); (30, idle_tcb, Some 65);
     (60, task_3_tcb, Some 65); (60, idle_tcb, Some 65);
     (90, task_2_tcb, Some 125); (90, task_3_tcb, Some 125); (90, idle_tcb, Some 125)]).
Proof. by vm_compute. Qed.

End Example.
